(* ===== verification/_CoqProject ===== *)
-Q . S2P
Prelude.v
Errors.v
GoTime.v
Floats.v
Durations.v
Base64.v
Json.v
Domain.v
Messages.v
World.v
Interleaving.v
Postgres.v
PostgresInv.v
PostgresSpec.v
Scylla.v
Queue.v
Limiter.v
CampaignService.v
CallService.v
CallLists.v
Raises.v
Requests.v
Handlers.v
Scheduler.v
CallWorker.v
StatusWorker.v
RetryWorker.v
Effects.v
Integrity.v
ApiProofs.v
ApiEcho.v
ApiCreate.v
WorkerProofs.v
Config.v
Container.v
System.v
Validity.v
SchedulerProofs.v
Pipeline.v
Protocol.v
Life.v
Races.v
Listing.v
Dialout.v
Replicas.v
Processes.v
Settle.v
Outcome.v
Progress.v
Bootstrap.v
