(* ===== verification/Prelude.v ===== *)
(** * Outbound Voice Campaign: a verification development

    The repository is a Go platform that dials the phone numbers of campaigns. An
    HTTP API (internal/api) calls the campaign service (internal/service/campaign)
    and the call service (internal/service/call); a scheduler (internal/scheduler)
    feeds the pending targets of running campaigns to the call service; calls
    travel as JSON records over Kafka (internal/queue) to a call worker, whose
    reports go to a status worker, which may send a call to a retry worker, which
    dispatches it again (internal/worker/{call,status,retry}). A limiter in Redis
    (internal/service/concurrency) bounds the calls of a campaign in flight.
    Campaigns, targets and counters live in PostgreSQL
    (internal/repository/postgres), call records in ScyllaDB
    (internal/repository/scylla), and internal/app/container.go wires it together.

    ** Files, in dependency order

    - Prelude: scopes, 64-bit integers ([wrap64]), binary64 floats (SpecFloat),
      results, sorting, shared tactics.
    - Errors: pkg/errors/errors.go and fmt.Errorf's wrapping; errors.Is.
    - GoTime: durations, instants, wall clocks, the layout "15:04" (package time).
      Floats: what the rounding of binary64 leaves exact. Durations: the text of a
      duration, printed and parsed, and strconv.Atoi.
    - Base64: encoding/base64 both ways (internal/service/common/base64.go).
    - Json: encoding/json as the program uses it: trees, struct fields with their
      tags, embedding, omitempty and the rule for colliding names.
    - Domain: internal/domain/campaign.go, internal/repository/interfaces.go.
    - Messages: internal/queue/messages.go; what survives the wire.
    - World: the stores, the oracle, the monad of programs that make requests
      (below). Interleaving: what such programs do when they run at once, and how
      to prove an invariant of them all (below).
    - Postgres: the repositories of internal/repository/postgres and tx.go, each
      SQL statement a function on tables with the constraints of
      db/migrations/postgres/0001_init.sql. PostgresInv: those constraints as an
      invariant ([pg_ok]) that every statement preserves. PostgresSpec: what the
      repositories promise (transactions, business hours, batches, numbers).
    - Scylla: internal/repository/scylla/call_store.go.
    - Queue: call_dispatcher.go, status_publisher.go, retry_scheduler.go, and the
      writers kafka.go makes, which repeat a write that failed.
    - Limiter: internal/service/concurrency/limiter.go with its two Lua scripts,
      and a transition system of concurrent holders refined to a semaphore.
    - CampaignService, CallService: the two services of internal/service.
      CallLists: the lists of calls by page, from the driver to the page token.
    - Raises: which errors an operation may return.
    - Requests: the documents of the HTTP API and their translation to service
      inputs. Handlers: every handler of internal/api/handlers, the routes, the
      translation of errors and the error handler.
    - Scheduler: internal/scheduler/scheduler.go.
    - CallWorker (with internal/telephony), StatusWorker, RetryWorker:
      internal/worker, the body of each loop.
    - Effects: for each operation, which kinds of write it may make, as type
      classes over relations on worlds; the interface the invariants are proved
      against. Integrity: its instances for the schema's constraints.
    - ApiProofs, ApiEcho, ApiCreate: what the HTTP API answers, what a GET shows of
      a campaign after a POST, and what a PUT of it changes. WorkerProofs: what the
      workers do with a message.
    - Config: internal/config/config.go. Container: initComponents of
      internal/app/container.go.
    - System: every API request, tick and handler running at once, over the shared
      stores; invariants of reachable states. Validity: what holds of every stored
      campaign. SchedulerProofs: what a tick does. Pipeline: what is true of every
      message of every reachable state. Protocol: the life of a call as a protocol
      over messages alone, written out field by field, without the functions of the
      code. Life: the platform's refinement of it. Races: how a change that
      overlaps another undoes it. Listing: reading the list of campaigns by pages,
      alone and among others. Dialout: what the ticks of a scheduler add up to.
      Replicas: two schedulers at once.
    - Processes: the endless loops around the handlers, the processes of a
      deployment that are started, return and are killed, and their refinement to
      the system. Settle: what the workers do, between them, with the records that
      wait on the topics, taken in any order. Outcome: the ticks and the turns of the
      workers together, from pending targets to calls that have ended. Progress:
      what else is bound to happen, and what is bound to be lost.
    - Bootstrap: how a process starts and stops: internal/infra, kafka.go, Build,
      Close and EnsureTopics, telemetry.Setup, logger.New, internal/api/server.go
      and the mains of cmd, over a trace of what is opened and closed.

    ** How the code is modelled

    A Go method that talks to a store is a program of the monad [M] of World: the
    tree of the requests it makes, each a function on the [World], which holds
    every table, the Redis keys, the Kafka log and the commits, with what it goes
    on to do for each reply. Each request to a store is one [external] node; a
    transaction ([withTx]) is one request too, since others see all or nothing of
    it. [run] lets a program run alone, and is a coercion: [m w] is the world and
    result [m] ends with from [w]. The class [Env] is the oracle: it says for
    every request whether it is executed and answered ([Done]), never executed
    ([Refused]) or executed with its reply lost ([ReplyLost]), and gives the
    clock, fresh identifiers, random draws, cancellations, the zone database and
    other choices the code does not make. Theorems without a hypothesis on the
    oracle hold under every fault; those with [reliable] say what happens when
    every request is answered. A writer of kafka-go repeats a write by itself, which
    others can see, so its attempts are requests of their own: it makes up to ten
    ([Queue.write_attempts]) as long as the error may be temporary
    ([env_temporary]), and each attempt whose acknowledgement was lost leaves a copy
    of the record.

    The platform ([System.step], an instance of [Interleaving.machine_step]) is a
    world and the programs that run on it, each in what is left of its tree. A
    step starts a handler, lets one of them make its next request, lets time pass,
    or stops a handler where it is, as when its process crashes; a worker may be
    given any record of its topic any number of times, which covers redelivery and
    rebalancing. So [reachable] states are those between any two requests of any
    handlers. An invariant that every single request keeps ([stable]) holds in
    them all ([reachable_inv]). Where a handler relies on what it has read or
    written before, a [Protocol] says what the programs promise each other, a
    token what one of them alone may do, and [obeys] that a program keeps to it
    whatever the others do in between; [steps_supervised] concludes for all of
    them. The interleavings of the limiter's scripts are also those of
    [Limiter.lstep], with the slots that are held.

    The HTTP API is entered at [Handlers.serve], with a request as the framework
    hands it over: what the system starts for the API is a request, not a call of a
    service. [Processes.turn] adds the loops: a fetch that fails, the test of the
    context after it, the ticker. Starting and stopping a process is another,
    smaller monad ([Bootstrap.Boot]), since it touches no store.

    Third-party behaviour is an argument: the text of identifiers ([UuidText]),
    ORDER BY with ties in any order ([PgOrder]), the paging of the ScyllaDB driver
    ([Gocql]), the decoding of request bodies ([Fiber]), the telephony bridge
    ([Provider]), configuration files ([Viper]), how connections answer ([Infra]),
    the rest in [Env]. Instances for examples are [bit_uuid], [stable_sort_order],
    [unary_pages], [json_bodies], [mock_PlaceCall], [sample_viper],
    [sample_infra], [quiet_env] and its variants.

    Loops are structural on the data they run over (a worker's loop on the results
    of its fetches), but for two that wait: [acquire_loop] and [Run] take fuel and
    say so in their result ([Waiting], [StillRunning]). No theorem assumes that the fuel
    suffices: a free slot is taken with one unit, no amount passes a full limit,
    one unit ends either loop when its context is done, with the context's error
    ([cancelled_loops_end]),
    for a call that waits enough fuel is proved to exist
    ([waiting_call_gets_slot]), and for a campaign's targets the ticks they take
    are counted ([every_target_is_called]). The client of Listing that reads page
    after page takes a number of pages, and is done one page after the last
    campaign ([pages_are_the_list]). The deliveries of Settle are a relation, not a
    function; at most five are possible for a call, and there is always a next one
    while a record waits ([every_dispatched_call_is_settled]).

    ** What the theorems show

    - Outcome, Dialout and Settle: a campaign that is [dialling] is worked off: it is
      in progress, open at every moment, among no more campaigns in progress than a
      tick takes up, its calls can go through, and no record is on a retry topic.
      Then every pending target is called once by the ticks of one scheduler that
      runs alone, every call is settled by the workers that run after it, and the
      counters account for as many calls as there were targets. These assume that
      requests are answered, that the provider comes to a verdict ([definite]), that
      the clock is far from the years JSON cannot write ([distant_years]) and that
      no slot is taken at the start ([slots_free]). Without these the theorems below
      say what is kept and what is lost.
    - Protocol and Life: the records on the topics, in order, are a conversation the
      protocol allows, so that the first thing said of a call is its first dispatch,
      other records of a first dispatch are copies of it, ten in all at most, and a
      second attempt comes only after a failure that may be tried again.
    - Pipeline and System: only registered numbers are ever dialled; a call is
      stored before anything is said of it; no third attempt of a call is asked for
      whatever its policy; every record on a topic is of the topic's type; the
      schema's constraints hold and the counters are consistent in every reachable
      state; a completed campaign can be restarted by pausing it. Validity: every
      stored campaign keeps what validation and normalisation gave it.
    - Replicas: two schedulers that overlap call every target twice, for there is no
      lock. Races: an update writes back a row that was changed since it was read. Listing: who
      follows the pages of the campaign list misses no campaign and sees none
      twice while others create campaigns, and comes to an end.
    - Processes and Progress: a deployment only does what the system can do; every
      loop ends when it is cancelled; a call that waits for a slot
      gets one, unless others take each slot of its campaign that comes free; a
      retry that could not be dispatched is lost at the next commit.
    - HTTP API: every request is answered, with which codes, and the one that
      panics the server; a refused request has changed nothing; what a POST shows a
      later GET shows; what GET shows can be PUT back.
    - Scheduler: business hours are intervals of a circular week; only open,
      running campaigns are dialled for; no target of a batch is lost or called
      twice by a scheduler that is alone, which calls every target of a campaign,
      tick after tick; one retained retry record stops it; campaigns beyond its
      limit starve.
    - Services: validation, normalisation, the lifecycle and its effect on the
      stored row, creation and its failure on midnight windows, adding targets,
      triggering calls on every branch, lists of calls and their tokens.
    - Workers and limiter: backoff, reports, counting, retries, slots given back,
      what is lost on a failed publication or a cancelled wait, what a redelivery
      repeats.
    - Stores and messages: transactions, round trips of business hours, calls and
      messages, the status index.
    - Bootstrap: Close closes everything that was opened, once; the topics exist
      after EnsureTopics; a failed Build leaks; the workers exit without closing.

    ** What is not modelled

    The retries of go-redis: a script that was run and whose reply was lost is not
    run again within the same call. The text of log lines, spans and metrics; command-line flags; the HTTP protocol
    below the framework, and the ten seconds Shutdown waits. JSON is kept as trees,
    not text; instants are exact, while the stores round them to milliseconds
    (ScyllaDB) or microseconds (PostgreSQL); Kafka keeps every record (no
    retention), a topic is one log without partitions, and commits are records,
    not offsets, sent at once and not every CommitInterval ([Progress.settled]
    says what a commit does to the records before it in a partition); transactions
    are serialisable (under PostgreSQL's default isolation two replacements of the
    hours of one campaign that overlap could leave both sets); the columns
    nothing reads (updated_at of hours, targets and statistics) are left out. The three retries of
    gocql repeat statements that set columns to given values, so that they end as one
    request may.

    Nor is it proved how many calls are in flight in the whole system: the bound of
    the limiter holds for the holders of [Limiter.lstep], which give their slot
    back in time; a worker that keeps one for longer is not stopped by the code. *)
From Stdlib Require Export ZArith Lia.
From Stdlib Require Export SpecFloat Sorting.Sorted Ascii.
From stdpp Require Export prelude strings list gmap pretty.

(** ** Scopes, hint databases *)

Declare Scope go_scope.
Delimit Scope go_scope with go.
Create HintDb go.
Create HintDb ops.
Create HintDb pgok.

#[global] Open Scope Z_scope.

(** ** Machine integers: Go's [int] and [int64] are 64-bit two's complement *)

Abbreviation int := Z (only parsing).
Abbreviation int64 := Z (only parsing).

Definition min_int64 : Z := - 2 ^ 63.
Definition max_int64 : Z := 2 ^ 63 - 1.

(** [wrap64 z] is the int64 that Go arithmetic leaves when the exact result is [z]. *)
Definition wrap64 (z : Z) : int64 := (z + 2 ^ 63) mod 2 ^ 64 - 2 ^ 63.

Definition in_int64 (z : Z) : Prop := min_int64 <= z <= max_int64.

#[export] Instance in_int64_dec z : Decision (in_int64 z).
Proof. unfold in_int64. apply _. Defined.

(** PostgreSQL's [INTEGER] column type. *)
Definition in_int32 (z : Z) : Prop := - 2 ^ 31 <= z <= 2 ^ 31 - 1.

#[export] Instance in_int32_dec z : Decision (in_int32 z).
Proof. unfold in_int32. apply _. Defined.

(** ** Go's float64, as the binary64 format of [SpecFloat] *)

Abbreviation float64 := spec_float (only parsing).

Definition f64_of_Z (z : Z) : float64 := binary_normalize 53 1024 z 0 false.
Definition f64_mul (x y : float64) : float64 := SFmul 53 1024 x y.
Definition f64_sub (x y : float64) : float64 := SFsub 53 1024 x y.
Definition f64_div (x y : float64) : float64 := SFdiv 53 1024 x y.
Definition f64_ltb (x y : float64) : bool := SFltb x y.
Definition f64_zero : float64 := S754_zero false.

(** [math.Pow(2, float64(n))] for an integer [n]: exact in the float64 range,
    +Inf above it and 0 below. *)
Definition f64_pow2 (n : Z) : float64 :=
  if 1024 <=? n then S754_infinity false
  else if n <? -1080 then S754_zero false
  else binary_normalize 53 1024 1 n false.

(** The integer a float64 truncates to; [None] for NaN and infinities. *)
Definition f64_trunc (x : float64) : option Z :=
  match x with
  | S754_zero _ => Some 0
  | S754_infinity _ => None
  | S754_nan => None
  | S754_finite s m e =>
      let a := if 0 <=? e then Z.pos m * 2 ^ e else Z.pos m / 2 ^ (- e) in
      Some (if s then - a else a)
  end.

(** ** Results of fallible code *)

Inductive result (E A : Type) : Type :=
| Ok (a : A)
| Err (e : E).
Arguments Ok {E A} a.
Arguments Err {E A} e.

Definition is_ok {E A} (r : result E A) : bool :=
  match r with Ok _ => true | Err _ => false end.

Definition map_err {E A} (f : E -> E) (r : result E A) : result E A :=
  match r with Ok a => Ok a | Err e => Err (f e) end.

(** ** Generic list functions *)

(** Insertion sort by an integer key, stable: the reference behaviour of a
    sorted query result. *)
Fixpoint insert_by {A} (key : A -> Z) (x : A) (l : list A) : list A :=
  match l with
  | [] => [x]
  | y :: l' => if key x <=? key y then x :: y :: l' else y :: insert_by key x l'
  end.

Fixpoint sort_by {A} (key : A -> Z) (l : list A) : list A :=
  match l with
  | [] => []
  | x :: l' => insert_by key x (sort_by key l')
  end.

(** ** Tactics *)

(** Case analysis on the innermost [match] or [if] of the goal or of a
    hypothesis, keeping the equation. *)
Ltac case_goal :=
  match goal with
  | |- context [match ?x with _ => _ end] =>
      lazymatch x with
      | context [match _ with _ => _ end] => fail
      | _ => destruct x eqn:?
      end
  end.

Ltac case_hyp H :=
  match type of H with
  | context [match ?x with _ => _ end] =>
      lazymatch x with
      | context [match _ with _ => _ end] => fail
      | _ => destruct x eqn:?
      end
  end.

(** Turns boolean comparisons of integers in the context into propositions. *)
Ltac zbool :=
  repeat match goal with
  | H : (_ <=? _) = true |- _ => apply Z.leb_le in H
  | H : (_ <=? _) = false |- _ => apply Z.leb_gt in H
  | H : (_ <? _) = true |- _ => apply Z.ltb_lt in H
  | H : (_ <? _) = false |- _ => apply Z.ltb_ge in H
  | H : (_ =? _) = true |- _ => apply Z.eqb_eq in H
  | H : (_ =? _) = false |- _ => apply Z.eqb_neq in H
  | H : _ && _ = true |- _ => apply andb_true_iff in H as [? ?]
  | H : _ || _ = false |- _ => apply orb_false_iff in H as [? ?]
  end.

(** ** Lemmas on machine integers *)

Lemma wrap64_id z : in_int64 z -> wrap64 z = z.
Proof. unfold in_int64, wrap64, min_int64, max_int64. intros. rewrite Z.mod_small; lia. Qed.

Lemma wrap64_range z : in_int64 (wrap64 z).
Proof.
  unfold in_int64, wrap64, min_int64, max_int64.
  pose proof (Z.mod_pos_bound (z + 2 ^ 63) (2 ^ 64)). lia.
Qed.

Lemma wrap64_idemp z : wrap64 (wrap64 z) = wrap64 z.
Proof. apply wrap64_id, wrap64_range. Qed.

#[export] Hint Resolve wrap64_range : go.
#[export] Hint Rewrite @wrap64_idemp : go.

(** ** Lemmas on sorting *)

Lemma insert_by_Permutation {A} key (x : A) l : insert_by key x l ≡ₚ x :: l.
Proof.
  induction l as [|y l IH]; simpl; [done|]. case_match; [done|].
  rewrite IH. constructor.
Qed.

Lemma sort_by_Permutation {A} key (l : list A) : sort_by key l ≡ₚ l.
Proof. induction l as [|x l IH]; simpl; [done|]. by rewrite insert_by_Permutation, IH. Qed.

Lemma insert_by_sorted {A} key (x : A) l :
  Sorted (fun a b => key a <= key b) l ->
  Sorted (fun a b => key a <= key b) (insert_by key x l).
Proof.
  induction 1 as [|y l Hs IH Hhd]; simpl; [by repeat constructor|].
  case_match; zbool; [by repeat constructor|].
  constructor; [done|]. destruct l as [|z l]; simpl; [constructor; lia|].
  inversion Hhd; subst. case_match; constructor; lia.
Qed.

Lemma sort_by_sorted {A} key (l : list A) :
  Sorted (fun a b => key a <= key b) (sort_by key l).
Proof. induction l; simpl; [constructor|]. by apply insert_by_sorted. Qed.

(** ** Lemmas on filters *)

Lemma NoDup_filter_list {A} (p : A -> bool) l : NoDup l -> NoDup (List.filter p l).
Proof.
  induction 1 as [|x l Hni _ IH]; simpl; [constructor|]. destruct (p x); [|done].
  constructor; [|done]. intros Hin. apply Hni.
  by apply list_elem_of_In, List.filter_In, proj1, list_elem_of_In in Hin.
Qed.
