(* ===== verification/Errors.v ===== *)
(** Go errors: the sentinels and helpers of pkg/errors/errors.go, and the
    wrapping that fmt.Errorf("...%w...") performs everywhere in the program. *)
From S2P Require Import Prelude.

(** The sentinel errors of pkg/errors (internal/repository re-exports two). *)
Inductive sentinel :=
| ErrNotFound
| ErrConflict
| ErrValidation
| ErrUnavailable
| ErrQuotaExceeded.

#[export] Instance sentinel_eq_dec : EqDecision sentinel.
Proof. solve_decision. Defined.

(** An error value: a sentinel, an error of the standard library or of a third
    party (only its text is known), fmt.Errorf("pre%wpost", e),
    errors.Join(e1, e2), and *fiber.Error with its status code. [Panic] is not an
    error but a run-time panic on its way up; nothing in the program recovers. *)
Inductive error :=
| Sentinel (s : sentinel)
| New (text : string)
| Errorf (pre : string) (e : error) (post : string)
| Join (e1 e2 : error)
| FiberError (code : Z) (message : string)
| Panic (text : string).

#[export] Instance error_eq_dec : EqDecision error.
Proof. solve_decision. Defined.

Definition sentinel_text (s : sentinel) : string :=
  match s with
  | ErrNotFound => "not found"
  | ErrConflict => "conflict"
  | ErrValidation => "validation error"
  | ErrUnavailable => "service unavailable"
  | ErrQuotaExceeded => "quota exceeded"
  end.

(** The Error() method: the text of an error value. *)
Fixpoint error_text (e : error) : string :=
  match e with
  | Sentinel s => sentinel_text s
  | New t => t
  | Errorf pre e post => String.append pre (String.append (error_text e) post)
  | Join e1 e2 =>
      String.append (error_text e1)
        (String.append (String (Ascii.ascii_of_nat 10) EmptyString) (error_text e2))
  | FiberError _ message => message
  | Panic t => t
  end.

(** errors.Is(err, target) for a sentinel target: the search of the wrap tree. *)
Fixpoint errors_Is (e : error) (target : sentinel) : bool :=
  match e with
  | Sentinel s => bool_decide (s = target)
  | New _ => false
  | Errorf _ e _ => errors_Is e target
  | Join e1 e2 => errors_Is e1 target || errors_Is e2 target
  | FiberError _ _ => false
  | Panic _ => false
  end.

(** apperrors.Is *)
Definition Is (err : option error) (target : sentinel) : bool :=
  match err with None => false | Some e => errors_Is e target end.

(** apperrors.Wrap: nil stays nil, anything else is joined to the message. *)
Definition Wrap (err : option error) (message : string) : option error :=
  match err with None => None | Some e => Some (Join (New message) e) end.

(** The two shapes of fmt.Errorf the program uses: "context: %w" and "%w: detail". *)
Definition wrapf (context : string) (e : error) : error :=
  Errorf (String.append context ": ") e EmptyString.
Definition detailf (s : sentinel) (detail : string) : error :=
  Errorf EmptyString (Sentinel s) (String.append ": " detail).

(** ** Theorems *)

Lemma errors_Is_wrapf c e s : errors_Is (wrapf c e) s = errors_Is e s.
Proof. done. Qed.

Lemma errors_Is_detailf s d s' : errors_Is (detailf s d) s' = bool_decide (s = s').
Proof. done. Qed.

Lemma Is_Wrap err m s : Is (Wrap err m) s = Is err s.
Proof. by destruct err. Qed.

#[export] Hint Rewrite errors_Is_wrapf errors_Is_detailf Is_Wrap : go.
