(* ===== verification/GoTime.v ===== *)
(** The parts of Go's package time the program uses: durations as int64
    nanoseconds, instants in UTC, wall clocks in a location, weekdays, and the
    layout "15:04" the API reads and prints business hours with. *)
From S2P Require Import Prelude.

(** ** Durations: int64 nanoseconds *)

Abbreviation Duration := Z (only parsing).

Definition Nanosecond : Duration := 1.
Definition Millisecond : Duration := 1000000.
Definition Second : Duration := 1000 * Millisecond.
Definition MinuteD : Duration := 60 * Second.

(** [d.Milliseconds()]: int64(d) / 1e6, truncated towards zero. *)
Definition Milliseconds (d : Duration) : int64 := Z.quot d Millisecond.

(** [time.Duration(ms) * time.Millisecond]. *)
Definition of_ms (ms : int64) : Duration := wrap64 (ms * Millisecond).

(** ** Instants and wall clocks

    A [Time] is an instant in UTC, in nanoseconds since 1970-01-01T00:00Z.
    [In loc t] is the wall clock of [loc] at [t], in nanoseconds since
    1970-01-01T00:00 on that clock; [Hour], [Minute] and [Weekday] read a wall
    clock, and an instant is the wall clock of UTC. *)

Abbreviation Time := Z (only parsing).

Definition day_ns : Z := 86400 * Second.

(** The zero value of time.Time is 0001-01-01T00:00Z. *)
Definition zero_time : Time := -62135596800 * Second.

Definition Hour (w : Z) : int := (w / (3600 * Second)) mod 24.
Definition Minute (w : Z) : int := (w / (60 * Second)) mod 60.

(** Sunday = 0; 1970-01-01 was a Thursday. *)
Abbreviation WeekdayT := Z (only parsing).
Definition Weekday (w : Z) : WeekdayT := (w / day_ns + 4) mod 7.

(** A location gives the offset from UTC, in seconds, at an instant (in seconds). *)
Abbreviation Location := (Z -> Z) (only parsing).

Definition UTC : Location := fun _ => 0.
Definition In (loc : Location) (t : Time) : Z := t + loc (t / Second) * Second.

(** time.Date(t.Year(), t.Month(), t.Day(), 0, 0, 0, 0, time.UTC). *)
Definition start_of_day (t : Time) : Time := t / day_ns * day_ns.

(** time.Date(2000, time.January, 1, hour, minute, 0, 0, time.UTC): out-of-range
    fields carry over. *)
Definition date_2000_01_01 (hour minute : int) : Time :=
  946684800 * Second + hour * (3600 * Second) + minute * (60 * Second).

(** time.Date(0, time.January, 1, hour, minute, 0, 0, time.UTC), the value
    time.Parse("15:04", s) returns. *)
Definition date_0000_01_01 (hour minute : int) : Time :=
  -62167219200 * Second + hour * (3600 * Second) + minute * (60 * Second).

(** ** time.Parse("15:04", value) and Format("15:04") *)

Definition digit (c : Ascii.ascii) : option Z :=
  let n := Z.of_nat (Ascii.nat_of_ascii c) in
  if (48 <=? n) && (n <=? 57) then Some (n - 48) else None.

(** getnum(s, fixed): one or two digits, exactly two when [fixed]. *)
Definition getnum (s : string) (fixed : bool) : option (Z * string) :=
  match s with
  | String a s1 =>
      match digit a with
      | None => None
      | Some da =>
          match s1 with
          | String b s2 =>
              match digit b with
              | Some db => Some (10 * da + db, s2)
              | None => if fixed then None else Some (da, s1)
              end
          | EmptyString => if fixed then None else Some (da, s1)
          end
      end
  | EmptyString => None
  end.

Definition colon : Ascii.ascii := Ascii.ascii_of_nat 58.

(** The layout's chunks in order: "15" (hour, at most two digits, below 24),
    the literal ":", "04" (exactly two digits, below 60), and no text left. *)
Definition parse_clock (value : string) : option Time :=
  match getnum value false with
  | None => None
  | Some (hour, rest) =>
      if 24 <=? hour then None
      else match rest with
      | EmptyString => None
      | String c rest =>
          if bool_decide (c = colon) then
            match getnum rest true with
            | None => None
            | Some (minute, rest) =>
                if 60 <=? minute then None
                else match rest with
                | EmptyString => Some (date_0000_01_01 hour minute)
                | String _ _ => None
                end
            end
          else None
      end
  end.

Definition digit_char (d : Z) : Ascii.ascii := Ascii.ascii_of_nat (Z.to_nat (48 + d)).

Definition two_digits (n : Z) : string :=
  String (digit_char (n / 10)) (String (digit_char (n mod 10)) EmptyString).

Definition format_clock (w : Z) : string :=
  String.append (two_digits (Hour w)) (String colon (two_digits (Minute w))).

(** ** Lemmas *)

(** The minute of the day, which the program computes as Hour*60 + Minute. *)
Lemma minute_of_day w : Hour w * 60 + Minute w = (w / (60 * Second)) mod 1440.
Proof.
  unfold Hour, Minute, Second, Millisecond.
  replace (3600 * (1000 * 1000000)) with ((60 * (1000 * 1000000)) * 60) by lia.
  rewrite <- Z.div_div by lia.
  set (m := w / (60 * (1000 * 1000000))). clearbody m.
  pose proof (Z.div_mod m 60). pose proof (Z.mod_pos_bound m 60).
  pose proof (Z.div_mod (m / 60) 24). pose proof (Z.mod_pos_bound (m / 60) 24).
  apply (Z.mod_unique_pos _ _ (m / 60 / 24)); lia.
Qed.

Lemma Hour_range w : 0 <= Hour w < 24.
Proof. apply Z.mod_pos_bound. lia. Qed.

Lemma Minute_range w : 0 <= Minute w < 60.
Proof. apply Z.mod_pos_bound. lia. Qed.

Lemma Weekday_range w : 0 <= Weekday w < 7.
Proof. apply Z.mod_pos_bound. lia. Qed.

Lemma minute_of_day_range w : 0 <= Hour w * 60 + Minute w < 1440.
Proof. pose proof (Hour_range w). pose proof (Minute_range w). lia. Qed.

Lemma Hour_date base h m :
  0 <= h < 24 -> 0 <= m < 60 -> base mod 86400 = 0 ->
  Hour (base * Second + h * (3600 * Second) + m * (60 * Second)) = h.
Proof.
  intros Hh Hm Hb. unfold Hour.
  assert (base = base / 86400 * 86400) as -> by (pose proof (Z.div_mod base 86400); lia).
  set (q := base / 86400). clearbody q.
  replace (q * 86400 * Second + h * (3600 * Second) + m * (60 * Second))
    with (m * (60 * Second) + (h + q * 24) * (3600 * Second)) by lia.
  rewrite Z.div_add by done.
  rewrite Z.div_small by (unfold Second, Millisecond; lia).
  rewrite Z.add_0_l, Z.mod_add by done. by apply Z.mod_small.
Qed.

Lemma Minute_date base h m :
  0 <= m < 60 -> base mod 3600 = 0 ->
  Minute (base * Second + h * (3600 * Second) + m * (60 * Second)) = m.
Proof.
  intros Hm Hb. unfold Minute.
  assert (base = base / 3600 * 3600) as -> by (pose proof (Z.div_mod base 3600); lia).
  set (q := base / 3600). clearbody q.
  replace (q * 3600 * Second + h * (3600 * Second) + m * (60 * Second))
    with ((m + (q + h) * 60) * (60 * Second)) by lia.
  rewrite Z.div_mul by done. rewrite Z.mod_add by done. by apply Z.mod_small.
Qed.

Lemma start_of_day_idemp t : start_of_day (start_of_day t) = start_of_day t.
Proof. unfold start_of_day. by rewrite Z.div_mul. Qed.

Lemma start_of_day_bounds t : start_of_day t <= t < start_of_day t + day_ns.
Proof.
  unfold start_of_day. pose proof (Z.div_mod t day_ns). pose proof (Z.mod_pos_bound t day_ns).
  unfold day_ns, Second, Millisecond in *. lia.
Qed.

Lemma digit_digit_char d : 0 <= d < 10 -> digit (digit_char d) = Some d.
Proof.
  intros Hd. assert (d = 0 \/ d = 1 \/ d = 2 \/ d = 3 \/ d = 4 \/ d = 5 \/ d = 6 \/ d = 7
    \/ d = 8 \/ d = 9) as Hc by lia.
  by repeat destruct Hc as [-> | Hc]; subst.
Qed.

Lemma getnum_two_digits n rest fixed :
  0 <= n < 100 -> getnum (String.append (two_digits n) rest) fixed = Some (n, rest).
Proof.
  intros Hn. pose proof (Z.div_mod n 10). pose proof (Z.mod_pos_bound n 10).
  assert (0 <= n / 10 < 10) by (split; [apply Z.div_pos; lia | apply Z.div_lt_upper_bound; lia]).
  change (String.append (two_digits n) rest)
    with (String (digit_char (n / 10)) (String (digit_char (n mod 10)) rest)).
  cbn [getnum].
  rewrite !digit_digit_char by lia. do 2 f_equal. lia.
Qed.

Lemma getnum_two_digits_end n fixed :
  0 <= n < 100 -> getnum (two_digits n) fixed = Some (n, EmptyString).
Proof. intros Hn. by apply (getnum_two_digits n EmptyString). Qed.

(** Reading back a printed clock gives the same hour and minute. *)
Lemma parse_format_clock w :
  parse_clock (format_clock w) = Some (date_0000_01_01 (Hour w) (Minute w)).
Proof.
  pose proof (Hour_range w). pose proof (Minute_range w).
  unfold parse_clock, format_clock.
  rewrite getnum_two_digits by lia.
  destruct (24 <=? Hour w) eqn:?; zbool; [lia|].
  rewrite bool_decide_true by done.
  rewrite (getnum_two_digits_end (Minute w)) by lia.
  destruct (60 <=? Minute w) eqn:?; zbool; [lia|done].
Qed.

Lemma of_ms_exact ms : 0 <= ms -> ms * Millisecond <= max_int64 -> of_ms ms = ms * Millisecond.
Proof.
  intros ? Hm. unfold of_ms. apply wrap64_id. unfold in_int64, min_int64, max_int64, Millisecond in *. lia.
Qed.

Lemma ms_of_ms ms : 0 <= ms -> ms * Millisecond <= max_int64 -> Milliseconds (of_ms ms) = ms.
Proof. intros. rewrite of_ms_exact by done. unfold Milliseconds. by apply Z.quot_mul. Qed.

Lemma of_ms_Milliseconds d :
  in_int64 d -> 0 <= d -> of_ms (Milliseconds d) = d - d mod Millisecond.
Proof.
  intros Hd Hp. unfold of_ms, Milliseconds, in_int64, Millisecond, max_int64 in *.
  rewrite Z.quot_div_nonneg by lia.
  pose proof (Z.div_mod d 1000000). pose proof (Z.mod_pos_bound d 1000000).
  rewrite wrap64_id; unfold in_int64, min_int64, max_int64; lia.
Qed.
