(* ===== verification/Floats.v ===== *)
(** Exactness of float64 arithmetic on small integers: the operations of
    [SpecFloat] return the integer itself when it is below 2^53. *)
From S2P Require Import Prelude.

#[export] Instance spec_float_eq_dec : EqDecision spec_float.
Proof. solve_decision. Defined.

(** [m * 2^e] is the integer [n], whatever the sign of [e]. *)
Definition scaled (m : positive) (e n : Z) : Prop :=
  exists k, 0 <= k /\ 0 <= e + k /\ Z.pos m * 2 ^ (e + k) = n * 2 ^ k.

(** [x] is the float64 of the positive integer [n]. *)
Definition represents (x : float64) (n : Z) : Prop :=
  exists m e, x = S754_finite false m e /\ scaled m e n.

Lemma scaled_pos m e n : 0 <= e -> scaled m e n <-> Z.pos m * 2 ^ e = n.
Proof.
  intros He. split.
  - intros (k & Hk & _ & Hv). rewrite Z.pow_add_r, Z.mul_assoc in Hv by lia.
    apply Z.mul_reg_r in Hv; [done|]. apply Z.pow_nonzero; lia.
  - intros Hv. exists 0. split_and!; [lia..|]. by rewrite Z.add_0_r, Z.mul_1_r.
Qed.

Lemma scaled_neg m e n : e < 0 -> scaled m e n <-> Z.pos m = n * 2 ^ (- e).
Proof.
  intros He. split.
  - intros (k & Hk & Hek & Hv). replace k with (- e + (e + k)) in Hv at 2 by lia.
    rewrite (Z.pow_add_r 2 (- e)), Z.mul_assoc in Hv by lia.
    apply Z.mul_reg_r in Hv; [done|]. apply Z.pow_nonzero; lia.
  - intros Hv. exists (- e). split_and!; [lia..|]. by rewrite Z.add_opp_diag_r, Z.mul_1_r.
Qed.

Lemma digits2_bounds p : 2 ^ (Z.pos (digits2_pos p) - 1) <= Z.pos p < 2 ^ Z.pos (digits2_pos p).
Proof.
  induction p as [p IH|p IH|]; cbn [digits2_pos]; [| |split; [done|reflexivity]];
    rewrite Pos2Z.inj_succ; set (d := Z.pos (digits2_pos p)) in *;
    assert (0 < d) by (unfold d; lia);
    replace (Z.succ d - 1) with (Z.succ (d - 1)) by lia;
    rewrite !Z.pow_succ_r by lia; lia.
Qed.

Lemma digits2_unique p d : 0 < d -> 2 ^ (d - 1) <= Z.pos p < 2 ^ d -> Z.pos (digits2_pos p) = d.
Proof.
  intros Hd Hp. pose proof (digits2_bounds p) as Hb. set (k := Z.pos (digits2_pos p)) in *.
  assert (0 < k) by (unfold k; lia).
  destruct (Z.lt_trichotomy k d) as [Hlt|[->|Hlt]]; [|done|].
  - pose proof (Z.pow_le_mono_r 2 k (d - 1)). lia.
  - pose proof (Z.pow_le_mono_r 2 d (k - 1)). lia.
Qed.

Lemma iter_pos_nat {A} (f : A -> A) p x : SpecFloat.iter_pos f p x = Nat.iter (Pos.to_nat p) f x.
Proof.
  revert x. induction p as [p IH|p IH|]; intros x; cbn [SpecFloat.iter_pos]; [| |done].
  - rewrite !IH, <- Nat.iter_add, Pos2Nat.inj_xI. replace (S (2 * Pos.to_nat p))%nat
      with ((Pos.to_nat p + Pos.to_nat p) + 1)%nat by lia. by rewrite (Nat.iter_add _ 1).
  - rewrite !IH, <- Nat.iter_add, Pos2Nat.inj_xO. f_equal. lia.
Qed.

(** Shifting out zeros loses nothing. *)
Lemma shr_1_exact k m :
  Nat.iter k shr_1 (Build_shr_record (Z.pos m * 2 ^ Z.of_nat k) false false) =
  Build_shr_record (Z.pos m) false false.
Proof.
  induction k as [|k IH]; [by rewrite Z.mul_1_r|].
  rewrite Nat.iter_succ_r.
  replace (shr_1 _) with (Build_shr_record (Z.pos m * 2 ^ Z.of_nat k) false false); [done|].
  rewrite Nat2Z.inj_succ, Z.pow_succ_r by lia.
  assert (exists q, Z.pos m * 2 ^ Z.of_nat k = Z.pos q) as [q Hq].
  { exists (Z.to_pos (Z.pos m * 2 ^ Z.of_nat k)). rewrite Z2Pos.id; [done|]. nia. }
  replace (Z.pos m * (2 * 2 ^ Z.of_nat k)) with (2 * (Z.pos m * 2 ^ Z.of_nat k)) by ring.
  by rewrite Hq.
Qed.

Lemma fexp_small d : 1 <= d -> fexp 53 1024 d = d - 53.
Proof. intros. unfold fexp, emin. lia. Qed.

Lemma pow2_lt_inv a b : 0 <= b -> 2 ^ a < 2 ^ b -> a < b.
Proof. intros Hb Hlt. by apply (Z.pow_lt_mono_r_iff 2) in Hlt. Qed.

(** The mantissa of a represented integer, and its exponent. *)
Lemma represented_digits m e n :
  0 < n < 2 ^ 53 -> scaled m e n ->
  1 <= Z.pos (digits2_pos m) + e <= 53.
Proof.
  intros Hn Hv. pose proof (digits2_bounds m) as Hd.
  set (d := Z.pos (digits2_pos m)) in *. assert (0 < d) by (unfold d; lia).
  destruct (Z.le_gt_cases 0 e) as [He|He].
  - apply scaled_pos in Hv; [|done].
    assert (d - 1 + e < 53); [|lia]. apply pow2_lt_inv; [lia|].
    rewrite Z.pow_add_r by lia. pose proof (Z.pow_pos_nonneg 2 e). nia.
  - apply scaled_neg in Hv; [|done].
    pose proof (Z.pow_pos_nonneg 2 (- e) ltac:(lia) ltac:(lia)) as Hp.
    assert (d - 1 < 53 - e).
    { apply pow2_lt_inv; [lia|]. replace (53 - e) with (53 + - e) by lia.
      rewrite Z.pow_add_r by lia. nia. }
    assert (- e < d); [apply pow2_lt_inv; [lia|]; nia|lia].
Qed.

(** Rounding an exactly representable integer leaves it alone. *)
Lemma round_aux_exact m e n :
  0 < n < 2 ^ 53 -> scaled m e n ->
  represents (binary_round_aux 53 1024 false (Z.pos m) e loc_Exact) n.
Proof.
  intros Hn Hv. pose proof (represented_digits m e n Hn Hv) as Hde.
  pose proof (digits2_bounds m) as Hd.
  set (d := Z.pos (digits2_pos m)) in *. assert (0 < d) by (unfold d; lia).
  assert (forall m e, 1 <= Z.pos (digits2_pos m) + e -> Z.pos (digits2_pos m) <= 53 ->
    shr_fexp 53 1024 (Z.pos m) e loc_Exact = (Build_shr_record (Z.pos m) false false, e)) as Hs.
  { intros m' e' H1 H2. unfold shr_fexp, shr. cbn [Zdigits2]. rewrite fexp_small by lia.
    destruct (_ - 53 - e') eqn:E; [done|lia|done]. }
  unfold binary_round_aux.
  destruct (Z.le_gt_cases d 53) as [Hle|Hgt].
  - rewrite Hs by (fold d; lia). cbn [shr_m loc_of_shr_record round_nearest_even].
    rewrite Hs by (fold d; lia). cbn [shr_m].
    destruct (e <=? 1024 - 53) eqn:?; zbool; [|lia]. by exists m, e.
  - apply scaled_neg in Hv; [|lia].
    assert (exists q, Z.pos m = Z.pos q * 2 ^ (d - 53) /\ Z.pos q = n * 2 ^ (- e - (d - 53)))
      as (q & Hq & Hqn).
    { exists (Z.to_pos (n * 2 ^ (- e - (d - 53)))).
      pose proof (Z.pow_pos_nonneg 2 (- e - (d - 53)) ltac:(lia) ltac:(lia)).
      rewrite Z2Pos.id by nia. split; [|done].
      rewrite <- Z.mul_assoc, <- Z.pow_add_r by lia. rewrite Hv. do 2 f_equal. lia. }
    assert (Z.pos (digits2_pos q) = 53) as Hdq.
    { apply digits2_unique; [lia|]. pose proof (Z.pow_pos_nonneg 2 (d - 53) ltac:(lia) ltac:(lia)).
      replace (d - 1) with (52 + (d - 53)) in Hd by lia.
      replace d with (53 + (d - 53)) in Hd at 2 by lia.
      rewrite !Z.pow_add_r in Hd by lia. rewrite Hq in Hd. split; nia. }
    assert (shr_fexp 53 1024 (Z.pos m) e loc_Exact =
      (Build_shr_record (Z.pos q) false false, e + (d - 53))) as ->.
    { unfold shr_fexp, shr. cbn [Zdigits2]. fold d. rewrite fexp_small by lia.
      replace (d + e - 53 - e) with (d - 53) by lia.
      destruct (d - 53) as [|k|] eqn:E; [lia| |lia]. cbn [shr_record_of_loc].
      rewrite iter_pos_nat, Hq. rewrite <- (positive_nat_Z k). by rewrite shr_1_exact. }
    cbn [shr_m loc_of_shr_record round_nearest_even]. rewrite Hs by lia. cbn [shr_m].
    destruct (_ <=? 1024 - 53) eqn:?; zbool; [|lia]. eexists _, _. split; [done|].
    exists (- e - (d - 53)). split_and!; [lia..|]. rewrite <- Hqn.
    replace (e + (d - 53) + (- e - (d - 53))) with 0 by lia. lia.
Qed.

Lemma shl_pos p k : Z.pos (Pos.iter xO p k) = Z.pos p * 2 ^ Z.pos k.
Proof.
  induction k as [|k IH] using Pos.peano_ind; [cbn; lia|].
  rewrite Pos.iter_succ, Pos2Z.inj_succ, Z.pow_succ_r, Pos2Z.inj_xO, IH by lia. ring.
Qed.

Lemma f64_of_Z_exact n : 0 < n < 2 ^ 53 -> represents (f64_of_Z n) n.
Proof.
  intros Hn. unfold f64_of_Z. destruct n as [|p|p]; [lia| |lia]. cbn [binary_normalize].
  unfold binary_round. rewrite Z.add_0_r.
  pose proof (digits2_bounds p). set (d := Z.pos (digits2_pos p)) in *.
  assert (0 < d <= 53) by (split; [lia|]; assert (d - 1 < 53); [apply pow2_lt_inv; lia|lia]).
  rewrite fexp_small by lia. unfold shl_align. rewrite Z.sub_0_r.
  destruct (d - 53) as [|k|k] eqn:E; [|lia|]; apply round_aux_exact; try done.
  - apply scaled_pos; [done|lia].
  - apply scaled_neg; [done|]. rewrite shl_pos. f_equal.
Qed.

Lemma represents_mul x y a b :
  represents x a -> represents y b -> 0 < a -> 0 < b -> a * b < 2 ^ 53 ->
  represents (f64_mul x y) (a * b).
Proof.
  intros (m & e & -> & k & Hk & Hek & Hm) (m' & e' & -> & k' & Hk' & Hek' & Hm') Ha Hb Hab.
  change (f64_mul _ _) with (binary_round_aux 53 1024 false (Z.pos (m * m')) (e + e') loc_Exact).
  apply round_aux_exact; [nia|]. exists (k + k'). split_and!; [lia..|].
  replace (e + e' + (k + k')) with ((e + k) + (e' + k')) by lia.
  rewrite Pos2Z.inj_mul, (Z.pow_add_r 2 (e + k)), (Z.pow_add_r 2 k) by lia.
  transitivity ((Z.pos m * 2 ^ (e + k)) * (Z.pos m' * 2 ^ (e' + k'))); [ring|].
  rewrite Hm, Hm'. ring.
Qed.

Lemma represents_trunc x n : represents x n -> 0 < n -> f64_trunc x = Some n.
Proof.
  intros (m & e & -> & Hv) Hn. unfold f64_trunc. f_equal.
  destruct (0 <=? e) eqn:?; zbool.
  - by apply scaled_pos in Hv.
  - apply scaled_neg in Hv; [|done]. rewrite Hv. apply Z.div_mul, Z.pow_nonzero; lia.
Qed.
