(* ===== verification/Durations.v ===== *)
(** time.ParseDuration and time.Duration.String, with which the API reads and
    prints the delays of a retry policy, and strconv.Atoi, with which it reads
    limits; and that reading what was printed gives the duration back. *)
From S2P Require Import Prelude Floats GoTime.

Definition Microsecond : Duration := 1000.
Definition HourD : Duration := 60 * MinuteD.

(** ** Printing

    The digits are written from the last to the first, in front of what is
    already there. *)

(** Twenty digits are enough for a uint64. *)
Fixpoint fmt_digits (fuel : nat) (v : Z) (acc : string) : string :=
  match fuel with
  | O => acc
  | S fuel =>
      if v =? 0 then acc else fmt_digits fuel (v / 10) (String (digit_char (v mod 10)) acc)
  end.

Definition fmtInt (acc : string) (v : Z) : string :=
  if v =? 0 then String (digit_char 0) acc else fmt_digits 20 v acc.

Definition dot : Ascii.ascii := Ascii.ascii_of_nat 46.

Fixpoint fmtFrac_loop (prec : nat) (print : bool) (v : Z) (acc : string) : bool * Z * string :=
  match prec with
  | O => (print, v, acc)
  | S prec =>
      let digit := v mod 10 in
      let print := print || negb (digit =? 0) in
      fmtFrac_loop prec print (v / 10) (if print then String (digit_char digit) acc else acc)
  end.

(** The fraction of v/10^prec without trailing zeros, and the integer part. *)
Definition fmtFrac (acc : string) (v : Z) (prec : nat) : string * Z :=
  let '(print, v, acc) := fmtFrac_loop prec false v acc in
  (if print then String dot acc else acc, v).

(** The micro sign, U+00B5, in UTF-8. *)
Definition micro_s : string :=
  String (Ascii.ascii_of_nat 194) (String (Ascii.ascii_of_nat 181) "s").

Definition format_below_second (u : Z) : string :=
  let '(unit, prec) :=
    if u <? Microsecond then ("ns", O)
    else if u <? Millisecond then (micro_s, 3%nat) else ("ms", 6%nat) in
  let '(s, v) := fmtFrac unit u prec in fmtInt s v.

Definition format_seconds (u : Z) : string :=
  let '(s, v) := fmtFrac "s" u 9 in
  let s := fmtInt s (v mod 60) in
  let minutes := v / 60 in
  if 0 <? minutes then
    let s := fmtInt (String.append "m" s) (minutes mod 60) in
    let hours := minutes / 60 in
    if 0 <? hours then fmtInt (String.append "h" s) hours else s
  else s.

Definition Duration_String (d : Duration) : string :=
  let u := Z.abs d in
  if u =? 0 then "0s"
  else
    let s := if u <? Second then format_below_second u else format_seconds u in
    if d <? 0 then String.append "-" s else s.

(** ** Parsing *)

Definition is_digit (c : Ascii.ascii) : bool :=
  match digit c with Some _ => true | None => false end.

(** [None] is errLeadingInt: the number does not fit. *)
Fixpoint leadingInt (s : string) (x : Z) : option (Z * string) :=
  match s with
  | String c s' =>
      match digit c with
      | None => Some (x, s)
      | Some d =>
          if 2 ^ 63 / 10 <? x then None
          else let x := x * 10 + d in if 2 ^ 63 <? x then None else leadingInt s' x
      end
  | EmptyString => Some (x, s)
  end.

Fixpoint leadingFraction (s : string) (x : Z) (scale : float64) (overflow : bool)
    : Z * float64 * string :=
  match s with
  | String c s' =>
      match digit c with
      | None => (x, scale, s)
      | Some d =>
          if overflow then leadingFraction s' x scale true
          else if (2 ^ 63 - 1) / 10 <? x then leadingFraction s' x scale true
          else
            let y := x * 10 + d in
            if 2 ^ 63 <? y then leadingFraction s' x scale true
            else leadingFraction s' y (f64_mul scale (f64_of_Z 10)) false
      end
  | EmptyString => (x, scale, s)
  end.

(** The text up to the next digit or point. *)
Fixpoint span_unit (s : string) : string * string :=
  match s with
  | String c s' =>
      if bool_decide (c = dot) || is_digit c then (EmptyString, s)
      else let '(u, rest) := span_unit s' in (String c u, rest)
  | EmptyString => (EmptyString, EmptyString)
  end.

(** The Greek letter mu, U+03BC, in UTF-8. *)
Definition greek_mu_s : string :=
  String (Ascii.ascii_of_nat 206) (String (Ascii.ascii_of_nat 188) "s").

Definition unitMap (u : string) : option Z :=
  if String.eqb u "ns" then Some Nanosecond
  else if String.eqb u "us" then Some Microsecond
  else if String.eqb u micro_s then Some Microsecond
  else if String.eqb u greek_mu_s then Some Microsecond
  else if String.eqb u "ms" then Some Millisecond
  else if String.eqb u "s" then Some Second
  else if String.eqb u "m" then Some MinuteD
  else if String.eqb u "h" then Some HourD
  else None.

(** The fraction's share: float64(f) * (float64(unit) / scale), truncated. *)
Definition fraction_of (f unit : Z) (scale : float64) : Z :=
  default 0 (f64_trunc (f64_mul (f64_of_Z f) (f64_div (f64_of_Z unit) scale))).

(** One number with its unit: the nanoseconds it stands for and what follows. *)
Definition parse_component (s : string) : option (Z * string) :=
  match s with
  | EmptyString => None
  | String c _ =>
      if negb (bool_decide (c = dot) || is_digit c) then None
      else match leadingInt s 0 with
      | None => None
      | Some (v, s1) =>
          let pre := negb (Nat.eqb (String.length s) (String.length s1)) in
          let '(f, scale, s2, post) :=
            match s1 with
            | String c s1' =>
                if bool_decide (c = dot) then
                  let '(f, scale, s2) := leadingFraction s1' 0 (f64_of_Z 1) false in
                  (f, scale, s2, negb (Nat.eqb (String.length s1') (String.length s2)))
                else (0, f64_of_Z 1, s1, false)
            | EmptyString => (0, f64_of_Z 1, s1, false)
            end in
          if negb pre && negb post then None
          else
            let '(u, s3) := span_unit s2 in
            if bool_decide (u = EmptyString) then None
            else match unitMap u with
            | None => None
            | Some unit =>
                if 2 ^ 63 / unit <? v then None
                else
                  let v := v * unit in
                  if 0 <? f then
                    let v := v + fraction_of f unit scale in
                    if 2 ^ 63 <? v then None else Some (v, s3)
                  else Some (v, s3)
            end
      end
  end.

(** The loop over the components; every turn consumes a character, so that the
    length of the text is fuel enough. The sum is a uint64. *)
Fixpoint parse_components (fuel : nat) (s : string) (d : Z) : option Z :=
  match s with
  | EmptyString => Some d
  | _ =>
      match fuel with
      | O => None
      | S fuel =>
          match parse_component s with
          | None => None
          | Some (v, s') =>
              let d := (d + v) mod 2 ^ 64 in
              if 2 ^ 63 <? d then None else parse_components fuel s' d
          end
      end
  end.

Definition split_sign (s : string) : bool * string :=
  match s with
  | String c s' =>
      if bool_decide (c = Ascii.ascii_of_nat 45) then (true, s')
      else if bool_decide (c = Ascii.ascii_of_nat 43) then (false, s') else (false, s)
  | EmptyString => (false, s)
  end.

Definition ParseDuration (s : string) : option Duration :=
  let '(neg, s) := split_sign s in
  if String.eqb s "0" then Some 0
  else if bool_decide (s = EmptyString) then None
  else match parse_components (String.length s) s 0 with
  | None => None
  | Some d =>
      if neg then Some (wrap64 (- wrap64 d))
      else if 2 ^ 63 - 1 <? d then None else Some d
  end.

(** ** strconv.Atoi

    The value it returns, which the API uses without looking at the error: 0
    when the text is no number, the nearest int when it is out of range. Reading
    stops at the digit that is too much for a uint64, whatever follows it. *)
Fixpoint atoi_digits (s : string) (x : Z) : option Z :=
  match s with
  | EmptyString => Some x
  | String c s' =>
      match digit c with
      | Some d => let x := x * 10 + d in if 2 ^ 64 - 1 <? x then Some x else atoi_digits s' x
      | None => None
      end
  end.

Definition Atoi (s : string) : int :=
  let '(neg, s) := split_sign s in
  if bool_decide (s = EmptyString) then 0
  else match atoi_digits s 0 with
  | None => 0
  | Some n => Z.max min_int64 (Z.min max_int64 (if neg then - n else n))
  end.

Example string_90s : Duration_String (90 * Second + 500 * Millisecond) = "1m30.5s".
Proof. reflexivity. Qed.
Example parse_90s : ParseDuration "1m30.5s" = Some (90 * Second + 500 * Millisecond).
Proof. reflexivity. Qed.
Example parse_edges :
  ParseDuration "-1.5h" = Some (- 5400 * Second) /\ ParseDuration ".s" = None /\
  ParseDuration "3" = None /\ ParseDuration "9223372036854775808ns" = None /\
  ParseDuration "-9223372036854775808ns" = Some min_int64 /\ ParseDuration "1us" = Some 1000.
Proof. by vm_compute. Qed.
Example atoi_edges :
  Atoi "50" = 50 /\ Atoi "-7" = -7 /\ Atoi "5x" = 0 /\ Atoi "99999999999999999999" = max_int64 /\
  Atoi "-99999999999999999999x" = min_int64.
Proof. by vm_compute. Qed.

(** ** Every turn of the parser's loop consumes text *)

Lemma leadingInt_shorter s x v r :
  leadingInt s x = Some (v, r) -> (String.length r <= String.length s)%nat.
Proof.
  revert x. induction s as [|c s IH]; simpl; intros x Hl; [by simplify_eq|].
  repeat case_match; simplify_eq/=; [|lia]. apply IH in Hl. lia.
Qed.

Lemma leadingFraction_shorter s x sc o f sc' r :
  leadingFraction s x sc o = (f, sc', r) -> (String.length r <= String.length s)%nat.
Proof.
  revert x sc o. induction s as [|c s IH]; simpl; intros x sc o Hl; [by simplify_eq|].
  repeat case_match; simplify_eq/=; try lia; apply IH in Hl; lia.
Qed.

Lemma span_unit_length s u r :
  span_unit s = (u, r) -> (String.length r + String.length u = String.length s)%nat.
Proof.
  revert u. induction s as [|c s IH]; simpl; intros u Hs; [by simplify_eq|].
  case_match; simplify_eq/=; [lia|].
  destruct (span_unit s) as [u' r'] eqn:E. simplify_eq/=. specialize (IH _ eq_refl). lia.
Qed.

Lemma parse_component_shorter s v r :
  parse_component s = Some (v, r) -> (String.length r < String.length s)%nat.
Proof.
  unfold parse_component. destruct s as [|c s0]; [done|]. set (s := String c s0).
  destruct (negb _); [done|].
  destruct (leadingInt s 0) as [[v0 s1]|] eqn:Hi; [|done]. apply leadingInt_shorter in Hi.
  assert (forall f sc s2 post, match s1 with
     | String c s1' =>
         if bool_decide (c = dot) then
           let '(f, scale, s2) := leadingFraction s1' 0 (f64_of_Z 1) false in
           (f, scale, s2, negb (Nat.eqb (String.length s1') (String.length s2)))
         else (0, f64_of_Z 1, s1, false)
     | EmptyString => (0, f64_of_Z 1, s1, false)
     end = (f, sc, s2, post) -> (String.length s2 <= String.length s1)%nat) as Hf.
  { intros f sc s2 post. destruct s1 as [|c1 s1]; [by intros; simplify_eq|].
    case_match; [|by intros; simplify_eq]. destruct (leadingFraction _ _ _ _) as [[? ?] ?] eqn:E.
    apply leadingFraction_shorter in E. intros. simplify_eq/=. lia. }
  destruct (match s1 with EmptyString => _ | String _ _ => _ end) as [[[f sc] s2] post] eqn:E.
  specialize (Hf _ _ _ _ eq_refl). intros Hp. case_match; [done|].
  destruct (span_unit s2) as [u s3] eqn:Hu. apply span_unit_length in Hu.
  case_bool_decide as Hne; [done|]. destruct u as [|cu u]; [done|]. simpl in Hu.
  repeat case_match; simplify_eq; lia.
Qed.

(** The loop ends: fuel beyond the length of the text changes nothing. *)
Lemma parse_components_fuel fuel s d :
  (String.length s <= fuel)%nat ->
  parse_components fuel s d = parse_components (String.length s) s d.
Proof.
  revert s d. induction fuel as [fuel IH] using lt_wf_ind. intros s d Hf.
  destruct s as [|c s]; [by destruct fuel|]. destruct fuel as [|fuel]; [simpl in Hf; lia|].
  cbn [parse_components String.length].
  destruct (parse_component (String c s)) as [[v r]|] eqn:E; [|done].
  apply parse_component_shorter in E. simpl in *. case_match; [done|].
  rewrite (IH fuel) by lia. symmetry. apply IH; lia.
Qed.

(** ** Reading back what was printed *)

Definition starts_plain (s : string) : Prop :=
  match s with EmptyString => True | String c _ => digit c = None end.

Lemma digit_range c d : digit c = Some d -> 0 <= d < 10.
Proof. unfold digit. intros. case_match; simplify_eq. zbool. lia. Qed.

Lemma mod10 v : 0 <= v mod 10 < 10.
Proof. apply Z.mod_pos_bound. lia. Qed.

Lemma leadingInt_digits fuel v acc :
  0 <= v <= 2 ^ 63 -> v < 10 ^ Z.of_nat fuel ->
  leadingInt (fmt_digits fuel v acc) 0 = leadingInt acc v.
Proof.
  revert v acc. induction fuel as [|fuel IH]; intros v acc Hv Hf.
  { change (10 ^ Z.of_nat 0) with 1 in Hf. by replace v with 0 by lia. }
  cbn [fmt_digits]. destruct (v =? 0) eqn:?; zbool; [by subst|].
  pose proof (Z.div_mod v 10). pose proof (mod10 v).
  rewrite Nat2Z.inj_succ, Z.pow_succ_r in Hf by lia.
  rewrite IH by lia. cbn [leadingInt]. rewrite digit_digit_char by done.
  destruct (2 ^ 63 / 10 <? v / 10) eqn:?; zbool.
  { pose proof (Z.div_le_mono v (2 ^ 63) 10). lia. }
  replace (v / 10 * 10 + v mod 10) with v by lia.
  destruct (2 ^ 63 <? v) eqn:?; zbool; [lia|done].
Qed.

Lemma leadingInt_plain acc v : starts_plain acc -> leadingInt acc v = Some (v, acc).
Proof. destruct acc; simpl; [done|]. by intros ->. Qed.

Lemma leadingInt_fmtInt acc v :
  0 <= v <= 2 ^ 63 -> starts_plain acc -> leadingInt (fmtInt acc v) 0 = Some (v, acc).
Proof.
  intros Hv Hacc. unfold fmtInt. destruct (v =? 0) eqn:?; zbool.
  - subst v. cbn [leadingInt]. rewrite digit_digit_char by lia. by apply leadingInt_plain.
  - rewrite leadingInt_digits by (try lia; vm_compute; lia). by apply leadingInt_plain.
Qed.

Lemma fmt_digits_head fuel v acc :
  (v <> 0 /\ (0 < fuel)%nat) \/ (exists c s, acc = String c s /\ is_digit c = true) ->
  0 <= v -> exists c s, fmt_digits fuel v acc = String c s /\ is_digit c = true.
Proof.
  revert v acc. induction fuel as [|fuel IH]; intros v acc Ha Hv; simpl.
  { destruct Ha as [[_ Hf]|Ha]; [lia|done]. }
  destruct (v =? 0) eqn:?; zbool; [destruct Ha as [[? _]|Ha]; done|].
  apply IH; [|by apply Z.div_pos]. right. do 2 eexists. split; [done|].
  unfold is_digit. by rewrite digit_digit_char by apply mod10.
Qed.

Lemma fmtInt_head acc v : 0 <= v -> exists c s, fmtInt acc v = String c s /\ is_digit c = true.
Proof.
  intros Hv. unfold fmtInt. destruct (v =? 0) eqn:?; zbool.
  - do 2 eexists. split; [done|reflexivity].
  - apply fmt_digits_head; [|done]. left. split; [done|lia].
Qed.

Lemma fmt_digits_length fuel v acc :
  (String.length acc <= String.length (fmt_digits fuel v acc))%nat.
Proof.
  revert v acc. induction fuel as [|fuel IH]; intros; simpl; [done|]. case_match; [done|].
  etrans; [|apply IH]. simpl. lia.
Qed.

Lemma fmtInt_length acc v : 0 <= v -> (String.length acc < String.length (fmtInt acc v))%nat.
Proof.
  intros Hv. unfold fmtInt. destruct (v =? 0) eqn:E; [simpl; lia|].
  change (fmt_digits 20 v acc) with
    (if v =? 0 then acc else fmt_digits 19 (v / 10) (String (digit_char (v mod 10)) acc)). rewrite E.
  pose proof (fmt_digits_length 19 (v / 10) (String (digit_char (v mod 10)) acc)) as Hl.
  cbn [String.length] in Hl. lia.
Qed.

(** Exactly [k] digits of [v], leading zeros included. *)
Fixpoint fixed (k : nat) (v : Z) (acc : string) : string :=
  match k with
  | O => acc
  | S k => fixed k (v / 10) (String (digit_char (v mod 10)) acc)
  end.

Lemma pow10_S k : 10 ^ Z.of_nat (S k) = 10 * 10 ^ Z.of_nat k.
Proof. rewrite Nat2Z.inj_succ. apply Z.pow_succ_r. lia. Qed.

Lemma pow10_pos k : 0 < 10 ^ Z.of_nat k.
Proof. apply Z.pow_pos_nonneg; lia. Qed.

(** The lowest digit and the digits above it. *)
Lemma mod_pow10_S v k :
  0 <= v -> v mod 10 ^ Z.of_nat (S k) = (v / 10) mod 10 ^ Z.of_nat k * 10 + v mod 10.
Proof.
  intros Hv. rewrite pow10_S. pose proof (pow10_pos k).
  rewrite Z.rem_mul_r by lia. lia.
Qed.

Lemma div_pow10_S v k : v / 10 / 10 ^ Z.of_nat k = v / 10 ^ Z.of_nat (S k).
Proof. pose proof (pow10_pos k). rewrite pow10_S, Z.div_div by lia. done. Qed.

Lemma fmtFrac_loop_print k v acc :
  0 <= v -> fmtFrac_loop k true v acc = (true, v / 10 ^ Z.of_nat k, fixed k v acc).
Proof.
  revert v acc. induction k as [|k IH]; intros v acc Hv; cbn [fmtFrac_loop fixed].
  { by rewrite Z.div_1_r. }
  cbn [orb]. rewrite IH by (by apply Z.div_pos). by rewrite div_pow10_S.
Qed.

Lemma fixed_mod k v acc : 0 <= v -> fixed k (v mod 10 ^ Z.of_nat k) acc = fixed k v acc.
Proof.
  revert v acc. induction k as [|k IH]; intros v acc Hv; cbn [fixed]; [done|].
  assert (0 <= v / 10) by (by apply Z.div_pos). pose proof (mod10 v).
  rewrite mod_pow10_S by done.
  rewrite Z.div_add_l by lia. rewrite (Z.div_small (v mod 10)) by done. rewrite Z.add_0_r, IH by done.
  by rewrite Z.add_comm, Z.mod_add, Z.mod_mod by lia.
Qed.

(** Trailing zeros are dropped: the fraction is 0, or [f] over [10^k]. *)
Lemma fmtFrac_loop_spec n v acc :
  0 <= v ->
  (v mod 10 ^ Z.of_nat n = 0 /\ fmtFrac_loop n false v acc = (false, v / 10 ^ Z.of_nat n, acc)) \/
  exists k f, (1 <= k <= n)%nat /\ 0 < f < 10 ^ Z.of_nat k /\
    v mod 10 ^ Z.of_nat n = f * 10 ^ Z.of_nat (n - k) /\
    fmtFrac_loop n false v acc = (true, v / 10 ^ Z.of_nat n, fixed k f acc).
Proof.
  revert v acc. induction n as [|n IH]; intros v acc Hv; cbn [fmtFrac_loop].
  { left. rewrite Z.div_1_r. by rewrite Z.mod_1_r. }
  assert (0 <= v / 10) by (by apply Z.div_pos).
  rewrite mod_pow10_S by done. cbn [orb].
  destruct (v mod 10 =? 0) eqn:E; zbool; cbn [negb].
  - destruct (IH (v / 10) acc) as [[Hm ->]|(k & f & Hk & Hf & Hm & ->)]; [done| |].
    + left. by rewrite Hm, E, div_pow10_S.
    + right. exists k, f. rewrite div_pow10_S. split_and!; try lia; [|done].
      rewrite Hm, E. replace (S n - k)%nat with (S (n - k)) by lia. rewrite pow10_S. lia.
  - right. rewrite fmtFrac_loop_print, div_pow10_S by done.
    exists (S n), (v mod 10 ^ Z.of_nat (S n)).
    pose proof (Z.mod_pos_bound v (10 ^ Z.of_nat (S n)) (pow10_pos _)).
    pose proof (mod_pow10_S v n Hv). pose proof (mod10 v).
    pose proof (Z.mod_pos_bound (v / 10) (10 ^ Z.of_nat n) (pow10_pos _)).
    split_and!; try lia.
    + rewrite Nat.sub_diag. change (10 ^ Z.of_nat 0) with 1. lia.
    + f_equal. symmetry. by apply (fixed_mod (S n)).
Qed.

Fixpoint scale_of (k : nat) (scale : float64) : float64 :=
  match k with O => scale | S k => f64_mul (scale_of k scale) (f64_of_Z 10) end.

Lemma leadingFraction_fixed k f acc x sc :
  0 <= f -> 0 <= x -> (x + 1) * 10 ^ Z.of_nat k <= 10 ^ 18 ->
  leadingFraction (fixed k f acc) x sc false =
  leadingFraction acc (x * 10 ^ Z.of_nat k + f mod 10 ^ Z.of_nat k) (scale_of k sc) false.
Proof.
  revert f acc. induction k as [|k IH]; intros f acc Hf Hx Hb; cbn [fixed scale_of].
  { by rewrite Z.mod_1_r, Z.mul_1_r, Z.add_0_r. }
  assert (0 <= f / 10) by (by apply Z.div_pos). pose proof (mod10 f).
  pose proof (Z.mod_pos_bound (f / 10) (10 ^ Z.of_nat k) (pow10_pos _)).
  rewrite pow10_S in Hb. pose proof (pow10_pos k).
  rewrite IH by nia. cbn [leadingFraction]. rewrite digit_digit_char by done.
  set (y := x * 10 ^ Z.of_nat k + _).
  assert (10 * y + 10 <= 10 ^ 18) by (unfold y; nia).
  assert (y <= (2 ^ 63 - 1) / 10) by (apply Z.div_le_lower_bound; lia).
  destruct (_ <? y) eqn:E; zbool; [lia|]. clear E.
  destruct (2 ^ 63 <? y * 10 + f mod 10) eqn:E; zbool; [lia|].
  f_equal. rewrite mod_pow10_S, pow10_S by done. unfold y. ring.
Qed.

Lemma leadingFraction_plain acc x sc :
  starts_plain acc -> leadingFraction acc x sc false = (x, sc, acc).
Proof. destruct acc; simpl; [done|]. by intros ->. Qed.

(** The decimal units, and the exact quotient of one by a power of ten. *)
Definition decimal_unit (n : nat) : Prop := n = 3%nat \/ n = 6%nat \/ n = 9%nat.

Lemma unit_over_scale n k :
  decimal_unit n -> (k <= n)%nat ->
  f64_div (f64_of_Z (10 ^ Z.of_nat n)) (scale_of k (f64_of_Z 1)) = f64_of_Z (10 ^ Z.of_nat (n - k)).
Proof.
  intros Hn Hk.
  assert (forallb (fun n => forallb (fun k => bool_decide (
    f64_div (f64_of_Z (10 ^ Z.of_nat n)) (scale_of k (f64_of_Z 1)) =
    f64_of_Z (10 ^ Z.of_nat (n - k)))) (seq 0 (S n))) [3; 6; 9]%nat = true) as Hall
    by (vm_compute; reflexivity).
  rewrite forallb_forall in Hall. specialize (Hall n).
  rewrite forallb_forall in Hall. eapply bool_decide_eq_true_1, Hall.
  - unfold decimal_unit in Hn. simpl. intuition.
  - apply in_seq. lia.
Qed.

(** What may follow a unit: nothing, or the next number. *)
Definition boundary (s : string) : Prop :=
  match s with EmptyString => True | String c _ => is_digit c = true end.

(** The text of a unit followed by [rest]. *)
Record unit_text (s : string) (U : Z) (rest : string) : Prop := {
  ut_plain : starts_plain s;
  ut_no_dot : forall c s', s = String c s' -> c <> dot;
  ut_parse : exists u, u <> EmptyString /\ span_unit s = (u, rest) /\ unitMap u = Some U;
}.

Lemma span_boundary s : boundary s -> span_unit s = (EmptyString, s).
Proof. destruct s; simpl; [done|]. intros ->. by rewrite orb_true_r. Qed.

Lemma span_unit_cons c s :
  bool_decide (c = dot) || is_digit c = false ->
  span_unit (String c s) = (String c (span_unit s).1, (span_unit s).2).
Proof. intros Hc. cbn. rewrite Hc. by destruct (span_unit s). Qed.

Lemma unit_text_intro u U rest :
  unitMap u = Some U -> u <> EmptyString -> boundary rest ->
  forallb (fun c => negb (bool_decide (c = dot) || is_digit c)) (String.list_ascii_of_string u) = true ->
  unit_text (String.append u rest) U rest.
Proof.
  intros Hu Hne Hr Hall. destruct u as [|c u]; [done|].
  cbn [String.list_ascii_of_string forallb] in Hall. apply andb_true_iff in Hall as [Hc Hall].
  apply negb_true_iff in Hc. pose proof Hc as [Hd Hdig]%orb_false_iff.
  apply bool_decide_eq_false in Hd.
  split.
  - simpl. unfold is_digit in Hdig. by destruct (digit c).
  - intros c' s' Heq. simpl in Heq. injection Heq as <- _. exact Hd.
  - exists (String c u). split_and!; [done| |done].
    change (String.append (String c u) rest) with (String c (String.append u rest)).
    rewrite span_unit_cons by done.
    assert (span_unit (String.append u rest) = (u, rest)) as ->; [|done].
    clear -Hall Hr. induction u as [|c u IH]; [by apply span_boundary|].
    cbn [String.list_ascii_of_string forallb] in Hall. apply andb_true_iff in Hall as [Hc Hall].
    apply negb_true_iff in Hc.
    change (String.append (String c u) rest) with (String c (String.append u rest)).
    rewrite span_unit_cons by done. by rewrite (IH Hall).
Qed.

(** A number without a fraction. *)
Lemma parse_integer s U rest v :
  unit_text s U rest -> 0 < U -> 0 <= v -> v * U <= 2 ^ 63 ->
  parse_component (fmtInt s v) = Some (v * U, rest).
Proof.
  intros [Hp Hnd (u & Hune & Hspan & Hmap)] HU Hv Hb.
  destruct (fmtInt_head s v Hv) as (c & s' & Heq & Hc).
  pose proof (fmtInt_length s v Hv) as Hlen. unfold parse_component. rewrite Heq. rewrite Heq in Hlen.
  rewrite Hc, orb_true_r. cbn [negb]. rewrite <- Heq, leadingInt_fmtInt, Heq by (nia || done).
  assert (Nat.eqb (String.length (String c s')) (String.length s) = false) as ->
    by (apply Nat.eqb_neq; lia). cbn [negb].
  destruct s as [|c1 s1]; [simpl in Hspan; by simplify_eq|].
  rewrite (bool_decide_false (c1 = dot)) by (by eapply Hnd).
  cbn [negb andb]. rewrite Hspan, bool_decide_false, Hmap by done.
  destruct (2 ^ 63 / U <? v) eqn:?; zbool; [|done].
  pose proof (Z.div_le_lower_bound (2 ^ 63) U v). lia.
Qed.

(** A number with the fraction [f / 10^k]. *)
Lemma parse_fraction s n rest k f v :
  unit_text s (10 ^ Z.of_nat n) rest -> decimal_unit n -> (1 <= k <= n)%nat ->
  0 < f < 10 ^ Z.of_nat k -> 0 <= v ->
  v * 10 ^ Z.of_nat n + f * 10 ^ Z.of_nat (n - k) <= 2 ^ 63 ->
  parse_component (fmtInt (String dot (fixed k f s)) v) =
    Some (v * 10 ^ Z.of_nat n + f * 10 ^ Z.of_nat (n - k), rest).
Proof.
  intros [Hp Hnd (u & Hune & Hspan & Hmap)] Hn Hk Hf Hv Hb.
  pose proof (pow10_pos n). pose proof (pow10_pos (n - k)). pose proof (pow10_pos k).
  assert (10 ^ Z.of_nat k * 10 ^ Z.of_nat (n - k) = 10 ^ Z.of_nat n) as Hsplit
    by (rewrite <- Z.pow_add_r by lia; f_equal; lia).
  assert (10 ^ Z.of_nat n <= 10 ^ 9) as Hn9
    by (apply Z.pow_le_mono_r; [lia|]; destruct Hn as [->|[->| ->]]; lia).
  set (t := String dot (fixed k f s)).
  destruct (fmtInt_head t v Hv) as (c & s' & Heq & Hc).
  pose proof (fmtInt_length t v Hv) as Hlen. unfold parse_component. rewrite Heq. rewrite Heq in Hlen.
  rewrite Hc, orb_true_r. cbn [negb]. rewrite <- Heq, leadingInt_fmtInt, Heq by (nia || done).
  assert (Nat.eqb (String.length (String c s')) (String.length t) = false) as ->
    by (apply Nat.eqb_neq; lia).
  unfold t. rewrite bool_decide_true by done.
  rewrite leadingFraction_fixed by nia. rewrite leadingFraction_plain by done.
  rewrite Z.mul_0_l, Z.add_0_l, Z.mod_small by lia.
  cbn [negb andb]. rewrite Hspan, bool_decide_false, Hmap by done.
  destruct (_ <? v) eqn:E; zbool.
  { pose proof (Z.div_le_lower_bound (2 ^ 63) (10 ^ Z.of_nat n) v). nia. }
  destruct (0 <? f) eqn:?; zbool; [|lia].
  assert (fraction_of f (10 ^ Z.of_nat n) (scale_of k (f64_of_Z 1)) = f * 10 ^ Z.of_nat (n - k)) as ->.
  { unfold fraction_of. rewrite unit_over_scale by (done || lia).
    erewrite represents_trunc; [reflexivity|apply represents_mul|nia]; try nia;
      apply f64_of_Z_exact; nia. }
  destruct (2 ^ 63 <? _) eqn:?; zbool; [lia|done].
Qed.

(** What fmtFrac and fmtInt print of [u], read back with [v] for the integer part. *)
Lemma parse_printed s n rest u :
  unit_text s (10 ^ Z.of_nat n) rest -> decimal_unit n -> 0 <= u ->
  exists s', fmtFrac s u n = (s', u / 10 ^ Z.of_nat n) /\
    forall v, 0 <= v -> v * 10 ^ Z.of_nat n + u mod 10 ^ Z.of_nat n <= 2 ^ 63 ->
      parse_component (fmtInt s' v) = Some (v * 10 ^ Z.of_nat n + u mod 10 ^ Z.of_nat n, rest).
Proof.
  intros Hs Hn Hu. unfold fmtFrac.
  destruct (fmtFrac_loop_spec n u s Hu) as [[Hm ->]|(k & f & Hk & Hf & Hm & ->)].
  - exists s. split; [done|]. intros v Hv. rewrite Hm, Z.add_0_r. intros.
    apply parse_integer; [done|apply pow10_pos|done..].
  - exists (String dot (fixed k f s)). split; [done|]. intros v Hv. rewrite Hm. intros.
    by apply parse_fraction.
Qed.

Lemma parse_components_step s v r d :
  parse_component s = Some (v, r) -> 0 <= d -> 0 <= v -> d + v <= 2 ^ 63 ->
  parse_components (String.length s) s d = parse_components (String.length r) r (d + v).
Proof.
  intros Hs Hd Hv Hb. pose proof (parse_component_shorter _ _ _ Hs) as Hlen.
  destruct s as [|c s]; [done|]. cbn [parse_components String.length]. rewrite Hs.
  rewrite Z.mod_small by lia. destruct (2 ^ 63 <? _) eqn:?; zbool; [lia|].
  apply parse_components_fuel. simpl in Hlen. lia.
Qed.

Lemma boundary_fmtInt acc v : 0 <= v -> boundary (fmtInt acc v).
Proof. intros Hv. by destruct (fmtInt_head acc v Hv) as (c & s & -> & Hc). Qed.

Ltac unit_by rest := apply unit_text_intro; [reflexivity|done|try exact I; try exact rest|reflexivity].

(** A text that is parsed to the end as the sum of its components. *)
Definition reads (s : string) (u : Z) : Prop :=
  boundary s /\ forall d, 0 <= d -> d + u <= 2 ^ 63 ->
    parse_components (String.length s) s d = Some (d + u).

Lemma reads_component s r v u :
  boundary s -> parse_component s = Some (v, r) -> 0 <= v -> 0 <= u -> reads r u -> reads s (v + u).
Proof.
  intros Hs Hp Hv Hu [_ Hr]. split; [done|]. intros d Hd Hb.
  rewrite (parse_components_step _ _ _ _ Hp), Hr by lia. f_equal. lia.
Qed.

Lemma reads_nil : reads EmptyString 0.
Proof. split; [exact I|]. intros d _ _. simpl. f_equal. lia. Qed.

Lemma reads_last s v :
  boundary s -> parse_component s = Some (v, EmptyString) -> 0 <= v -> reads s v.
Proof.
  intros Hs Hp Hv. rewrite <- (Z.add_0_r v). by apply (reads_component s _ v 0 Hs Hp); [..|apply reads_nil].
Qed.

Lemma reads_below_second u : 0 < u < Second -> reads (format_below_second u) u.
Proof.
  intros Hu. unfold format_below_second.
  assert (forall n s U, U = 10 ^ Z.of_nat n -> unit_text s U EmptyString -> decimal_unit n ->
    reads (let '(s, v) := fmtFrac s u n in fmtInt s v) u) as Hdec.
  { intros n s U -> Hs Hn. pose proof (pow10_pos n).
    destruct (parse_printed s n EmptyString u Hs Hn) as (s' & -> & Hp); [lia|].
    assert (0 <= u / 10 ^ Z.of_nat n) by (apply Z.div_pos; lia).
    pose proof (Z.div_mod u (10 ^ Z.of_nat n)).
    pose proof (Z.mod_pos_bound u (10 ^ Z.of_nat n)).
    replace u with (u / 10 ^ Z.of_nat n * 10 ^ Z.of_nat n + u mod 10 ^ Z.of_nat n) at 2 by lia.
    apply reads_last; [by apply boundary_fmtInt|apply Hp; [done|unfold Second, Millisecond in *; lia]|nia]. }
  destruct (u <? Microsecond) eqn:?; zbool; [|destruct (u <? Millisecond) eqn:?; zbool].
  - change (fmtFrac "ns" u 0) with ("ns", u). rewrite <- (Z.mul_1_r u) at 2.
    apply reads_last; [apply boundary_fmtInt; lia| |lia].
    apply parse_integer; [|lia..|unfold Microsecond in *; lia].
    change "ns" with (String.append "ns" EmptyString). unit_by I.
  - apply (Hdec 3%nat micro_s Microsecond); [done| |left; done].
    change micro_s with (String.append micro_s EmptyString). unit_by I.
  - apply (Hdec 6%nat "ms" Millisecond); [done| |right; left; done].
    change "ms" with (String.append "ms" EmptyString). unit_by I.
Qed.

Lemma reads_unit u U rest v w :
  unitMap u = Some U -> u <> EmptyString ->
  forallb (fun c => negb (bool_decide (c = dot) || is_digit c)) (String.list_ascii_of_string u) = true ->
  0 < U -> 0 <= v -> v * U <= 2 ^ 63 -> 0 <= w -> reads rest w ->
  reads (fmtInt (String.append u rest) v) (v * U + w).
Proof.
  intros Hu Hne Hall HU Hv Hb Hw Hr. pose proof Hr as [Hbd _].
  apply (reads_component _ rest); [by apply boundary_fmtInt| |nia|done..].
  apply parse_integer; [|done..]. by apply unit_text_intro.
Qed.

Lemma reads_seconds u : Second <= u <= 2 ^ 63 -> reads (format_seconds u) u.
Proof.
  intros Hu. unfold format_seconds. change Second with (10 ^ Z.of_nat 9) in Hu.
  assert (unit_text "s" (10 ^ Z.of_nat 9) EmptyString) as Hs
    by (change "s" with (String.append "s" EmptyString); unit_by I).
  destruct (parse_printed "s" 9 EmptyString u Hs) as (s' & -> & Hp); [right; by right|lia|].
  set (total := u / 10 ^ Z.of_nat 9) in *. set (sub := u mod 10 ^ Z.of_nat 9) in *.
  assert (u = total * 10 ^ Z.of_nat 9 + sub) as Hsplit
    by (unfold total, sub; pose proof (Z.div_mod u (10 ^ Z.of_nat 9)); lia).
  assert (0 <= sub < 10 ^ Z.of_nat 9) by (apply Z.mod_pos_bound; done).
  assert (0 <= total) by (apply Z.div_pos; lia).
  clearbody total sub. change (10 ^ Z.of_nat 9) with 1000000000 in *.
  pose proof (Z.div_mod total 60). pose proof (Z.mod_pos_bound total 60).
  assert (reads (fmtInt s' (total mod 60)) (total mod 60 * 1000000000 + sub)) as Hsec.
  { apply reads_last; [apply boundary_fmtInt; lia|apply Hp; lia|lia]. }
  destruct (0 <? total / 60) eqn:?; zbool.
  2:{ assert (total / 60 = 0) by (pose proof (Z.div_pos total 60); lia).
      by replace u with (total mod 60 * 1000000000 + sub) by lia. }
  set (minutes := total / 60) in *. clearbody minutes.
  pose proof (Z.div_mod minutes 60). pose proof (Z.mod_pos_bound minutes 60).
  assert (reads (fmtInt (String.append "m" (fmtInt s' (total mod 60))) (minutes mod 60))
    (minutes mod 60 * MinuteD + (total mod 60 * 1000000000 + sub))) as Hmin.
  { apply reads_unit; try done; unfold MinuteD, Second, Millisecond; lia. }
  unfold MinuteD, Second, Millisecond in *.
  destruct (0 <? minutes / 60) eqn:?; zbool.
  2:{ assert (minutes / 60 = 0) by (pose proof (Z.div_pos minutes 60); lia).
      replace u with (minutes mod 60 * (60 * (1000 * 1000000)) + (total mod 60 * 1000000000 + sub)) by lia.
      exact Hmin. }
  replace u with (minutes / 60 * HourD + (minutes mod 60 * (60 * (1000 * 1000000)) +
    (total mod 60 * 1000000000 + sub))) by (unfold HourD, MinuteD, Second, Millisecond; lia).
  apply reads_unit; try done; unfold HourD, MinuteD, Second, Millisecond; lia.
Qed.

Lemma split_sign_boundary s : boundary s -> split_sign s = (false, s).
Proof.
  destruct s as [|c s]; simpl; [done|]. intros Hc.
  destruct (bool_decide_reflect (c = Ascii.ascii_of_nat 45)) as [->|]; [done|].
  destruct (bool_decide_reflect (c = Ascii.ascii_of_nat 43)) as [->|]; done.
Qed.

(** Reading the text a duration prints as gives the duration back,
    for every int64, the least one included. *)
Lemma duration_roundtrip (d : Duration) :
  in_int64 d -> ParseDuration (Duration_String d) = Some d.
Proof.
  intros Hd. unfold in_int64, min_int64, max_int64 in Hd. unfold Duration_String.
  destruct (Z.abs d =? 0) eqn:?; zbool; [by replace d with 0 by lia|].
  set (body := if _ <? Second then _ else _).
  assert (reads body (Z.abs d)) as [Hbd Hread].
  { unfold body. destruct (Z.abs d <? Second) eqn:?; zbool;
      [apply reads_below_second; lia|apply reads_seconds; lia]. }
  clearbody body. specialize (Hread 0 ltac:(lia) ltac:(lia)). rewrite Z.add_0_l in Hread.
  assert (body <> "0") by (intros ->; by vm_compute in Hread).
  assert (body <> EmptyString) by (intros ->; simpl in Hread; simplify_eq; lia).
  assert (String.eqb body "0" = false) as Hne by (by apply String.eqb_neq).
  unfold ParseDuration. destruct (d <? 0) eqn:?; zbool.
  - change (split_sign (String.append "-" body)) with (true, body).
    cbv zeta beta iota. rewrite Hne, bool_decide_false, Hread by done. f_equal.
    destruct (decide (d = - 2 ^ 63)) as [->|]; [done|].
    rewrite !wrap64_id; unfold in_int64, min_int64, max_int64; try lia.
    rewrite wrap64_id; unfold in_int64, min_int64, max_int64; lia.
  - rewrite split_sign_boundary, Hne, bool_decide_false, Hread by done.
    destruct (2 ^ 63 - 1 <? _) eqn:?; zbool; [lia|]. f_equal. lia.
Qed.
