(* ===== verification/Base64.v ===== *)
(** internal/service/common/base64.go: the URL-safe base64 of page tokens, and
    encoding/base64's RawURLEncoding that it calls. Byte slices are strings. *)
From S2P Require Import Prelude Errors.

(** ** base64.RawURLEncoding *)

Definition byte_of (c : Ascii.ascii) : Z := Z.of_nat (Ascii.nat_of_ascii c).
Definition char_of (b : Z) : Ascii.ascii := Ascii.ascii_of_nat (Z.to_nat b).

(** A-Z, a-z, 0-9, "-", "_". *)
Definition alphabet : string := "ABCDEFGHIJKLMNOPQRSTUVWXYZabcdefghijklmnopqrstuvwxyz0123456789-_".

Definition encode_char (n : Z) : Ascii.ascii :=
  default (char_of 0) (String.get (Z.to_nat n) alphabet).

Definition decode_char (c : Ascii.ascii) : option Z :=
  let b := byte_of c in
  if (65 <=? b) && (b <=? 90) then Some (b - 65)
  else if (97 <=? b) && (b <=? 122) then Some (b - 71)
  else if (48 <=? b) && (b <=? 57) then Some (b + 4)
  else if b =? 45 then Some 62
  else if b =? 95 then Some 63
  else None.

(** Three bytes make four characters; one or two that are left over make two or
    three, without padding. *)
Fixpoint EncodeToString (src : string) : string :=
  match src with
  | String a (String b (String c rest)) =>
      let n := (byte_of a * 256 + byte_of b) * 256 + byte_of c in
      String (encode_char (n / 2 ^ 18)) (String (encode_char (n / 2 ^ 12 mod 64))
        (String (encode_char (n / 2 ^ 6 mod 64)) (String (encode_char (n mod 64))
          (EncodeToString rest))))
  | String a (String b EmptyString) =>
      let n := (byte_of a * 256 + byte_of b) * 256 in
      String (encode_char (n / 2 ^ 18)) (String (encode_char (n / 2 ^ 12 mod 64))
        (String (encode_char (n / 2 ^ 6 mod 64)) EmptyString))
  | String a EmptyString =>
      let n := byte_of a * 256 * 256 in
      String (encode_char (n / 2 ^ 18)) (String (encode_char (n / 2 ^ 12 mod 64)) EmptyString)
  | EmptyString => EmptyString
  end.

(** Line breaks are skipped wherever they are. *)
Fixpoint skip_newlines (s : string) : string :=
  match s with
  | EmptyString => EmptyString
  | String c s =>
      if (byte_of c =? 10) || (byte_of c =? 13) then skip_newlines s else String c (skip_newlines s)
  end.

Definition quantum (a b c d : Z) : Z := ((a * 64 + b) * 64 + c) * 64 + d.

(** The bits left over in a last, short quantum are not looked at. *)
Fixpoint decode_quanta (s : string) : option string :=
  match s with
  | EmptyString => Some EmptyString
  | String a (String b rest) =>
      match decode_char a, decode_char b with
      | Some a, Some b =>
          match rest with
          | EmptyString =>
              Some (String (char_of (quantum a b 0 0 / 2 ^ 16)) EmptyString)
          | String c rest =>
              match decode_char c with
              | None => None
              | Some c =>
                  match rest with
                  | EmptyString =>
                      let n := quantum a b c 0 in
                      Some (String (char_of (n / 2 ^ 16)) (String (char_of (n / 2 ^ 8 mod 256))
                        EmptyString))
                  | String d rest =>
                      match decode_char d, decode_quanta rest with
                      | Some d, Some tail =>
                          let n := quantum a b c d in
                          Some (String (char_of (n / 2 ^ 16)) (String (char_of (n / 2 ^ 8 mod 256))
                            (String (char_of (n mod 256)) tail)))
                      | _, _ => None
                      end
                  end
              end
          end
      | _, _ => None
      end
  | String _ EmptyString => None
  end.

Definition DecodeString (s : string) : option string := decode_quanta (skip_newlines s).

(** ** internal/service/common/base64.go *)

Definition EncodeBase64 (b : string) : string := EncodeToString b.

Definition DecodeBase64 (s : string) : result error string :=
  match DecodeString s with
  | Some data => Ok data
  | None => Err (wrapf "decode base64" (New "illegal base64 data"))
  end.

(** ** Round trip *)

Lemma byte_of_range c : 0 <= byte_of c < 256.
Proof.
  unfold byte_of. pose proof (Ascii.nat_ascii_bounded c). lia.
Qed.

Lemma char_byte c : char_of (byte_of c) = c.
Proof. unfold char_of, byte_of. by rewrite Nat2Z.id, Ascii.ascii_nat_embedding. Qed.

Lemma alphabet_sound n :
  0 <= n < 64 ->
  decode_char (encode_char n) = Some n /\ byte_of (encode_char n) <> 10 /\ byte_of (encode_char n) <> 13.
Proof.
  intros Hn.
  assert (forallb (fun k => let c := encode_char (Z.of_nat k) in
    bool_decide (decode_char c = Some (Z.of_nat k)) && negb (byte_of c =? 10) && negb (byte_of c =? 13))
    (seq 0 64) = true) as Hall by (vm_compute; reflexivity).
  rewrite forallb_forall in Hall. specialize (Hall (Z.to_nat n)).
  rewrite Z2Nat.id in Hall by lia. cbv zeta in Hall.
  apply andb_true_iff in Hall as [[H1 H2]%andb_true_iff H3]; [|apply in_seq; lia].
  apply bool_decide_eq_true in H1. apply negb_true_iff in H2, H3. zbool. done.
Qed.

Lemma skip_encoded n s :
  0 <= n < 64 -> skip_newlines (String (encode_char n) s) = String (encode_char n) (skip_newlines s).
Proof.
  intros Hn. destruct (alphabet_sound n Hn) as (_ & H1 & H2). simpl.
  by rewrite (proj2 (Z.eqb_neq _ _) H1), (proj2 (Z.eqb_neq _ _) H2).
Qed.

(** The four sextets of a 24-bit number, and its three bytes. *)
Lemma sextets n :
  0 <= n < 2 ^ 24 ->
  0 <= n / 2 ^ 18 < 64 /\ 0 <= n / 2 ^ 12 mod 64 < 64 /\ 0 <= n / 2 ^ 6 mod 64 < 64 /\
  0 <= n mod 64 < 64 /\
  quantum (n / 2 ^ 18) (n / 2 ^ 12 mod 64) (n / 2 ^ 6 mod 64) (n mod 64) = n.
Proof.
  intros Hn. unfold quantum.
  change (2 ^ 18) with (64 * 64 * 64). change (2 ^ 12) with (64 * 64). change (2 ^ 6) with 64.
  rewrite <- !Z.div_div by lia.
  pose proof (Z.div_mod n 64). pose proof (Z.mod_pos_bound n 64).
  pose proof (Z.div_mod (n / 64) 64). pose proof (Z.mod_pos_bound (n / 64) 64).
  pose proof (Z.div_mod (n / 64 / 64) 64). pose proof (Z.mod_pos_bound (n / 64 / 64) 64).
  lia.
Qed.

Lemma bytes_of_sum a b c :
  0 <= a < 256 -> 0 <= b < 256 -> 0 <= c < 256 ->
  let n := (a * 256 + b) * 256 + c in
  0 <= n < 2 ^ 24 /\ n / 2 ^ 16 = a /\ n / 2 ^ 8 mod 256 = b /\ n mod 256 = c.
Proof.
  intros Ha Hb Hc n. unfold n. change (2 ^ 16) with (256 * 256). change (2 ^ 8) with 256.
  rewrite <- Z.div_div by lia.
  rewrite !(Z.div_add_l _ 256 c) by lia. rewrite (Z.div_small c) by lia. rewrite Z.add_0_r.
  rewrite (Z.div_add_l a 256 b) by lia. rewrite (Z.div_small b) by lia. rewrite Z.add_0_r.
  rewrite (Z.add_comm _ c), (Z.add_comm _ b), !Z.mod_add by lia.
  rewrite (Z.mod_small b), (Z.mod_small c) by lia. lia.
Qed.

Lemma string_ind3 (P : string -> Prop) :
  P EmptyString -> (forall a, P (String a EmptyString)) ->
  (forall a b, P (String a (String b EmptyString))) ->
  (forall a b c s, P s -> P (String a (String b (String c s)))) -> forall s, P s.
Proof.
  intros H0 H1 H2 H3.
  assert (forall n s, (String.length s <= n)%nat -> P s) as Hall; [|intros s; by eapply Hall].
  induction n as [|n IH]; intros [|a [|b [|c s]]] Hlen; simpl in Hlen; auto; try lia.
  apply H3, IH. lia.
Qed.

Ltac decode_sextet := match goal with
  | |- context [decode_char (encode_char ?n)] =>
      rewrite (proj1 (alphabet_sound n ltac:(assumption)))
  end.

Lemma decode_encode s : DecodeString (EncodeToString s) = Some s.
Proof.
  unfold DecodeString. induction s as [|a|a b|a b c s IH] using string_ind3; [done|..];
    cbn [EncodeToString];
    pose proof (byte_of_range a); try pose proof (byte_of_range b); try pose proof (byte_of_range c).
  - replace (byte_of a * 256 * 256) with ((byte_of a * 256 + 0) * 256 + 0) by lia.
    destruct (bytes_of_sum (byte_of a) 0 0) as (Hn & Ha & _); [lia..|]. set (n := _ * 256 + 0) in *.
    destruct (sextets n Hn) as (? & ? & ? & ? & Hq).
    rewrite !skip_encoded by done. cbn [skip_newlines decode_quanta]. repeat decode_sextet.
    assert (n / 2 ^ 6 mod 64 = 0 /\ n mod 64 = 0) as [E1 E2] by (unfold n; split;
      [replace ((byte_of a * 256 + 0) * 256 + 0) with ((byte_of a * 16 * 64) * 64) by lia|
       replace ((byte_of a * 256 + 0) * 256 + 0) with ((byte_of a * 1024) * 64) by lia];
      [change (2 ^ 6) with 64; rewrite Z.div_mul by lia|]; by apply Z.mod_mul).
    rewrite E1, E2 in Hq. rewrite Hq. by rewrite Ha, char_byte.
  - replace ((byte_of a * 256 + byte_of b) * 256) with ((byte_of a * 256 + byte_of b) * 256 + 0) by lia.
    destruct (bytes_of_sum (byte_of a) (byte_of b) 0) as (Hn & Ha & Hb & _); [lia..|].
    set (n := _ * 256 + 0) in *.
    destruct (sextets n Hn) as (? & ? & ? & ? & Hq).
    rewrite !skip_encoded by done. cbn [skip_newlines decode_quanta]. repeat decode_sextet.
    assert (n mod 64 = 0) as E2 by (unfold n;
       replace ((byte_of a * 256 + byte_of b) * 256 + 0) with
         (((byte_of a * 256 + byte_of b) * 4) * 64) by lia; by apply Z.mod_mul).
    rewrite E2 in Hq. rewrite Hq. by rewrite Ha, Hb, !char_byte.
  - destruct (bytes_of_sum (byte_of a) (byte_of b) (byte_of c)) as (Hn & Ha & Hb & Hc); [lia..|].
    set (n := _ * 256 + byte_of c) in *.
    destruct (sextets n Hn) as (? & ? & ? & ? & Hq).
    rewrite !skip_encoded by done. cbn [decode_quanta]. repeat decode_sextet.
    rewrite IH, Hq. by rewrite Ha, Hb, Hc, !char_byte.
Qed.

Lemma DecodeBase64_Encode s : DecodeBase64 (EncodeBase64 s) = Ok s.
Proof. unfold DecodeBase64, EncodeBase64. by rewrite decode_encode. Qed.

Example base64_examples :
  EncodeToString "light work." = "bGlnaHQgd29yay4" /\ DecodeString "bGlnaHQgd29yay4" = Some "light work." /\
  DecodeString "bGlnaHQ=" = None /\ DecodeString "bGlna" = None /\ DecodeString "b+" = None.
Proof. by vm_compute. Qed.
