(* ===== verification/Json.v ===== *)
(** encoding/json as the program uses it: JSON values as trees, and the
    struct codec that struct tags and embedding define.

    The wire text is kept as a tree (an integer literal, a float literal, a
    string, ...). A timestamp is kept as a leaf of its own instead of its
    RFC 3339 text, and strings are assumed to be valid UTF-8. *)
From S2P Require Import Prelude.
From S2P Require Import GoTime.

Inductive json :=
| JNull
| JBool (b : bool)
| JInt (z : Z)
| JFloat (f : float64)
| JString (s : string)
| JTime (t : Time)
| JArr (l : list json)
| JObj (l : list (string * json)).

(** [map[string]any]: [None] is the nil map. *)
Abbreviation any_map := (option (list (string * json))) (only parsing).

(** ** Struct fields

    One exported field of a struct type [T]: its JSON name, its embedding
    depth, whether [omitempty] drops it, its encoding ([None]: Marshal fails)
    and the effect of decoding a value into it ([None]: Unmarshal fails). *)
Record Field (T : Type) := mkField {
  f_name : string;
  f_depth : nat;
  f_omit : T -> bool;
  f_get : T -> option json;
  f_set : json -> T -> option T;
}.
Arguments mkField {T}.
Arguments f_name {T}. Arguments f_depth {T}. Arguments f_omit {T}.
Arguments f_get {T}. Arguments f_set {T}.

(** Fields of an embedded struct: promoted, one level deeper. *)
Definition embed {S T} (get : S -> T) (set : T -> S -> S) (f : Field T) : Field S :=
  mkField f.(f_name) (Datatypes.S f.(f_depth))
    (fun s => f.(f_omit) (get s))
    (fun s => f.(f_get) (get s))
    (fun j s => match f.(f_set) j (get s) with Some t => Some (set t s) | None => None end).

(** Go's rule for tagged names that collide: the least nested field wins, and
    two at the same least depth annihilate each other. *)
Definition dominant {T} (fs : list (Field T)) (f : Field T) : bool :=
  Nat.eqb 1 (length (List.filter (fun g =>
    String.eqb g.(f_name) f.(f_name) && Nat.leb g.(f_depth) f.(f_depth)) fs)).

Definition typeFields {T} (fs : list (Field T)) : list (Field T) :=
  List.filter (dominant fs) fs.

Fixpoint encode_fields {T} (fs : list (Field T)) (t : T) : option (list (string * json)) :=
  match fs with
  | [] => Some []
  | f :: fs' =>
      if f.(f_omit) t then encode_fields fs' t
      else match f.(f_get) t, encode_fields fs' t with
      | Some j, Some l => Some ((f.(f_name), j) :: l)
      | _, _ => None
      end
  end.

Definition Marshal {T} (fs : list (Field T)) (t : T) : option json :=
  match encode_fields (typeFields fs) t with Some l => Some (JObj l) | None => None end.

(** The field a key decodes into: the exact name, else the first that agrees
    up to (ASCII) case. *)
Definition lower_ascii (c : Ascii.ascii) : Ascii.ascii :=
  let n := Ascii.nat_of_ascii c in
  if Nat.leb 65 n && Nat.leb n 90 then Ascii.ascii_of_nat (n + 32) else c.

Fixpoint lower (s : string) : string :=
  match s with
  | EmptyString => EmptyString
  | String c s => String (lower_ascii c) (lower s)
  end.

Definition find_field {T} (fs : list (Field T)) (key : string) : option (Field T) :=
  match List.find (fun f => String.eqb f.(f_name) key) fs with
  | Some f => Some f
  | None => List.find (fun f => String.eqb (lower f.(f_name)) (lower key)) fs
  end.

Fixpoint decode_fields {T} (fs : list (Field T)) (l : list (string * json)) (t : T) : option T :=
  match l with
  | [] => Some t
  | (k, j) :: l' =>
      match find_field fs k with
      | None => decode_fields fs l' t
      | Some f => match f.(f_set) j t with
                  | Some t' => decode_fields fs l' t'
                  | None => None
                  end
      end
  end.

(** json.Unmarshal into a struct that holds [t] (its zero value in the program). *)
Definition Unmarshal {T} (fs : list (Field T)) (j : json) (t : T) : option T :=
  match j with
  | JObj l => decode_fields (typeFields fs) l t
  | JNull => Some t
  | _ => None
  end.

(** ** Codecs of the field types *)

Definition never {T} : T -> bool := fun _ => false.

Definition dec_int (j : json) (old : Z) : option Z :=
  match j with
  | JInt z => if bool_decide (in_int64 z) then Some z else None
  | JNull => Some old
  | _ => None
  end.

Definition enc_float (f : float64) : option json :=
  match f with S754_nan | S754_infinity _ => None | _ => Some (JFloat f) end.
Definition dec_float (j : json) (old : float64) : option float64 :=
  match j with
  | JFloat f => Some f
  | JInt z => Some (f64_of_Z z)
  | JNull => Some old
  | _ => None
  end.

Definition dec_string (j : json) (old : string) : option string :=
  match j with JString s => Some s | JNull => Some old | _ => None end.

Definition dec_bool (j : json) (old : bool) : option bool :=
  match j with JBool b => Some b | JNull => Some old | _ => None end.

(** MarshalJSON of time.Time fails outside the years 0 to 9999. *)
Definition year_ok (t : Time) : bool :=
  (-62167219200 * Second <=? t) && (t <? 253402300800 * Second).
Definition enc_time (t : Time) : option json :=
  if year_ok t then Some (JTime t) else None.
Definition dec_time (j : json) (old : Time) : option Time :=
  match j with JTime t => Some t | JNull => Some old | _ => None end.

Definition enc_time_ptr (t : option Time) : option json :=
  match t with None => Some JNull | Some t => enc_time t end.
Definition dec_time_ptr (j : json) : option (option Time) :=
  match j with JNull => Some None | JTime t => Some (Some t) | _ => None end.

Definition enc_map (m : any_map) : json :=
  match m with None => JNull | Some l => JObj l end.
Definition dec_map (j : json) : option any_map :=
  match j with JNull => Some None | JObj l => Some (Some l) | _ => None end.

(** A []T: the elements decode into those already there, then into zero values;
    null is the nil slice. *)
Fixpoint dec_elems {T} (zero : T) (dec : json -> T -> option T) (l : list json) (old : list T)
    : option (list T) :=
  match l with
  | [] => Some []
  | j :: l =>
      match dec j (hd zero old), dec_elems zero dec l (tl old) with
      | Some t, Some ts => Some (t :: ts)
      | _, _ => None
      end
  end.

Definition dec_slice {T} (zero : T) (dec : json -> T -> option T) (j : json) (old : list T)
    : option (list T) :=
  match j with JNull => Some [] | JArr l => dec_elems zero dec l old | _ => None end.

(** A *T: null is the nil pointer. *)
Definition dec_ptr {T} (zero : T) (dec : json -> T -> option T) (j : json) (old : option T)
    : option (option T) :=
  match j with JNull => Some None | _ => Some <$> dec j (default zero old) end.

Definition enc_slice {T} (enc : T -> option json) (l : list T) : option json :=
  JArr <$> mapM enc l.

(** Fields of a struct that is only decoded, or only encoded. *)
Definition in_field {T} (name : string) (set : json -> T -> option T) : Field T :=
  mkField name 0 never (fun _ => None) set.
Definition out_field {T} (name : string) (get : T -> option json) : Field T :=
  mkField name 0 never get (fun _ _ => None).
Definition out_omitempty {T} (name : string) (empty : T -> bool) (get : T -> option json) : Field T :=
  mkField name 0 empty get (fun _ _ => None).

(** ** Lemmas *)

Lemma dec_int_enc z old : in_int64 z -> dec_int (JInt z) old = Some z.
Proof. intros. simpl. by rewrite bool_decide_true. Qed.

Lemma dec_float_enc f j old : enc_float f = Some j -> dec_float j old = Some f.
Proof. destruct f; intros; simplify_eq/=; done. Qed.

Lemma dec_time_enc t j old : enc_time t = Some j -> dec_time j old = Some t.
Proof. unfold enc_time. intros. case_match; simplify_eq/=; done. Qed.

Lemma dec_time_ptr_enc t j : enc_time_ptr t = Some j -> dec_time_ptr j = Some t.
Proof. destruct t; simpl; unfold enc_time; intros; [case_match|]; simplify_eq/=; done. Qed.

Lemma dec_map_enc m : dec_map (enc_map m) = Some m.
Proof. by destruct m. Qed.

#[export] Hint Rewrite dec_map_enc : go.

(** A name that occurs at two depths decodes and encodes at the outer one only. *)
Lemma dominant_shadowed {T} (fs : list (Field T)) f g :
  f ∈ fs -> g ∈ fs -> f.(f_name) = g.(f_name) -> (f.(f_depth) < g.(f_depth))%nat ->
  dominant fs g = false.
Proof.
  intros Hf Hg Hn Hd. unfold dominant. apply Nat.eqb_neq.
  set (p := fun h : Field T => _ && _).
  assert (p f = true) as Hpf.
  { unfold p. rewrite Hn, String.eqb_refl. simpl. apply Nat.leb_le. lia. }
  assert (p g = true) as Hpg.
  { unfold p. rewrite String.eqb_refl. simpl. by apply Nat.leb_le. }
  assert (f <> g) as Hne by (intros ->; lia).
  apply list_elem_of_In in Hf, Hg.
  destruct (List.filter p fs) as [|a [|b l]] eqn:E; simpl; try lia.
  assert (List.In f [a]) as [->|[]] by (rewrite <- E; by apply List.filter_In).
  assert (List.In g [f]) as [->|[]] by (rewrite <- E; by apply List.filter_In).
  done.
Qed.
