(* ===== verification/Domain.v ===== *)
(** The data of the program: internal/domain/campaign.go and the storage
    records of internal/repository/interfaces.go. *)
From S2P Require Import Prelude GoTime Json.

(** A uuid.UUID is a 128-bit value; uuid.Nil is 0. *)
Abbreviation uuid := N (only parsing).
Definition uuid_Nil : uuid := 0%N.

(** ** Lifecycle states *)

Inductive CampaignStatus :=
| CampaignStatusPending
| CampaignStatusInProgress
| CampaignStatusCompleted
| CampaignStatusFailed
| CampaignStatusPaused.

#[export] Instance CampaignStatus_eq_dec : EqDecision CampaignStatus.
Proof. solve_decision. Defined.

Definition campaign_status_text (s : CampaignStatus) : string :=
  match s with
  | CampaignStatusPending => "pending"
  | CampaignStatusInProgress => "in_progress"
  | CampaignStatusCompleted => "completed"
  | CampaignStatusFailed => "failed"
  | CampaignStatusPaused => "paused"
  end.

(** A CallStatus is a string in Go, and the status worker converts whatever
    text a message carries; [CallStatusOther] holds the other texts. *)
Inductive CallStatus :=
| CallStatusPending
| CallStatusQueued
| CallStatusDialing
| CallStatusCompleted
| CallStatusFailed
| CallStatusRetrying
| CallStatusOther (text : string).

#[export] Instance CallStatus_eq_dec : EqDecision CallStatus.
Proof. solve_decision. Defined.

Definition call_status_text (s : CallStatus) : string :=
  match s with
  | CallStatusPending => "pending"
  | CallStatusQueued => "queued"
  | CallStatusDialing => "dialing"
  | CallStatusCompleted => "completed"
  | CallStatusFailed => "failed"
  | CallStatusRetrying => "retrying"
  | CallStatusOther t => t
  end.

(** domain.CallStatus(text) *)
Definition call_status_of (text : string) : CallStatus :=
  if bool_decide (text = "pending") then CallStatusPending
  else if bool_decide (text = "queued") then CallStatusQueued
  else if bool_decide (text = "dialing") then CallStatusDialing
  else if bool_decide (text = "completed") then CallStatusCompleted
  else if bool_decide (text = "failed") then CallStatusFailed
  else if bool_decide (text = "retrying") then CallStatusRetrying
  else CallStatusOther text.

(** ** Campaigns *)

Record BusinessHourWindow := mkWindow {
  w_DayOfWeek : WeekdayT;
  w_Start : Time;
  w_End : Time;
}.

Record RetryPolicy := mkRetryPolicy {
  rp_MaxAttempts : int;
  rp_BaseDelay : Duration;
  rp_MaxDelay : Duration;
  rp_Jitter : float64;
}.

Record Campaign := mkCampaign {
  c_ID : uuid;
  c_Name : string;
  c_Description : string;
  c_TimeZone : string;
  c_BusinessHours : list BusinessHourWindow;
  c_MaxConcurrentCalls : int;
  c_RetryPolicy : RetryPolicy;
  c_Status : CampaignStatus;
  c_CreatedAt : Time;
  c_UpdatedAt : Time;
  c_StartedAt : option Time;
  c_CompletedAt : option Time;
}.

(** ** Calls *)

Record Call := mkCall {
  call_ID : uuid;
  call_CampaignID : uuid;
  call_PhoneNumber : string;
  call_Status : CallStatus;
  call_AttemptCount : int;
  call_LastAttemptAt : option Time;
  call_ScheduledAt : Time;
  call_CreatedAt : Time;
  call_UpdatedAt : Time;
  call_LastError : option string;
}.

Record CallAttempt := mkCallAttempt {
  att_ID : uuid;
  att_CallID : uuid;
  att_AttemptNum : int;
  att_Status : CallStatus;
  att_Error : string;
  att_CreatedAt : Time;
  att_Duration : Duration;
}.

(** ** Statistics *)

Record CampaignStats := mkStats {
  st_TotalCalls : int64;
  st_CompletedCalls : int64;
  st_FailedCalls : int64;
  st_InProgressCalls : int64;
  st_PendingCalls : int64;
  st_RetriesAttempted : int64;
}.

#[export] Instance CampaignStats_eq_dec : EqDecision CampaignStats.
Proof. solve_decision. Defined.

Definition zero_stats : CampaignStats := mkStats 0 0 0 0 0 0.

Record StatsDelta := mkDelta {
  d_TotalCalls : int64;
  d_CompletedCalls : int64;
  d_FailedCalls : int64;
  d_InProgressCalls : int64;
  d_PendingCalls : int64;
  d_Retries : int64;
}.

#[export] Instance StatsDelta_eq_dec : EqDecision StatsDelta.
Proof. solve_decision. Defined.

Definition zero_delta : StatsDelta := mkDelta 0 0 0 0 0 0.

(** ** Targets *)

Record CampaignTargetRecord := mkTarget {
  t_ID : uuid;
  t_CampaignID : uuid;
  t_PhoneNumber : string;
  t_Payload : any_map;
  t_State : string;
  t_ScheduledAt : option Time;
  t_LastAttempt : option Time;
  t_AttemptCount : int;
  t_CreatedAt : Time;
}.

(** ** Lemmas *)

Lemma call_status_of_text s :
  (forall t, s = CallStatusOther t -> call_status_of t = CallStatusOther t) ->
  call_status_of (call_status_text s) = s.
Proof. destruct s; intros H; [done..|]. by apply H. Qed.

Lemma call_status_text_of t : call_status_text (call_status_of t) = t.
Proof. unfold call_status_of. repeat (case_bool_decide; [by subst|]). done. Qed.
