(* ===== verification/Messages.v ===== *)
(** The messages of internal/queue/messages.go and their JSON encoding. *)
From S2P Require Import Prelude GoTime Json Domain.

(** What the messages rely on of github.com/google/uuid: MarshalText and
    UnmarshalText, and that the second reads back the first. *)
Class UuidText := {
  uuid_text : uuid -> string;
  uuid_parse : string -> option uuid;
  uuid_parse_text : forall u, uuid_parse (uuid_text u) = Some u;
}.

Definition enc_uuid `{UuidText} (u : uuid) : json := JString (uuid_text u).
Definition dec_uuid `{UuidText} (j : json) (old : uuid) : option uuid :=
  match j with JString s => uuid_parse s | JNull => Some old | _ => None end.

(** ** The message types *)

Record DispatchMessage := mkDispatch {
  dm_CallID : uuid;
  dm_CampaignID : uuid;
  dm_PhoneNumber : string;
  dm_Attempt : int;
  dm_MaxAttempts : int;
  dm_RetryBaseMs : int64;
  dm_RetryMaxMs : int64;
  dm_RetryJitter : float64;
  dm_ConcurrencyLimit : int;
  dm_Metadata : any_map;
  dm_EnqueuedAt : Time;
}.

Record StatusMessage := mkStatus {
  sm_CallID : uuid;
  sm_CampaignID : uuid;
  sm_PhoneNumber : string;
  sm_Status : string;
  sm_Attempt : int;
  sm_MaxAttempts : int;
  sm_Retryable : bool;
  sm_RetryBaseMs : int64;
  sm_RetryMaxMs : int64;
  sm_RetryJitter : float64;
  sm_ConcurrencyLimit : int;
  sm_DurationMs : int64;
  sm_Error : string;
  sm_OccurredAt : Time;
  sm_NextAttempt : option Time;
  sm_Metadata : any_map;
}.

(** RetryMessage embeds DispatchMessage and repeats its max_attempts field. *)
Record RetryMessage := mkRetry {
  rm_DispatchMessage : DispatchMessage;
  rm_MaxAttempts : int;
  rm_NextAttempt : Time;
}.

(** The zero values json.Unmarshal starts from. *)
Definition zero_dispatch : DispatchMessage :=
  mkDispatch uuid_Nil uuid_Nil EmptyString 0 0 0 0 f64_zero 0 None zero_time.
Definition zero_status : StatusMessage :=
  mkStatus uuid_Nil uuid_Nil EmptyString EmptyString 0 0 false 0 0 f64_zero 0 0
    EmptyString zero_time None None.
Definition zero_retry : RetryMessage := mkRetry zero_dispatch 0 zero_time.

(** ** Field updates *)

Definition set_dm_MaxAttempts (v : int) (m : DispatchMessage) : DispatchMessage :=
  let '(mkDispatch a b c d _ f g h i j k) := m in mkDispatch a b c d v f g h i j k.
Definition set_dm_EnqueuedAt (v : Time) (m : DispatchMessage) : DispatchMessage :=
  let '(mkDispatch a b c d e f g h i j _) := m in mkDispatch a b c d e f g h i j v.
Definition set_rm_DispatchMessage (v : DispatchMessage) (m : RetryMessage) : RetryMessage :=
  mkRetry v m.(rm_MaxAttempts) m.(rm_NextAttempt).

Section Fields.
Context `{UuidText}.

(** The json tags of DispatchMessage, in order. *)
Definition DispatchMessage_fields : list (Field DispatchMessage) := [
  mkField "call_id" 0 never (fun m => Some (enc_uuid m.(dm_CallID)))
    (fun x '(mkDispatch a b c d e f g h i j k) =>
       (fun v => mkDispatch v b c d e f g h i j k) <$> dec_uuid x a);
  mkField "campaign_id" 0 never (fun m => Some (enc_uuid m.(dm_CampaignID)))
    (fun x '(mkDispatch a b c d e f g h i j k) =>
       (fun v => mkDispatch a v c d e f g h i j k) <$> dec_uuid x b);
  mkField "phone_number" 0 never (fun m => Some (JString m.(dm_PhoneNumber)))
    (fun x '(mkDispatch a b c d e f g h i j k) =>
       (fun v => mkDispatch a b v d e f g h i j k) <$> dec_string x c);
  mkField "attempt" 0 never (fun m => Some (JInt m.(dm_Attempt)))
    (fun x '(mkDispatch a b c d e f g h i j k) =>
       (fun v => mkDispatch a b c v e f g h i j k) <$> dec_int x d);
  mkField "max_attempts" 0 never (fun m => Some (JInt m.(dm_MaxAttempts)))
    (fun x '(mkDispatch a b c d e f g h i j k) =>
       (fun v => mkDispatch a b c d v f g h i j k) <$> dec_int x e);
  mkField "retry_base_ms" 0 never (fun m => Some (JInt m.(dm_RetryBaseMs)))
    (fun x '(mkDispatch a b c d e f g h i j k) =>
       (fun v => mkDispatch a b c d e v g h i j k) <$> dec_int x f);
  mkField "retry_max_ms" 0 never (fun m => Some (JInt m.(dm_RetryMaxMs)))
    (fun x '(mkDispatch a b c d e f g h i j k) =>
       (fun v => mkDispatch a b c d e f v h i j k) <$> dec_int x g);
  mkField "retry_jitter" 0 never (fun m => enc_float m.(dm_RetryJitter))
    (fun x '(mkDispatch a b c d e f g h i j k) =>
       (fun v => mkDispatch a b c d e f g v i j k) <$> dec_float x h);
  mkField "concurrency_limit" 0 never (fun m => Some (JInt m.(dm_ConcurrencyLimit)))
    (fun x '(mkDispatch a b c d e f g h i j k) =>
       (fun v => mkDispatch a b c d e f g h v j k) <$> dec_int x i);
  mkField "metadata" 0 never (fun m => Some (enc_map m.(dm_Metadata)))
    (fun x '(mkDispatch a b c d e f g h i j k) =>
       (fun v => mkDispatch a b c d e f g h i v k) <$> dec_map x);
  mkField "enqueued_at" 0 never (fun m => enc_time m.(dm_EnqueuedAt))
    (fun x '(mkDispatch a b c d e f g h i j k) =>
       (fun v => mkDispatch a b c d e f g h i j v) <$> dec_time x k)
].

(** The json tags of StatusMessage, in order. *)
Definition StatusMessage_fields : list (Field StatusMessage) := [
  mkField "call_id" 0 never (fun m => Some (enc_uuid m.(sm_CallID)))
    (fun x '(mkStatus a b c d e f g h i j k l m n o p) =>
       (fun v => mkStatus v b c d e f g h i j k l m n o p) <$> dec_uuid x a);
  mkField "campaign_id" 0 never (fun m => Some (enc_uuid m.(sm_CampaignID)))
    (fun x '(mkStatus a b c d e f g h i j k l m n o p) =>
       (fun v => mkStatus a v c d e f g h i j k l m n o p) <$> dec_uuid x b);
  mkField "phone_number" 0 never (fun m => Some (JString m.(sm_PhoneNumber)))
    (fun x '(mkStatus a b c d e f g h i j k l m n o p) =>
       (fun v => mkStatus a b v d e f g h i j k l m n o p) <$> dec_string x c);
  mkField "status" 0 never (fun m => Some (JString m.(sm_Status)))
    (fun x '(mkStatus a b c d e f g h i j k l m n o p) =>
       (fun v => mkStatus a b c v e f g h i j k l m n o p) <$> dec_string x d);
  mkField "attempt" 0 never (fun m => Some (JInt m.(sm_Attempt)))
    (fun x '(mkStatus a b c d e f g h i j k l m n o p) =>
       (fun v => mkStatus a b c d v f g h i j k l m n o p) <$> dec_int x e);
  mkField "max_attempts" 0 never (fun m => Some (JInt m.(sm_MaxAttempts)))
    (fun x '(mkStatus a b c d e f g h i j k l m n o p) =>
       (fun v => mkStatus a b c d e v g h i j k l m n o p) <$> dec_int x f);
  mkField "retryable" 0 never (fun m => Some (JBool m.(sm_Retryable)))
    (fun x '(mkStatus a b c d e f g h i j k l m n o p) =>
       (fun v => mkStatus a b c d e f v h i j k l m n o p) <$> dec_bool x g);
  mkField "retry_base_ms" 0 never (fun m => Some (JInt m.(sm_RetryBaseMs)))
    (fun x '(mkStatus a b c d e f g h i j k l m n o p) =>
       (fun v => mkStatus a b c d e f g v i j k l m n o p) <$> dec_int x h);
  mkField "retry_max_ms" 0 never (fun m => Some (JInt m.(sm_RetryMaxMs)))
    (fun x '(mkStatus a b c d e f g h i j k l m n o p) =>
       (fun v => mkStatus a b c d e f g h v j k l m n o p) <$> dec_int x i);
  mkField "retry_jitter" 0 never (fun m => enc_float m.(sm_RetryJitter))
    (fun x '(mkStatus a b c d e f g h i j k l m n o p) =>
       (fun v => mkStatus a b c d e f g h i v k l m n o p) <$> dec_float x j);
  mkField "concurrency_limit" 0 never (fun m => Some (JInt m.(sm_ConcurrencyLimit)))
    (fun x '(mkStatus a b c d e f g h i j k l m n o p) =>
       (fun v => mkStatus a b c d e f g h i j v l m n o p) <$> dec_int x k);
  mkField "duration_ms" 0 never (fun m => Some (JInt m.(sm_DurationMs)))
    (fun x '(mkStatus a b c d e f g h i j k l m n o p) =>
       (fun v => mkStatus a b c d e f g h i j k v m n o p) <$> dec_int x l);
  mkField "error" 0 (fun m => bool_decide (m.(sm_Error) = EmptyString))
    (fun m => Some (JString m.(sm_Error)))
    (fun x '(mkStatus a b c d e f g h i j k l m n o p) =>
       (fun v => mkStatus a b c d e f g h i j k l v n o p) <$> dec_string x m);
  mkField "occurred_at" 0 never (fun m => enc_time m.(sm_OccurredAt))
    (fun x '(mkStatus a b c d e f g h i j k l m n o p) =>
       (fun v => mkStatus a b c d e f g h i j k l m v o p) <$> dec_time x n);
  mkField "next_attempt" 0 (fun m => bool_decide (m.(sm_NextAttempt) = None))
    (fun m => enc_time_ptr m.(sm_NextAttempt))
    (fun x '(mkStatus a b c d e f g h i j k l m n o p) =>
       (fun v => mkStatus a b c d e f g h i j k l m n v p) <$> dec_time_ptr x);
  mkField "metadata" 0 never (fun m => Some (enc_map m.(sm_Metadata)))
    (fun x '(mkStatus a b c d e f g h i j k l m n o p) =>
       (fun v => mkStatus a b c d e f g h i j k l m n o v) <$> dec_map x)
].

(** RetryMessage: the promoted fields of DispatchMessage one level deeper, then
    its own two fields. *)
Definition RetryMessage_fields : list (Field RetryMessage) :=
  map (embed rm_DispatchMessage set_rm_DispatchMessage) DispatchMessage_fields ++ [
  mkField "max_attempts" 0 never (fun m => Some (JInt m.(rm_MaxAttempts)))
    (fun x '(mkRetry d a n) => (fun v => mkRetry d v n) <$> dec_int x a);
  mkField "next_attempt" 0 never (fun m => enc_time m.(rm_NextAttempt))
    (fun x '(mkRetry d a n) => (fun v => mkRetry d a v) <$> dec_time x n)
].

Definition marshal_dispatch (m : DispatchMessage) : option json := Marshal DispatchMessage_fields m.
Definition unmarshal_dispatch (j : json) : option DispatchMessage :=
  Unmarshal DispatchMessage_fields j zero_dispatch.
Definition marshal_status (m : StatusMessage) : option json := Marshal StatusMessage_fields m.
Definition unmarshal_status (j : json) : option StatusMessage :=
  Unmarshal StatusMessage_fields j zero_status.
Definition marshal_retry (m : RetryMessage) : option json := Marshal RetryMessage_fields m.
Definition unmarshal_retry (j : json) : option RetryMessage :=
  Unmarshal RetryMessage_fields j zero_retry.
End Fields.

(** ** Well-formed messages: integers in the range of their Go type *)

Definition dispatch_wf (m : DispatchMessage) : Prop :=
  in_int64 m.(dm_Attempt) /\ in_int64 m.(dm_MaxAttempts) /\ in_int64 m.(dm_RetryBaseMs) /\
  in_int64 m.(dm_RetryMaxMs) /\ in_int64 m.(dm_ConcurrencyLimit).

Definition status_wf (m : StatusMessage) : Prop :=
  in_int64 m.(sm_Attempt) /\ in_int64 m.(sm_MaxAttempts) /\ in_int64 m.(sm_RetryBaseMs) /\
  in_int64 m.(sm_RetryMaxMs) /\ in_int64 m.(sm_ConcurrencyLimit) /\ in_int64 m.(sm_DurationMs).

Definition retry_wf (m : RetryMessage) : Prop :=
  dispatch_wf m.(rm_DispatchMessage) /\ in_int64 m.(rm_MaxAttempts).

(** ** Round trips *)

Section RoundTrips.
Context `{UuidText}.

(** No two fields of the message types collide, except the repeated
    max_attempts of RetryMessage, where the outer one wins. *)
Lemma typeFields_dispatch : typeFields DispatchMessage_fields = DispatchMessage_fields.
Proof. reflexivity. Qed.

Lemma typeFields_status : typeFields StatusMessage_fields = StatusMessage_fields.
Proof. reflexivity. Qed.

Lemma typeFields_retry :
  typeFields RetryMessage_fields =
  map (embed rm_DispatchMessage set_rm_DispatchMessage)
    (take 4 DispatchMessage_fields ++ drop 5 DispatchMessage_fields) ++
  drop 11 RetryMessage_fields.
Proof. reflexivity. Qed.

(** Steps one key of an object through the decoder. *)
Lemma decode_step {T} (fs : list (Field T)) k j l t f t' :
  find_field fs k = Some f -> f.(f_set) j t = Some t' ->
  decode_fields fs ((k, j) :: l) t = decode_fields fs l t'.
Proof. simpl. intros -> ->. done. Qed.

Lemma decode_fail {T} (fs : list (Field T)) k j l t f :
  find_field fs k = Some f -> f.(f_set) j t = None -> decode_fields fs ((k, j) :: l) t = None.
Proof. simpl. intros -> ->. done. Qed.

Lemma dec_int_fail z old : ~ in_int64 z -> dec_int (JInt z) old = None.
Proof. intros. simpl. by rewrite bool_decide_false. Qed.

Lemma dec_uuid_enc u old : dec_uuid (enc_uuid u) old = Some u.
Proof. apply uuid_parse_text. Qed.

Ltac codec_steps :=
  repeat (erewrite decode_step;
    [| reflexivity
     | cbn [f_set embed rm_DispatchMessage set_rm_DispatchMessage];
       first [ rewrite dec_uuid_enc | rewrite dec_int_enc by done | rewrite dec_map_enc
             | erewrite dec_float_enc by eassumption | erewrite dec_time_enc by eassumption
             | erewrite dec_time_ptr_enc by eassumption
             | progress cbn [dec_string dec_bool] ]; reflexivity ]);
  try reflexivity.

(** The same on a goal [decode_fields ... = Some r -> P], where an integer may
    turn out not to fit. *)
Ltac codec_step_known :=
  erewrite decode_step;
    [| reflexivity
     | cbn [f_set embed rm_DispatchMessage set_rm_DispatchMessage];
       first [ rewrite dec_uuid_enc | rewrite dec_int_enc by done | rewrite dec_map_enc
             | erewrite dec_float_enc by eassumption | erewrite dec_time_enc by eassumption
             | erewrite dec_time_ptr_enc by eassumption
             | progress cbn [dec_string dec_bool] ]; reflexivity ].
Ltac codec_steps_wf :=
  repeat first
  [ match goal with
    | |- decode_fields _ ((_, JInt ?z) :: _) _ = _ -> _ =>
        destruct (decide (in_int64 z));
        [ codec_step_known
        | erewrite decode_fail;
          [ intros; discriminate
          | reflexivity
          | cbn [f_set embed rm_DispatchMessage set_rm_DispatchMessage];
            rewrite dec_int_fail by done; reflexivity ] ]
    end
  | codec_step_known ].

Ltac open_marshal Hm :=
  unfold Marshal in Hm; rewrite ?typeFields_dispatch, ?typeFields_status in Hm.

Lemma unmarshal_marshal_dispatch m j :
  dispatch_wf m -> marshal_dispatch m = Some j -> unmarshal_dispatch j = Some m.
Proof.
  intros (?&?&?&?&?) Hm. unfold marshal_dispatch in Hm. open_marshal Hm.
  destruct m as [a b c d e f g h i k l]; simpl in *.
  destruct (enc_float h) eqn:Eh; [|done]. destruct (enc_time l) eqn:El; [|done].
  injection Hm as <-. unfold unmarshal_dispatch, Unmarshal, zero_dispatch. rewrite typeFields_dispatch.
  codec_steps.
Qed.

(** What can be read back was in range. *)
Lemma unmarshal_dispatch_wf m j m' :
  marshal_dispatch m = Some j -> unmarshal_dispatch j = Some m' -> dispatch_wf m.
Proof.
  intros Hm. unfold marshal_dispatch in Hm. open_marshal Hm.
  destruct m as [a b c d e f g h i k l]; simpl in *.
  destruct (enc_float h) eqn:Eh; [|done]. destruct (enc_time l) eqn:El; [|done].
  injection Hm as <-. unfold unmarshal_dispatch, Unmarshal, zero_dispatch. rewrite typeFields_dispatch.
  codec_steps_wf. intros _. by split_and!.
Qed.

Lemma unmarshal_marshal_status m j :
  status_wf m -> marshal_status m = Some j -> unmarshal_status j = Some m.
Proof.
  intros (?&?&?&?&?&?) Hm. unfold marshal_status in Hm. open_marshal Hm.
  destruct m as [a b c d e f g h i k l n o p q r]; simpl in *.
  destruct (enc_float k) eqn:Ek; [|by repeat case_bool_decide].
  destruct (enc_time p) eqn:Ep; [|by repeat case_bool_decide].
  destruct (enc_time_ptr q) eqn:Eq; [|by repeat case_bool_decide; subst].
  unfold unmarshal_status, Unmarshal, zero_status. rewrite typeFields_status.
  repeat case_bool_decide; subst; injection Hm as <-; codec_steps.
Qed.

Lemma unmarshal_status_wf m j m' :
  marshal_status m = Some j -> unmarshal_status j = Some m' -> status_wf m.
Proof.
  intros Hm. unfold marshal_status in Hm. open_marshal Hm.
  destruct m as [a b c d e f g h i k l n o p q r]; simpl in *.
  destruct (enc_float k) eqn:Ek; [|by repeat case_bool_decide].
  destruct (enc_time p) eqn:Ep; [|by repeat case_bool_decide].
  destruct (enc_time_ptr q) eqn:Eq; [|by repeat case_bool_decide; subst].
  unfold unmarshal_status, Unmarshal, zero_status. rewrite typeFields_status.
  repeat case_bool_decide; subst; injection Hm as <-; codec_steps_wf; intros _; by split_and!.
Qed.

(** What a retry message is after a trip over the wire. *)
Definition over_the_wire (m : RetryMessage) : RetryMessage :=
  set_rm_DispatchMessage (set_dm_MaxAttempts 0 m.(rm_DispatchMessage)) m.

Lemma unmarshal_marshal_retry m j :
  retry_wf m -> marshal_retry m = Some j -> unmarshal_retry j = Some (over_the_wire m).
Proof.
  intros [(?&?&?&?&?) ?] Hm. unfold marshal_retry, Marshal in Hm. rewrite typeFields_retry in Hm.
  destruct m as [[a b c d e f g h i k l] n o]; simpl in *.
  destruct (enc_float h) eqn:Eh; [|done]. destruct (enc_time l) eqn:El; [|done].
  destruct (enc_time o) eqn:Eo; [|done].
  injection Hm as <-. unfold unmarshal_retry, Unmarshal, zero_retry, zero_dispatch.
  rewrite typeFields_retry. codec_steps.
Qed.

(** What can be encoded: no jitter factor that is not a number, no far-off time. *)
Lemma marshal_dispatch_total d :
  is_Some (enc_float d.(dm_RetryJitter)) -> year_ok d.(dm_EnqueuedAt) = true -> is_Some (marshal_dispatch d).
Proof.
  intros [j Hj] Hy. unfold marshal_dispatch, Marshal. rewrite typeFields_dispatch.
  destruct d as [a b e f g h i k l m n]. cbn in *. rewrite Hj. unfold enc_time. rewrite Hy. by eexists.
Qed.

Lemma marshal_status_total s :
  is_Some (enc_float s.(sm_RetryJitter)) -> year_ok s.(sm_OccurredAt) = true ->
  is_Some (enc_time_ptr s.(sm_NextAttempt)) -> is_Some (marshal_status s).
Proof.
  intros [j Hj] Hy [n Hn]. unfold marshal_status, Marshal. rewrite typeFields_status.
  destruct s as [a b c d e f g h i k l m o p q r]. cbn in *. rewrite Hj, Hn. unfold enc_time. rewrite Hy.
  repeat case_bool_decide; by eexists.
Qed.

Lemma marshal_retry_total r :
  is_Some (enc_float r.(rm_DispatchMessage).(dm_RetryJitter)) ->
  year_ok r.(rm_DispatchMessage).(dm_EnqueuedAt) = true -> year_ok r.(rm_NextAttempt) = true ->
  is_Some (marshal_retry r).
Proof.
  intros [j Hj] Hy Hn. unfold marshal_retry, Marshal. rewrite typeFields_retry.
  destruct r as [[a b e f g h i k l m n] o p]. cbn in *. rewrite Hj. unfold enc_time. rewrite Hy, Hn. by eexists.
Qed.

(** What was encoded could be. *)
Lemma marshal_dispatch_some d v :
  marshal_dispatch d = Some v -> is_Some (enc_float d.(dm_RetryJitter)).
Proof.
  unfold marshal_dispatch, Marshal. rewrite typeFields_dispatch.
  destruct d as [a b e f g h i k l m n]. cbn. destruct (enc_float k); [by eexists|done].
Qed.

(** MaxAttempts of the embedded message is not on the wire: only the other
    integers must fit. *)
Lemma unmarshal_retry_wire m j m' :
  marshal_retry m = Some j -> unmarshal_retry j = Some m' -> m' = over_the_wire m.
Proof.
  intros Hm. unfold marshal_retry, Marshal in Hm. rewrite typeFields_retry in Hm.
  destruct m as [[a b c d e f g h i k l] n o]; simpl in *.
  destruct (enc_float h) eqn:Eh; [|done]. destruct (enc_time l) eqn:El; [|done].
  destruct (enc_time o) eqn:Eo; [|done].
  injection Hm as <-. unfold unmarshal_retry, Unmarshal, zero_retry, zero_dispatch.
  rewrite typeFields_retry. codec_steps_wf. by intros [= <-].
Qed.

Lemma unmarshal_dispatch_wire m j m' :
  marshal_dispatch m = Some j -> unmarshal_dispatch j = Some m' -> m' = m.
Proof.
  intros Hm Hu. pose proof (unmarshal_dispatch_wf _ _ _ Hm Hu) as Hwf.
  rewrite (unmarshal_marshal_dispatch m j Hwf Hm) in Hu. by simplify_eq.
Qed.

Lemma unmarshal_status_wire m j m' :
  marshal_status m = Some j -> unmarshal_status j = Some m' -> m' = m.
Proof.
  intros Hm Hu. pose proof (unmarshal_status_wf _ _ _ Hm Hu) as Hwf.
  rewrite (unmarshal_marshal_status m j Hwf Hm) in Hu. by simplify_eq.
Qed.
End RoundTrips.

(** ** Properties of the wire format *)

Section WireProperties.
Context `{UuidText}.

(** Claim C15: a retry message that goes over the wire comes back with the
    dispatch instruction it carries unchanged except for MaxAttempts, which is
    always 0: RetryMessage repeats the JSON name max_attempts at the outer level,
    so encoding/json neither writes nor reads the embedded field. *)
Theorem retry_roundtrip_loses_max_attempts (m : RetryMessage) (j : json) :
  retry_wf m -> marshal_retry m = Some j ->
  exists m', unmarshal_retry j = Some m' /\
    m'.(rm_DispatchMessage) = set_dm_MaxAttempts 0 m.(rm_DispatchMessage) /\
    m'.(rm_DispatchMessage).(dm_MaxAttempts) = 0 /\
    m'.(rm_MaxAttempts) = m.(rm_MaxAttempts) /\ m'.(rm_NextAttempt) = m.(rm_NextAttempt).
Proof.
  intros Hwf Hm. exists (over_the_wire m).
  rewrite (unmarshal_marshal_retry m j Hwf Hm). by destruct m as [[] ??].
Qed.

(** Dispatch and status messages whose integers fit their Go types
    survive the wire unchanged, whenever they can be encoded at all. *)
Theorem dispatch_status_roundtrip :
  (forall m j, dispatch_wf m -> marshal_dispatch m = Some j -> unmarshal_dispatch j = Some m) /\
  (forall m j, status_wf m -> marshal_status m = Some j -> unmarshal_status j = Some m).
Proof. split; [apply unmarshal_marshal_dispatch | apply unmarshal_marshal_status]. Qed.
End WireProperties.

(** ** A concrete identifier text, for examples: binary digits *)

Fixpoint bits_text (p : positive) : string :=
  match p with
  | xH => "1"
  | xO p => String "0"%char (bits_text p)
  | xI p => String "1"%char (bits_text p)
  end.

Fixpoint bits_parse (s : string) : option positive :=
  match s with
  | EmptyString => None
  | String c s' =>
      match bits_parse s' with
      | None => Some xH
      | Some p => Some (if Ascii.eqb c "0"%char then xO p else xI p)
      end
  end.

Definition bit_uuid_text (u : uuid) : string :=
  match u with N0 => "nil" | Npos p => String.append "u" (bits_text p) end.
Definition bit_uuid_parse (s : string) : option uuid :=
  match s with
  | String "u"%char s => Npos <$> bits_parse s
  | _ => Some 0%N
  end.

Lemma bits_parse_text p : bits_parse (bits_text p) = Some p.
Proof. induction p; simpl; [by rewrite IHp | by rewrite IHp | done]. Qed.

Lemma bit_uuid_parse_text u : bit_uuid_parse (bit_uuid_text u) = Some u.
Proof.
  destruct u as [|p]; [done|].
  change (Npos <$> bits_parse (bits_text p) = Some (Npos p)). by rewrite bits_parse_text.
Qed.

Definition bit_uuid : UuidText :=
  {| uuid_text := bit_uuid_text; uuid_parse := bit_uuid_parse;
     uuid_parse_text := bit_uuid_parse_text |}.

Definition sample_dispatch : DispatchMessage :=
  mkDispatch 7 3 "+15555550001" 1 4 2000 30000 f64_zero 10 None 1700000000000000000.
Definition sample_retry : RetryMessage :=
  mkRetry (set_dm_MaxAttempts 4 sample_dispatch) 4 1700000002000000000.

Lemma retry_roundtrip_witness :
  exists j, @marshal_retry bit_uuid sample_retry = Some j /\
  exists m', @unmarshal_retry bit_uuid j = Some m' /\
    m'.(rm_DispatchMessage) = set_dm_MaxAttempts 0 sample_retry.(rm_DispatchMessage) /\
    m'.(rm_DispatchMessage).(dm_MaxAttempts) = 0 /\
    m'.(rm_MaxAttempts) = sample_retry.(rm_MaxAttempts) /\
    m'.(rm_NextAttempt) = sample_retry.(rm_NextAttempt).
Proof.
  eexists. split; [reflexivity|].
  apply (@retry_roundtrip_loses_max_attempts bit_uuid sample_retry);
    [repeat split; discriminate | reflexivity].
Defined.

Lemma dispatch_roundtrip_witness :
  exists j, @marshal_dispatch bit_uuid sample_dispatch = Some j /\
            @unmarshal_dispatch bit_uuid j = Some sample_dispatch.
Proof.
  eexists. split; [reflexivity|].
  apply (proj1 (@dispatch_status_roundtrip bit_uuid));
    [repeat split; discriminate | reflexivity].
Defined.
