(* ===== verification/World.v ===== *)
(** The stores the program talks to, the oracle that stands for everything it
    does not decide itself, and the monad its code runs in: programs that make
    requests to the stores and go on with the replies.

    The tables are those of db/migrations; a statement of the program is
    translated to a function on them. What the engines are free to choose is in
    the oracle [Env]: whether a request gets through (and whether its reply
    does), clocks, fresh identifiers, random numbers, the zone database. *)
From S2P Require Import Prelude Errors GoTime Json Domain Messages.

(** ** Rows *)

(** campaigns; also the campaignRecord a query scans into. *)
Record campaignRecord := mkCampaignRow {
  cr_ID : uuid;
  cr_Name : string;
  cr_Description : option string;
  cr_TimeZone : string;
  cr_MaxConcurrentCalls : int;
  cr_Status : CampaignStatus;
  cr_RetryMaxAttempts : int;
  cr_RetryBaseDelayMs : int64;
  cr_RetryMaxDelayMs : int64;
  cr_RetryJitter : float64;
  cr_CreatedAt : option Time;
  cr_UpdatedAt : option Time;
  cr_StartedAt : option Time;
  cr_CompletedAt : option Time;
}.

(** campaign_business_hours *)
Record hourRow := mkHourRow {
  hr_campaign_id : uuid;
  hr_day_of_week : Z;
  hr_start_minute : Z;
  hr_end_minute : Z;
}.

#[export] Instance hourRow_eq_dec : EqDecision hourRow.
Proof. solve_decision. Defined.

(** campaign_targets, keyed by id *)
Record targetRow := mkTargetRow {
  tr_campaign_id : uuid;
  tr_phone_number : string;
  tr_payload : json;
  tr_state : string;
  tr_scheduled_at : option Time;
  tr_last_attempt_at : option Time;
  tr_attempt_count : Z;
  tr_created_at : Time;
}.

(** calls_by_campaign, keyed by (campaign_id, bucket, call_id) *)
Record callRow := mkCallRow {
  cl_phone_number : string;
  cl_status : CallStatus;
  cl_attempt_count : Z;
  cl_scheduled_at : Time;
  cl_last_attempt_at : option Time;
  cl_updated_at : Time;
  cl_created_at : Time;
  cl_last_error : option string;
}.

(** calls_by_status, keyed by (campaign_id, status, bucket, call_id) *)
Record statusRow := mkStatusRow {
  sr_phone_number : option string;
  sr_updated_at : Time;
}.

(** call_attempts, keyed by (call_id, attempt_number) *)
Record attemptRow := mkAttemptRow {
  ar_status : CallStatus;
  ar_error : string;
  ar_created_at : Time;
  ar_duration_ms : int64;
}.

(** A Redis counter and the instant its time to live ends. *)
Record redisEntry := mkEntry { re_value : Z; re_expire_at : option Time }.

(** A Kafka record; its value is the JSON document. *)
Record KafkaMessage := mkKafka { km_Key : uuid; km_Value : json; km_Time : Time }.

(** ** The world *)

Record World := mkWorld {
  w_tick : nat;
  w_campaigns : gmap uuid campaignRecord;
  w_hours : list hourRow;
  w_targets : gmap uuid targetRow;
  w_stats : gmap uuid CampaignStats;
  w_calls : gmap (uuid * Time * uuid) callRow;
  w_by_status : gmap (uuid * string * Time * uuid) statusRow;
  w_attempts : gmap (uuid * Z) attemptRow;
  w_redis : gmap string redisEntry;
  w_log : list (string * KafkaMessage);
  w_commits : list (string * KafkaMessage);
}.

Definition empty_world : World := mkWorld 0 ∅ [] ∅ ∅ ∅ ∅ ∅ ∅ [] [].

Definition set_tick v w := let '(mkWorld _ b c d e f g h i j k) := w in mkWorld v b c d e f g h i j k.
Definition set_campaigns v w := let '(mkWorld a _ c d e f g h i j k) := w in mkWorld a v c d e f g h i j k.
Definition set_hours v w := let '(mkWorld a b _ d e f g h i j k) := w in mkWorld a b v d e f g h i j k.
Definition set_targets v w := let '(mkWorld a b c _ e f g h i j k) := w in mkWorld a b c v e f g h i j k.
Definition set_stats v w := let '(mkWorld a b c d _ f g h i j k) := w in mkWorld a b c d v f g h i j k.
Definition set_calls v w := let '(mkWorld a b c d e _ g h i j k) := w in mkWorld a b c d e v g h i j k.
Definition set_by_status v w := let '(mkWorld a b c d e f _ h i j k) := w in mkWorld a b c d e f v h i j k.
Definition set_attempts v w := let '(mkWorld a b c d e f g _ i j k) := w in mkWorld a b c d e f g v i j k.
Definition set_redis v w := let '(mkWorld a b c d e f g h _ j k) := w in mkWorld a b c d e f g h v j k.
Definition set_log v w := let '(mkWorld a b c d e f g h i _ k) := w in mkWorld a b c d e f g h i v k.
Definition set_commits v w := let '(mkWorld a b c d e f g h i j _) := w in mkWorld a b c d e f g h i j v.

(** ** The oracle *)

(** What becomes of a request: done, never executed, or executed but its reply
    lost, so that the caller sees an error. *)
Inductive outcome := Done | Refused | ReplyLost.

Class Env := {
  env_outcome : nat -> outcome;
  env_now : nat -> Time;
  env_uuid : nat -> uuid;
  env_rand : nat -> float64;           (* rng.Float64() *)
  env_intn : nat -> Z -> Z;            (* rng.Intn(n) *)
  env_ctx_done : nat -> bool;          (* ctx.Err() != nil *)
  env_deadline : nat -> bool;          (* and then it is that a deadline has passed *)
  env_temporary : nat -> bool;         (* the Kafka writer takes an error for a temporary one *)
  env_tzdb : string -> option Location;
  env_tzdb_error : string -> string;   (* and what it says when there is no such zone *)
  env_local : Location;
  env_f64_overflow : float64 -> int64; (* int64(f) out of range: implementation-defined *)
  env_pg_lower : string -> string;     (* LOWER(text), collation-dependent *)
}.

(** ORDER BY of the database: a sorted permutation, ties in any order. *)
Class PgOrder := {
  pg_order : forall {A}, (A -> Z) -> list A -> list A;
  pg_order_perm : forall {A} (key : A -> Z) l, pg_order key l ≡ₚ l;
  pg_order_sorted : forall {A} (key : A -> Z) l,
    Sorted (fun a b => key a <= key b) (pg_order key l);
}.

(** time.LoadLocation *)
Fixpoint contains_dotdot (s : string) : bool :=
  match s with
  | String a s' =>
      match s' with
      | String b _ => (Ascii.eqb a (Ascii.ascii_of_nat 46) && Ascii.eqb b (Ascii.ascii_of_nat 46)) || contains_dotdot s'
      | EmptyString => false
      end
  | EmptyString => false
  end.

Definition bad_zone_name (s : string) : bool :=
  contains_dotdot s ||
  match s with
  | String c _ => Ascii.eqb c (Ascii.ascii_of_nat 47) || Ascii.eqb c (Ascii.ascii_of_nat 92)
  | EmptyString => false
  end.

Definition LoadLocation `{Env} (name : string) : option Location :=
  if bool_decide (name = EmptyString) || bool_decide (name = "UTC") then Some UTC
  else if bool_decide (name = "Local") then Some env_local
  else if bad_zone_name name then None
  else env_tzdb name.

Definition LoadLocation_error `{Env} (name : string) : string :=
  if bad_zone_name name then "time: invalid location name" else env_tzdb_error name.

(** int64(f), and time.Duration(f), of a float64. *)
Definition f64_to_int64 `{Env} (x : float64) : int64 :=
  match f64_trunc x with
  | Some z => if bool_decide (in_int64 z) then z else env_f64_overflow x
  | None => env_f64_overflow x
  end.

(** ** The monad

    A program is a tree: it has returned, or it makes one request and goes on with
    the answer. A request is a change of the world, made at once; between two
    requests of a program others may act (Interleaving). *)

Inductive M (A : Type) : Type :=
| Return (r : result error A)
| Request {X : Type} (op : World -> World * X) (k : X -> M A).
Arguments Return {A} r.
Arguments Request {A X} op k.

(** A program that runs alone. *)
Fixpoint run {A} (m : M A) (w : World) : World * result error A :=
  match m with
  | Return r => (w, r)
  | Request op k => let '(w', x) := op w in run (k x) w'
  end.
Coercion run : M >-> Funclass.

#[export] Instance M_ret : MRet M := fun A a => Return (Ok a).
#[export] Instance M_bind : MBind M := fun A B k => fix bind m :=
  match m with
  | Return (Ok a) => k a
  | Return (Err e) => Return (Err e)
  | Request op k' => Request op (fun x => bind (k' x))
  end.

(** The same requests, the result seen otherwise. *)
Fixpoint map_result {A B} (g : result error A -> result error B) (m : M A) : M B :=
  match m with
  | Return r => Return (g r)
  | Request op k => Request op (fun x => map_result g (k x))
  end.

(** A single request. *)
Definition atomic {A} (op : World -> World * result error A) : M A := Request op Return.

Definition throw {A} (e : error) : M A := Return (Err e).
Definition bump (w : World) : World := set_tick (S w.(w_tick)) w.

(** [if err := m; err != nil { return f(err) }] *)
Definition on_err {A} (f : error -> error) (m : M A) : M A := map_result (map_err f) m.

(** A call whose error the code looks at itself. *)
Definition attempt {A} (m : M A) : M (result error A) := map_result Ok m.

(** A call whose error the code only logs or drops. *)
Definition ignore {A} (m : M A) : M () := map_result (fun _ => Ok ()) m.

Fixpoint for_each {A} (l : list A) (body : A -> M ()) : M () :=
  match l with
  | [] => mret ()
  | x :: l' => body x ≫= fun _ => for_each l' body
  end.

Section Operations.
Context `{Env}.

(** A request to a store: [f] is what the store does when it executes it. *)
Definition execute {A} (f : World -> result error (World * A)) (w : World) : World * result error A :=
  let w1 := bump w in
  match env_outcome w.(w_tick) with
  | Refused => (w1, Err (New "connection refused"))
  | Done => match f w1 with Ok (w2, a) => (w2, Ok a) | Err e => (w1, Err e) end
  | ReplyLost =>
      match f w1 with
      | Ok (w2, _) => (w2, Err (New "connection reset"))
      | Err _ => (w1, Err (New "connection reset"))
      end
  end.
Definition external {A} (f : World -> result error (World * A)) : M A := atomic (execute f).

(** What the oracle says at the next step of the world. *)
Definition consult {A} (oracle : nat -> A) : M A := atomic (fun w => (bump w, Ok (oracle w.(w_tick)))).

(** time.Now().UTC() *)
Definition now : M Time := consult env_now.

(** uuid.New() *)
Definition uuid_New : M uuid := consult env_uuid.

(** rng.Float64() *)
Definition Float64 : M float64 := consult env_rand.

(** rng.Intn(n) *)
Definition Intn (n : Z) : M Z := consult (fun tick => env_intn tick n).

(** ctx.Err() != nil *)
Definition ctx_done : M bool := consult env_ctx_done.

(** ctx.Err(), once it is not nil. *)
Definition context_canceled : error := New "context canceled".
Definition deadline_exceeded : error := New "context deadline exceeded".
Definition ctx_err : M error :=
  consult (fun tick => if env_deadline tick then deadline_exceeded else context_canceled).
End Operations.

(** ** Running *)

Lemma run_ret {A} (a : A) w : run (mret a) w = (w, Ok a).
Proof. done. Qed.

Lemma run_throw {A} e w : run (throw e : M A) w = (w, Err e).
Proof. done. Qed.

(** Binding a value is substituting it. *)
Lemma ret_bind {A B} (a : A) (k : A -> M B) : mret a ≫= k = k a.
Proof. done. Qed.

Lemma run_bind {A B} (m : M A) (k : A -> M B) w :
  run (m ≫= k) w = match run m w with (w', Ok a) => run (k a) w' | (w', Err e) => (w', Err e) end.
Proof. revert w. induction m as [[a|e]|X op k' IH]; intros w; [done..|]. cbn. destruct (op w). apply IH. Qed.

Lemma run_map_result {A B} (g : result error A -> result error B) (m : M A) w :
  run (map_result g m) w = ((run m w).1, g (run m w).2).
Proof. revert w. induction m as [r|X op k IH]; intros w; [done|]. cbn. destruct (op w). apply IH. Qed.

Lemma run_on_err {A} f (m : M A) w : run (on_err f m) w = ((run m w).1, map_err f (run m w).2).
Proof. apply run_map_result. Qed.
Lemma run_attempt {A} (m : M A) w : run (attempt m) w = ((run m w).1, Ok (run m w).2).
Proof. apply run_map_result. Qed.
Lemma run_ignore {A} (m : M A) w : run (ignore m) w = ((run m w).1, Ok ()).
Proof. apply run_map_result. Qed.

Lemma run_atomic {A} (op : World -> World * result error A) w : run (atomic op) w = op w.
Proof. unfold atomic. cbn. by destruct (op w). Qed.

Lemma run_external `{Env} {A} (f : World -> result error (World * A)) w : run (external f) w = execute f w.
Proof. apply run_atomic. Qed.

Lemma run_consult {A} (oracle : nat -> A) w : run (consult oracle) w = (bump w, Ok (oracle w.(w_tick))).
Proof. done. Qed.

Create HintDb run.
#[export] Hint Rewrite @run_ret @run_throw @run_bind @run_map_result @run_on_err @run_attempt @run_ignore @run_consult : run.

(** ** Stability: what the requests of a program do to the world, as a preorder *)

(** Whatever was answered to the requests before it, each request goes from a
    world to one related to it. *)
Fixpoint stable {A} (R : relation World) (m : M A) : Prop :=
  match m with
  | Return _ => True
  | Request op k => forall w, R w (op w).1 /\ stable R (k (op w).2)
  end.

(** The values a program can return, whatever was answered to its requests. *)
Fixpoint may_return {A} (m : M A) (a : A) : Prop :=
  match m with
  | Return r => r = Ok a
  | Request op k => exists w, may_return (k (op w).2) a
  end.

Lemma may_return_bind {A B} (m : M A) (k : A -> M B) b :
  may_return (m ≫= k) b -> exists a, may_return m a /\ may_return (k a) b.
Proof.
  induction m as [[a|e]|X op k' IH]; cbn; [by exists a|done|].
  intros [w Hb]. destruct (IH _ Hb) as (a & Ha & ?). exists a. split; [by exists w|done].
Qed.

Lemma run_may_return {A} (m : M A) w w' a : run m w = (w', Ok a) -> may_return m a.
Proof.
  revert w. induction m as [r|X op k IH]; intros w; [by intros [= _ ->]|]. cbn. intros Hrun.
  exists w. destruct (op w) as [w1 x]. by eapply IH.
Qed.

(** An invariant preserved, and an observation left alone. *)
Definition inv (I : World -> Prop) : relation World := fun w w' => I w -> I w'.
Definition keeps {B} (f : World -> B) : relation World := fun w w' => f w' = f w.

#[export] Instance inv_preorder I : PreOrder (inv I).
Proof. split; unfold inv; red; auto. Qed.
#[export] Instance keeps_preorder {B} (f : World -> B) : PreOrder (keeps f).
Proof. split; unfold keeps; red; congruence. Qed.

(** Two bounds on the requests of a program, combined. *)
Lemma stable_combine {A} (R1 R2 R : relation World) (m : M A) :
  stable R1 m -> stable R2 m -> (forall w w', R1 w w' -> R2 w w' -> R w w') -> stable R m.
Proof.
  intros H1 H2 HR. induction m as [r|X op k IH]; [done|]. intros w.
  destruct (H1 w) as [Ho1 Hk1], (H2 w) as [Ho2 Hk2]. split; [by apply HR|by apply IH].
Qed.

Lemma stable_mono {A} (R1 R : relation World) (m : M A) :
  stable R1 m -> (forall w w', R1 w w' -> R w w') -> stable R m.
Proof. intros H1 HR. apply (stable_combine R1 R1); auto. Qed.

Section Stability.
Context `{Env} (R : relation World) `{HR : !PreOrder R}.

(** A program that runs alone makes its requests one after the other. *)
Lemma stable_run {A} (m : M A) : stable R m -> forall w, R w (run m w).1.
Proof using HR.
  induction m as [r|X op k IH]; intros Hm w; [reflexivity|]. destruct (Hm w) as [Hop Hk]. cbn.
  destruct (op w) as [w' x]. etrans; [exact Hop|]. by apply (IH x).
Qed.

Lemma stable_ran {A} (m : M A) w w' r : stable R m -> run m w = (w', r) -> R w w'.
Proof using HR. intros Hm Hrun. specialize (stable_run m Hm w). by rewrite Hrun. Qed.

Lemma stable_ret {A} (a : A) : stable R (mret a : M A).
Proof using HR. done. Qed.

Lemma stable_throw {A} e : stable R (throw e : M A).
Proof using HR. done. Qed.

Lemma stable_atomic {A} (op : World -> World * result error A) :
  (forall w, R w (op w).1) -> stable R (atomic op).
Proof using HR. intros Hop w. by split. Qed.

(** When what [m] can return matters. *)
Lemma stable_bind_yields {A B} (m : M A) (k : A -> M B) :
  stable R m -> (forall a, may_return m a -> stable R (k a)) -> stable R (m ≫= k).
Proof using HR.
  induction m as [[a|e]|X op k' IH]; cbn; [auto|done|]. intros Hm Hk w. destruct (Hm w) as [Hop Hk'].
  split; [done|]. apply IH; [done|]. intros a Ha. apply Hk. by exists w.
Qed.

Lemma stable_bind {A B} (m : M A) (k : A -> M B) :
  stable R m -> (forall a, stable R (k a)) -> stable R (m ≫= k).
Proof using HR. intros. by apply stable_bind_yields. Qed.

Lemma stable_ret_bind {A B} (a : A) (k : A -> M B) :
  stable R (k a) -> stable R (mret a ≫= k).
Proof. done. Qed.

Lemma stable_throw_bind {A B} e (k : A -> M B) : stable R (throw e ≫= k).
Proof using HR. done. Qed.

Lemma stable_map_result {A B} (g : result error A -> result error B) (m : M A) :
  stable R m -> stable R (map_result g m).
Proof.
  induction m as [r|X op k IH]; cbn; [done|]. intros Hm w. destruct (Hm w). split; [done|]. by apply IH.
Qed.

Lemma stable_on_err {A} f (m : M A) : stable R m -> stable R (on_err f m).
Proof. apply stable_map_result. Qed.

Lemma stable_attempt {A} (m : M A) : stable R m -> stable R (attempt m).
Proof. apply stable_map_result. Qed.

Lemma stable_ignore {A} (m : M A) : stable R m -> stable R (ignore m).
Proof. apply stable_map_result. Qed.

Lemma stable_for_each {A} (l : list A) body :
  (forall x, stable R (body x)) -> stable R (for_each l body).
Proof using HR. intros Hb. induction l; cbn [for_each]; [done|]. by apply stable_bind. Qed.

Lemma stable_if {A} (b : bool) (m1 m2 : M A) :
  stable R m1 -> stable R m2 -> stable R (if b then m1 else m2).
Proof. by destruct b. Qed.

(** The requests that only consult the oracle. *)
Context (Hbump : forall w, R w (bump w)).

Lemma execute_respects {A} (f : World -> result error (World * A)) w :
  (forall w w' a, f w = Ok (w', a) -> R w w') -> R w (execute f w).1.
Proof using All.
  intros Hf. unfold execute. assert (R w (bump w)) as Hb by apply Hbump.
  destruct (env_outcome _), (f (bump w)) as [[w2 a]|e] eqn:E; simpl; try done;
    (etrans; [exact Hb|]; by eapply Hf).
Qed.

Lemma stable_external {A} (f : World -> result error (World * A)) :
  (forall w w' a, f w = Ok (w', a) -> R w w') -> stable R (external f).
Proof using All. intros Hf w. split; [|done]. by apply execute_respects. Qed.

Lemma stable_consult {A} (oracle : nat -> A) : stable R (consult oracle).
Proof using Hbump. intros w. split; [apply Hbump|done]. Qed.
Lemma stable_now : stable R now.
Proof using Hbump. apply stable_consult. Qed.
Lemma stable_uuid_New : stable R uuid_New.
Proof using Hbump. apply stable_consult. Qed.
Lemma stable_Float64 : stable R Float64.
Proof using Hbump. apply stable_consult. Qed.
Lemma stable_Intn n : stable R (Intn n).
Proof using Hbump. apply stable_consult. Qed.
Lemma stable_ctx_done : stable R ctx_done.
Proof using Hbump. apply stable_consult. Qed.
Lemma stable_ctx_err : stable R ctx_err.
Proof using Hbump. apply stable_consult. Qed.
End Stability.

(** ** What is closed under composition *)

Class Composes (P : forall A, M A -> Prop) := {
  composes_return : forall A (r : result error A), P A (Return r);
  composes_bind : forall A B (m : M A) (k : A -> M B), P A m -> (forall a, P B (k a)) -> P B (m ≫= k);
  composes_map_result : forall A B (g : result error A -> result error B) m, P A m -> P B (map_result g m);
}.

#[export] Instance stable_composes (R : relation World) : Composes (fun A => stable R).
Proof.
  split; [done|..].
  - intros A B m k Hm Hk. induction m as [[a|e]|X op k' IH]; [apply Hk|done|].
    intros w. destruct (Hm w) as [Hop Hk']. split; [done|by apply IH].
  - intros A B g m. apply stable_map_result.
Qed.

(** Programs are kept as they are written: [simpl] does not turn them into trees. *)
#[global] Arguments M_bind : simpl never.
#[global] Arguments map_result : simpl never.
#[global] Arguments atomic : simpl never.
#[global] Arguments throw : simpl never.
#[global] Arguments on_err : simpl never.
#[global] Arguments attempt : simpl never.
#[global] Arguments ignore : simpl never.
#[global] Arguments external : simpl never.
#[global] Arguments consult : simpl never.
#[global] Arguments now {_} : simpl never.
#[global] Arguments uuid_New {_} : simpl never.
#[global] Arguments Float64 {_} : simpl never.
#[global] Arguments Intn {_} _ : simpl never.
#[global] Arguments ctx_done {_} : simpl never.
#[global] Arguments ctx_err {_} : simpl never.

Create HintDb stable.
#[export] Hint Resolve stable_ret stable_throw stable_on_err stable_attempt
  stable_ignore stable_for_each stable_now stable_uuid_New stable_Float64 stable_ctx_done stable_ctx_err : stable.

(** Every external call in a world without faults is executed and answered. *)
Definition reliable `{Env} : Prop := forall n, env_outcome n = Done.

Lemma external_done `{Env} {A} (f : World -> result error (World * A)) w :
  env_outcome w.(w_tick) = Done ->
  external f w = match f (bump w) with
                 | Ok (w2, a) => (w2, Ok a)
                 | Err e => (bump w, Err e)
                 end.
Proof. intros Hd. rewrite run_external. unfold execute. by rewrite Hd. Qed.

Lemma external_refused `{Env} {A} (f : World -> result error (World * A)) w :
  env_outcome w.(w_tick) = Refused -> external f w = (bump w, Err (New "connection refused")).
Proof. intros Hd. rewrite run_external. unfold execute. by rewrite Hd. Qed.

Lemma external_reliable `{Env} {A} (f : World -> result error (World * A)) w :
  reliable ->
  external f w = match f (bump w) with
                 | Ok (w2, a) => (w2, Ok a)
                 | Err e => (bump w, Err e)
                 end.
Proof. intros Hr. rewrite run_external. unfold execute. by rewrite Hr. Qed.

(** A successful external call was executed. *)
Lemma external_Ok `{Env} {A} (f : World -> result error (World * A)) w w' a :
  external f w = (w', Ok a) -> f (bump w) = Ok (w', a).
Proof.
  rewrite run_external. unfold execute. destruct (env_outcome _), (f (bump w)) as [[w2 b]|e]; intros; by simplify_eq.
Qed.

(** Whatever the caller sees, the call was executed or did nothing. *)
Lemma external_cases `{Env} {A} (f : World -> result error (World * A)) w w' r :
  external f w = (w', r) ->
  (w' = bump w /\ exists e, r = Err e) \/
  (exists a, f (bump w) = Ok (w', a) /\ (r = Ok a \/ exists e, r = Err e)).
Proof.
  rewrite run_external. unfold execute. destruct (env_outcome _), (f (bump w)) as [[w2 b]|e] eqn:E;
    intros; simplify_eq; eauto 6.
Qed.

Lemma bind_Ok {A B} (m : M A) (k : A -> M B) w w' b :
  (m ≫= k) w = (w', Ok b) -> exists a w1, m w = (w1, Ok a) /\ k a w1 = (w', Ok b).
Proof. rewrite run_bind. destruct (m w) as [w1 [a|e]]; intros; simplify_eq; eauto. Qed.

Lemma bind_Err {A B} (m : M A) (k : A -> M B) w w' e :
  (m ≫= k) w = (w', Err e) ->
  m w = (w', Err e) \/ exists a w1, m w = (w1, Ok a) /\ k a w1 = (w', Err e).
Proof. rewrite run_bind. destruct (m w) as [w1 [a|e']]; intros; simplify_eq; eauto. Qed.

Lemma on_err_Ok {A} f (m : M A) w w' a :
  on_err f m w = (w', Ok a) -> m w = (w', Ok a).
Proof. rewrite run_on_err. destruct (m w) as [w1 [b|e]]; simpl; intros; by simplify_eq. Qed.

(** Sequencing, step by step. *)
Lemma bind_step {A B} (m : M A) (k : A -> M B) w w1 a :
  m w = (w1, Ok a) -> (m ≫= k) w = k a w1.
Proof. rewrite run_bind. by intros ->. Qed.

Lemma bind_fail {A B} (m : M A) (k : A -> M B) w w1 e :
  m w = (w1, Err e) -> (m ≫= k) w = (w1, Err e).
Proof. rewrite run_bind. by intros ->. Qed.

(** Peels an equation [program w = (w', Ok r)] into its steps. *)
Ltac inv_ok H :=
  repeat match type of H with
  | run (_ ≫= _) _ = (_, Ok _) =>
      let a := fresh "a" in let w := fresh "w" in let H1 := fresh "Hstep" in
      apply bind_Ok in H as (a & w & H1 & H)
  | run (on_err _ _) _ = (_, Ok _) => apply on_err_Ok in H
  | run (external _) _ = (_, Ok _) => apply external_Ok in H
  end.

Lemma tick_bump w : w_tick (bump w) = S (w_tick w).
Proof. by destruct w. Qed.

#[export] Hint Rewrite tick_bump : go.

(** Runs the monad's own operations, leaving external calls alone. *)
Ltac run_monad :=
  unfold now, uuid_New, Float64, Intn, ctx_done, ctx_err; autorewrite with run; cbn beta iota delta [fst snd].
Ltac run_monad_in H :=
  unfold now, uuid_New, Float64, Intn, ctx_done, ctx_err in H; autorewrite with run in H;
  cbn beta iota delta [fst snd] in H.

(** ** Concrete oracles, for examples: a clock that advances one second per
    operation, counted identifiers, a fixed random draw, faults where asked. *)
Definition sample_env (fault : nat -> outcome) (rand : float64) : Env :=
  {| env_outcome := fault;
     env_now := fun n => (1700000000 + Z.of_nat n) * Second;
     env_uuid := fun n => N.of_nat (S n);
     env_rand := fun _ => rand;
     env_intn := fun _ _ => 0;
     env_ctx_done := fun _ => false;
     env_deadline := fun _ => false;
     env_temporary := fun _ => false;
     env_tzdb := fun _ => None;
     env_tzdb_error := fun name => String.append "unknown time zone " name;
     env_local := UTC;
     env_f64_overflow := fun _ => min_int64;
     env_pg_lower := lower |}.

(** No faults, every simulated call succeeds. *)
Definition quiet_env : Env := sample_env (fun _ => Done) f64_zero.

(** No faults, every simulated call fails (the draw is 0.75). *)
Definition failing_env : Env := sample_env (fun _ => Done) (S754_finite false 3 (-2)).

(** A fault at chosen operations. *)
Definition faulty_env (fault : nat -> outcome) : Env := sample_env fault f64_zero.

Definition stable_sort_order : PgOrder :=
  {| pg_order := @sort_by;
     pg_order_perm := @sort_by_Permutation;
     pg_order_sorted := @sort_by_sorted |}.

Lemma quiet_reliable : @reliable quiet_env.
Proof. done. Qed.
