(* ===== verification/Interleaving.v ===== *)
(** Programs that run at once: between two requests of one, the others make
    theirs. What is proved of a program under the interference of others, and what
    follows for any number of them, started and stopped at any time. *)
From S2P Require Import Prelude Errors World.

(** ** Machines

    The stores and the programs that run, each in what is left of it. A program
    can be stopped at any time; between two requests of it time can pass. *)
Record Machine := mkMachine { mc_world : World; mc_threads : gmap nat (M ()) }.

Section Machines.
(** The programs that may be started in a world. *)
Context (starts : World -> M () -> Prop).

Inductive machine_step : relation Machine :=
| machine_idle w ts : machine_step (mkMachine w ts) (mkMachine (bump w) ts)
| machine_start i p w ts :
    starts w p -> ts !! i = None -> machine_step (mkMachine w ts) (mkMachine w (<[i := p]> ts))
| machine_request i {X} (op : World -> World * X) k w ts :
    ts !! i = Some (Request op k) ->
    machine_step (mkMachine w ts) (mkMachine (op w).1 (<[i := k (op w).2]> ts))
| machine_stop i w ts : machine_step (mkMachine w ts) (mkMachine w (delete i ts)).

(** A program that is let run to its end. *)
Lemma machine_finishes i p : forall w ts,
  rtc machine_step (mkMachine w (<[i := p]> ts)) (mkMachine (run p w).1 (delete i ts)).
Proof.
  induction p as [r|X op k IH]; intros w ts.
  - rewrite <- (delete_insert_eq ts i (Return r)). apply rtc_once, machine_stop.
  - eapply rtc_l; [apply (machine_request i op k); by rewrite lookup_insert_eq|].
    rewrite insert_insert_eq. specialize (IH (op w).2 (op w).1 ts). cbn. by destruct (op w).
Qed.

(** A program after its next [n] requests. *)
Fixpoint advance {A} (n : nat) (p : M A) (w : World) : World * M A :=
  match n, p with
  | S n, Request op k => advance n (k (op w).2) (op w).1
  | _, _ => (w, p)
  end.

Lemma advance_map_result {A B} (g : result error A -> result error B) n (p : M A) : forall w,
  advance n (map_result g p) w = ((advance n p w).1, map_result g (advance n p w).2).
Proof. revert p. induction n as [|n IH]; intros [r|X op k] w; [done..|]. apply IH. Qed.

Definition pending {A} (m : M A) : Prop := match m with Return _ => False | Request _ _ => True end.

Lemma advance_bind {A B} (m : M A) (k : A -> M B) w :
  pending m -> advance 1 (m ≫= k) w = ((advance 1 m w).1, (advance 1 m w).2 ≫= k).
Proof. by destruct m. Qed.

(** A program that is stopped in between. *)
Definition paused {A} (p : M A) (w : World) (rest : M A) (w' : World) : Prop :=
  exists n, advance n p w = (w', rest).

Lemma paused_here {A} (p : M A) w : paused p w p w.
Proof. by exists 0%nat; destruct p. Qed.

Lemma advance_add {A} n m (p : M A) : forall w,
  advance (n + m) p w = advance m (advance n p w).2 (advance n p w).1.
Proof.
  revert p. induction n as [|n IH]; intros p w; [by destruct p|]. destruct p as [r|X op k]; [by destruct m|].
  apply IH.
Qed.

Lemma paused_trans {A} (p1 p2 p3 : M A) w1 w2 w3 :
  paused p1 w1 p2 w2 -> paused p2 w2 p3 w3 -> paused p1 w1 p3 w3.
Proof. intros [n Hn] [m Hm]. exists (n + m)%nat. by rewrite advance_add, Hn. Qed.

Lemma paused_bind {A B} (p rest : M A) (k : A -> M B) w w' :
  paused p w rest w' -> paused (p ≫= k) w (rest ≫= k) w'.
Proof.
  intros [n Hn]. revert p w Hn. induction n as [|n IH]; intros p w Hn.
  { destruct p; injection Hn as <- <-; apply paused_here. }
  destruct p as [r|X op k']; [injection Hn as <- <-; apply paused_here|].
  destruct (IH _ _ Hn) as [m Hm]. by exists (S m).
Qed.

(** One that has come past its first part. *)
Lemma paused_past {A B} (p : M A) (k : A -> M B) w w' a :
  run p w = (w', Ok a) -> paused (p ≫= k) w (k a) w'.
Proof.
  revert w. induction p as [r|X op k' IH]; intros w; [intros [= -> ->]; apply paused_here|].
  cbn [run]. destruct (op w) as [w1 x] eqn:E. intros Hrun. destruct (IH x w1 Hrun) as [n Hn].
  exists (S n). change (Request op k' ≫= k) with (Request op (fun x => k' x ≫= k)). cbn [advance]. by rewrite E.
Qed.

Lemma paused_for_each {A} (l l' : list A) (body : A -> M ()) : forall w w',
  run (for_each l body) w = (w', Ok ()) -> paused (for_each (l ++ l') body) w (for_each l' body) w'.
Proof.
  induction l as [|x l IH]; intros w w' Hrun; [injection Hrun as ->; apply paused_here|].
  cbn [for_each app] in *. apply bind_Ok in Hrun as ([] & w1 & Hx & Hrest).
  eapply paused_trans; [by apply paused_past|]. by apply IH.
Qed.

Lemma machine_advances n i p : forall w ts,
  rtc machine_step (mkMachine w (<[i := p]> ts))
    (mkMachine (advance n p w).1 (<[i := (advance n p w).2]> ts)).
Proof.
  revert p. induction n as [|n IH]; intros p w ts; [destruct p; apply rtc_refl|].
  destruct p as [r|X op k]; [apply rtc_refl|].
  eapply rtc_l; [apply (machine_request i op k); by rewrite lookup_insert_eq|].
  rewrite insert_insert_eq. apply IH.
Qed.

Lemma free_slot (ts : gmap nat (M ())) : exists i, ts !! i = None.
Proof.
  exists (fresh (map_to_list ts).*1). apply eq_None_not_Some. intros [q Hq].
  apply (infinite_is_fresh (map_to_list ts).*1). apply list_elem_of_fmap.
  exists (fresh (map_to_list ts).*1, q). split; [done|]. by apply elem_of_map_to_list.
Qed.

Lemma machine_runs p w ts :
  starts w p -> rtc machine_step (mkMachine w ts) (mkMachine (run p w).1 ts).
Proof.
  intros Hp. destruct (free_slot ts) as [i Hi]. eapply rtc_l; [by apply (machine_start i)|].
  pose proof (machine_finishes i p w ts) as Hf. by rewrite delete_id in Hf.
Qed.

(** A program that is overtaken by another after [n] requests. *)
Lemma machine_overtakes n p q w ts :
  starts w p -> let '(w1, p1) := advance n p w in starts w1 q ->
  rtc machine_step (mkMachine w ts) (mkMachine (run p1 (run q w1).1).1 ts).
Proof.
  intros Hp. destruct (advance n p w) as [w1 p1] eqn:E. intros Hq. destruct (free_slot ts) as [i Hi].
  eapply rtc_l; [by apply (machine_start i)|].
  etrans; [apply (machine_advances n)|]. rewrite E. cbn [fst snd].
  etrans; [by apply machine_runs|]. pose proof (machine_finishes i p1 (run q w1).1 ts) as Hf.
  by rewrite delete_id in Hf.
Qed.
End Machines.

(** ** One program among others

    A program that runs to its end while [others] act before each of its requests:
    what they do depends on the world they find, and so on the time. *)
Section Among.
Context (others : World -> World).

Fixpoint run_among {A} (m : M A) (w : World) : World * result error A :=
  match m with
  | Return r => (w, r)
  | Request op k => let '(w', x) := op (others w) in run_among (k x) w'
  end.

Lemma among_bind {A B} (m : M A) (k : A -> M B) w :
  run_among (m ≫= k) w =
  match run_among m w with (w', Ok a) => run_among (k a) w' | (w', Err e) => (w', Err e) end.
Proof.
  revert w. induction m as [[a|e]|X op k' IH]; intros w; [done..|].
  change (Request op k' ≫= k) with (Request op (fun x => k' x ≫= k)). cbn. destruct (op (others w)). apply IH.
Qed.

Lemma among_map_result {A B} (g : result error A -> result error B) (m : M A) w :
  run_among (map_result g m) w = ((run_among m w).1, g (run_among m w).2).
Proof.
  revert w. induction m as [r|X op k IH]; intros w; [done|].
  change (map_result g (Request op k)) with (Request op (fun x => map_result g (k x))). cbn.
  destruct (op (others w)). apply IH.
Qed.

Lemma among_atomic {A} (op : World -> World * result error A) w : run_among (atomic op) w = op (others w).
Proof. unfold atomic. cbn. by destruct (op _). Qed.
End Among.

(** Left alone, it just runs. *)
Lemma among_nobody {A} (m : M A) w : run_among (fun w => w) m w = run m w.
Proof. revert w. induction m as [r|X op k IH]; intros w; [done|]. cbn [run_among run]. destruct (op w). apply IH. Qed.

(** ** Protocols

    What each program promises the others. A program holds a token, which says
    what it alone may do; a request is [permitted] when it takes the token and the
    world to another token and world. *)
Class Protocol (T : Type) := {
  no_token : T;
  invariant : World -> Prop;
  owns : T -> World -> Prop;
  apart : relation T;
  permitted : T -> T -> relation World;
  extends : relation World;
  extends_preorder :: PreOrder extends;
  apart_sym t u : apart t u -> apart u t;
  apart_no_token t : apart t no_token;
  owns_no_token w : owns no_token w;
  permitted_refl t w : permitted t t w w;
  permitted_trans t w1 w2 w3 : permitted t t w1 w2 -> permitted t t w2 w3 -> permitted t t w1 w3;
  permitted_bump t w : permitted t t w (bump w);
  permitted_drop t t' w w' : permitted no_token t' w w' -> permitted t t' w w';
  permitted_extends t t' w w' :
    invariant w -> owns t w -> permitted t t' w w' -> extends w w';
  permitted_keeps t t' w w' :
    invariant w -> owns t w -> permitted t t' w w' -> invariant w' /\ owns t' w';
  permitted_frame t t' u w w' :
    invariant w -> owns t w -> owns u w -> apart t u -> permitted t t' w w' -> owns u w' /\ apart t' u;
}.

(** A post-condition that others do not invalidate. *)
Definition lasting (F : World -> Prop) `{Protocol T} : Prop := forall w w', extends w w' -> F w -> F w'.

Section Obeys.
Context `{Protocol T}.

(** From any later world on, every request of the program is permitted; [Q] says
    what has become of its token and of the world when it returns. *)
Fixpoint obeys {A} (m : M A) (Q : result error A -> T -> World -> Prop) (t : T) (w : World) : Prop :=
  match m with
  | Return r => Q r t w
  | Request op k => forall w1, extends w w1 -> invariant w1 -> owns t w1 ->
      exists t', permitted t t' w1 (op w1).1 /\ obeys (k (op w1).2) Q t' (op w1).1
  end.

Lemma obeys_mono {A} (m : M A) (Q Q' : result error A -> T -> World -> Prop) : forall t w,
  (forall r t w, Q r t w -> Q' r t w) -> obeys m Q t w -> obeys m Q' t w.
Proof.
  induction m as [r|X op k IH]; intros t w HQ; cbn; [apply HQ|]. intros Hm w1 Hw1 Hi Ho.
  destruct (Hm w1 Hw1 Hi Ho) as (t' & Hp & Hk). eauto.
Qed.

(** A program that runs alone keeps the invariant. *)
Lemma obeys_alone {A} (m : M A) (Q : result error A -> T -> World -> Prop) : forall t w,
  invariant w -> owns t w -> obeys m Q t w -> invariant (run m w).1.
Proof.
  induction m as [r|X op k IH]; intros t w Hi Ho; [done|]. intros Hm.
  destruct (Hm w (reflexivity w) Hi Ho) as (t' & Hp & Hk). destruct (permitted_keeps _ _ _ _ Hi Ho Hp).
  cbn [run]. destruct (op w) as [w1 x]. by apply (IH x t').
Qed.

Lemma obeys_later {A} (m : M A) (Q : result error A -> T -> World -> Prop) t w w' :
  (forall r t, lasting (Q r t)) -> extends w w' -> obeys m Q t w -> obeys m Q t w'.
Proof.
  intros HQ Hw. destruct m as [r|X op k]; cbn; [by apply HQ|]. intros Hm w1 Hw1. apply Hm. by etrans.
Qed.

Lemma obeys_bind {A B} (m : M A) (k : A -> M B) (Q : result error B -> T -> World -> Prop) : forall t w,
  obeys m (fun r t w => match r with Ok a => obeys (k a) Q t w | Err e => Q (Err e) t w end) t w ->
  obeys (m ≫= k) Q t w.
Proof.
  induction m as [[a|e]|X op k' IH]; intros t w; [done..|]. intros Hm w1 Hw1 Hi Ho.
  destruct (Hm w1 Hw1 Hi Ho) as (t' & Hp & Hk). exists t'. split; [done|]. by apply IH.
Qed.

Lemma obeys_map_result {A B} (g : result error A -> result error B) (m : M A) Q : forall t w,
  obeys m (fun r => Q (g r)) t w -> obeys (map_result g m) Q t w.
Proof.
  induction m as [r|X op k IH]; intros t w; [done|]. intros Hm w1 Hw1 Hi Ho.
  destruct (Hm w1 Hw1 Hi Ho) as (t' & Hp & Hk). exists t'. split; [done|]. by apply IH.
Qed.

Lemma obeys_atomic {A} (op : World -> World * result error A) Q t w :
  (forall w1, extends w w1 -> invariant w1 -> owns t w1 ->
     exists t', permitted t t' w1 (op w1).1 /\ Q (op w1).2 t' (op w1).1) ->
  obeys (atomic op) Q t w.
Proof. done. Qed.

(** A request that only reads. *)
Lemma obeys_read `{Env} {A} (g : World -> A) (Q : result error A -> T -> World -> Prop) t w :
  (forall w', extends w w' -> invariant w' -> owns t w' ->
     Q (Ok (g w')) t w' /\ forall e, Q (Err e) t w') ->
  obeys (external (fun w => Ok (w, g w))) Q t w.
Proof.
  intros HQ. apply obeys_atomic. intros w1 Hw1 Hi Ho. exists t.
  pose proof (permitted_bump t w1) as Hp. destruct (permitted_keeps _ _ _ _ Hi Ho Hp) as [Hi' Ho'].
  destruct (HQ (bump w1)) as [Hok Herr]; [|done..|].
  { etrans; [exact Hw1|]. by eapply permitted_extends. }
  unfold execute. destruct (env_outcome _); (split; [exact Hp|]); [exact Hok|apply Herr..].
Qed.

(** *** From the bounds on a program's requests *)

(** A request that is permitted as long as [F] holds. *)
Definition under (F : World -> Prop) (t : T) : relation World := fun w w' =>
  F w -> invariant w -> owns t w -> permitted t t w w'.

Lemma under_preorder F t : lasting F -> PreOrder (under F t).
Proof.
  intros HF. split; [intros w _ _ _; apply permitted_refl|]. intros w1 w2 w3 H12 H23 HF1 Hi Ho.
  specialize (H12 HF1 Hi Ho). destruct (permitted_keeps _ _ _ _ Hi Ho H12) as [Hi2 Ho2].
  eapply permitted_trans; [exact H12|]. apply H23; [|done..]. eapply HF; [|done]. by eapply permitted_extends.
Qed.

Lemma under_bump F t w : under F t w (bump w).
Proof. intros _ _ _. apply permitted_bump. Qed.

Lemma obeys_under {A} (F : World -> Prop) (m : M A) t : forall w,
  lasting F -> F w -> stable (under F t) m -> obeys m (fun _ t' w' => t' = t /\ F w') t w.
Proof.
  induction m as [r|X op k IH]; intros w HF Hw Hm; [done|]. intros w1 Hw1 Hi Ho.
  destruct (Hm w1) as [Hop Hk]. specialize (Hop (HF _ _ Hw1 Hw) Hi Ho).
  exists t. split; [done|]. apply IH; [done| |done]. eapply HF; [|by eapply HF].
  by eapply permitted_extends.
Qed.

(** *** Programs that obey whatever token they begin with

    Who holds a token may act as if he held none. *)
Lemma obeys_drop {A} (m : M A) t w :
  obeys m (fun _ _ _ => True) no_token w -> obeys m (fun _ _ _ => True) t w.
Proof.
  destruct m as [r|X op k]; [done|]. intros Hm w1 Hw1 Hi _.
  destruct (Hm w1 Hw1 Hi (owns_no_token _)) as (t' & Hp & Hk). exists t'. split; [by apply permitted_drop|done].
Qed.

Definition safe {A} (m : M A) : Prop := forall w, obeys m (fun _ _ _ => True) no_token w.

Lemma safe_obeys {A} (m : M A) t w : safe m -> obeys m (fun _ _ _ => True) t w.
Proof. intros Hm. apply obeys_drop, Hm. Qed.

Lemma safe_ret {A} (r : result error A) : safe (Return r).
Proof. done. Qed.

Lemma safe_bind {A B} (m : M A) (k : A -> M B) : safe m -> (forall a, safe (k a)) -> safe (m ≫= k).
Proof.
  intros Hm Hk w. apply obeys_bind. eapply obeys_mono; [|apply Hm].
  intros [a|e] t w' _; [by apply safe_obeys|done].
Qed.

Lemma safe_map_result {A B} (g : result error A -> result error B) (m : M A) :
  safe m -> safe (map_result g m).
Proof. intros Hm w. apply obeys_map_result. by eapply obeys_mono; [|apply Hm]. Qed.

#[export] Instance safe_composes : Composes (fun A => safe).
Proof. split; [intros; apply safe_ret|intros; by apply safe_bind|intros; by apply safe_map_result]. Qed.

(** A program whose result nobody waits for. *)
Lemma obeys_ignore {A} (m : M A) Q t w : obeys m Q t w -> obeys (ignore m) (fun _ _ _ => True) t w.
Proof. intros Hm. apply obeys_map_result. by eapply obeys_mono; [|exact Hm]. Qed.

(** *** Every program obeys: the invariant holds, however they interleave *)

Definition supervised (s : Machine) : Prop :=
  invariant s.(mc_world) /\
  exists tokens : nat -> T,
    (forall i p, s.(mc_threads) !! i = Some p ->
       owns (tokens i) s.(mc_world) /\ obeys p (fun _ _ _ => True) (tokens i) s.(mc_world)) /\
    (forall i j p q, i <> j -> s.(mc_threads) !! i = Some p -> s.(mc_threads) !! j = Some q ->
       apart (tokens i) (tokens j)).

Context (starts : World -> M () -> Prop).
Context (Hstarts : forall w p, invariant w -> starts w p -> obeys p (fun _ _ _ => True) no_token w).

(** A request of one program leaves the others what they own. *)
Lemma request_supervised i {X} (op : World -> World * X) k w ts :
  ts !! i = Some (Request op k) -> supervised (mkMachine w ts) ->
  supervised (mkMachine (op w).1 (<[i := k (op w).2]> ts)) /\ extends w (op w).1.
Proof.
  intros Hi [Hinv (tok & Hts & Hap)]. destruct (Hts _ _ Hi) as [Ho Hob]. cbn in *.
  destruct (Hob w (reflexivity w) Hinv Ho) as (t' & Hp & Hk).
  destruct (permitted_keeps _ _ _ _ Hinv Ho Hp) as [Hinv' Ho'].
  pose proof (permitted_extends _ _ _ _ Hinv Ho Hp) as Hext. split; [|done]. split; [done|].
  assert (forall j p, i <> j -> ts !! j = Some p -> owns (tok j) (op w).1 /\ apart t' (tok j)) as Hframe.
  { intros j p Hij Hj. apply (permitted_frame _ _ (tok j) _ _ Hinv Ho (proj1 (Hts _ _ Hj))); [|done]. by eapply Hap. }
  exists (fun j => if decide (j = i) then t' else tok j). cbn. split.
  - intros j p [[<- <-]|[Hij Hj]]%lookup_insert_Some; [by rewrite decide_True|].
    rewrite decide_False by done. split; [by eapply Hframe|]. eapply obeys_later; [done|exact Hext|].
    by apply (Hts _ _ Hj).
  - intros j j' p q Hne [[<- _]|[Hj Hp1]]%lookup_insert_Some [[<- _]|[Hj' Hq1]]%lookup_insert_Some; [done|..].
    + rewrite decide_True, decide_False by done. by eapply Hframe.
    + rewrite decide_False, decide_True by done. by eapply apart_sym, Hframe.
    + rewrite !decide_False by done. by eapply Hap.
Qed.

Lemma step_supervised s s' :
  machine_step starts s s' -> supervised s -> supervised s' /\ extends s.(mc_world) s'.(mc_world).
Proof using Hstarts.
  intros Hstep Hs. destruct Hstep as [w ts|i p w ts Hp Hi|i X op k w ts Hi|i w ts].
  - destruct Hs as [Hinv (tok & Hts & Hap)]. cbn in *.
    pose proof (permitted_bump no_token w) as Hp. pose proof (owns_no_token w) as Ho.
    destruct (permitted_keeps _ _ _ _ Hinv Ho Hp) as [Hinv' _].
    pose proof (permitted_extends _ _ _ _ Hinv Ho Hp) as Hext. split; [|done]. split; [done|].
    exists tok. split; [|done]. intros i p Hi. destruct (Hts i p Hi) as [Hoi Hob]. split.
    + exact (proj1 (permitted_frame _ _ _ _ _ Hinv Ho Hoi (apart_sym _ _ (apart_no_token _)) Hp)).
    + by eapply obeys_later.
  - split; [|reflexivity]. destruct Hs as [Hinv (tok & Hts & Hap)]. cbn in *. split; [done|].
    exists (fun j => if decide (j = i) then no_token else tok j). cbn. split.
    + intros j q [[<- <-]|[Hij Hj]]%lookup_insert_Some.
      * rewrite decide_True by done. split; [apply owns_no_token|by apply Hstarts].
      * rewrite decide_False by done. by apply Hts.
    + intros j j' q q' Hne [[<- _]|[Hj Hq]]%lookup_insert_Some [[<- _]|[Hj' Hq']]%lookup_insert_Some; [done|..].
      * rewrite decide_True, decide_False by done. apply apart_sym, apart_no_token.
      * rewrite decide_False, decide_True by done. apply apart_no_token.
      * rewrite !decide_False by done. by eapply Hap.
  - by apply request_supervised.
  - split; [|reflexivity]. destruct Hs as [Hinv (tok & Hts & Hap)]. split; [done|]. exists tok. cbn in *. split.
    + intros j p [_ Hj]%lookup_delete_Some. by apply Hts.
    + intros j j' p q Hne [_ Hj]%lookup_delete_Some [_ Hj']%lookup_delete_Some. by eapply Hap.
Qed.

Lemma steps_supervised s s' :
  rtc (machine_step starts) s s' -> supervised s -> supervised s' /\ extends s.(mc_world) s'.(mc_world).
Proof using Hstarts.
  induction 1 as [s|s1 s2 s3 Hstep _ IH]; [by split|]. intros Hs.
  destruct (step_supervised _ _ Hstep Hs) as [Hs2 He]. destruct (IH Hs2) as [Hs3 He3].
  split; [done|]. by etrans.
Qed.

Lemma idle_supervised w : invariant w -> supervised (mkMachine w ∅).
Proof. intros Hw. split; [done|]. by exists (fun _ => no_token). Qed.
End Obeys.

(** ** The protocol of an invariant

    There is one token, for everyone; what is permitted is what respects [R]. *)
Section Plain.
Context (R : relation World) `{!PreOrder R} (I : World -> Prop) (HI : forall w w', R w w' -> I w -> I w').
Context (Hbump : forall w, R w (bump w)).

Definition plain : Protocol unit.
Proof using All.
  refine {| no_token := tt; invariant := I; owns := fun _ _ => True; apart := fun _ _ => True;
            permitted := fun _ _ => R; extends := R |}; try done; intros.
  - by etrans.
  - split; [|done]. by eapply HI.
Defined.
End Plain.

(** When every program respects [R] whatever the others do. *)
Lemma machine_respects (R : relation World) `{!PreOrder R} (starts : World -> M () -> Prop) s s' :
  (forall w, R w (bump w)) -> (forall w p, starts w p -> stable R p) ->
  rtc (machine_step starts) s s' -> (forall i p, s.(mc_threads) !! i = Some p -> stable R p) ->
  R s.(mc_world) s'.(mc_world) /\ forall i p, s'.(mc_threads) !! i = Some p -> stable R p.
Proof.
  intros Hbump Hstarts. induction 1 as [s|s1 s2 s3 Hstep _ IH]; [done|]. intros Hs.
  assert (R s1.(mc_world) s2.(mc_world) /\ forall i p, s2.(mc_threads) !! i = Some p -> stable R p) as [H12 H2].
  { destruct Hstep as [w ts|i p w ts Hp Hi|i X op k w ts Hi|i w ts]; cbn in *.
    - split; [apply Hbump|exact Hs].
    - split; [done|]. intros j q [[<- <-]|[_ Hj]]%lookup_insert_Some; [by eapply Hstarts|by eapply Hs].
    - destruct (Hs _ _ Hi w) as [Hop Hk]. split; [done|].
      intros j q [[<- <-]|[_ Hj]]%lookup_insert_Some; [done|by eapply Hs].
    - split; [done|]. intros j q [_ Hj]%lookup_delete_Some. by eapply Hs. }
  destruct (IH H2) as [H23 H3]. split; [by etrans|done].
Qed.
