(* ===== verification/Postgres.v ===== *)
(** internal/repository/postgres: the campaign, business-hour, target and
    statistics repositories, with the constraints of
    db/migrations/postgres/0001_init.sql. *)
From S2P Require Import Prelude Errors GoTime Json Domain Messages World.

Section Postgres.
Context `{Env} `{PgOrder}.

Definition constraint_violation : error := New "constraint violation".

(** [WHERE p], as rows in an unspecified but fixed order. *)
Definition table_rows {K V} `{Countable K} (m : gmap K V) : list (K * V) := map_to_list m.

Definition limit_rows {A} (limit : int) (l : list A) : list A := take (Z.to_nat limit) l.

(** ** withTx (tx.go)

    The statements of [fn] become visible at the commit; a rollback, or a
    commit that does not get through, leaves the tables as they were. A
    transaction is one request: it runs as if alone, whatever others do. *)
Definition put_tables (from w : World) : World :=
  set_campaigns from.(w_campaigns) (set_hours from.(w_hours)
    (set_targets from.(w_targets) (set_stats from.(w_stats) w))).

Definition in_tx (fn : M ()) (w : World) : World * result error () :=
  match external (fun w => Ok (w, ())) w with
  | (w1, Err e) => (w1, Err (wrapf "tx begin" e))
  | (w1, Ok _) =>
      match fn w1 with
      | (w2, Err err) =>
          match external (fun w => Ok (w, ())) (put_tables w1 w2) with
          | (w3, Err rbErr) =>
              (w3, Err (Errorf (String.append "tx rollback: "
                 (String.append (error_text rbErr) " (original err: ")) err ")"))
          | (w3, Ok _) => (w3, Err err)
          end
      | (w2, Ok _) =>
          on_err (wrapf "tx commit")
            (external (fun w => Ok (put_tables w2 w, ()))) (put_tables w1 w2)
      end
  end.
Definition withTx (fn : M ()) : M () := atomic (in_tx fn).

Lemma run_withTx fn w : run (withTx fn) w = in_tx fn w.
Proof. apply run_atomic. Qed.

(** ** CampaignRepository (campaign_repository.go) *)

(** The constraints of the campaigns table on one row, against the others. *)
Definition campaign_row_ok (others : gmap uuid campaignRecord) (r : campaignRecord) : bool :=
  bool_decide (in_int32 r.(cr_MaxConcurrentCalls)) && (0 <? r.(cr_MaxConcurrentCalls)) &&
  bool_decide (in_int32 r.(cr_RetryMaxAttempts)) && (0 <=? r.(cr_RetryMaxAttempts)) &&
  forallb (fun '(_, o) =>
    negb (bool_decide (env_pg_lower o.(cr_Name) = env_pg_lower r.(cr_Name)))) (table_rows others).

Definition campaign_params (c : Campaign) : campaignRecord :=
  mkCampaignRow c.(c_ID) c.(c_Name) (Some c.(c_Description)) c.(c_TimeZone)
    c.(c_MaxConcurrentCalls) c.(c_Status) c.(c_RetryPolicy).(rp_MaxAttempts)
    (Milliseconds c.(c_RetryPolicy).(rp_BaseDelay))
    (Milliseconds c.(c_RetryPolicy).(rp_MaxDelay))
    c.(c_RetryPolicy).(rp_Jitter)
    (Some c.(c_CreatedAt)) (Some c.(c_UpdatedAt)) c.(c_StartedAt) c.(c_CompletedAt).

Definition insert_campaign (r : campaignRecord) (w : World) : result error (World * ()) :=
  if bool_decide (w.(w_campaigns) !! r.(cr_ID) = None) && campaign_row_ok w.(w_campaigns) r
  then Ok (set_campaigns (<[r.(cr_ID) := r]> w.(w_campaigns)) w, ())
  else Err constraint_violation.

Definition CampaignRepository_Create (campaign : Campaign) : M () :=
  on_err (wrapf "campaign repo: insert") (external (insert_campaign (campaign_params campaign))).

(** campaignRecord.toDomain *)
Definition toDomain (r : campaignRecord) : Campaign :=
  mkCampaign r.(cr_ID) r.(cr_Name) (default EmptyString r.(cr_Description)) r.(cr_TimeZone) []
    r.(cr_MaxConcurrentCalls)
    (mkRetryPolicy r.(cr_RetryMaxAttempts) (of_ms r.(cr_RetryBaseDelayMs))
       (of_ms r.(cr_RetryMaxDelayMs)) r.(cr_RetryJitter))
    r.(cr_Status) zero_time zero_time None None.

Definition CampaignRepository_Get (id : uuid) : M Campaign :=
  r ← on_err (wrapf "campaign repo: get") (external (fun w => Ok (w, w.(w_campaigns) !! id)));
  match r with
  | None => throw (Sentinel ErrNotFound)
  | Some record => mret (toDomain record)
  end.

(** The SET clause of Update, and the BEFORE UPDATE trigger's updated_at. *)
Definition update_row (c : Campaign) (stamp : Time) (old : campaignRecord) : campaignRecord :=
  let p := campaign_params c in
  mkCampaignRow old.(cr_ID) p.(cr_Name) p.(cr_Description) p.(cr_TimeZone)
    p.(cr_MaxConcurrentCalls) p.(cr_Status) p.(cr_RetryMaxAttempts) p.(cr_RetryBaseDelayMs)
    p.(cr_RetryMaxDelayMs) p.(cr_RetryJitter) old.(cr_CreatedAt) (Some stamp)
    p.(cr_StartedAt) p.(cr_CompletedAt).

(** The statement's result is the number of rows affected. *)
Definition update_campaign (id : uuid) (f : campaignRecord -> campaignRecord) (w : World)
    : result error (World * nat) :=
  match w.(w_campaigns) !! id with
  | None => Ok (w, 0%nat)
  | Some old =>
      if campaign_row_ok (delete id w.(w_campaigns)) (f old)
      then Ok (set_campaigns (<[id := f old]> w.(w_campaigns)) w, 1%nat)
      else Err constraint_violation
  end.

Definition rows_or_not_found (n : nat) : M () :=
  if Nat.eqb n 0 then throw (Sentinel ErrNotFound) else mret ().

Definition CampaignRepository_Update (campaign : Campaign) : M () :=
  n ← on_err (wrapf "campaign repo: update")
    (external (fun w =>
       update_campaign campaign.(c_ID) (update_row campaign (env_now w.(w_tick))) w));
  rows_or_not_found n.

Definition set_row_status (status : CampaignStatus) (stamp : Time) (r : campaignRecord) :=
  mkCampaignRow r.(cr_ID) r.(cr_Name) r.(cr_Description) r.(cr_TimeZone)
    r.(cr_MaxConcurrentCalls) status r.(cr_RetryMaxAttempts) r.(cr_RetryBaseDelayMs)
    r.(cr_RetryMaxDelayMs) r.(cr_RetryJitter) r.(cr_CreatedAt) (Some stamp)
    r.(cr_StartedAt) r.(cr_CompletedAt).

Definition CampaignRepository_UpdateStatus (id : uuid) (status : CampaignStatus) : M () :=
  n ← on_err (wrapf "campaign repo: update status")
    (external (fun w => update_campaign id (set_row_status status (env_now w.(w_tick))) w));
  rows_or_not_found n.

Definition CampaignRepository_List (afterID : option uuid) (limit : int) : M (list Campaign) :=
  let limit := if limit <=? 0 then 50 else limit in
  on_err (wrapf "campaign repo: list") (external (A := list Campaign) (fun w =>
    let rows := match afterID with
      | Some after => List.filter (fun r => N.ltb after r.(cr_ID)) (table_rows w.(w_campaigns)).*2
      | None => (table_rows w.(w_campaigns)).*2
      end in
    Ok (w, toDomain <$> limit_rows limit (pg_order (fun r => Z.of_N r.(cr_ID)) rows)))).

Definition CampaignRepository_ListByStatus (status : CampaignStatus) (limit : int)
    : M (list Campaign) :=
  let limit := if limit <=? 0 then 100 else limit in
  on_err (wrapf "campaign repo: list by status") (external (A := list Campaign) (fun w =>
    let rows := List.filter (fun r => bool_decide (r.(cr_Status) = status))
                  (table_rows w.(w_campaigns)).*2 in
    Ok (w, toDomain <$>
      limit_rows limit (pg_order (fun r => default zero_time r.(cr_UpdatedAt)) rows)))).

(** ** BusinessHourRepository (business_hours_repository.go) *)

Definition hour_row_ok (w : World) (r : hourRow) : bool :=
  bool_decide (is_Some (w.(w_campaigns) !! r.(hr_campaign_id))) &&
  (0 <=? r.(hr_day_of_week)) && (r.(hr_day_of_week) <=? 6) &&
  (0 <=? r.(hr_start_minute)) && (r.(hr_start_minute) <=? 1439) &&
  (0 <=? r.(hr_end_minute)) && (r.(hr_end_minute) <=? 1439) &&
  (r.(hr_start_minute) <? r.(hr_end_minute)) &&
  negb (bool_decide (r ∈ w.(w_hours))).

Definition insert_hour (r : hourRow) (w : World) : result error (World * ()) :=
  if hour_row_ok w r then Ok (set_hours (w.(w_hours) ++ [r]) w, ()) else Err constraint_violation.

Definition delete_hours (campaignID : uuid) (w : World) : result error (World * ()) :=
  Ok (set_hours (List.filter (fun r => negb (bool_decide (r.(hr_campaign_id) = campaignID)))
        w.(w_hours)) w, ()).

Definition window_row (campaignID : uuid) (w : BusinessHourWindow) : hourRow :=
  mkHourRow campaignID w.(w_DayOfWeek)
    (Hour w.(w_Start) * 60 + Minute w.(w_Start)) (Hour w.(w_End) * 60 + Minute w.(w_End)).

(** The closure Replace passes to withTx. *)
Definition replace_hours_tx (campaignID : uuid) (windows : list BusinessHourWindow) : M () :=
  on_err (wrapf "business hours: delete existing") (external (delete_hours campaignID)) ≫= fun _ =>
  match windows with
  | [] => mret ()
  | _ =>
      on_err (wrapf "business hours: prepare insert") (external (fun w => Ok (w, ()))) ≫= fun _ =>
      for_each windows (fun bh =>
        on_err (wrapf "business hours: insert") (external (insert_hour (window_row campaignID bh))))
  end.

Definition BusinessHourRepository_Replace (campaignID : uuid) (windows : list BusinessHourWindow)
    : M () :=
  withTx (replace_hours_tx campaignID windows).

(** minuteToTime *)
Definition minuteToTime (min : int) : Time :=
  date_2000_01_01 (Z.quot min 60) (Z.rem min 60).

Definition row_window (r : hourRow) : BusinessHourWindow :=
  mkWindow r.(hr_day_of_week) (minuteToTime r.(hr_start_minute)) (minuteToTime r.(hr_end_minute)).

(** ORDER BY day_of_week, start_minute: minutes are below 1440 by the CHECK. *)
Definition hour_key (r : hourRow) : Z := r.(hr_day_of_week) * 1440 + r.(hr_start_minute).

Definition hours_of (campaignID : uuid) (w : World) : list hourRow :=
  List.filter (fun r => bool_decide (r.(hr_campaign_id) = campaignID)) w.(w_hours).

Definition BusinessHourRepository_List (campaignID : uuid) : M (list BusinessHourWindow) :=
  on_err (wrapf "business hours: query") (external (A := list BusinessHourWindow) (fun w =>
    Ok (w, row_window <$> pg_order hour_key (hours_of campaignID w)))).

(** ** CampaignTargetRepository (target_repository.go) *)

Definition target_params (campaignID : uuid) (t : CampaignTargetRecord) : targetRow :=
  mkTargetRow campaignID t.(t_PhoneNumber) (enc_map t.(t_Payload)) t.(t_State)
    t.(t_ScheduledAt) t.(t_LastAttempt) t.(t_AttemptCount) t.(t_CreatedAt).

(** INSERT ... ON CONFLICT (id) DO NOTHING *)
Definition insert_target (campaignID : uuid) (m : gmap uuid targetRow) (t : CampaignTargetRecord)
    : gmap uuid targetRow :=
  match m !! t.(t_ID) with
  | Some _ => m
  | None => <[t.(t_ID) := target_params campaignID t]> m
  end.

Definition insert_targets (campaignID : uuid) (ts : list CampaignTargetRecord) (w : World)
    : result error (World * ()) :=
  if bool_decide (is_Some (w.(w_campaigns) !! campaignID)) &&
     forallb (fun t => bool_decide (in_int32 t.(t_AttemptCount))) ts
  then Ok (set_targets (foldl (insert_target campaignID) w.(w_targets) ts) w, ())
  else Err constraint_violation.

Definition CampaignTargetRepository_BulkInsert (campaignID : uuid)
    (targets : list CampaignTargetRecord) : M () :=
  match targets with
  | [] => mret ()
  | _ => on_err (wrapf "campaign targets: bulk insert") (external (insert_targets campaignID targets))
  end.

(** targetRecord.toModel *)
Definition toModel (campaignID : uuid) (id : uuid) (r : targetRow) : CampaignTargetRecord :=
  mkTarget id campaignID r.(tr_phone_number) (default None (dec_map r.(tr_payload)))
    r.(tr_state) r.(tr_scheduled_at) r.(tr_last_attempt_at) r.(tr_attempt_count) r.(tr_created_at).

Definition select_targets (campaignID : uuid) (p : targetRow -> bool) (limit : int) (w : World)
    : list CampaignTargetRecord :=
  (fun '(id, r) => toModel campaignID id r) <$>
  limit_rows limit (pg_order (fun '(_, r) => r.(tr_created_at))
    (List.filter (fun '(_, r) => bool_decide (r.(tr_campaign_id) = campaignID) && p r)
       (table_rows w.(w_targets)))).

Definition state_is (state : string) (r : targetRow) : bool := bool_decide (r.(tr_state) = state).

Definition CampaignTargetRepository_NextBatchForScheduling (campaignID : uuid) (limit : int)
    : M (list CampaignTargetRecord) :=
  let limit := if limit <=? 0 then 100 else limit in
  on_err (wrapf "campaign targets: select for scheduling")
    (external (fun w => Ok (w, select_targets campaignID (state_is "pending") limit w))).

(** UPDATE campaign_targets SET ... WHERE campaign_id = $2 AND id = ANY($3) *)
Definition update_targets (campaignID : uuid) (ids : list uuid) (f : targetRow -> targetRow)
    (w : World) : World :=
  set_targets (map_imap (fun id r =>
    Some (if bool_decide (r.(tr_campaign_id) = campaignID) && bool_decide (id ∈ ids)
          then f r else r)) w.(w_targets)) w.

Definition with_state (state : string) (r : targetRow) : targetRow :=
  mkTargetRow r.(tr_campaign_id) r.(tr_phone_number) r.(tr_payload) state r.(tr_scheduled_at)
    r.(tr_last_attempt_at) r.(tr_attempt_count) r.(tr_created_at).

Definition with_schedule (at_ : Time) (r : targetRow) : targetRow :=
  mkTargetRow r.(tr_campaign_id) r.(tr_phone_number) r.(tr_payload) "queued" (Some at_)
    r.(tr_last_attempt_at) r.(tr_attempt_count) r.(tr_created_at).

Definition CampaignTargetRepository_MarkScheduled (campaignID : uuid) (targetIDs : list uuid)
    (scheduledAt : Time) : M () :=
  match targetIDs with
  | [] => mret ()
  | _ => on_err (wrapf "campaign targets: mark scheduled") (external (fun w =>
           Ok (update_targets campaignID targetIDs (with_schedule scheduledAt) w, ())))
  end.

Definition CampaignTargetRepository_SetState (campaignID : uuid) (targetIDs : list uuid)
    (state : string) : M () :=
  match targetIDs with
  | [] => mret ()
  | _ => on_err (wrapf "campaign targets: set state") (external (fun w =>
           Ok (update_targets campaignID targetIDs (with_state state) w, ())))
  end.

Definition CampaignTargetRepository_ListByCampaign (campaignID : uuid) (limit : int)
    (state : string) : M (list CampaignTargetRecord) :=
  let limit := if limit <=? 0 then 100 else limit in
  let p := if bool_decide (state = EmptyString) then (fun _ => true) else state_is state in
  on_err (wrapf "campaign targets: list")
    (external (fun w => Ok (w, select_targets campaignID p limit w))).

(** ** CampaignStatisticsRepository (statistics_repository.go) *)

Definition ensure_stats (campaignID : uuid) (w : World) : result error (World * ()) :=
  match w.(w_stats) !! campaignID with
  | Some _ => Ok (w, ())
  | None =>
      if bool_decide (is_Some (w.(w_campaigns) !! campaignID))
      then Ok (set_stats (<[campaignID := zero_stats]> w.(w_stats)) w, ())
      else Err constraint_violation
  end.

Definition CampaignStatisticsRepository_Ensure (campaignID : uuid) : M () :=
  on_err (wrapf "campaign stats: ensure") (external (ensure_stats campaignID)).

Definition CampaignStatisticsRepository_Get (campaignID : uuid) : M CampaignStats :=
  r ← on_err (wrapf "campaign stats: get") (external (fun w => Ok (w, w.(w_stats) !! campaignID)));
  match r with
  | None => throw (Sentinel ErrNotFound)
  | Some stats => mret stats
  end.

Definition add_delta (s : CampaignStats) (d : StatsDelta) : CampaignStats :=
  mkStats (s.(st_TotalCalls) + d.(d_TotalCalls)) (s.(st_CompletedCalls) + d.(d_CompletedCalls))
    (s.(st_FailedCalls) + d.(d_FailedCalls)) (s.(st_InProgressCalls) + d.(d_InProgressCalls))
    (s.(st_PendingCalls) + d.(d_PendingCalls)) (s.(st_RetriesAttempted) + d.(d_Retries)).

(** BIGINT arithmetic fails instead of wrapping. *)
Definition stats_in_range (s : CampaignStats) : bool :=
  bool_decide (in_int64 s.(st_TotalCalls)) && bool_decide (in_int64 s.(st_CompletedCalls)) &&
  bool_decide (in_int64 s.(st_FailedCalls)) && bool_decide (in_int64 s.(st_InProgressCalls)) &&
  bool_decide (in_int64 s.(st_PendingCalls)) && bool_decide (in_int64 s.(st_RetriesAttempted)).

Definition apply_delta (campaignID : uuid) (delta : StatsDelta) (w : World)
    : result error (World * ()) :=
  match w.(w_stats) !! campaignID with
  | None => Ok (w, ())
  | Some s =>
      if stats_in_range (add_delta s delta)
      then Ok (set_stats (<[campaignID := add_delta s delta]> w.(w_stats)) w, ())
      else Err (New "bigint out of range")
  end.

Definition CampaignStatisticsRepository_ApplyDelta (campaignID : uuid) (delta : StatsDelta) : M () :=
  on_err (wrapf "campaign stats: apply delta") (external (apply_delta campaignID delta)).
End Postgres.

#[export] Hint Unfold CampaignRepository_Create CampaignRepository_Get CampaignRepository_Update
  CampaignRepository_UpdateStatus CampaignRepository_List CampaignRepository_ListByStatus
  rows_or_not_found BusinessHourRepository_List CampaignTargetRepository_BulkInsert
  CampaignTargetRepository_NextBatchForScheduling CampaignTargetRepository_MarkScheduled
  CampaignTargetRepository_SetState CampaignTargetRepository_ListByCampaign
  CampaignStatisticsRepository_Ensure CampaignStatisticsRepository_Get
  CampaignStatisticsRepository_ApplyDelta : ops.

(** ** Transactions *)

Section Tx.
Context `{Env}.

(** A transaction preserves what depends on the tables alone. *)
Lemma stable_withTx_inv (I : World -> Prop) fn :
  (forall w, I w -> I (bump w)) ->
  (forall from w, I from -> I (put_tables from w)) ->
  stable (inv I) fn -> stable (inv I) (withTx fn).
Proof.
  intros Hb Hput Hfn. apply stable_atomic; [apply _|]. intros w Hw. unfold in_tx.
  destruct (external _ w) as [w1 [u|e]] eqn:E1; apply external_cases in E1;
    assert (I w1) as H1 by (destruct E1 as [[-> _]|(? & ? & _)]; simplify_eq; auto); [|done].
  pose proof (stable_run (inv I) fn Hfn w1 H1) as H2.
  destruct (fn w1) as [w2 [v|err]]; simpl in H2.
  - rewrite !run_on_err. destruct (external _ (put_tables w1 w2)) as [w3 r] eqn:E2. simpl.
    apply external_cases in E2 as [[-> _]|(? & ? & _)]; simplify_eq; auto.
  - destruct (external _ (put_tables w1 w2)) as [w3 [v|e]] eqn:E2; simpl;
      apply external_cases in E2 as [[-> _]|(? & ? & _)]; simplify_eq; auto.
Qed.

(** A transaction leaves alone what its statements leave alone. *)
Lemma stable_withTx_keeps {B} (g : World -> B) fn :
  (forall w, g (bump w) = g w) ->
  (forall from w, g (put_tables from w) = g w) \/ (forall from w, g (put_tables from w) = g from) ->
  stable (keeps g) fn -> stable (keeps g) (withTx fn).
Proof.
  intros Hb Hput Hfn. apply stable_atomic; [apply _|]. intros w. unfold in_tx, keeps.
  destruct (external _ w) as [w1 [u|e]] eqn:E1; apply external_cases in E1;
    assert (g w1 = g w) as H1 by (destruct E1 as [[-> _]|(? & ? & _)]; simplify_eq; auto); [|done].
  pose proof (stable_run (keeps g) fn Hfn w1) as H2. unfold keeps in H2.
  assert (forall x y, g x = g w -> g y = g w -> g (put_tables x y) = g w) as Hp
    by (destruct Hput as [Hp|Hp]; intros; by rewrite Hp).
  destruct (fn w1) as [w2 [v|err]]; simpl in H2;
    (assert (g w2 = g w) as H3 by congruence).
  - rewrite !run_on_err. destruct (external _ (put_tables w1 w2)) as [w3 r] eqn:E2. simpl.
    apply external_cases in E2 as [[-> _]|(? & [= <- <-] & _)];
      repeat first [done | rewrite Hb | apply Hp].
  - destruct (external _ (put_tables w1 w2)) as [w3 [v|e]] eqn:E2; simpl;
      apply external_cases in E2 as [[-> _]|(? & [= <- <-] & _)];
      repeat first [done | rewrite Hb | apply Hp].
Qed.
End Tx.
