(* ===== verification/PostgresInv.v ===== *)
(** The integrity of the PostgreSQL tables: the schema's constraints hold in
    every state the repositories can reach, whatever faults occur. *)
From S2P Require Import Prelude Errors GoTime Json Domain Messages World Postgres.

Section Integrity.
Context `{Env}.

Definition campaign_row_valid (id : uuid) (r : campaignRecord) : Prop :=
  r.(cr_ID) = id /\ 0 < r.(cr_MaxConcurrentCalls) <= 2 ^ 31 - 1 /\
  0 <= r.(cr_RetryMaxAttempts) <= 2 ^ 31 - 1.

Definition hour_row_valid (r : hourRow) : Prop :=
  0 <= r.(hr_day_of_week) <= 6 /\ 0 <= r.(hr_start_minute) /\
  r.(hr_start_minute) < r.(hr_end_minute) /\ r.(hr_end_minute) <= 1439.

(** Keys, CHECKs, uniqueness and references of 0001_init.sql. *)
Record pg_ok (w : World) : Prop := mkPgOk {
  ok_campaign : forall id r, w.(w_campaigns) !! id = Some r -> campaign_row_valid id r;
  ok_names : forall i j ri rj,
    w.(w_campaigns) !! i = Some ri -> w.(w_campaigns) !! j = Some rj ->
    env_pg_lower ri.(cr_Name) = env_pg_lower rj.(cr_Name) -> i = j;
  ok_hours : forall r, r ∈ w.(w_hours) ->
    is_Some (w.(w_campaigns) !! r.(hr_campaign_id)) /\ hour_row_valid r;
  ok_hours_unique : NoDup w.(w_hours);
  ok_targets : forall id r, w.(w_targets) !! id = Some r ->
    is_Some (w.(w_campaigns) !! r.(tr_campaign_id));
  ok_stats : forall id s, w.(w_stats) !! id = Some s ->
    is_Some (w.(w_campaigns) !! id) /\ stats_in_range s = true;
}.

Lemma pg_ok_same w w' :
  w'.(w_campaigns) = w.(w_campaigns) -> w'.(w_hours) = w.(w_hours) ->
  w'.(w_targets) = w.(w_targets) -> w'.(w_stats) = w.(w_stats) -> pg_ok w -> pg_ok w'.
Proof. intros E1 E2 E3 E4 []. constructor; rewrite ?E1, ?E2, ?E3, ?E4; assumption. Qed.

Lemma pg_ok_bump w : pg_ok w -> pg_ok (bump w).
Proof. by apply pg_ok_same; destruct w. Qed.

Lemma pg_ok_put_tables from w : pg_ok from -> pg_ok (put_tables from w).
Proof. by apply pg_ok_same; destruct from, w. Qed.

Lemma pg_ok_empty : pg_ok empty_world.
Proof.
  constructor; simpl; intros; first [by simplify_map_eq | by constructor | set_solver].
Qed.

(** A campaign row put under a key, existing or new. *)
Lemma campaign_row_ok_spec (others : gmap uuid campaignRecord) r :
  campaign_row_ok others r = true ->
  campaign_row_valid r.(cr_ID) r /\
  forall i o, others !! i = Some o -> env_pg_lower o.(cr_Name) <> env_pg_lower r.(cr_Name).
Proof.
  unfold campaign_row_ok. intros Hok. zbool. repeat match goal with
  | H : bool_decide _ = true |- _ => apply bool_decide_eq_true_1 in H; unfold in_int32 in H end.
  split; [unfold campaign_row_valid; lia|]. intros i o Ho Heq.
  match goal with H : forallb _ _ = true |- _ => rewrite forallb_forall in H; specialize (H (i, o)) end.
  simpl in *. rewrite negb_true_iff in *. unfold table_rows in *.
  assert (bool_decide (env_pg_lower (cr_Name o) = env_pg_lower (cr_Name r)) = false) as Hf.
  { match goal with H : _ -> _ |- _ => apply H end. apply list_elem_of_In. by apply elem_of_map_to_list. }
  by rewrite bool_decide_true in Hf.
Qed.

Lemma pg_ok_put_campaign w r :
  campaign_row_ok (delete r.(cr_ID) w.(w_campaigns)) r = true ->
  pg_ok w -> pg_ok (set_campaigns (<[r.(cr_ID) := r]> w.(w_campaigns)) w).
Proof.
  intros Hrow [Hc Hn Hh Hu Ht Hs]. apply campaign_row_ok_spec in Hrow as [Hv Hnames].
  assert (forall i o, w.(w_campaigns) !! i = Some o -> i <> r.(cr_ID) ->
            env_pg_lower o.(cr_Name) <> env_pg_lower r.(cr_Name)) as Hnames'.
  { intros i o Ho Hne. apply (Hnames i). by rewrite lookup_delete_ne. }
  assert (forall i, is_Some (w.(w_campaigns) !! i) ->
            is_Some (<[r.(cr_ID) := r]> w.(w_campaigns) !! i)) as Hsome.
  { intros i Hi. rewrite lookup_insert_is_Some'. by right. }
  destruct w; simpl in *. constructor; simpl.
  - intros id r' Hl. rewrite lookup_insert in Hl. case_decide; [by simplify_eq|by apply Hc].
  - intros i j ri rj Hi Hj Heq.
    destruct (decide (i = r.(cr_ID))) as [Ei|Ei], (decide (j = r.(cr_ID))) as [Ej|Ej];
      [congruence | subst i | subst j | ];
      rewrite ?lookup_insert_eq, ?lookup_insert_ne in * by done; simplify_eq.
    + by destruct (Hnames' j rj Hj Ej).
    + by destruct (Hnames' i ri Hi Ei).
    + by eapply Hn.
  - intros r' Hr'. destruct (Hh r' Hr'). auto.
  - done.
  - intros. eauto.
  - intros id s Hl. destruct (Hs id s Hl). auto.
Qed.

Lemma insert_campaign_ok r w w' a : insert_campaign r w = Ok (w', a) -> inv pg_ok w w'.
Proof.
  unfold insert_campaign, inv. intros Hi. destruct (_ && _) eqn:E; simplify_eq. zbool.
  apply pg_ok_put_campaign. rewrite delete_id; [done|]. by eapply bool_decide_eq_true_1.
Qed.

Lemma update_campaign_ok id f w w' n :
  (forall r, (f r).(cr_ID) = r.(cr_ID)) -> update_campaign id f w = Ok (w', n) -> inv pg_ok w w'.
Proof.
  unfold update_campaign, inv. intros Hf Hu Hok.
  destruct (w_campaigns w !! id) as [old|] eqn:Hl; [|by simplify_eq].
  destruct (campaign_row_ok _ _) eqn:E; simplify_eq.
  assert ((f old).(cr_ID) = id) as Hid.
  { rewrite Hf. by destruct (ok_campaign w Hok id old Hl). }
  rewrite <- Hid at 1. apply pg_ok_put_campaign; [|done]. by rewrite Hid.
Qed.

Lemma delete_hours_ok c w w' a : delete_hours c w = Ok (w', a) -> inv pg_ok w w'.
Proof.
  unfold delete_hours, inv. intros [= <- <-] [Hc Hn Hh Hu Ht Hs].
  destruct w; constructor; simpl in *; try assumption.
  - intros r Hr. apply Hh. rewrite list_elem_of_In in *. by apply filter_In in Hr as [? _].
  - apply NoDup_ListNoDup, List.NoDup_filter, NoDup_ListNoDup. done.
Qed.

Lemma insert_hour_ok r w w' a : insert_hour r w = Ok (w', a) -> inv pg_ok w w'.
Proof.
  unfold insert_hour, hour_row_ok, inv. intros Hi [Hc Hn Hh Hu Ht Hs].
  destruct (_ && _) eqn:E in Hi; simplify_eq. zbool.
  rewrite negb_true_iff in *. repeat match goal with
  | H : bool_decide _ = true |- _ => apply bool_decide_eq_true_1 in H
  | H : bool_decide _ = false |- _ => apply bool_decide_eq_false_1 in H end.
  destruct w; constructor; simpl in *; try assumption.
  - intros r' Hr'. apply elem_of_app in Hr' as [Hr'|Hr']; [by apply Hh|].
    apply list_elem_of_singleton in Hr' as ->. split; [done|]. unfold hour_row_valid. lia.
  - apply NoDup_app. split_and!; [done| |apply NoDup_singleton].
    intros x Hx Hx'. apply list_elem_of_singleton in Hx' as ->. done.
Qed.

Lemma foldl_insert_target c ts : forall m id r,
  foldl (insert_target c) m ts !! id = Some r -> m !! id = Some r \/ r.(tr_campaign_id) = c.
Proof.
  induction ts as [|t ts IH]; simpl; intros m id r Hl; [auto|].
  apply IH in Hl as [Hl|]; [|auto]. unfold insert_target in Hl.
  destruct (m !! t_ID t) eqn:E; [auto|]. rewrite lookup_insert in Hl.
  case_decide; simplify_eq/=; auto.
Qed.

Lemma insert_targets_ok c ts w w' a : insert_targets c ts w = Ok (w', a) -> inv pg_ok w w'.
Proof.
  unfold insert_targets, inv. intros Hi [Hc Hn Hh Hu Ht Hs].
  destruct (_ && _) eqn:E; simplify_eq. zbool.
  destruct w; constructor; simpl in *; try assumption.
  intros id r Hl. apply foldl_insert_target in Hl as [Hl|<-]; [by eapply Ht|].
  by eapply bool_decide_eq_true_1.
Qed.

Lemma update_targets_ok c ids f w :
  (forall r, (f r).(tr_campaign_id) = r.(tr_campaign_id)) -> inv pg_ok w (update_targets c ids f w).
Proof.
  unfold update_targets, inv. intros Hf [Hc Hn Hh Hu Ht Hs].
  destruct w; constructor; simpl in *; try assumption.
  intros id r Hl. rewrite map_lookup_imap in Hl.
  destruct (w_targets !! id) as [r0|] eqn:E; simplify_eq/=.
  specialize (Ht id r0 E). case_match; [by rewrite Hf|done].
Qed.

Lemma ensure_stats_ok c w w' a : ensure_stats c w = Ok (w', a) -> inv pg_ok w w'.
Proof.
  unfold ensure_stats, inv. intros Hi [Hc Hn Hh Hu Ht Hs].
  destruct (w_stats w !! c) eqn:El; [by simplify_eq|].
  destruct (bool_decide _) eqn:E; simplify_eq. apply bool_decide_eq_true_1 in E.
  destruct w; constructor; simpl in *; try assumption.
  intros id s Hl. rewrite lookup_insert in Hl. case_decide; simplify_eq; [done|by apply Hs].
Qed.

Lemma apply_delta_ok c d w w' a : apply_delta c d w = Ok (w', a) -> inv pg_ok w w'.
Proof.
  unfold apply_delta, inv. intros Hi [Hc Hn Hh Hu Ht Hs].
  destruct (w_stats w !! c) as [s|] eqn:El; [|by simplify_eq].
  destruct (stats_in_range _) eqn:E; simplify_eq.
  destruct w; constructor; simpl in *; try assumption.
  intros id s' Hl. rewrite lookup_insert in Hl. case_decide; simplify_eq.
  - split; [by eapply Hs|done].
  - by apply Hs.
Qed.
End Integrity.

#[export] Hint Resolve insert_campaign_ok update_campaign_ok delete_hours_ok insert_hour_ok
  insert_targets_ok update_targets_ok ensure_stats_ok apply_delta_ok pg_ok_bump : pgok.
