(* ===== verification/PostgresSpec.v ===== *)
(** What the PostgreSQL repositories promise: the business-hour table read back
    after it is replaced, transactions that are all or nothing, the batch the
    scheduler is given, and the registered numbers of a campaign. *)
From S2P Require Import Prelude Errors GoTime Json Domain Messages World Postgres PostgresInv.

(** [phone] is a registered target of campaign [c]. *)
Definition registered (w : World) (c : uuid) (phone : string) : Prop :=
  exists id r, w.(w_targets) !! id = Some r /\ r.(tr_campaign_id) = c /\ r.(tr_phone_number) = phone.

Section Registered.
Context `{Env} `{PgOrder}.

Lemma registered_same w w' c p : w'.(w_targets) = w.(w_targets) -> registered w c p -> registered w' c p.
Proof. unfold registered. by intros ->. Qed.

Lemma registered_update w c ids f c' p :
  (forall r, (f r).(tr_campaign_id) = r.(tr_campaign_id)) ->
  (forall r, (f r).(tr_phone_number) = r.(tr_phone_number)) ->
  registered w c' p -> registered (update_targets c ids f w) c' p.
Proof.
  intros Hc Hp (id & r & Hl & Hr & Hph). exists id.
  exists (if bool_decide (r.(tr_campaign_id) = c) && bool_decide (id ∈ ids) then f r else r).
  split; [|case_match; by rewrite ?Hc, ?Hp].
  destruct w; simpl in *. by rewrite map_lookup_imap, Hl.
Qed.

Lemma foldl_insert_target_mono c ts : forall m id r,
  m !! id = Some r -> foldl (insert_target c) m ts !! id = Some r.
Proof.
  induction ts as [|t ts IH]; simpl; intros m id r Hm; [done|].
  apply IH. unfold insert_target. destruct (m !! t_ID t) eqn:E; [done|].
  rewrite lookup_insert_ne; [done|congruence].
Qed.

Lemma select_targets_registered c p n w t :
  t ∈ select_targets c p n w -> registered w c t.(t_PhoneNumber).
Proof.
  unfold select_targets, limit_rows. intros Ht.
  apply list_elem_of_fmap in Ht as ([id r] & -> & Hin).
  apply elem_of_take in Hin as (i & Hi & _). apply list_elem_of_lookup_2 in Hi.
  rewrite pg_order_perm in Hi. apply list_elem_of_In, filter_In in Hi as [Hi Hp].
  apply list_elem_of_In, elem_of_map_to_list in Hi.
  apply andb_true_iff in Hp as [Hc _]. apply bool_decide_eq_true_1 in Hc.
  exists id, r. by destruct r.
Qed.

End Registered.

(** ** Transactions *)

Definition tables (w : World) := (w.(w_campaigns), w.(w_hours), w.(w_targets), w.(w_stats)).

Lemma tables_put from w : tables (put_tables from w) = tables from.
Proof. by destruct from, w. Qed.
Lemma tables_bump w : tables (bump w) = tables w.
Proof. by destruct w. Qed.
Lemma bump_put w2 w : put_tables w2 (bump (put_tables w w2)) = bump w2.
Proof. by destruct w, w2. Qed.

#[export] Hint Rewrite tables_put tables_bump bump_put : go.

Section Transactions.
Context `{Env}.

(** What became of a transaction: nothing, or all of it. *)
Lemma withTx_cases fn w w' r :
  withTx fn w = (w', r) ->
  (tables w' = tables w /\ exists e, r = Err e) \/
  (exists w2, fn (bump w) = (w2, Ok ()) /\ w' = bump w2 /\ (r = Ok () \/ exists e, r = Err e)).
Proof.
  rewrite run_withTx. unfold in_tx. intros Hrun.
  destruct (external _ w) as [w1 [u|e]] eqn:E1; apply external_cases in E1.
  2:{ simplify_eq. left. split; [|eauto].
      destruct E1 as [[-> _]|(? & ? & _)]; simplify_eq; by rewrite tables_bump. }
  assert (w1 = bump w) as -> by (destruct E1 as [[-> _]|(? & ? & _)]; by simplify_eq).
  destruct (fn (bump w)) as [w2 [[]|err]] eqn:Ef.
  - rewrite !run_on_err in Hrun. destruct (external _ (put_tables _ w2)) as [w3 r3] eqn:E2.
    simpl in Hrun. simplify_eq.
    apply external_cases in E2 as [[-> [e ->]]|(u' & Hc & Hr)].
    + left. autorewrite with go. by split; [|eexists].
    + right. simplify_eq. rewrite bump_put. eexists. split_and!; [done|done|].
      destruct Hr as [->|[e ->]]; simpl; [by left|right; by eexists].
  - left. destruct (external _ (put_tables _ w2)) as [w3 r3] eqn:E2.
    apply external_cases in E2.
    assert (tables w3 = tables w) as Ht
      by (destruct E2 as [[-> _]|(? & ? & _)]; simplify_eq; by autorewrite with go).
    destruct r3; injection Hrun as <- <-; eauto.
Qed.

Lemma withTx_reliable_Err fn w w' e : reliable -> withTx fn w = (w', Err e) -> tables w' = tables w.
Proof.
  intros Hr Hrun. destruct (withTx_cases _ _ _ _ Hrun) as [[Ht _]|(w2 & Hfn & _)]; [done|exfalso].
  rewrite run_withTx in Hrun. unfold in_tx in Hrun. rewrite external_reliable, Hfn in Hrun by done.
  rewrite run_on_err, external_reliable in Hrun by done. done.
Qed.

(** Claim C32: a transaction is all or nothing: when it reports an error the
    tables are as they were, unless every statement had succeeded and only the
    reply to the commit was lost; when it reports success, the tables are those
    its statements left. *)
Theorem transaction_all_or_nothing fn w w' r :
  withTx fn w = (w', r) ->
  (tables w' = tables w /\ exists e, r = Err e) \/
  (exists w2, fn (bump w) = (w2, Ok ()) /\ tables w' = tables w2 /\
     (r = Ok () \/ exists e, r = Err e)).
Proof.
  intros Hrun. destruct (withTx_cases _ _ _ _ Hrun) as [?|(w2 & ? & -> & ?)]; [by left|].
  right. exists w2. by rewrite tables_bump.
Qed.

Lemma withTx_Ok fn w w' u :
  withTx fn w = (w', Ok u) -> exists w2, fn (bump w) = (w2, Ok ()) /\ w' = bump w2.
Proof.
  intros Hrun. destruct (withTx_cases _ _ _ _ Hrun) as [[_ [e ?]]|(w2 & ? & -> & _)]; [done|eauto].
Qed.
End Transactions.

(** ** Business hours: Replace, then List *)

Section BusinessHours.
Context `{Env} `{PgOrder}.

(** The world with only the business hours (and the clock) changed. *)
Definition with_hours_table (n : nat) (hs : list hourRow) (w : World) : World :=
  set_tick n (set_hours hs w).

Lemma insert_hours_Ok (rows : list hourRow) {A} (f : A -> hourRow) (l : list A) w w' u :
  rows = f <$> l ->
  for_each l (fun x => on_err (wrapf "business hours: insert") (external (insert_hour (f x)))) w
    = (w', Ok u) ->
  exists n, (w.(w_tick) <= n)%nat /\ w' = with_hours_table n (w.(w_hours) ++ rows) w /\
    Forall hour_row_valid rows.
Proof.
  intros ->. revert w. induction l as [|x l IH]; cbn [for_each fmap list_fmap]; intros w Hrun.
  - injection Hrun as <- _. exists w.(w_tick). rewrite app_nil_r. by destruct w.
  - inv_ok Hrun. inv_ok Hstep. unfold insert_hour in Hstep.
    destruct (hour_row_ok _ _) eqn:Hok; simplify_eq.
    destruct (IH _ Hrun) as (n & Hn & -> & Hall). exists n. split_and!.
    + destruct w; simpl in *; lia.
    + destruct w; unfold with_hours_table; simpl. by rewrite <- app_assoc.
    + constructor; [|done]. unfold hour_row_ok in Hok. zbool. unfold hour_row_valid. lia.
Qed.

Definition replaced_hours (id : uuid) (ws : list BusinessHourWindow) (w : World) : list hourRow :=
  List.filter (fun r => negb (bool_decide (r.(hr_campaign_id) = id))) w.(w_hours) ++
  (window_row id <$> ws).

Lemma replace_hours_tx_Ok id ws w w' u :
  replace_hours_tx id ws w = (w', Ok u) ->
  (exists n, (w.(w_tick) <= n)%nat /\ w' = with_hours_table n (replaced_hours id ws w) w) /\
  Forall hour_row_valid (window_row id <$> ws).
Proof.
  intros Hfn. unfold replace_hours_tx in Hfn. inv_ok Hfn. inv_ok Hstep.
  unfold delete_hours in Hstep. simplify_eq. destruct ws as [|x ws].
  - injection Hfn as <-. split; [|constructor]. exists (S w.(w_tick)). split; [lia|].
    destruct w; unfold with_hours_table, replaced_hours; simpl. by rewrite app_nil_r.
  - inv_ok Hfn. inv_ok Hstep. simplify_eq.
    apply (insert_hours_Ok (window_row id <$> x :: ws)) in Hfn as (n & Hn & -> & Hv); [|done].
    split; [|done]. exists n. split; [destruct w; simpl in *; lia|by destruct w].
Qed.

Lemma replace_hours_Ok id ws w w' u :
  BusinessHourRepository_Replace id ws w = (w', Ok u) ->
  (exists n, (w.(w_tick) <= n)%nat /\ w' = with_hours_table n (replaced_hours id ws w) w) /\
  Forall hour_row_valid (window_row id <$> ws).
Proof.
  intros Hrun. apply withTx_Ok in Hrun as (w2 & Hfn & ->).
  apply replace_hours_tx_Ok in Hfn as ((n & Hn & ->) & Hv). split; [|done].
  exists (S n). split; [destruct w; simpl in *; lia|by destruct w].
Qed.

(** Rows the schema allows are all inserted. *)
Lemma insert_hours_reliable {A} (f : A -> hourRow) (l : list A) w :
  reliable ->
  Forall (fun r => hour_row_valid r /\ is_Some (w.(w_campaigns) !! r.(hr_campaign_id))) (f <$> l) ->
  NoDup (w.(w_hours) ++ (f <$> l)) ->
  exists n, for_each l (fun x => on_err (wrapf "business hours: insert") (external (insert_hour (f x)))) w
    = (with_hours_table n (w.(w_hours) ++ (f <$> l)) w, Ok ()).
Proof.
  intros Hr. revert w. induction l as [|x l IH]; cbn [for_each fmap list_fmap]; intros w Hall Hnd.
  { exists w.(w_tick). rewrite app_nil_r. by destruct w. }
  apply Forall_cons in Hall as [[Hv Hc] Hall].
  set (w1 := set_hours (w.(w_hours) ++ [f x]) (bump w)).
  rewrite (bind_step _ _ w w1 ()).
  - destruct (IH w1) as [n Hn].
    + replace (w_campaigns w1) with w.(w_campaigns) by (by destruct w). exact Hall.
    + replace (w_hours w1) with (w.(w_hours) ++ [f x]) by (by destruct w). by rewrite <- app_assoc.
    + exists n. rewrite Hn. f_equal. unfold w1. destruct w; unfold with_hours_table; simpl.
      by rewrite <- app_assoc.
  - rewrite !run_on_err. rewrite external_reliable by done. unfold insert_hour.
    assert (hour_row_ok (bump w) (f x) = true) as ->; [|by destruct w].
    unfold hour_row_ok. destruct Hv as (? & ? & ? & ?).
    replace (w_campaigns (bump w)) with w.(w_campaigns) by (by destruct w).
    replace (w_hours (bump w)) with w.(w_hours) by (by destruct w).
    rewrite !andb_true_iff, !Z.leb_le, Z.ltb_lt, negb_true_iff, bool_decide_eq_true, bool_decide_eq_false.
    split_and!; try lia; [done|]. intros Hin. apply NoDup_app in Hnd as (_ & Hnd & _).
    apply (Hnd (f x) Hin). by left.
Qed.

(** Business hours the schema allows are stored when the database answers. *)
Lemma replace_hours_reliable id ws w :
  reliable -> NoDup w.(w_hours) -> is_Some (w.(w_campaigns) !! id) ->
  Forall hour_row_valid (window_row id <$> ws) -> NoDup (window_row id <$> ws) ->
  exists n, BusinessHourRepository_Replace id ws w = (with_hours_table n (replaced_hours id ws w) w, Ok ()).
Proof.
  intros Hr Hnd Hc Hv Hnd2.
  assert (exists n, replace_hours_tx id ws (bump w) = (with_hours_table n (replaced_hours id ws w) w, Ok ()))
    as [n Hfn].
  { unfold replace_hours_tx. set (base := List.filter (fun r => negb (bool_decide (r.(hr_campaign_id) = id)))
      w.(w_hours)).
    set (w2 := set_hours base (bump (bump w))).
    rewrite (bind_step _ _ (bump w) w2 ()).
    2:{ rewrite !run_on_err. rewrite external_reliable by done. unfold delete_hours.
        replace (w_hours (bump (bump w))) with w.(w_hours) by (by destruct w). done. }
    destruct ws as [|x ws].
    { exists w2.(w_tick). unfold replaced_hours, with_hours_table. fold base. cbn [fmap list_fmap].
      rewrite app_nil_r. by destruct w. }
    rewrite (bind_step _ _ w2 (bump w2) ()) by (rewrite !run_on_err; by rewrite external_reliable).
    destruct (insert_hours_reliable (window_row id) (x :: ws) (bump w2) Hr) as [n Hn].
    - replace (w_campaigns (bump w2)) with w.(w_campaigns) by (by destruct w).
      rewrite Forall_forall in Hv |- *. intros r Hin. split; [by apply Hv|].
      apply list_elem_of_fmap in Hin as (y & -> & _). exact Hc.
    - replace (w_hours (bump w2)) with base by (by destruct w).
      apply NoDup_app. split_and!; [|intros r Hin Hin2|done].
      + by apply NoDup_filter_list.
      + unfold base in Hin. apply list_elem_of_In, List.filter_In in Hin as [_ Hne].
        apply list_elem_of_fmap in Hin2 as (y & -> & _). simpl in Hne. by rewrite bool_decide_true in Hne.
    - exists n. rewrite Hn. f_equal. unfold with_hours_table, replaced_hours. fold base. by destruct w. }
  unfold BusinessHourRepository_Replace. rewrite run_withTx. unfold in_tx. rewrite external_reliable by done. rewrite Hfn.
  rewrite !run_on_err. rewrite external_reliable by done.
  eexists (S n). f_equal. by destruct w.
Qed.

(** A window the schema refuses leaves the tables as they were. *)
Lemma replace_hours_refused id ws w :
  ~ Forall hour_row_valid (window_row id <$> ws) ->
  exists w' e, BusinessHourRepository_Replace id ws w = (w', Err e) /\ tables w' = tables w.
Proof.
  intros Hbad. destruct (BusinessHourRepository_Replace id ws w) as [w' r] eqn:Hrun.
  destruct (withTx_cases _ _ _ _ Hrun) as [[Ht [e ->]]|(w2 & Hfn & _)]; [eauto|].
  by apply replace_hours_tx_Ok in Hfn as [_ Hv].
Qed.

Lemma window_row_window r :
  hour_row_valid r -> window_row r.(hr_campaign_id) (row_window r) = r.
Proof.
  intros (Hd & Hs & Hlt & He). destruct r as [c d s e]; simpl in *.
  assert (forall m, 0 <= m <= 1439 ->
    Hour (minuteToTime m) * 60 + Minute (minuteToTime m) = m) as Hm.
  { intros m Hm. unfold minuteToTime, date_2000_01_01.
    rewrite Z.quot_div_nonneg, Z.rem_mod_nonneg by lia.
    pose proof (Z.div_mod m 60). pose proof (Z.mod_pos_bound m 60).
    assert (0 <= m / 60 < 24) by (split; [apply Z.div_pos; lia | apply Z.div_lt_upper_bound; lia]).
    rewrite Hour_date, Minute_date by (done || lia). lia. }
  unfold window_row. simpl. rewrite !Hm by lia. done.
Qed.

Lemma hours_of_others id id' w ws n :
  id' <> id -> hours_of id' (with_hours_table n (replaced_hours id ws w) w) = hours_of id' w.
Proof.
  intros Hne. unfold hours_of. replace (w_hours (with_hours_table _ _ _)) with (replaced_hours id ws w) by (by destruct w).
  unfold replaced_hours. rewrite List.filter_app.
  assert (List.filter (fun r => bool_decide (r.(hr_campaign_id) = id')) (window_row id <$> ws) = []) as ->.
  { induction ws; cbn; [done|]. by rewrite bool_decide_false by done. }
  rewrite app_nil_r. induction w.(w_hours) as [|x l IH]; cbn; [done|].
  destruct (decide (x.(hr_campaign_id) = id)) as [E|E].
  - rewrite (bool_decide_true (_ = id)), (bool_decide_false (_ = id')) by congruence. exact IH.
  - rewrite (bool_decide_false (_ = id)) by done. cbn. by rewrite IH.
Qed.

Lemma hours_of_replaced id w ws n :
  hours_of id (with_hours_table n (replaced_hours id ws w) w) = window_row id <$> ws.
Proof.
  unfold hours_of. replace (w_hours _) with (replaced_hours id ws w) by (by destruct w).
  unfold replaced_hours. rewrite List.filter_app.
  assert (forall (p : hourRow -> bool) l, List.filter p (List.filter (fun r => negb (p r)) l) = [])
    as Hnone.
  { intros p l. induction l as [|x l IH]; simpl; [done|]. destruct (p x) eqn:E; simpl; [done|].
    by rewrite E. }
  rewrite (Hnone (fun r => bool_decide (r.(hr_campaign_id) = id))).
  induction ws; simpl; [done|]. rewrite bool_decide_true by done. by f_equal.
Qed.

(** Business hours that were stored are the business hours that are
    read back: the same days and minutes, as often, in order of day and start,
    and each of positive length within one day (so a window that spans midnight
    is never stored). *)
Theorem business_hours_roundtrip id ws w w' u :
  reliable -> BusinessHourRepository_Replace id ws w = (w', Ok u) ->
  exists ws', BusinessHourRepository_List id w' = (bump w', Ok ws') /\
    window_row id <$> ws' ≡ₚ window_row id <$> ws /\
    Sorted (fun a b => hour_key a <= hour_key b) (window_row id <$> ws') /\
    Forall (fun x => Hour x.(w_Start) * 60 + Minute x.(w_Start)
                     < Hour x.(w_End) * 60 + Minute x.(w_End)) ws.
Proof.
  intros Hr Hrun. apply replace_hours_Ok in Hrun as ((n & _ & Hw) & Hv).
  unfold BusinessHourRepository_List. rewrite !run_on_err. rewrite external_reliable by done.
  assert (hours_of id (bump w') = window_row id <$> ws) as ->.
  { transitivity (hours_of id w'); [by destruct w'|]. rewrite Hw. apply hours_of_replaced. }
  eexists. split; [reflexivity|].
  assert (forall l, l ≡ₚ window_row id <$> ws -> window_row id <$> (row_window <$> l) = l) as Hid.
  { intros l Hl. rewrite <- list_fmap_compose. rewrite <- (list_fmap_id l) at 2.
    apply list_fmap_ext. intros i r Hi. apply list_elem_of_lookup_2 in Hi. rewrite Hl in Hi.
    pose proof (proj1 (Forall_forall _ _) Hv r Hi) as Hvr.
    apply list_elem_of_fmap in Hi as (x & -> & _). exact (window_row_window _ Hvr). }
  rewrite Hid by apply pg_order_perm. split_and!; [apply pg_order_perm|apply pg_order_sorted|].
  rewrite Forall_fmap in Hv. eapply Forall_impl; [exact Hv|]. intros x (_ & _ & Hlt & _). exact Hlt.
Qed.
End BusinessHours.

(** ** The batch the scheduler is given *)

Section Batches.
Context `{Env} `{PgOrder}.

(** The rows a target query may return. *)
Definition target_rows (c : uuid) (p : targetRow -> bool) (w : World) : list (uuid * targetRow) :=
  List.filter (fun '(_, r) => bool_decide (r.(tr_campaign_id) = c) && p r) (table_rows w.(w_targets)).

Lemma elem_of_target_rows c p w id r :
  (id, r) ∈ target_rows c p w <->
  w.(w_targets) !! id = Some r /\ r.(tr_campaign_id) = c /\ p r = true.
Proof.
  unfold target_rows, table_rows.
  rewrite list_elem_of_In, filter_In, <- list_elem_of_In, elem_of_map_to_list.
  rewrite andb_true_iff, bool_decide_eq_true. tauto.
Qed.

Lemma NoDup_target_rows c p w : NoDup (target_rows c p w).*1.
Proof.
  unfold target_rows, table_rows. pose proof (NoDup_fst_map_to_list w.(w_targets)) as Hnd.
  induction (map_to_list w.(w_targets)) as [|[id r] l IH]; simpl in *; [constructor|].
  apply NoDup_cons in Hnd as [Hni Hnd]. destruct (_ && _); [|auto]. simpl. constructor; [|auto].
  rewrite !list_elem_of_fmap in *. intros ([id' r'] & -> & Hin). apply Hni. exists (id', r').
  split; [done|]. apply list_elem_of_In, filter_In in Hin as [Hin _]. by apply list_elem_of_In.
Qed.

(** The first [n] of a sorted list are no greater than the others. *)
Lemma take_sorted_least {A} (key : A -> Z) (l : list A) n x y :
  Sorted (fun a b => key a <= key b) l -> x ∈ take n l -> y ∈ l -> y ∉ take n l -> key x <= key y.
Proof.
  intros Hs Hx Hy Hny.
  assert (StronglySorted (fun a b => key a <= key b) l) as Hss
    by (apply Sorted_StronglySorted; [intros ???; lia|done]).
  rewrite <- (take_drop n l) in Hy. apply elem_of_app in Hy as [?|Hy]; [done|].
  revert n Hx Hy Hny. clear Hs. induction Hss as [|a l Hss IH Hall]; intros [|n] Hx Hy Hny;
    simpl in *; try by apply not_elem_of_nil in Hx.
  apply elem_of_cons in Hx as [->|Hx].
  - rewrite Forall_forall in Hall. apply Hall. rewrite <- (take_drop n l), elem_of_app. by right.
  - apply (IH n); [done..|]. set_solver.
Qed.

Lemma select_targets_elem c p n w t :
  t ∈ select_targets c p n w ->
  exists r, w.(w_targets) !! t.(t_ID) = Some r /\ t = toModel c t.(t_ID) r /\
    r.(tr_campaign_id) = c /\ p r = true.
Proof.
  unfold select_targets, limit_rows. intros Ht. apply list_elem_of_fmap in Ht as ([id r] & -> & Hin).
  apply elem_of_take in Hin as (k & Hk & _). apply list_elem_of_lookup_2 in Hk.
  rewrite pg_order_perm in Hk. apply elem_of_target_rows in Hk as (Hl & Hc & Hp).
  by exists r.
Qed.

(** The batch of a campaign holds pending targets of that campaign
    only, none twice, at most as many as asked for; no pending target is left out
    unless the batch is full, and then it is no older than those taken. *)
Lemma next_batch_oldest_pending (c : uuid) (limit : int) (w w' : World) ts :
  0 < limit ->
  CampaignTargetRepository_NextBatchForScheduling c limit w = (w', Ok ts) ->
  w' = bump w /\ NoDup (t_ID <$> ts) /\ Z.of_nat (length ts) <= limit /\
  (forall t, t ∈ ts -> exists r, w.(w_targets) !! t.(t_ID) = Some r /\
     t = toModel c t.(t_ID) r /\ r.(tr_campaign_id) = c /\ r.(tr_state) = "pending") /\
  (forall id r, w.(w_targets) !! id = Some r -> r.(tr_campaign_id) = c -> r.(tr_state) = "pending" ->
     id ∈ (t_ID <$> ts) \/
     (Z.of_nat (length ts) = limit /\
      forall t, t ∈ ts -> t.(t_CreatedAt) <= r.(tr_created_at))).
Proof.
  intros Hlim Hrun. unfold CampaignTargetRepository_NextBatchForScheduling in Hrun.
  destruct (limit <=? 0) eqn:?; zbool; [lia|]. apply on_err_Ok, external_Ok in Hrun.
  injection Hrun as <- <-. split; [done|].
  unfold select_targets, limit_rows. fold (target_rows c (state_is "pending") (bump w)).
  replace (target_rows c (state_is "pending") (bump w)) with (target_rows c (state_is "pending") w)
    by (by destruct w).
  set (key := fun '(_, r) => r.(tr_created_at)).
  set (rows := target_rows c (state_is "pending") w).
  pose proof (pg_order_perm key rows) as Hperm. pose proof (pg_order_sorted key rows) as Hsort.
  set (l := pg_order key rows) in *. clearbody l.
  set (n := Z.to_nat limit).
  assert (forall id r, (id, r) ∈ take n l -> (id, r) ∈ rows) as Hsub.
  { intros id r Hin. rewrite <- Hperm. apply elem_of_take in Hin as (i & Hi & _).
    by apply list_elem_of_lookup_2 in Hi. }
  assert (t_ID <$> ((fun '(id, r) => toModel c id r) <$> take n l) = (take n l).*1) as Hids.
  { rewrite <- list_fmap_compose. apply list_fmap_ext. by intros i [id r] _. }
  rewrite Hids. split_and!.
  - assert (NoDup l.*1) as Hnd by (rewrite Hperm; apply NoDup_target_rows).
    rewrite <- (take_drop n l), fmap_app, NoDup_app in Hnd. apply Hnd.
  - rewrite length_fmap, length_take. lia.
  - intros t Ht. apply list_elem_of_fmap in Ht as ([id r] & -> & Hin).
    apply Hsub, elem_of_target_rows in Hin as (Hl & <- & Hst). exists r. simpl.
    split_and!; try done. by apply bool_decide_eq_true_1 in Hst.
  - intros id r Hl Hc Hst. rewrite length_fmap, length_take.
    assert ((id, r) ∈ l) as Hin.
    { rewrite Hperm. apply elem_of_target_rows. split_and!; [done|done|].
      by apply bool_decide_eq_true_2. }
    destruct (decide (id ∈ (take n l).*1)) as [|Hni]; [by left|right].
    assert ((id, r) ∉ take n l) as Hno.
    { intros Hi. apply Hni. apply list_elem_of_fmap. by exists (id, r). }
    split.
    + destruct (decide (length l <= n)%nat); [|lia]. by rewrite take_ge in Hno.
    + intros t Ht. apply list_elem_of_fmap in Ht as ([id' r'] & -> & Ht'). simpl.
      exact (take_sorted_least key l n (id', r') (id, r) Hsort Ht' Hin Hno).
Qed.
End Batches.

(** ** Campaign rows when the database answers *)

Section CampaignRows.
Context `{Env} (Hrel : reliable).

Lemma campaign_row_ok_intro (others : gmap uuid campaignRecord) id r :
  campaign_row_valid id r ->
  (forall i o, others !! i = Some o -> env_pg_lower o.(cr_Name) <> env_pg_lower r.(cr_Name)) ->
  campaign_row_ok others r = true.
Proof.
  intros (_ & ? & ?) Hn. unfold campaign_row_ok.
  rewrite !andb_true_iff, !bool_decide_eq_true, Z.ltb_lt, Z.leb_le, forallb_forall.
  unfold in_int32. split_and!; try lia. intros [i o] Hin.
  apply negb_true_iff, bool_decide_eq_false_2, (Hn i).
  by apply elem_of_map_to_list, list_elem_of_In.
Qed.

Lemma campaign_get_reliable id w :
  CampaignRepository_Get id w =
  (bump w, match w.(w_campaigns) !! id with
           | Some r => Ok (toDomain r)
           | None => Err (Sentinel ErrNotFound)
           end).
Proof using Hrel.
  unfold CampaignRepository_Get. run_monad. rewrite external_reliable by done. simpl.
  replace (w_campaigns (bump w)) with (w_campaigns w) by (by destruct w).
  by destruct (_ !! id).
Qed.

(** An update that keeps the name and admissible bounds gets through. *)
Lemma campaign_update_reliable c r w :
  pg_ok w -> w.(w_campaigns) !! c.(c_ID) = Some r -> c.(c_Name) = r.(cr_Name) ->
  0 < c.(c_MaxConcurrentCalls) <= 2 ^ 31 - 1 ->
  0 <= c.(c_RetryPolicy).(rp_MaxAttempts) <= 2 ^ 31 - 1 ->
  CampaignRepository_Update c w =
  (set_campaigns (<[c.(c_ID) := update_row c (env_now (S w.(w_tick))) r]> w.(w_campaigns)) (bump w),
   Ok ()).
Proof using Hrel.
  intros Hok Hl Hname Hconc Hatt. unfold CampaignRepository_Update, rows_or_not_found. run_monad.
  rewrite external_reliable by done. rewrite tick_bump. unfold update_campaign.
  replace (w_campaigns (bump w)) with (w_campaigns w) by (by destruct w). rewrite Hl.
  rewrite (campaign_row_ok_intro _ c.(c_ID)); [done| |].
  - split; [|done]. by apply (ok_campaign w Hok) in Hl as [? _].
  - intros i o Ho Heq. simpl in Heq. apply lookup_delete_Some in Ho as [Hne Ho].
    rewrite Hname in Heq. by apply Hne, eq_sym, (ok_names w Hok i c.(c_ID) o r).
Qed.

(** The row a stored campaign is written back as. *)
Lemma campaign_rewrite_reliable c id r w :
  pg_ok w -> w.(w_campaigns) !! id = Some r -> c.(c_ID) = id -> c.(c_Name) = r.(cr_Name) ->
  c.(c_MaxConcurrentCalls) = r.(cr_MaxConcurrentCalls) ->
  c.(c_RetryPolicy).(rp_MaxAttempts) = r.(cr_RetryMaxAttempts) ->
  CampaignRepository_Update c w =
  (set_campaigns (<[id := update_row c (env_now (S w.(w_tick))) r]> w.(w_campaigns)) (bump w), Ok ()).
Proof using Hrel.
  intros Hok Hl <- Hn Hc Ha. destruct (ok_campaign w Hok _ r Hl) as (_ & ? & ?).
  apply campaign_update_reliable; by rewrite ?Hc, ?Ha.
Qed.
End CampaignRows.

(** ** A small database, for examples *)

Definition sample_row : campaignRecord :=
  mkCampaignRow 3 "spring" None "UTC" 10 CampaignStatusInProgress 5 2000 120000 f64_zero
    (Some 0) (Some 0) (Some 0) None.
Definition sample_target (phone state : string) (created : Time) : targetRow :=
  mkTargetRow 3 phone JNull state None None 0 created.
Definition sample_db : World :=
  set_campaigns {[ 3%N := sample_row ]}
    (set_targets {[ 11%N := sample_target "+1555" "pending" 20;
                    12%N := sample_target "+1666" "queued" 10;
                    13%N := sample_target "+1777" "pending" 10 ]} empty_world).
Definition sample_hours : list BusinessHourWindow :=
  [mkWindow 2 (date_0000_01_01 9 0) (date_0000_01_01 17 30);
   mkWindow 1 (date_0000_01_01 9 0) (date_0000_01_01 12 0)].

Lemma transaction_witness :
  exists w' r, @withTx quiet_env (@external quiet_env _ (insert_hour (window_row 3 (mkWindow 1 0 0)))) sample_db
    = (w', r) /\
  ((tables w' = tables sample_db /\ exists e, r = Err e) \/
   (exists w2, @external quiet_env _ (insert_hour (window_row 3 (mkWindow 1 0 0))) (bump sample_db)
      = (w2, Ok ()) /\ tables w' = tables w2 /\ (r = Ok () \/ exists e, r = Err e))).
Proof.
  do 2 eexists. split; [reflexivity|].
  apply (@transaction_all_or_nothing quiet_env). reflexivity.
Defined.

Lemma business_hours_roundtrip_witness :
  exists w' ws', @BusinessHourRepository_Replace quiet_env 3%N sample_hours sample_db = (w', Ok ()) /\
    @BusinessHourRepository_List quiet_env stable_sort_order 3%N w' = (bump w', Ok ws') /\
    window_row 3 <$> ws' ≡ₚ window_row 3 <$> sample_hours.
Proof.
  eexists.
  destruct (@business_hours_roundtrip quiet_env stable_sort_order 3%N sample_hours sample_db
    (@BusinessHourRepository_Replace quiet_env 3%N sample_hours sample_db).1 ())
    as (ws' & Hl & Hp & _); [done|vm_compute; reflexivity|].
  exists ws'. split; [vm_compute; reflexivity|]. by split.
Defined.

Lemma next_batch_witness :
  exists ts, @CampaignTargetRepository_NextBatchForScheduling quiet_env stable_sort_order 3%N 1 sample_db
    = (bump sample_db, Ok ts) /\ (t_ID <$> ts) = [13%N] /\ Z.of_nat (length ts) <= 1.
Proof.
  eexists. split; [vm_compute; reflexivity|]. split; [reflexivity|].
  eapply (@next_batch_oldest_pending quiet_env stable_sort_order 3%N 1 sample_db); 
    [done|vm_compute; reflexivity].
Defined.

Lemma sample_db_ok : @pg_ok quiet_env sample_db.
Proof.
  constructor; simpl.
  - intros id r Hl. apply lookup_singleton_Some in Hl as [<- <-]. unfold campaign_row_valid. simpl. lia.
  - intros i j ri rj Hi Hj _. apply lookup_singleton_Some in Hi as [<- _], Hj as [<- _]. done.
  - intros r Hr. by apply not_elem_of_nil in Hr.
  - constructor.
  - intros id r Hl.
    assert (r.(tr_campaign_id) = 3%N) as -> by
      (repeat (apply lookup_insert_Some in Hl as [[<- <-]|[_ Hl]]; [done|]);
       apply lookup_singleton_Some in Hl as [_ <-]; done).
    by eexists.
  - intros id s Hl. by rewrite lookup_empty in Hl.
Qed.
