(* ===== verification/Scylla.v ===== *)
(** internal/repository/scylla/call_store.go: call records, their index by
    status, and the attempt timeline. Every CQL write is an upsert. *)
From S2P Require Import Prelude Errors GoTime Json Domain Messages World.

(** bucketDate: the UTC midnight of the day of [t]. *)
Definition bucketDate (t : Time) : Time := start_of_day t.

(** A CQL [int] column takes 32-bit values only. *)
Definition cql_int {A} (v : Z) (r : World -> result error (World * A)) (w : World)
    : result error (World * A) :=
  if bool_decide (in_int32 v) then r w else Err (New "marshal int: value out of range").

(** The row an UPDATE creates when the key is absent. *)
Definition null_call_row : callRow :=
  mkCallRow EmptyString (CallStatusOther EmptyString) 0 zero_time None zero_time zero_time None.

Section CallStore.
Context `{Env} `{UuidText}.

Definition call_key (c : Call) : uuid * Time * uuid :=
  (c.(call_CampaignID), bucketDate c.(call_CreatedAt), c.(call_ID)).

Definition status_key (campaign : uuid) (status : CallStatus) (bucket : Time) (id : uuid)
    : uuid * string * Time * uuid := (campaign, call_status_text status, bucket, id).

Definition CallStore_CreateCall (record : Call) : M () :=
  let bucket := bucketDate record.(call_CreatedAt) in
  on_err (wrapf "call store: insert calls_by_campaign")
    (external (cql_int record.(call_AttemptCount) (fun w =>
       Ok (set_calls (<[call_key record :=
             mkCallRow record.(call_PhoneNumber) record.(call_Status) record.(call_AttemptCount)
               record.(call_ScheduledAt) record.(call_LastAttemptAt) record.(call_UpdatedAt)
               record.(call_CreatedAt) None]> w.(w_calls)) w, ())))) ≫= fun _ =>
  on_err (wrapf "call store: insert calls_by_status")
    (external (fun w =>
       Ok (set_by_status (<[status_key record.(call_CampaignID) record.(call_Status) bucket
                              record.(call_ID) :=
             mkStatusRow (Some record.(call_PhoneNumber)) record.(call_UpdatedAt)]>
             w.(w_by_status)) w, ()))).

(** SELECT ... WHERE call_id = ? ALLOW FILTERING: the rows of that call. *)
Definition rows_of_call (callID : uuid) (w : World) : list ((uuid * Time * uuid) * callRow) :=
  List.filter (fun '((_, _, id), _) => bool_decide (id = callID)) (map_to_list w.(w_calls)).

Definition call_of_row (campaignID id : uuid) (bucket : Time) (r : callRow) : Call :=
  mkCall id campaignID r.(cl_phone_number) r.(cl_status) r.(cl_attempt_count)
    r.(cl_last_attempt_at) r.(cl_scheduled_at) (bucketDate bucket) r.(cl_updated_at)
    r.(cl_last_error).

Definition CallStore_GetCall (callID : uuid) : M Call :=
  rows ← on_err (wrapf "call store: fetch call close")
    (external (fun w => Ok (w, rows_of_call callID w)));
  match rows with
  | [] => throw (New (String.append "call store: call "
                   (String.append (uuid_text callID) " not found")))
  | ((campaign, bucket, id), r) :: _ =>
      match uuid_parse (uuid_text campaign) with
      | None => throw (wrapf "call store: parse campaign_id" (New "invalid UUID"))
      | Some campaignID =>
          match uuid_parse (uuid_text id) with
          | None => throw (wrapf "call store: parse call_id" (New "invalid UUID"))
          | Some id => mret (call_of_row campaignID id bucket r)
          end
      end
  end.

Definition update_call_row (status : CallStatus) (attemptCount : Z) (last updated : Time)
    (lastError : option string) (r : callRow) : callRow :=
  mkCallRow r.(cl_phone_number) status attemptCount r.(cl_scheduled_at) (Some last) updated
    r.(cl_created_at) lastError.

Definition CallStore_UpdateCallStatus (callID : uuid) (status : CallStatus) (attemptCount : int)
    (lastError : option string) : M () :=
  call ← CallStore_GetCall callID;
  let bucket := bucketDate call.(call_CreatedAt) in
  let key := (call.(call_CampaignID), bucket, callID) in
  let old_key := status_key call.(call_CampaignID) call.(call_Status) bucket callID in
  let new_key := status_key call.(call_CampaignID) status bucket callID in
  t1 ← now; t2 ← now;
  on_err (wrapf "call store: update calls_by_campaign")
    (external (cql_int attemptCount (fun w =>
       Ok (set_calls (<[key := update_call_row status attemptCount t1 t2 lastError
             (default null_call_row (w.(w_calls) !! key))]> w.(w_calls)) w, ())))) ≫= fun _ =>
  t3 ← now;
  on_err (wrapf "call store: update calls_by_status")
    (external (fun w =>
       Ok (set_by_status (<[old_key := mkStatusRow
             (match w.(w_by_status) !! old_key with Some s => s.(sr_phone_number) | None => None end)
             t3]> w.(w_by_status)) w, ()))) ≫= fun _ =>
  if bool_decide (call_status_text call.(call_Status) = call_status_text status) then mret ()
  else
    on_err (wrapf "call store: delete old status")
      (external (fun w => Ok (set_by_status (delete old_key w.(w_by_status)) w, ()))) ≫= fun _ =>
    t4 ← now;
    on_err (wrapf "call store: insert new status")
      (external (fun w =>
         Ok (set_by_status (<[new_key := mkStatusRow (Some call.(call_PhoneNumber)) t4]>
               w.(w_by_status)) w, ()))).

Definition CallStore_AppendAttempt (attempt : CallAttempt) : M () :=
  let durationMs := Z.quot attempt.(att_Duration) Millisecond in
  on_err (wrapf "call store: append attempt")
    (external (cql_int attempt.(att_AttemptNum) (fun w =>
       Ok (set_attempts (<[(attempt.(att_CallID), attempt.(att_AttemptNum)) :=
             mkAttemptRow attempt.(att_Status) attempt.(att_Error) attempt.(att_CreatedAt)
               durationMs]> w.(w_attempts)) w, ())))).
End CallStore.

(** ** Lemmas *)

Section Lemmas.
Context `{Env} `{UuidText}.

Lemma bucketDate_idemp t : bucketDate (bucketDate t) = bucketDate t.
Proof. apply start_of_day_idemp. Qed.

Lemma rows_of_call_spec id w key r :
  (key, r) ∈ rows_of_call id w <-> w.(w_calls) !! key = Some r /\ key.2 = id.
Proof.
  unfold rows_of_call. destruct key as [[c b] i].
  rewrite list_elem_of_In, filter_In, <- list_elem_of_In, elem_of_map_to_list, bool_decide_eq_true.
  done.
Qed.

(** A read that succeeded: the row it found. *)
Lemma get_call_Ok id w w' c :
  CallStore_GetCall id w = (w', Ok c) ->
  w' = bump w /\ exists bucket r, w.(w_calls) !! (c.(call_CampaignID), bucket, id) = Some r /\
    c = call_of_row c.(call_CampaignID) id bucket r.
Proof.
  unfold CallStore_GetCall. intros Hrun. apply bind_Ok in Hrun as (rows & w1 & Hsel & Hrun).
  apply on_err_Ok, external_Ok in Hsel. injection Hsel as <- Hrows.
  destruct rows as [|[[[camp bucket] i] r] rows]; [done|].
  rewrite !uuid_parse_text in Hrun. injection Hrun as <- <-. split; [done|].
  assert (((camp, bucket, i), r) ∈ rows_of_call id (bump w)) as Hin by (rewrite Hrows; by left).
  apply rows_of_call_spec in Hin as [Hl Hi]. simpl in Hi. subst i.
  exists bucket, r. split; [|done]. rewrite <- Hl. by destruct w.
Qed.

(** The one row of a call is the one a read returns. *)
Lemma get_call_unique id w camp bucket r :
  reliable -> w.(w_calls) !! (camp, bucket, id) = Some r ->
  (forall key r', w.(w_calls) !! key = Some r' -> key.2 = id -> key = (camp, bucket, id)) ->
  CallStore_GetCall id w = (bump w, Ok (call_of_row camp id bucket r)).
Proof.
  intros Hr Hl Huniq. unfold CallStore_GetCall. run_monad. rewrite external_reliable by done.
  cbn [map_err fst snd]. assert (forall key r', (key, r') ∈ rows_of_call id (bump w) ->
    key = (camp, bucket, id) /\ r' = r) as Hall.
  { intros key r' Hin. apply rows_of_call_spec in Hin as [Hl' Hid].
    replace (w_calls (bump w)) with w.(w_calls) in Hl' by (by destruct w).
    pose proof (Huniq key r' Hl' Hid) as ->. split; [done|congruence]. }
  assert (((camp, bucket, id), r) ∈ rows_of_call id (bump w)) as Hin.
  { apply rows_of_call_spec. split; [|done]. rewrite <- Hl. by destruct w. }
  destruct (rows_of_call id (bump w)) as [|[key r'] rows]; [by apply not_elem_of_nil in Hin|].
  destruct (Hall key r' ltac:(by left)) as [-> ->]. by rewrite !uuid_parse_text.
Qed.
End Lemmas.

Section Properties.
Context `{Env} `{UuidText}.

(** A call that was stored under an unused identifier reads back with
    the same campaign, number, status and attempt count, no error, and a creation
    time that has lost its time of day. *)
Theorem create_get_call (c : Call) (w w' : World) u :
  reliable -> (forall key r, w.(w_calls) !! key = Some r -> key.2 <> c.(call_ID)) ->
  CallStore_CreateCall c w = (w', Ok u) ->
  exists c', CallStore_GetCall c.(call_ID) w' = (bump w', Ok c') /\
    c'.(call_ID) = c.(call_ID) /\ c'.(call_CampaignID) = c.(call_CampaignID) /\
    c'.(call_PhoneNumber) = c.(call_PhoneNumber) /\ c'.(call_Status) = c.(call_Status) /\
    c'.(call_AttemptCount) = c.(call_AttemptCount) /\ c'.(call_LastError) = None /\
    c'.(call_CreatedAt) = start_of_day c.(call_CreatedAt).
Proof.
  intros Hr Hfresh Hrun. unfold CallStore_CreateCall in Hrun.
  apply bind_Ok in Hrun as (u1 & w1 & Ha & Hb). apply on_err_Ok, external_Ok in Ha, Hb.
  unfold cql_int in Ha. destruct (bool_decide _) in Ha; [|done]. injection Ha as <- _.
  injection Hb as <- _.
  match goal with |- context [run (CallStore_GetCall _) ?x] => set (w' := x) end.
  assert (exists r, w'.(w_calls) = <[call_key c := r]> w.(w_calls) /\
    r.(cl_phone_number) = c.(call_PhoneNumber) /\ r.(cl_status) = c.(call_Status) /\
    r.(cl_attempt_count) = c.(call_AttemptCount) /\ r.(cl_last_error) = None)
    as (r & Hw & Hp & Hs & Hn & He) by (destruct w; eexists; split; [reflexivity|done]).
  clearbody w'. eexists. split.
  - apply (get_call_unique _ _ c.(call_CampaignID) (bucketDate c.(call_CreatedAt)) r Hr).
    + rewrite Hw. apply lookup_insert_eq.
    + intros key r' Hl Hid. rewrite Hw in Hl. apply lookup_insert_Some in Hl as [[<- _]|[_ Hl]]; [done|].
      by destruct (Hfresh key r' Hl).
  - split_and!; try done. simpl. apply bucketDate_idemp.
Qed.

(** The status index lists the call under its current status and no other. *)
Definition indexed_once (w : World) (camp : uuid) (bucket : Time) (id : uuid) (status : CallStatus) : Prop :=
  forall s, is_Some (w.(w_by_status) !! status_key camp s bucket id) <->
            call_status_text s = call_status_text status.

(** Claim C31: a status update that goes through leaves the call with the new
    status, attempt count and error, moves its entry of the status index to the
    new status, so that it is again listed once, and touches no other call. *)
Theorem update_call_status_moves_index (id : uuid) (status : CallStatus) (n : int)
    (err : option string) (w w' : World) camp bucket r u :
  w.(w_calls) !! (camp, bucket, id) = Some r -> bucketDate bucket = bucket ->
  (forall key r', w.(w_calls) !! key = Some r' -> key.2 = id -> key = (camp, bucket, id)) ->
  indexed_once w camp bucket id r.(cl_status) ->
  CallStore_UpdateCallStatus id status n err w = (w', Ok u) ->
  (exists r', w'.(w_calls) = <[(camp, bucket, id) := r']> w.(w_calls) /\ r'.(cl_status) = status /\
     r'.(cl_attempt_count) = n /\ r'.(cl_last_error) = err /\
     r'.(cl_phone_number) = r.(cl_phone_number)) /\
  indexed_once w' camp bucket id status /\
  (forall key, key.2 <> id -> w'.(w_by_status) !! key = w.(w_by_status) !! key).
Proof.
  intros Hl Hbk Huniq Hidx Hrun. unfold CallStore_UpdateCallStatus in Hrun.
  apply bind_Ok in Hrun as (c & w1 & Hget & Hrun).
  apply get_call_Ok in Hget as (-> & b & r0 & Hl0 & Hc).
  pose proof (Huniq _ _ Hl0 eq_refl) as Hk. injection Hk as Hcamp ->.
  rewrite Hcamp in *. assert (r0 = r) as -> by congruence. clear Hl0.
  rewrite Hc in Hrun. cbn [call_of_row call_CampaignID call_Status call_CreatedAt call_PhoneNumber] in Hrun.
  rewrite bucketDate_idemp, Hbk in Hrun.
  do 2 (apply bind_Ok in Hrun as (? & ? & Hs & Hrun); injection Hs as <- <-).
  apply bind_Ok in Hrun as (u1 & w2 & Ha & Hrun). apply on_err_Ok, external_Ok in Ha.
  unfold cql_int in Ha. destruct (bool_decide _) in Ha; [|done]. injection Ha as <- _.
  apply bind_Ok in Hrun as (? & ? & Hs & Hrun); injection Hs as <- <-.
  apply bind_Ok in Hrun as (u2 & w3 & Hb & Hrun). apply on_err_Ok, external_Ok in Hb.
  injection Hb as <- _.
  replace (w_calls (bump (bump (bump (bump w))))) with w.(w_calls) in Hrun by (by destruct w).
  rewrite Hl in Hrun. cbn [default from_option] in Hrun.
  case_bool_decide as Hsame.
  - injection Hrun as <- _. split_and!.
    + eexists. split; [by destruct w|done].
    + intros s. destruct w; simpl in *. rewrite <- Hsame, <- (Hidx s).
      rewrite lookup_insert_is_Some. split; [intros [Hk|[_ ?]]; [|done]|].
      * rewrite <- Hk. apply Hidx. done.
      * intros ?. destruct (decide (status_key camp (cl_status r) bucket id = status_key camp s bucket id)); auto.
    + intros key Hk. destruct w; simpl. rewrite lookup_insert_ne; [done|]. intros <-. by destruct Hk.
  - apply bind_Ok in Hrun as (u3 & w4 & Hd & Hrun). apply on_err_Ok, external_Ok in Hd.
    injection Hd as <- _.
    apply bind_Ok in Hrun as (? & ? & Hs & Hrun); injection Hs as <- <-.
    apply on_err_Ok, external_Ok in Hrun. injection Hrun as <- _. split_and!.
    + eexists. split; [by destruct w|done].
    + intros s. destruct w; simpl in *. rewrite lookup_insert_is_Some. split.
      * intros [Hk|[Hk Hd]]; [by injection Hk as ->|].
        rewrite delete_insert_eq in Hd. apply lookup_delete_is_Some in Hd as [Hne Hd].
        apply Hidx in Hd. destruct Hne. unfold status_key. by rewrite Hd.
      * intros Hs. left. unfold status_key. by rewrite Hs.
    + intros key Hk. destruct w; simpl.
      rewrite lookup_insert_ne, lookup_delete_ne, lookup_insert_ne; [done|..]; intros <-; by destruct Hk.
Qed.
End Properties.

(** ** Witnesses *)

Definition sample_call : Call :=
  mkCall 9 3 "+1555" CallStatusQueued 0 None 0 (1700000000 * Second) 0 None.

Lemma create_get_call_witness :
  let _ := quiet_env in let _ := bit_uuid in
  exists w' c', CallStore_CreateCall sample_call empty_world = (w', Ok ()) /\
    CallStore_GetCall 9%N w' = (bump w', Ok c') /\
    c'.(call_CreatedAt) = 1699920000 * Second.
Proof.
  intros E U.
  assert (CallStore_CreateCall sample_call empty_world =
    ((CallStore_CreateCall sample_call empty_world).1, Ok ())) as Hrun by (vm_compute; reflexivity).
  destruct (create_get_call sample_call empty_world _ () quiet_reliable ltac:(done) Hrun)
    as (c' & Hg & _ & _ & _ & _ & _ & _ & Hc).
  do 2 eexists. split; [exact Hrun|]. split; [exact Hg|]. rewrite Hc. vm_compute. reflexivity.
Defined.

Definition sample_call_db : World :=
  let key := (3%N, 1699920000 * Second, 9%N) in
  set_calls {[ key := mkCallRow "+1555" CallStatusQueued 0 0 None 0 0 None ]}
    (set_by_status {[ status_key 3 CallStatusQueued (1699920000 * Second) 9 := mkStatusRow None 0 ]}
       empty_world).

Lemma update_call_status_witness :
  let _ := quiet_env in let _ := bit_uuid in
  exists w', CallStore_UpdateCallStatus 9%N CallStatusCompleted 1 None sample_call_db = (w', Ok ()) /\
    indexed_once w' 3%N (1699920000 * Second) 9%N CallStatusCompleted.
Proof.
  intros E U.
  assert (CallStore_UpdateCallStatus 9%N CallStatusCompleted 1 None sample_call_db =
    ((CallStore_UpdateCallStatus 9%N CallStatusCompleted 1 None sample_call_db).1, Ok ())) as Hrun
    by (vm_compute; reflexivity).
  eexists. split; [exact Hrun|].
  eapply (update_call_status_moves_index 9%N CallStatusCompleted 1 None sample_call_db);
    [ apply lookup_singleton_eq | vm_compute; reflexivity | | | exact Hrun ].
  - intros key r' Hl _. cbv [sample_call_db set_calls set_by_status empty_world w_calls] in Hl.
    by apply lookup_singleton_Some in Hl as [<- _].
  - intros s. change (is_Some (({[ status_key 3 CallStatusQueued (1699920000 * Second) 9 :=
      mkStatusRow None 0 ]} : gmap _ _) !! status_key 3 s (1699920000 * Second) 9) <->
      call_status_text s = "queued").
    rewrite lookup_singleton_is_Some. unfold status_key. split; [by intros [= <-]|by intros ->].
Defined.
