(* ===== verification/Queue.v ===== *)
(** internal/queue: the dispatcher, the status publisher and the retry
    scheduler write JSON records to Kafka topics; a reader commits records. *)
From S2P Require Import Prelude Errors GoTime Json Domain Messages World.

Section Queue.
Context `{Env} `{UuidText}.

(** writer.WriteMessages on one topic, acknowledged by all replicas. NewWriter leaves
    MaxAttempts at its default: a write that fails with an error that may be
    temporary is tried again, ten times in all, and each attempt whose
    acknowledgement was lost has left its copy of the record. *)
Definition writer_attempts : nat := 10.

Definition produce (topic : string) (record : KafkaMessage) : M () :=
  external (fun w => Ok (set_log (w.(w_log) ++ [(topic, record)]) w, ())).

Fixpoint write_attempts (n : nat) (topic : string) (record : KafkaMessage) : M () :=
  match n with
  | O => mret ()
  | S n =>
      sent ← attempt (produce topic record);
      match sent with
      | Ok _ => mret ()
      | Err err =>
          temporary ← consult env_temporary;
          match temporary : bool, n with
          | true, S _ => write_attempts n topic record
          | _, _ => throw err
          end
      end
  end.

Definition WriteMessages (topic : string) (record : KafkaMessage) : M () :=
  write_attempts writer_attempts topic record.

(** reader.CommitMessages of a record by a consumer group. *)
Definition CommitMessages (group : string) (record : KafkaMessage) : M () :=
  external (fun w => Ok (set_commits (w.(w_commits) ++ [(group, record)]) w, ())).

(** json.Marshal, whose failure every publisher wraps in its own words. *)
Definition marshalled (context : string) (j : option json) : M json :=
  match j with
  | Some j => mret j
  | None => throw (wrapf context (New "json: unsupported value"))
  end.

(** CallDispatcher.DispatchCall *)
Definition DispatchCall (topic : string) (msg : DispatchMessage) : M () :=
  value ← marshalled "call dispatcher: marshal message" (marshal_dispatch msg);
  t ← now;
  on_err (wrapf "call dispatcher: write message")
    (WriteMessages topic (mkKafka msg.(dm_CallID) value t)).

(** StatusPublisher.PublishStatus *)
Definition PublishStatus (topic : string) (msg : StatusMessage) : M () :=
  value ← marshalled "status publisher: marshal message" (marshal_status msg);
  t ← now;
  on_err (wrapf "status publisher: write message")
    (WriteMessages topic (mkKafka msg.(sm_CallID) value t)).

(** RetryScheduler: one writer per retry topic. *)
Definition attempt_out_of_range (attempt : int) : error :=
  New (String.append "retry scheduler: attempt " (String.append (pretty attempt) " out of range")).

Definition ScheduleRetry (writers : list string) (attempt : int) (msg : RetryMessage) : M () :=
  if (attempt <=? 0) || (Z.of_nat (length writers) <? attempt) then throw (attempt_out_of_range attempt)
  else
    value ← marshalled "retry scheduler: marshal message" (marshal_retry msg);
    t ← now;
    match writers !! Z.to_nat (attempt - 1) with
    | None => throw (New "index out of range")
    | Some topic =>
        on_err (wrapf "retry scheduler: write")
          (WriteMessages topic (mkKafka msg.(rm_DispatchMessage).(dm_CallID) value t))
    end.
End Queue.

(** ** What a writer leaves on its topic *)

Section Writer.
Context `{Env} (topic : string) (m : KafkaMessage).

Definition append_record (w : World) : World := set_log (w.(w_log) ++ [(topic, m)]) w.

(** Whatever tolerates a record tolerates the copies of it. *)
Lemma stable_write (R : relation World) :
  PreOrder R -> (forall w, R w (bump w)) -> (forall w, R w (append_record w)) ->
  stable R (WriteMessages topic m).
Proof.
  intros HR Hbump Happend. unfold WriteMessages. generalize writer_attempts as n.
  induction n as [|n IH]; cbn [write_attempts]; [done|].
  apply stable_bind; [done| |intros [[]|err]]; [|done|].
  - apply stable_attempt, stable_external; [done..|]. intros w w' u [= <- _]. apply Happend.
  - apply stable_bind; [done|by apply stable_consult|]. intros [|]; [|done]. by destruct n.
Qed.

Lemma write_done w :
  env_outcome w.(w_tick) = Done -> WriteMessages topic m w = (append_record (bump w), Ok ()).
Proof.
  intros Hd. unfold WriteMessages. cbn [writer_attempts write_attempts]. unfold produce.
  by rewrite run_bind, run_attempt, external_done.
Qed.

(** The writer gives up: the error does not look temporary. *)
Lemma write_given_up w :
  env_outcome w.(w_tick) = Refused -> env_temporary (S w.(w_tick)) = false ->
  WriteMessages topic m w = (bump (bump w), Err (New "connection refused")).
Proof.
  intros Hd Ht. unfold WriteMessages. cbn [writer_attempts write_attempts]. unfold produce.
  rewrite run_bind, run_attempt, external_refused by done. cbn. rewrite run_bind, run_consult, tick_bump. by rewrite Ht.
Qed.

(** Whatever happens, copies of the record are all that is written, at most one
    for each attempt; there is one when the writer reports no error, and exactly
    one when its first attempt is answered. *)
Lemma write_copies w w' r :
  WriteMessages topic m w = (w', r) ->
  exists n k, w' = set_tick n (set_log (w.(w_log) ++ replicate k (topic, m)) w) /\
    (w.(w_tick) < n)%nat /\ (k <= writer_attempts)%nat /\ (r = Ok () -> (1 <= k)%nat) /\
    (env_outcome w.(w_tick) = Done -> r = Ok () /\ k = 1%nat).
Proof.
  unfold WriteMessages. assert (0 < writer_attempts)%nat as Hpos by (unfold writer_attempts; lia).
  revert w w' r Hpos. generalize writer_attempts as a.
  induction a as [|a IH]; intros w w' r Hpos Hrun; [lia|]. cbn [write_attempts] in Hrun.
  rewrite run_bind, run_attempt in Hrun. destruct (produce topic m w) as [w1 res] eqn:Hone.
  assert (exists n k, w1 = set_tick n (set_log (w.(w_log) ++ replicate k (topic, m)) w) /\
    (w.(w_tick) < n)%nat /\ (k <= 1)%nat /\ (res = Ok () -> k = 1%nat) /\
    (env_outcome w.(w_tick) = Done -> res = Ok ())) as (n & k & -> & Hn & Hk & Hok & Hd).
  { assert (env_outcome w.(w_tick) = Done -> res = Ok ()) as Hd
      by (intros Hd; unfold produce in Hone; rewrite external_done in Hone by done; by injection Hone as _ <-).
    unfold produce in Hone. apply external_cases in Hone as [(-> & e & ->)|([] & Hf & Hres)].
    - exists (S w.(w_tick)), 0%nat. split_and!; [by destruct w; cbn; rewrite app_nil_r|lia..|done|done].
    - injection Hf as <-. exists (S w.(w_tick)), 1%nat. split_and!; [by destruct w|lia..|done|done]. }
  destruct res as [[]|e].
  { injection Hrun as <- <-. exists n, k. rewrite (Hok eq_refl) in *. split_and!; [done|lia|lia|lia|done]. }
  assert (env_outcome w.(w_tick) <> Done) as Hnot by (by intros Hdone%Hd).
  cbn in Hrun. rewrite run_bind, run_consult in Hrun.
  assert (forall e0, (bump (set_tick n (set_log (w.(w_log) ++ replicate k (topic, m)) w)), Err e0) = (w', r) ->
    exists n k, w' = set_tick n (set_log (w.(w_log) ++ replicate k (topic, m)) w) /\
    (w.(w_tick) < n)%nat /\ (k <= S a)%nat /\ (r = Ok () -> (1 <= k)%nat) /\
    (env_outcome w.(w_tick) = Done -> r = Ok () /\ k = 1%nat)) as Hstop.
  { intros e0 [= <- <-]. exists (S n), k. split_and!; [by destruct w|lia|lia|done|done]. }
  destruct (env_temporary _), a as [|a]; try (by apply Hstop in Hrun).
  apply IH in Hrun as (n2 & k2 & -> & Hn2 & Hk2 & Hok2 & _); [|lia]. exists n2, (k + k2)%nat.
  split_and!; [|destruct w; cbn in *; lia|lia|intros Hr; specialize (Hok2 Hr); lia|done].
  destruct w. cbn. by rewrite replicate_add, app_assoc.
Qed.
End Writer.
