(* ===== verification/Limiter.v ===== *)
(** internal/service/concurrency/limiter.go: a counter per campaign in Redis,
    changed by two Lua scripts that Redis runs atomically. *)
From S2P Require Import Prelude Errors GoTime Json Domain Messages World.

Record Limiter := mkLimiter {
  lim_defaultLimit : int;
  lim_ttl : Duration;
}.

Definition NewLimiter (defaultLimit : int) (ttl : Duration) : Limiter :=
  mkLimiter defaultLimit (if ttl <=? 0 then 5 * MinuteD else ttl).

(** ** The Redis commands the scripts use, at server time [t] *)

(** GET of an integer key; a key whose time to live is over is gone. *)
Definition redis_GET (t : Time) (key : string) (m : gmap string redisEntry) : option redisEntry :=
  match m !! key with
  | Some e => match e.(re_expire_at) with
              | Some x => if x <=? t then None else Some e
              | None => Some e
              end
  | None => None
  end.

Definition redis_current (t : Time) (key : string) (m : gmap string redisEntry) : Z :=
  match redis_GET t key m with Some e => e.(re_value) | None => 0 end.

(** INCR and DECR keep the time to live; on a missing key they start from 0. *)
Definition redis_ADD (t : Time) (key : string) (by_ : Z) (m : gmap string redisEntry)
    : gmap string redisEntry :=
  match redis_GET t key m with
  | Some e => <[key := mkEntry (e.(re_value) + by_) e.(re_expire_at)]> m
  | None => <[key := mkEntry by_ None]> m
  end.

Definition redis_PEXPIRE (t : Time) (key : string) (ms : Z) (m : gmap string redisEntry)
    : gmap string redisEntry :=
  match m !! key with
  | Some e => <[key := mkEntry e.(re_value) (Some (t + ms * Millisecond))]> m
  | None => m
  end.

(** ** The scripts *)

Definition acquire_script (t : Time) (key : string) (limit ttl : Z) (m : gmap string redisEntry)
    : gmap string redisEntry * Z :=
  let current := redis_current t key m in
  if current <? limit then
    let m := redis_ADD t key 1 m in
    let m := if 0 <? ttl then redis_PEXPIRE t key ttl m else m in
    (m, 1)
  else (m, 0).

Definition release_script (t : Time) (key : string) (m : gmap string redisEntry)
    : gmap string redisEntry * Z :=
  let current := redis_current t key m in
  if current <=? 0 then (delete key m, 0)
  else (redis_ADD t key (-1) m, current - 1).

Section Limiter.
Context `{Env} `{UuidText}.

Definition limiter_key (campaignID : uuid) : string :=
  String.append "outbound:campaign:" (String.append (uuid_text campaignID) ":active").

(** The limit Acquire enforces; [None] when it lets everything through. *)
Definition effective_limit (l : Limiter) (campaignID : uuid) (limit : int) : option int :=
  if bool_decide (campaignID = uuid_Nil) then None
  else
    let limit := if limit <=? 0 then l.(lim_defaultLimit) else limit in
    if limit <=? 0 then None else Some limit.

Definition Acquire (l : Limiter) (campaignID : uuid) (limit : int) : M bool :=
  match effective_limit l campaignID limit with
  | None => mret true
  | Some limit =>
      res ← on_err (wrapf "concurrency acquire") (external (fun w =>
        let '(m, res) := acquire_script (env_now w.(w_tick)) (limiter_key campaignID) limit
                           (Milliseconds l.(lim_ttl)) w.(w_redis) in
        Ok (set_redis m w, res)));
      mret (bool_decide (res = 1))
  end.

Definition Release (l : Limiter) (campaignID : uuid) : M () :=
  if bool_decide (campaignID = uuid_Nil) then mret ()
  else
    on_err (wrapf "concurrency release") (external (fun w =>
      let '(m, res) := release_script (env_now w.(w_tick)) (limiter_key campaignID) w.(w_redis) in
      Ok (set_redis m w, res))) ≫= fun _ => mret ().
End Limiter.

(** ** The limiter as a transition system

    Any number of workers call Acquire and Release on one campaign's key; the
    two scripts are atomic, and time passes between them. [ls_holds] is a ghost:
    when each slot now held was acquired. *)
Record LState := mkLState {
  ls_time : Time;
  ls_redis : gmap string redisEntry;
  ls_holds : list Time;
}.

Inductive lstep (key : string) (limit ttl : Z) (hold : Z) : relation LState :=
| lstep_acquire t m m' hs :
    acquire_script t key limit ttl m = (m', 1) ->
    lstep key limit ttl hold (mkLState t m hs) (mkLState t m' (t :: hs))
| lstep_refused t m m' hs :
    acquire_script t key limit ttl m = (m', 0) ->
    lstep key limit ttl hold (mkLState t m hs) (mkLState t m' hs)
| lstep_release t m m' r h hs hs' :
    hs ≡ₚ h :: hs' ->
    release_script t key m = (m', r) ->
    lstep key limit ttl hold (mkLState t m hs) (mkLState t m' hs')
| lstep_time t t' m hs :
    t <= t' ->
    Forall (fun h => t' < h + hold * Millisecond) hs ->
    lstep key limit ttl hold (mkLState t m hs) (mkLState t' m hs).

(** The abstract specification: a counting semaphore. *)
Inductive sem_step (limit : Z) : relation nat :=
| sem_acquire n : Z.of_nat n < limit -> sem_step limit n (S n)
| sem_refused n : limit <= Z.of_nat n -> sem_step limit n n
| sem_release n : sem_step limit (S n) n
| sem_idle n : sem_step limit n n.

(** The counter is the number of slots held, and while one is held the key
    outlives it. *)
Definition counter_exact (key : string) (ttl : Z) (s : LState) : Prop :=
  redis_current s.(ls_time) key s.(ls_redis) = Z.of_nat (length s.(ls_holds)) /\
  (s.(ls_holds) <> [] ->
   exists v x, s.(ls_redis) !! key = Some (mkEntry v (Some x)) /\
     s.(ls_time) < x /\ Forall (fun h => h + ttl * Millisecond <= x) s.(ls_holds)) /\
  (forall v, s.(ls_redis) !! key = Some (mkEntry v None) -> False) /\
  Forall (fun h => h <= s.(ls_time)) s.(ls_holds).

Lemma current_live t key m v x :
  m !! key = Some (mkEntry v (Some x)) -> t < x -> redis_current t key m = v.
Proof.
  intros Hm Hx. unfold redis_current, redis_GET. rewrite Hm. simpl.
  destruct (x <=? t) eqn:?; zbool; [lia|done].
Qed.

Lemma acquire_script_cases t key limit ttl m m' r :
  acquire_script t key limit ttl m = (m', r) ->
  (redis_current t key m < limit /\ r = 1) \/ (limit <= redis_current t key m /\ m' = m /\ r = 0).
Proof.
  unfold acquire_script. destruct (_ <? limit) eqn:?; zbool; intros; simplify_eq; auto.
Qed.

(** A granted acquire leaves the key with one more and a fresh time to live. *)
Lemma acquire_script_granted t key limit ttl m m' :
  0 < ttl -> acquire_script t key limit ttl m = (m', 1) ->
  m' !! key = Some (mkEntry (redis_current t key m + 1) (Some (t + ttl * Millisecond))).
Proof.
  intros Httl. unfold acquire_script. destruct (_ <? limit); [|by intros; simplify_eq].
  intros [= <-]. destruct (0 <? ttl) eqn:?; zbool; [|lia].
  unfold redis_PEXPIRE, redis_ADD, redis_current.
  destruct (redis_GET t key m); by rewrite !lookup_insert_eq.
Qed.

(** Values of the counters: an acquire takes a slot of a counter nobody uses, and
    a release leaves nothing of it, however late it comes. *)
Definition counters_at_most (bound : string -> Z) (m : gmap string redisEntry) : Prop :=
  forall key e, m !! key = Some e -> e.(re_value) <= bound key.
Definition unused (m : gmap string redisEntry) : Prop := counters_at_most (fun _ => 0) m.

Lemma current_at_most bound t key m :
  0 <= bound key -> counters_at_most bound m -> redis_current t key m <= bound key.
Proof.
  intros H0 Hm. unfold redis_current, redis_GET. destruct (m !! key) as [e|] eqn:E; [|done].
  specialize (Hm _ _ E). by repeat case_match; simplify_eq.
Qed.

Lemma put_at_most bound key v x m :
  counters_at_most bound m -> v <= bound key -> counters_at_most bound (<[key := mkEntry v x]> m).
Proof.
  intros Hm Hv k e. rewrite lookup_insert. case_decide; [intros [= <-]; by subst|apply Hm].
Qed.

Lemma add_at_most bound bound' t key n m :
  counters_at_most bound m -> (forall k, bound k <= bound' k) -> 0 <= bound key ->
  bound key + n <= bound' key -> counters_at_most bound' (redis_ADD t key n m).
Proof.
  intros Hm Hle H0 Hn. pose proof (current_at_most bound t key m H0 Hm) as Hc.
  assert (counters_at_most bound' m) as Hm' by (intros k e Hk; etrans; [by eapply Hm|apply Hle]).
  unfold redis_ADD, redis_current in *. destruct (redis_GET t key m); apply put_at_most; simpl; (done || lia).
Qed.

Definition one_slot (key k : string) : Z := if decide (k = key) then 1 else 0.

Lemma one_slot_key key : one_slot key key = 1.
Proof. unfold one_slot. by rewrite decide_True. Qed.

Lemma acquire_unused t key limit ttl m :
  unused m -> 0 < limit ->
  exists m', acquire_script t key limit ttl m = (m', 1) /\ counters_at_most (one_slot key) m'.
Proof.
  intros Hm Hl. unfold acquire_script.
  pose proof (current_at_most (fun _ => 0) t key m ltac:(lia) Hm) as Hc. cbn in Hc.
  destruct (_ <? limit) eqn:?; zbool; [|lia]. eexists. split; [reflexivity|].
  assert (counters_at_most (one_slot key) (redis_ADD t key 1 m)) as Ha.
  { apply (add_at_most (fun _ => 0)); [done| |lia|rewrite one_slot_key; lia].
    intros k. unfold one_slot. case_decide; lia. }
  case_match; [|done]. unfold redis_PEXPIRE. destruct (_ !! key) as [e|] eqn:E; [|done].
  apply put_at_most; [done|by apply Ha].
Qed.

Lemma release_unused t key m : counters_at_most (one_slot key) m -> unused (release_script t key m).1.
Proof.
  intros Hm. unfold release_script.
  pose proof (current_at_most (one_slot key) t key m ltac:(rewrite one_slot_key; lia) Hm) as Hc.
  rewrite one_slot_key in Hc.
  assert (forall k e, k <> key -> m !! k = Some e -> e.(re_value) <= 0) as Hother.
  { intros k e Hk Hl. specialize (Hm _ _ Hl). unfold one_slot in Hm. by rewrite decide_False in Hm. }
  destruct (_ <=? 0) eqn:?; zbool; cbn [fst]; intros k e.
  - rewrite lookup_delete. case_decide; [done|by apply Hother].
  - unfold redis_ADD, redis_current in *. destruct (redis_GET t key m); [|lia].
    rewrite lookup_insert. case_decide; [intros [= <-]; simpl; lia|by apply Hother].
Qed.

Section Safety.
Context (key : string) (limit ttl hold : Z).
Context (Httl : 0 < ttl) (Hhold : hold <= ttl).

Lemma acquire_exact t m m' hs :
  counter_exact key ttl (mkLState t m hs) -> acquire_script t key limit ttl m = (m', 1) ->
  counter_exact key ttl (mkLState t m' (t :: hs)).
Proof.
  intros (Hc & Hlive & Hp & Hle) Hacq. simpl in *.
  pose proof (acquire_script_granted _ _ _ _ _ _ Httl Hacq) as Hm'.
  assert (t < t + ttl * Millisecond) by (unfold Millisecond; lia).
  split_and!; simpl.
  - rewrite (current_live _ _ _ _ _ Hm') by done. lia.
  - intros _. do 2 eexists. split_and!; [exact Hm'|done|].
    constructor; [lia|]. eapply Forall_impl; [exact Hle|]. simpl. intros. lia.
  - intros v Hv. congruence.
  - constructor; [lia|done].
Qed.

Lemma release_exact t m m' r h hs hs' :
  counter_exact key ttl (mkLState t m hs) -> hs ≡ₚ h :: hs' -> release_script t key m = (m', r) ->
  counter_exact key ttl (mkLState t m' hs').
Proof.
  intros (Hc & Hlive & Hp & Hle) Hperm Hrel. simpl in *.
  assert (length hs = S (length hs')) as Hlen by (by rewrite Hperm).
  destruct Hlive as (v & x & Hm & Hx & Hall).
  { intros ->. by apply Permutation_nil_cons in Hperm. }
  pose proof (current_live _ _ _ _ _ Hm Hx) as Hcur.
  unfold release_script in Hrel. rewrite Hcur in Hrel.
  destruct (v <=? 0) eqn:?; zbool; [lia|]. injection Hrel as <- <-.
  assert (redis_ADD t key (-1) m !! key = Some (mkEntry (v - 1) (Some x))) as Hm'.
  { unfold redis_ADD, redis_GET. rewrite Hm. simpl.
    destruct (x <=? t) eqn:?; zbool; [lia|]. by rewrite lookup_insert_eq. }
  rewrite Hperm in Hall, Hle. inversion_clear Hall. inversion_clear Hle.
  split_and!; simpl.
  - rewrite (current_live _ _ _ _ _ Hm') by done. lia.
  - intros _. eauto.
  - intros v' Hv. congruence.
  - done.
Qed.

Lemma time_exact t t' m hs :
  counter_exact key ttl (mkLState t m hs) -> t <= t' ->
  Forall (fun h => t' < h + hold * Millisecond) hs ->
  counter_exact key ttl (mkLState t' m hs).
Proof.
  intros (Hc & Hlive & Hp & Hle) Ht Hhs. simpl in *.
  split_and!; simpl.
  - destruct hs as [|h hs].
    + unfold redis_current, redis_GET in *. destruct (m !! key) as [[v [x|]]|] eqn:Hm; simpl in *.
      * destruct (x <=? t) eqn:?, (x <=? t') eqn:?; zbool; simpl in *; lia.
      * by destruct (Hp v).
      * done.
    + destruct Hlive as (v & x & Hm & Hx & Hall); [done|].
      inversion_clear Hall. inversion_clear Hhs.
      rewrite <- Hc, (current_live t _ _ _ _ Hm) by done.
      apply (current_live _ _ _ _ _ Hm). unfold Millisecond in *. nia.
  - intros Hne. destruct Hlive as (v & x & Hm & Hx & Hall); [done|].
    exists v, x. split_and!; [done| |done].
    destruct hs as [|h hs]; [done|]. inversion_clear Hall. inversion_clear Hhs.
    unfold Millisecond in *. nia.
  - done.
  - eapply Forall_impl; [exact Hle|]. simpl. intros. lia.
Qed.

(** Every step keeps the counter exact and is a step of the semaphore. *)
Lemma lstep_simulates s s' :
  counter_exact key ttl s -> lstep key limit ttl hold s s' ->
  counter_exact key ttl s' /\ sem_step limit (length s.(ls_holds)) (length s'.(ls_holds)).
Proof.
  intros Hc Hs. pose proof (proj1 Hc) as Hcur.
  destruct Hs as [t m m' hs Ha|t m m' hs Ha|t m m' r h hs hs' Hp Hr|t t' m hs Ht Hh]; simpl in *.
  - split; [by eapply acquire_exact|]. constructor.
    destruct (acquire_script_cases _ _ _ _ _ _ _ Ha) as [[? _]|(? & _ & ?)]; lia.
  - destruct (acquire_script_cases _ _ _ _ _ _ _ Ha) as [[? ?]|(? & -> & _)]; [lia|].
    split; [done|]. constructor. lia.
  - split; [by eapply release_exact|].
    assert (length hs = S (length hs')) as -> by (by rewrite Hp). constructor.
  - split; [by eapply time_exact|]. apply sem_idle.
Qed.

Lemma counter_exact_init t m : m !! key = None -> counter_exact key ttl (mkLState t m []).
Proof.
  intros Hm. split_and!; simpl; [| done | congruence | constructor].
  unfold redis_current, redis_GET. by rewrite Hm.
Qed.
End Safety.

(** ** Properties of the limiter *)

(** Claim C11: refinement. If no slot is held longer than the key's time to
    live, the Redis counter implements a counting semaphore: from a fresh key
    every reachable state has a counter equal to the number of slots held, the
    run is a run of the semaphore, and the number held never exceeds a
    non-negative limit. *)
Theorem limiter_refines_semaphore (key : string) (limit ttl hold : Z) t m s :
  0 <= limit -> 0 < ttl -> hold <= ttl -> m !! key = None ->
  rtc (lstep key limit ttl hold) (mkLState t m []) s ->
  redis_current s.(ls_time) key s.(ls_redis) = Z.of_nat (length s.(ls_holds)) /\
  rtc (sem_step limit) 0%nat (length s.(ls_holds)) /\
  Z.of_nat (length s.(ls_holds)) <= limit.
Proof.
  intros Hl Httl Hhold Hm Hrun.
  assert (counter_exact key ttl s /\ rtc (sem_step limit) 0%nat (length s.(ls_holds)) /\
          Z.of_nat (length s.(ls_holds)) <= limit) as ([Hc _] & ? & ?); [|done].
  pose proof (counter_exact_init key ttl t m Hm) as Hinit.
  remember (mkLState t m []) as s0 eqn:E.
  assert (Z.of_nat (length s0.(ls_holds)) <= limit) as Hle by (by subst).
  assert (length s0.(ls_holds) = 0%nat) as H0 by (by subst). rewrite <- H0. clear E H0.
  induction Hrun as [s|s1 s2 s3 Hstep Hrun IH]; [split_and!; [done|constructor|done]|].
  destruct (lstep_simulates key limit ttl hold Httl Hhold _ _ Hinit Hstep) as [Hc2 Hsem].
  destruct (IH Hc2) as (? & ? & ?); [by inversion Hsem; subst; lia|].
  split_and!; [done| |done]. by eapply rtc_l.
Qed.

(** Without that bound the limit is not kept: a slot held past the
    time to live is forgotten by the counter, and with limit 1 two slots can be
    held at once. *)
Theorem limiter_overrun_after_ttl (key : string) (ttl hold : Z) :
  0 < ttl < hold ->
  exists s, rtc (lstep key 1 ttl hold) (mkLState 0 ∅ []) s /\ length s.(ls_holds) = 2%nat.
Proof.
  intros Httl.
  destruct (acquire_script 0 key 1 ttl ∅) as [m1 r1] eqn:E1.
  assert (r1 = 1) as ->.
  { destruct (acquire_script_cases _ _ _ _ _ _ _ E1) as [[_ ?]|(Hc & _)]; [done|].
    unfold redis_current, redis_GET in Hc. by rewrite lookup_empty in Hc. }
  pose proof (acquire_script_granted _ _ _ _ _ _ (proj1 Httl) E1) as Hm1.
  set (t := ttl * Millisecond).
  destruct (acquire_script t key 1 ttl m1) as [m2 r2] eqn:E2.
  assert (r2 = 1) as ->.
  { destruct (acquire_script_cases _ _ _ _ _ _ _ E2) as [[_ ?]|(Hc & _)]; [done|].
    unfold redis_current, redis_GET in Hc. rewrite Hm1 in Hc. simpl in Hc.
    fold t in Hc. by rewrite Z.leb_refl in Hc. }
  exists (mkLState t m2 [t; 0]). split; [|done].
  eapply rtc_l; [by apply lstep_acquire|].
  eapply rtc_l; [apply (lstep_time _ _ _ _ 0 t)|].
  - unfold t, Millisecond. lia.
  - repeat constructor. unfold t, Millisecond. lia.
  - eapply rtc_l; [by apply lstep_acquire|constructor].
Qed.

Section AcquireProperties.
Context `{Env} `{UuidText}.

(** What Acquire and Release do when Redis answers: no slot is counted
    for the nil campaign or without a limit; otherwise the caller gets the slot
    exactly when the live counter is below the limit, which then grows by one
    with a fresh time to live, and a denied caller changes nothing; a release
    lowers a live positive counter by one and keeps its time to live. *)
Theorem acquire_release_reliable (l : Limiter) (c : uuid) (limit : int) (w : World) :
  reliable -> 0 < Milliseconds l.(lim_ttl) ->
  let t := env_now (S w.(w_tick)) in
  let key := limiter_key c in
  let cur := redis_current t key w.(w_redis) in
  match effective_limit l c limit with
  | None => Acquire l c limit w = (w, Ok true)
  | Some n =>
      (cur < n /\ exists w', Acquire l c limit w = (w', Ok true) /\
        w'.(w_redis) !! key =
          Some (mkEntry (cur + 1) (Some (t + Milliseconds l.(lim_ttl) * Millisecond)))) \/
      (n <= cur /\ exists w', Acquire l c limit w = (w', Ok false) /\ w'.(w_redis) = w.(w_redis))
  end /\
  (forall v x, c <> uuid_Nil -> w.(w_redis) !! key = Some (mkEntry v (Some x)) -> t < x -> 0 < v ->
   exists w', Release l c w = (w', Ok ()) /\
     w'.(w_redis) !! key = Some (mkEntry (v - 1) (Some x))).
Proof.
  intros Hr Httl t key cur. split.
  - unfold Acquire. destruct (effective_limit l c limit) as [n|] eqn:En; [|done].
    run_monad. rewrite external_reliable by done. rewrite tick_bump. fold t key.
    replace (w_redis (bump w)) with (w_redis w) by (by destruct w).
    destruct (acquire_script t key n (Milliseconds (lim_ttl l)) (w_redis w)) as [m r] eqn:E.
    destruct (acquire_script_cases _ _ _ _ _ _ _ E) as [[Hc ->]|(Hc & -> & ->)]; [left|right];
      (split; [done|]); eexists; (split; [reflexivity|]).
    + destruct w; simpl. by apply (acquire_script_granted _ _ n).
    + by destruct w.
  - intros v x Hc Hm Hx Hv. unfold Release. rewrite bool_decide_false by done.
    run_monad. rewrite external_reliable by done. rewrite tick_bump. fold t key.
    replace (w_redis (bump w)) with (w_redis w) by (by destruct w).
    unfold release_script. rewrite (current_live _ _ _ _ _ Hm Hx).
    destruct (v <=? 0) eqn:?; zbool; [lia|]. eexists. split; [reflexivity|].
    destruct w; simpl in *. unfold redis_ADD, redis_GET. rewrite Hm. simpl.
    destruct (x <=? t) eqn:?; zbool; [lia|]. by rewrite lookup_insert_eq.
Qed.
End AcquireProperties.

Lemma limiter_refines_witness :
  exists s, rtc (lstep "k" 2 1000 500) (mkLState 0 ∅ []) s /\ length s.(ls_holds) = 1%nat /\
  redis_current s.(ls_time) "k" s.(ls_redis) = Z.of_nat (length s.(ls_holds)) /\
  rtc (sem_step 2) 0%nat (length s.(ls_holds)) /\ Z.of_nat (length s.(ls_holds)) <= 2.
Proof.
  assert (rtc (lstep "k" 2 1000 500) (mkLState 0 ∅ [])
            (mkLState 0 (acquire_script 0 "k" 2 1000 ∅).1 [0])) as Hrun
    by (apply rtc_once, lstep_acquire; reflexivity).
  eexists. split; [exact Hrun|]. split; [reflexivity|].
  apply (limiter_refines_semaphore "k" 2 1000 500 0 ∅); [lia|lia|lia|reflexivity|exact Hrun].
Defined.

Lemma limiter_overrun_witness :
  exists s, rtc (lstep "k" 1 60000 90000) (mkLState 0 ∅ []) s /\ length s.(ls_holds) = 2%nat.
Proof. apply (limiter_overrun_after_ttl "k" 60000 90000). lia. Defined.

Lemma acquire_release_witness :
  exists w', @Acquire quiet_env bit_uuid (NewLimiter 500 (60 * Second)) 3%N 10 empty_world
             = (w', Ok true) /\
    w'.(w_redis) !! @limiter_key bit_uuid 3%N =
      Some (mkEntry 1 (Some (1700000061 * Second))).
Proof.
  pose proof (@acquire_release_reliable quiet_env bit_uuid (NewLimiter 500 (60 * Second)) 3%N 10
    empty_world (fun _ => eq_refl) ltac:(vm_compute; reflexivity)) as [Hacq _].
  destruct Hacq as [(_ & w' & Hw & Hk)|(Hc & _)]; [|vm_compute in Hc; by destruct Hc].
  exists w'. split; [exact Hw|exact Hk].
Defined.
