(* ===== verification/CampaignService.v ===== *)
(** internal/service/campaign/service.go: the campaign lifecycle. *)
From S2P Require Import Prelude Errors GoTime Json Domain Messages World Postgres PostgresInv.
From S2P Require Import PostgresSpec.

(** ** Inputs *)

Record BusinessHourInput := mkHourInput {
  bhi_DayOfWeek : WeekdayT;
  bhi_Start : Time;
  bhi_End : Time;
}.

Record TargetInput := mkTargetInput {
  ti_PhoneNumber : string;
  ti_Payload : any_map;
}.

Record CreateCampaignInput := mkCreateInput {
  ci_Name : string;
  ci_Description : string;
  ci_TimeZone : string;
  ci_MaxConcurrentCalls : int;
  ci_RetryPolicy : RetryPolicy;
  ci_BusinessHours : list BusinessHourInput;
  ci_Targets : list TargetInput;
}.

Record UpdateCampaignInput := mkUpdateInput {
  ui_ID : uuid;
  ui_Name : option string;
  ui_Description : option string;
  ui_MaxConcurrentCalls : option int;
  ui_RetryPolicy : option RetryPolicy;
  ui_BusinessHours : option (list BusinessHourInput);
}.

(** ** Pure helpers *)

Definition resolveConcurrency (defaultConcurrency value : int) : int :=
  if value <=? 0 then defaultConcurrency else value.

Definition normalizeRetry (policy : RetryPolicy) : RetryPolicy :=
  let base := if policy.(rp_BaseDelay) <=? 0 then 2 * Second else policy.(rp_BaseDelay) in
  let max := if policy.(rp_MaxDelay) <=? 0 then 2 * MinuteD else policy.(rp_MaxDelay) in
  let max := if max <? base then base else max in
  let attempts := if policy.(rp_MaxAttempts) <=? 0 then 5 else policy.(rp_MaxAttempts) in
  mkRetryPolicy attempts base max policy.(rp_Jitter).

Definition toDomainBusinessHours (inputs : list BusinessHourInput) : list BusinessHourWindow :=
  (fun i => mkWindow i.(bhi_DayOfWeek) i.(bhi_Start) i.(bhi_End)) <$> inputs.

Definition window_empty (bh : BusinessHourInput) : bool :=
  let startMinutes := Hour bh.(bhi_Start) * 60 + Minute bh.(bhi_Start) in
  let endMinutes := Hour bh.(bhi_End) * 60 + Minute bh.(bhi_End) in
  startMinutes =? endMinutes.

Definition unregistered (phone : string) : error :=
  detailf ErrValidation (String.append "phone number "
    (String.append phone " is not part of this campaign's registered target list")).

(** Field updates of a campaign. *)
Definition with_status (s : CampaignStatus) (c : Campaign) : Campaign :=
  let '(mkCampaign a b d e f g h _ j k l m) := c in mkCampaign a b d e f g h s j k l m.
Definition with_started (t : option Time) (c : Campaign) : Campaign :=
  let '(mkCampaign a b d e f g h i j k _ m) := c in mkCampaign a b d e f g h i j k t m.
Definition with_completed (t : option Time) (c : Campaign) : Campaign :=
  let '(mkCampaign a b d e f g h i j k l _) := c in mkCampaign a b d e f g h i j k l t.
Definition with_hours (ws : list BusinessHourWindow) (c : Campaign) : Campaign :=
  let '(mkCampaign a b d e _ g h i j k l m) := c in mkCampaign a b d e ws g h i j k l m.

Section Service.
Context `{Env} `{PgOrder}.

Definition validateCreateInput (input : CreateCampaignInput) : option error :=
  if bool_decide (input.(ci_Name) = EmptyString)
  then Some (detailf ErrValidation "campaign name is required")
  else if bool_decide (input.(ci_TimeZone) = EmptyString)
  then Some (detailf ErrValidation "time zone is required")
  else match LoadLocation input.(ci_TimeZone) with
  | None => Some (detailf ErrValidation (String.append "invalid time zone "
              (String.append input.(ci_TimeZone) (String.append ": " (LoadLocation_error input.(ci_TimeZone))))))
  | Some _ =>
      if existsb window_empty input.(ci_BusinessHours)
      then Some (detailf ErrValidation "business hour window must have positive duration")
      else None
  end.

(** The records Create and AddTargets build, one uuid.New() each. *)
Definition new_record (campaignID : uuid) (stamp : Time) (id : uuid) (t : TargetInput)
    : CampaignTargetRecord :=
  mkTarget id campaignID t.(ti_PhoneNumber) t.(ti_Payload) "pending" None None 0 stamp.

Fixpoint new_records (campaignID : uuid) (stamp : Time) (ts : list TargetInput)
    : M (list CampaignTargetRecord) :=
  match ts with
  | [] => mret []
  | t :: ts' =>
      id ← uuid_New;
      rest ← new_records campaignID stamp ts';
      mret (new_record campaignID stamp id t :: rest)
  end.

Definition Create (defaultConcurrency : int) (input : CreateCampaignInput) : M Campaign :=
  match validateCreateInput input with
  | Some err => throw err
  | None =>
      stamp ← now;
      id ← uuid_New;
      let campaign := mkCampaign id input.(ci_Name) input.(ci_Description) input.(ci_TimeZone) []
        (resolveConcurrency defaultConcurrency input.(ci_MaxConcurrentCalls))
        (normalizeRetry input.(ci_RetryPolicy)) CampaignStatusPending stamp stamp None None in
      on_err (wrapf "campaign service: create campaign")
        (CampaignRepository_Create campaign) ≫= fun _ =>
      on_err (wrapf "campaign service: store business hours")
        (BusinessHourRepository_Replace id (toDomainBusinessHours input.(ci_BusinessHours)))
        ≫= fun _ =>
      on_err (wrapf "campaign service: ensure stats")
        (CampaignStatisticsRepository_Ensure id) ≫= fun _ =>
      match input.(ci_Targets) with
      | [] => mret ()
      | ts =>
          records ← new_records id stamp ts;
          on_err (wrapf "campaign service: store targets")
            (CampaignTargetRepository_BulkInsert id records)
      end ≫= fun _ =>
      mret campaign
  end.

Definition Get (id : uuid) : M Campaign :=
  campaign ← CampaignRepository_Get id;
  windows ← on_err (wrapf "campaign service: list business hours") (BusinessHourRepository_List id);
  mret (with_hours windows campaign).

Definition List_ (afterID : option uuid) (limit : int) : M (list Campaign) :=
  CampaignRepository_List afterID limit.

(** The loop that fills in the business hours of each campaign. *)
Fixpoint fill_hours (campaigns : list Campaign) : M (list Campaign) :=
  match campaigns with
  | [] => mret []
  | c :: cs =>
      windows ← on_err (wrapf "campaign service: list business hours")
        (BusinessHourRepository_List c.(c_ID));
      rest ← fill_hours cs;
      mret (with_hours windows c :: rest)
  end.

Definition ListByStatus (status : CampaignStatus) (limit : int) : M (list Campaign) :=
  campaigns ← CampaignRepository_ListByStatus status limit;
  fill_hours campaigns.

Definition apply_update (defaultConcurrency : int) (input : UpdateCampaignInput) (stamp : Time)
    (c : Campaign) : Campaign :=
  mkCampaign c.(c_ID)
    (default c.(c_Name) input.(ui_Name))
    (default c.(c_Description) input.(ui_Description))
    c.(c_TimeZone) c.(c_BusinessHours)
    (match input.(ui_MaxConcurrentCalls) with
     | Some v => resolveConcurrency defaultConcurrency v
     | None => c.(c_MaxConcurrentCalls)
     end)
    (match input.(ui_RetryPolicy) with
     | Some p => normalizeRetry p
     | None => c.(c_RetryPolicy)
     end)
    c.(c_Status) c.(c_CreatedAt) stamp c.(c_StartedAt) c.(c_CompletedAt).

Definition Update (defaultConcurrency : int) (input : UpdateCampaignInput) : M Campaign :=
  campaign ← CampaignRepository_Get input.(ui_ID);
  stamp ← now;
  let campaign := apply_update defaultConcurrency input stamp campaign in
  CampaignRepository_Update campaign ≫= fun _ =>
  match input.(ui_BusinessHours) with
  | None => mret ()
  | Some hours =>
      on_err (wrapf "campaign service: update business hours")
        (BusinessHourRepository_Replace campaign.(c_ID) (toDomainBusinessHours hours))
  end ≫= fun _ =>
  mret campaign.

Definition Start (id : uuid) : M () :=
  campaign ← CampaignRepository_Get id;
  if bool_decide (campaign.(c_Status) = CampaignStatusInProgress) then mret ()
  else if bool_decide (campaign.(c_Status) = CampaignStatusCompleted)
  then throw (New "campaign service: cannot start completed campaign")
  else
    stamp ← now;
    CampaignRepository_Update
      (with_started (Some stamp) (with_status CampaignStatusInProgress campaign)).

Definition Pause (id : uuid) : M () :=
  campaign ← CampaignRepository_Get id;
  CampaignRepository_Update (with_status CampaignStatusPaused campaign).

Definition Complete (id : uuid) : M () :=
  campaign ← CampaignRepository_Get id;
  stamp ← now;
  CampaignRepository_Update
    (with_completed (Some stamp) (with_status CampaignStatusCompleted campaign)).

Definition Stats (id : uuid) : M CampaignStats := CampaignStatisticsRepository_Get id.

Definition AddTargets (campaignID : uuid) (targets : list TargetInput) : M () :=
  match targets with
  | [] => mret ()
  | _ =>
      existingTargets ← on_err (wrapf "campaign service: get existing targets")
        (CampaignTargetRepository_ListByCampaign campaignID 10000 EmptyString);
      match existingTargets with
      | [] => throw (detailf ErrValidation
                "cannot add targets to a campaign that has no registered target list")
      | _ =>
          let allowedPhones : gset string := list_to_set (t_PhoneNumber <$> existingTargets) in
          match List.find (fun t => negb (bool_decide (t.(ti_PhoneNumber) ∈ allowedPhones))) targets with
          | Some t => throw (unregistered t.(ti_PhoneNumber))
          | None =>
              stamp ← now;
              records ← new_records campaignID stamp targets;
              on_err (wrapf "campaign service: add targets")
                (CampaignTargetRepository_BulkInsert campaignID records)
          end
      end
  end.
End Service.

(** ** Validation and normalisation *)

Definition policy_normal (p : RetryPolicy) : Prop :=
  0 < p.(rp_BaseDelay) <= p.(rp_MaxDelay) /\ 0 < p.(rp_MaxAttempts).

(** normalizeRetry always returns a policy with a positive number of
    attempts and 0 < base delay <= maximum delay, keeps the jitter, and changes
    nothing in a policy exactly when it is already of that form (so normalizing
    twice is normalizing once). *)
Theorem normalizeRetry_spec (p : RetryPolicy) :
  let q := normalizeRetry p in
  policy_normal q /\ q.(rp_Jitter) = p.(rp_Jitter) /\ (policy_normal p <-> q = p) /\
  normalizeRetry q = q.
Proof.
  assert (forall p, policy_normal (normalizeRetry p)) as Hn.
  { intros []. unfold normalizeRetry, policy_normal; simpl.
    unfold MinuteD, Second, Millisecond. repeat case_match; zbool; lia. }
  assert (forall p, policy_normal p -> normalizeRetry p = p) as Hid.
  { intros [a b m j] [[Hb Hm] Ha]. simpl in *. unfold normalizeRetry; simpl.
    repeat case_match; zbool; try lia; done. }
  intros q. split_and!; [apply Hn|by destruct p| |apply Hid, Hn].
  split; [apply Hid|]. intros Hq. rewrite <- Hq. apply Hn.
Qed.

Section Properties.
Context `{Env} `{PgOrder}.

(** Claim C25: a campaign is created only from a valid input: a name, a time zone
    that can be loaded, and no window whose start and end are the same minute;
    any other input is refused as a validation error before anything is read or
    written. *)
Theorem create_validation (d : int) (i : CreateCampaignInput) :
  let valid := i.(ci_Name) <> EmptyString /\ i.(ci_TimeZone) <> EmptyString /\
    is_Some (LoadLocation i.(ci_TimeZone)) /\
    Forall (fun bh => Hour bh.(bhi_Start) * 60 + Minute bh.(bhi_Start) <>
                      Hour bh.(bhi_End) * 60 + Minute bh.(bhi_End)) i.(ci_BusinessHours) in
  (valid /\ validateCreateInput i = None) \/
  (~ valid /\ exists e, errors_Is e ErrValidation = true /\ forall w, Create d i w = (w, Err e)).
Proof.
  intros valid.
  assert (validateCreateInput i = None <-> valid) as Hiff.
  { unfold validateCreateInput, valid, is_Some.
    repeat case_bool_decide; try (split; [done|naive_solver]).
    destruct (LoadLocation _) eqn:El; [|split; [done|naive_solver]].
    destruct (existsb _ _) eqn:Ee.
    - split; [done|]. intros (_ & _ & _ & Hf). apply existsb_exists in Ee as (bh & Hin & He).
      apply Z.eqb_eq in He. rewrite Forall_forall in Hf. by destruct (Hf bh); [apply list_elem_of_In|].
    - split; [|done]. intros _. split_and!; [done|done|eauto|]. apply Forall_forall. intros bh Hin He.
      assert (existsb window_empty i.(ci_BusinessHours) = true); [|congruence].
      apply existsb_exists. exists bh. split; [by apply list_elem_of_In|]. by apply Z.eqb_eq. }
  destruct (validateCreateInput i) as [e|] eqn:Ev.
  - right. split; [intros Hv; by apply Hiff in Hv|]. exists e. split.
    + unfold validateCreateInput in Ev. repeat case_match; by simplify_eq.
    + intros w. unfold Create. by rewrite Ev.
  - left. split; [by apply Hiff|done].
Qed.

(** ** The lifecycle *)

(** The row a lifecycle operation writes: the stored campaign with a new status
    and the two timestamps the operation passes; CreatedAt is kept. *)
Definition lifecycle_row (s : CampaignStatus) (started completed : option Time) (stamp : Time)
    (r : campaignRecord) : campaignRecord :=
  update_row (with_completed completed (with_started started (with_status s (toDomain r)))) stamp r.

(** A rewrite of a stored campaign, possibly a few oracle steps later. *)
Lemma lifecycle_update id r w w1 s started completed :
  reliable -> pg_ok w -> w.(w_campaigns) !! id = Some r -> tables w1 = tables w ->
  exists w', CampaignRepository_Update
      (with_completed completed (with_started started (with_status s (toDomain r)))) w1 = (w', Ok ()) /\
    w'.(w_campaigns) =
      <[id := lifecycle_row s started completed (env_now (S w1.(w_tick))) r]> w.(w_campaigns) /\
    w'.(w_tick) = S w1.(w_tick).
Proof.
  intros Hr Hok Hl Ht. pose proof (proj1 (ok_campaign w Hok id r Hl)) as Hid.
  assert (pg_ok w1) as Hok1 by (revert Hok; unfold tables in Ht; simplify_eq; by apply pg_ok_same).
  assert (w1.(w_campaigns) = w.(w_campaigns)) as Hc by (unfold tables in Ht; by simplify_eq).
  rewrite (campaign_rewrite_reliable Hr _ id r w1); try done; [|by rewrite Hc].
  eexists. split; [reflexivity|]. rewrite Hc. by destruct w1.
Qed.

Lemma get_stored id r w :
  reliable -> w.(w_campaigns) !! id = Some r -> CampaignRepository_Get id w = (bump w, Ok (toDomain r)).
Proof. intros Hr Hl. rewrite campaign_get_reliable by done. by rewrite Hl. Qed.

Lemma start_run id w r :
  reliable -> pg_ok w -> w.(w_campaigns) !! id = Some r ->
  r.(cr_Status) <> CampaignStatusInProgress -> r.(cr_Status) <> CampaignStatusCompleted ->
  exists w', Start id w = (w', Ok ()) /\
    w'.(w_campaigns) = <[id := lifecycle_row CampaignStatusInProgress
      (Some (env_now (S w.(w_tick)))) None (env_now (S (S (S w.(w_tick))))) r]> w.(w_campaigns).
Proof.
  intros Hr Hok Hl H1 H2. unfold Start. rewrite (bind_step _ _ _ _ _ (get_stored _ _ _ Hr Hl)).
  change (c_Status (toDomain r)) with r.(cr_Status). rewrite !bool_decide_false by done.
  rewrite (bind_step now _ _ _ _ eq_refl).
  destruct (lifecycle_update id r w (bump (bump w)) CampaignStatusInProgress
    (Some (env_now (S w.(w_tick)))) None Hr Hok Hl) as (w' & Hu & Hc & _).
  { by rewrite !tables_bump. }
  exists w'. rewrite !tick_bump in *. by split.
Qed.

Lemma pause_run id w r :
  reliable -> pg_ok w -> w.(w_campaigns) !! id = Some r ->
  exists w', Pause id w = (w', Ok ()) /\
    w'.(w_campaigns) = <[id := lifecycle_row CampaignStatusPaused None None
      (env_now (S (S w.(w_tick)))) r]> w.(w_campaigns).
Proof.
  intros Hr Hok Hl. unfold Pause. rewrite (bind_step _ _ _ _ _ (get_stored _ _ _ Hr Hl)).
  destruct (lifecycle_update id r w (bump w) CampaignStatusPaused None None Hr Hok Hl)
    as (w' & Hu & Hc & _); [by rewrite tables_bump|].
  exists w'. rewrite tick_bump in *. by split.
Qed.

Lemma complete_run id w r :
  reliable -> pg_ok w -> w.(w_campaigns) !! id = Some r ->
  exists w', Complete id w = (w', Ok ()) /\
    w'.(w_campaigns) = <[id := lifecycle_row CampaignStatusCompleted None
      (Some (env_now (S w.(w_tick)))) (env_now (S (S (S w.(w_tick))))) r]> w.(w_campaigns).
Proof.
  intros Hr Hok Hl. unfold Complete. rewrite (bind_step _ _ _ _ _ (get_stored _ _ _ Hr Hl)).
  rewrite (bind_step now _ _ _ _ eq_refl).
  destruct (lifecycle_update id r w (bump (bump w)) CampaignStatusCompleted None
    (Some (env_now (S w.(w_tick)))) Hr Hok Hl) as (w' & Hu & Hc & _); [by rewrite !tables_bump|].
  exists w'. rewrite !tick_bump in *. by split.
Qed.

(** Start, on a stored campaign: one in progress is left as it is, a
    completed one is refused, and any other becomes in progress with the start
    time set. *)
Theorem start_spec (id : uuid) (w : World) (r : campaignRecord) :
  reliable -> pg_ok w -> w.(w_campaigns) !! id = Some r ->
  (r.(cr_Status) = CampaignStatusInProgress -> Start id w = (bump w, Ok ())) /\
  (r.(cr_Status) = CampaignStatusCompleted ->
     exists e, Start id w = (bump w, Err e)) /\
  (r.(cr_Status) <> CampaignStatusInProgress -> r.(cr_Status) <> CampaignStatusCompleted ->
     exists w', Start id w = (w', Ok ()) /\
       w'.(w_campaigns) = <[id := lifecycle_row CampaignStatusInProgress
         (Some (env_now (S w.(w_tick)))) None (env_now (S (S (S w.(w_tick))))) r]> w.(w_campaigns)).
Proof.
  intros Hr Hok Hl. split_and!; [..|by apply start_run];
    unfold Start; rewrite (bind_step _ _ _ _ _ (get_stored _ _ _ Hr Hl));
    change (c_Status (toDomain r)) with r.(cr_Status); intros ->.
  - by rewrite bool_decide_true.
  - eexists. by rewrite bool_decide_false, bool_decide_true.
Qed.

(** Pause and Complete do not look at the campaign's state: from any
    state the campaign becomes paused or completed, and since the stored
    timestamps are not read back the start time is erased. *)
Theorem pause_complete_spec (id : uuid) (w : World) (r : campaignRecord) :
  reliable -> pg_ok w -> w.(w_campaigns) !! id = Some r ->
  (exists w' r', Pause id w = (w', Ok ()) /\ w'.(w_campaigns) = <[id := r']> w.(w_campaigns) /\
     r'.(cr_Status) = CampaignStatusPaused /\ r'.(cr_StartedAt) = None /\ r'.(cr_CompletedAt) = None /\
     r'.(cr_Name) = r.(cr_Name) /\ r'.(cr_MaxConcurrentCalls) = r.(cr_MaxConcurrentCalls)) /\
  (exists w' r', Complete id w = (w', Ok ()) /\ w'.(w_campaigns) = <[id := r']> w.(w_campaigns) /\
     r'.(cr_Status) = CampaignStatusCompleted /\ r'.(cr_StartedAt) = None /\
     r'.(cr_CompletedAt) = Some (env_now (S w.(w_tick))) /\
     r'.(cr_Name) = r.(cr_Name) /\ r'.(cr_MaxConcurrentCalls) = r.(cr_MaxConcurrentCalls)).
Proof.
  intros Hr Hok Hl. split.
  - destruct (pause_run id w r Hr Hok Hl) as (w' & Hrun & Hc). do 2 eexists. by split_and!.
  - destruct (complete_run id w r Hr Hok Hl) as (w' & Hrun & Hc). do 2 eexists. by split_and!.
Qed.

(** ** Create, step by step *)

Definition create_campaign_of (d : int) (i : CreateCampaignInput) (w : World) : Campaign :=
  let stamp := env_now w.(w_tick) in
  mkCampaign (env_uuid (S w.(w_tick))) i.(ci_Name) i.(ci_Description) i.(ci_TimeZone) []
    (resolveConcurrency d i.(ci_MaxConcurrentCalls)) (normalizeRetry i.(ci_RetryPolicy))
    CampaignStatusPending stamp stamp None None.

Lemma new_records_Ok c stamp ts : forall w w' rs,
  new_records c stamp ts w = (w', Ok rs) ->
  tables w' = tables w /\ w'.(w_tick) = (w.(w_tick) + length ts)%nat /\
  rs = imap (fun k => new_record c stamp (env_uuid (w.(w_tick) + k))) ts.
Proof.
  induction ts as [|t ts IH]; intros w w' rs Hrun.
  - injection Hrun as <- <-. by rewrite Nat.add_0_r.
  - cbn [new_records] in Hrun. apply bind_Ok in Hrun as (id & w1 & Hid & Hrun).
    apply bind_Ok in Hrun as (rest & w2 & Hrest & Hrun). injection Hid as <- <-.
    injection Hrun as <- <-. apply IH in Hrest as (Ht & Htick & ->). rewrite tick_bump in *.
    split_and!; [by rewrite Ht, tables_bump|simpl; lia|].
    rewrite imap_cons, Nat.add_0_r. f_equal. apply imap_ext. intros k t' _. simpl.
    by rewrite Nat.add_succ_r.
Qed.

(** A batch of records with new, distinct ids is stored whole. *)
Lemma foldl_insert_targets_fresh c ts : forall m,
  NoDup (t_ID <$> ts) -> (forall t, t ∈ ts -> m !! t.(t_ID) = None) ->
  forall t, t ∈ ts -> foldl (insert_target c) m ts !! t.(t_ID) = Some (target_params c t).
Proof.
  induction ts as [|x ts IH]; intros m Hnd Hfresh t Hin; [by apply not_elem_of_nil in Hin|].
  apply NoDup_cons in Hnd as [Hni Hnd].
  assert (insert_target c m x = <[x.(t_ID) := target_params c x]> m) as Hx.
  { unfold insert_target. rewrite Hfresh; [done|by left]. }
  assert (forall y, y ∈ ts -> y.(t_ID) <> x.(t_ID)) as Hne.
  { intros y Hy Heq. apply Hni. rewrite <- Heq. apply list_elem_of_fmap. eauto. }
  simpl. rewrite Hx. apply elem_of_cons in Hin as [->|Hin].
  - apply foldl_insert_target_mono. by rewrite lookup_insert_eq.
  - apply IH; [done| |done]. intros y Hy. rewrite lookup_insert_ne by (by apply not_eq_sym, Hne).
    apply Hfresh. by right.
Qed.

(** Identifiers are fresh from [w] on. *)
Definition fresh_uuids (w : World) : Prop :=
  (forall n m, env_uuid n = env_uuid m -> n = m) /\
  forall n, (w.(w_tick) <= n)%nat -> w.(w_targets) !! env_uuid n = None.

Lemma foldl_insert_target_inv c ts : forall m id r,
  foldl (insert_target c) m ts !! id = Some r ->
  m !! id = Some r \/ exists t, t ∈ ts /\ r = target_params c t.
Proof.
  induction ts as [|t ts IH]; simpl; intros m id r Hl; [auto|].
  apply IH in Hl as [Hl|(t' & ? & ?)]; [|right; exists t'; split; [by right|done]].
  unfold insert_target in Hl. destruct (m !! t_ID t) eqn:E; [auto|].
  rewrite lookup_insert in Hl. case_decide; simplify_eq; [|auto].
  right. exists t. split; [by left|done].
Qed.

(** The records of a batch are stored as pending targets of their campaign, and
    nothing else is. *)
Lemma store_records_Ok c stamp ts w w1 w2 rs u :
  fresh_uuids w -> new_records c stamp ts w = (w1, Ok rs) ->
  CampaignTargetRepository_BulkInsert c rs w1 = (w2, Ok u) ->
  w2.(w_campaigns) = w.(w_campaigns) /\ w2.(w_hours) = w.(w_hours) /\ w2.(w_stats) = w.(w_stats) /\
  (forall t, t ∈ ts -> registered w2 c t.(ti_PhoneNumber)) /\
  (forall id r, w2.(w_targets) !! id = Some r -> w.(w_targets) !! id = Some r \/
     exists t, t ∈ ts /\ r.(tr_campaign_id) = c /\ r.(tr_phone_number) = t.(ti_PhoneNumber) /\
       r.(tr_state) = "pending" /\ r.(tr_attempt_count) = 0).
Proof.
  intros [Hinj Hfresh] Hnew Hins. apply new_records_Ok in Hnew as (Ht & _ & Hrs).
  unfold tables in Ht. injection Ht as Hc Hh Htg Hst.
  assert (w2.(w_campaigns) = w.(w_campaigns) /\ w2.(w_hours) = w.(w_hours) /\
    w2.(w_stats) = w.(w_stats) /\ w2.(w_targets) = foldl (insert_target c) w.(w_targets) rs)
    as (-> & -> & -> & Htg2).
  { unfold CampaignTargetRepository_BulkInsert in Hins. destruct rs as [|x rs'] eqn:Ers.
    - injection Hins as <- _. by rewrite Hc, Hh, Htg, Hst.
    - apply on_err_Ok, external_Ok in Hins. unfold insert_targets in Hins.
      case_match; [|done]. injection Hins as <- _. destruct w1; simpl in *. by subst. }
  assert (forall k t, ts !! k = Some t -> rs !! k = Some (new_record c stamp
            (env_uuid (w.(w_tick) + k)) t)) as Hlk.
  { intros k t Hk. rewrite Hrs, list_lookup_imap, Hk. done. }
  assert (forall x, x ∈ rs -> exists k t, ts !! k = Some t /\ x = new_record c stamp
            (env_uuid (w.(w_tick) + k)) t) as Hin.
  { intros x Hx. rewrite Hrs in Hx. apply elem_of_lookup_imap in Hx as (k & t & -> & Hk). eauto. }
  split_and!; [done..| |].
  - intros t Ht. apply list_elem_of_lookup in Ht as (k & Hk). specialize (Hlk k t Hk).
    apply list_elem_of_lookup_2 in Hlk.
    exists (env_uuid (w.(w_tick) + k)), (target_params c (new_record c stamp (env_uuid (w.(w_tick) + k)) t)).
    split; [|done]. rewrite Htg2.
    apply (foldl_insert_targets_fresh c rs w.(w_targets)) in Hlk; [exact Hlk| |].
    + apply NoDup_alt. intros n m x Hn Hm. rewrite list_lookup_fmap in Hn, Hm.
      rewrite Hrs in Hn, Hm. rewrite list_lookup_imap in Hn, Hm.
      destruct (ts !! n), (ts !! m); simplify_eq/=.
      match goal with He : env_uuid _ = env_uuid _ |- _ => apply Hinj in He; lia end.
    + intros x Hx. apply Hin in Hx as (n & t' & _ & ->). apply Hfresh. lia.
  - intros id r Hl. rewrite Htg2 in Hl. apply foldl_insert_target_inv in Hl as [?|(x & Hx & ->)]; [auto|].
    right. apply Hin in Hx as (n & t & Hn & ->). exists t. split; [|done].
    by eapply list_elem_of_lookup_2.
Qed.

(** Create up to its targets: the campaign, its business hours and its counters. *)
Lemma create_until_targets d i w w' c :
  pg_ok w -> Create d i w = (w', Ok c) ->
  c = create_campaign_of d i w /\ w.(w_campaigns) !! c.(c_ID) = None /\
  exists w3, (w.(w_tick) <= w3.(w_tick))%nat /\
    w3.(w_campaigns) = <[c.(c_ID) := campaign_params c]> w.(w_campaigns) /\
    hours_of c.(c_ID) w3 = window_row c.(c_ID) <$> toDomainBusinessHours i.(ci_BusinessHours) /\
    w3.(w_stats) = <[c.(c_ID) := zero_stats]> w.(w_stats) /\ w3.(w_targets) = w.(w_targets) /\
    match i.(ci_Targets) with
    | [] => w' = w3
    | ts => exists rs w4, new_records c.(c_ID) c.(c_CreatedAt) ts w3 = (w4, Ok rs) /\
        CampaignTargetRepository_BulkInsert c.(c_ID) rs w4 = (w', Ok ())
    end.
Proof.
  intros Hok Hrun. unfold Create in Hrun. destruct (validateCreateInput i); [done|].
  do 2 (apply bind_Ok in Hrun as (? & ? & Hs & Hrun); injection Hs as <- <-).
  rewrite tick_bump in Hrun. cbv zeta in Hrun. fold (create_campaign_of d i w) in Hrun.
  set (c0 := create_campaign_of d i w) in *. set (id := env_uuid (S w.(w_tick))) in *.
  apply bind_Ok in Hrun as (u1 & w1 & Hcreate & Hrun).
  apply bind_Ok in Hrun as (u2 & w2 & Hhours & Hrun).
  apply bind_Ok in Hrun as (u3 & w3 & Hstats & Hrun).
  apply bind_Ok in Hrun as (u4 & w4 & Htargets & Hrun). injection Hrun as <- <-.
  (* the campaign row *)
  apply on_err_Ok, on_err_Ok, external_Ok in Hcreate. unfold insert_campaign in Hcreate.
  destruct (_ && _) eqn:Hrow in Hcreate; [|done]. injection Hcreate as <- _. zbool.
  match goal with Hn : bool_decide _ = true |- _ => apply bool_decide_eq_true_1 in Hn; rename Hn into Hnew end.
  replace (w_campaigns (bump (bump (bump w)))) with w.(w_campaigns) in * by (by destruct w).
  change (cr_ID (campaign_params c0)) with id in *.
  (* the business hours *)
  apply on_err_Ok, replace_hours_Ok in Hhours as ((n2 & Hn2 & ->) & _).
  (* the counters *)
  apply on_err_Ok, on_err_Ok, external_Ok in Hstats. unfold ensure_stats in Hstats.
  assert (w.(w_stats) !! id = None) as Hnostats.
  { destruct (w.(w_stats) !! id) eqn:E; [|done]. destruct (ok_stats w Hok id _ E) as [[? Hs] _]. congruence. }
  match type of Hstats with match ?x with _ => _ end = _ =>
    replace x with (@None CampaignStats) in Hstats by (by destruct w) end.
  destruct (bool_decide _) in Hstats; [|done]. injection Hstats as <- _.
  split_and!; [done|done|].
  match type of Htargets with _ ?x = _ => exists x end. split_and!.
  6: { destruct i.(ci_Targets) as [|t ts].
       - injection Htargets as <-. reflexivity.
       - apply bind_Ok in Htargets as (rs & w5 & Hnewr & Hbulk). apply on_err_Ok in Hbulk.
         destruct u4. exists rs, w5. split; [exact Hnewr|exact Hbulk]. }
  3: { etrans; [|exact (hours_of_replaced id w (toDomainBusinessHours i.(ci_BusinessHours)) n2)]. by destruct w. }
  all: destruct w; simpl in *; done || lia.
Qed.

(** Claim C24: a campaign that is created is stored, pending, under a new
    identifier with the requested settings (the limit defaulted, the retry policy
    normalised); its business hours are those requested, its counters start at
    zero, and its registered numbers are exactly the targets of the request, all
    of them pending and never tried. *)
Theorem create_success (d : int) (i : CreateCampaignInput) (w w' : World) (c : Campaign) :
  pg_ok w -> fresh_uuids w -> Create d i w = (w', Ok c) ->
  c = create_campaign_of d i w /\ w.(w_campaigns) !! c.(c_ID) = None /\
  w'.(w_campaigns) = <[c.(c_ID) := campaign_params c]> w.(w_campaigns) /\
  hours_of c.(c_ID) w' = window_row c.(c_ID) <$> toDomainBusinessHours i.(ci_BusinessHours) /\
  w'.(w_stats) !! c.(c_ID) = Some zero_stats /\
  (forall p, registered w' c.(c_ID) p <-> p ∈ ti_PhoneNumber <$> i.(ci_Targets)) /\
  (forall id r, w'.(w_targets) !! id = Some r -> r.(tr_campaign_id) = c.(c_ID) ->
     r.(tr_state) = "pending" /\ r.(tr_attempt_count) = 0).
Proof.
  intros Hok [Hinj Hf] Hrun. apply create_until_targets in Hrun
    as (-> & Hnew & w3 & Htick & Hc3 & Hh3 & Hs3 & Ht3 & Hts); [|done].
  set (c := create_campaign_of d i w) in *. set (id := c.(c_ID)) in *.
  assert (forall id' r, w3.(w_targets) !! id' = Some r -> r.(tr_campaign_id) = id -> False) as Hnone.
  { intros id' r Hl Hid. rewrite Ht3 in Hl. destruct (ok_targets w Hok id' r Hl) as [? Hs]. congruence. }
  assert (fresh_uuids w3) as Hfresh.
  { split; [done|]. intros n Hn. rewrite Ht3. apply Hf. lia. }
  assert (w'.(w_campaigns) = w3.(w_campaigns) /\ w'.(w_hours) = w3.(w_hours) /\
    w'.(w_stats) = w3.(w_stats) /\
    (forall t, t ∈ i.(ci_Targets) -> registered w' id t.(ti_PhoneNumber)) /\
    (forall id' r, w'.(w_targets) !! id' = Some r -> w3.(w_targets) !! id' = Some r \/
     exists t, t ∈ i.(ci_Targets) /\ r.(tr_campaign_id) = id /\ r.(tr_phone_number) = t.(ti_PhoneNumber) /\
       r.(tr_state) = "pending" /\ r.(tr_attempt_count) = 0)) as (-> & Hh4 & -> & Hreg & Hback).
  { destruct i.(ci_Targets) as [|t ts] eqn:Ets.
    - subst w'. split_and!; try done; [|auto]. intros t Ht. by apply not_elem_of_nil in Ht.
    - destruct Hts as (rs & w4 & Hnewr & Hbulk). by eapply store_records_Ok. }
  rewrite Hc3, Hs3. split_and!; try done.
  - rewrite <- Hh3. unfold hours_of. by rewrite Hh4.
  - by rewrite lookup_insert_eq.
  - intros p. rewrite list_elem_of_fmap. split.
    + intros (id' & r & Hl & Hid & <-). apply Hback in Hl as [Hl|(t & Ht & _ & Hp & _)]; [|eauto].
      by destruct (Hnone _ _ Hl).
    + intros (t & -> & Ht). by apply Hreg.
  - intros id' r Hl Hid. apply Hback in Hl as [Hl|(t & Ht & _ & Hp & ? & ?)]; [|auto].
    by destruct (Hnone _ _ Hl).
Qed.

(** Claim C40: a window that spans midnight passes the validation (and the
    scheduler would honour it) but not the schema: creating such a campaign
    fails, and leaves behind the campaign row it had already inserted, without
    hours, counters or targets. *)
Theorem create_midnight_window (d : int) (i : CreateCampaignInput) (w : World) :
  let c := create_campaign_of d i w in
  reliable -> validateCreateInput i = None ->
  Exists (fun bh => Hour bh.(bhi_End) * 60 + Minute bh.(bhi_End) <
                    Hour bh.(bhi_Start) * 60 + Minute bh.(bhi_Start)) i.(ci_BusinessHours) ->
  w.(w_campaigns) !! c.(c_ID) = None -> campaign_row_ok w.(w_campaigns) (campaign_params c) = true ->
  exists w' e, Create d i w = (w', Err e) /\
    w'.(w_campaigns) = <[c.(c_ID) := campaign_params c]> w.(w_campaigns) /\
    w'.(w_hours) = w.(w_hours) /\ w'.(w_stats) = w.(w_stats) /\ w'.(w_targets) = w.(w_targets).
Proof.
  intros c Hr Hv Hmid Hnew Hrow. unfold Create. rewrite Hv.
  rewrite (bind_step now _ _ _ _ eq_refl), (bind_step uuid_New _ _ _ _ eq_refl).
  rewrite tick_bump. cbv zeta. fold (create_campaign_of d i w). fold c.
  change (env_uuid (S w.(w_tick))) with c.(c_ID).
  set (w1 := set_campaigns (<[c.(c_ID) := campaign_params c]> w.(w_campaigns)) (bump (bump (bump w)))).
  rewrite (bind_step _ _ _ w1 ()).
  2:{ unfold CampaignRepository_Create. rewrite !run_on_err. rewrite external_reliable by done.
      unfold insert_campaign. replace (w_campaigns (bump (bump (bump w)))) with w.(w_campaigns)
        by (by destruct w). change (cr_ID (campaign_params c)) with c.(c_ID).
      by rewrite Hrow, bool_decide_true. }
  destruct (replace_hours_refused c.(c_ID) (toDomainBusinessHours i.(ci_BusinessHours)) w1)
    as (w2 & e & Hrep & Ht).
  { rewrite Exists_exists in Hmid. destruct Hmid as (bh & Hin & Hlt). rewrite Forall_fmap, Forall_forall.
    intros Hall. destruct (Hall (mkWindow bh.(bhi_DayOfWeek) bh.(bhi_Start) bh.(bhi_End))) as (_ & _ & ? & _).
    - apply list_elem_of_fmap. eauto.
    - simpl in *. lia. }
  erewrite bind_fail; [|rewrite !run_on_err; rewrite Hrep; reflexivity].
  do 2 eexists. split; [reflexivity|]. unfold tables in Ht. simplify_eq. unfold w1 in *. destruct w; simpl in *.
  by split_and!.
Qed.

(** The row of a campaign is rewritten. *)
Lemma update_row_run c w r :
  reliable -> w.(w_campaigns) !! c.(c_ID) = Some r ->
  campaign_row_ok (delete c.(c_ID) w.(w_campaigns)) (campaign_params c) = true ->
  exists w', CampaignRepository_Update c w = (w', Ok ()) /\
    w'.(w_campaigns) = <[c.(c_ID) := update_row c (env_now (S w.(w_tick))) r]> w.(w_campaigns) /\
    w'.(w_hours) = w.(w_hours).
Proof.
  intros Hr Hl Hok. unfold CampaignRepository_Update, rows_or_not_found. run_monad. rewrite external_reliable by done.
  rewrite tick_bump. unfold update_campaign. replace (w_campaigns (bump w)) with w.(w_campaigns) by (by destruct w).
  rewrite Hl.
  assert (campaign_row_ok (delete c.(c_ID) w.(w_campaigns)) (update_row c (env_now (S w.(w_tick))) r) = true)
    as -> by exact Hok.
  eexists. split; [reflexivity|]. by destruct w.
Qed.

(** Claim C38: Update writes every column of the campaign, and answers with what it
    wrote: the name, the description, the limit (defaulted) and the retry policy
    (normalised) as asked, or as they were, with the delays in milliseconds; the
    status, the zone and the creation time as they were; the time of the change; and
    no start and completion times, which it erases. The business hours are replaced
    as a whole when that is asked and the schema allows each of them once; if not,
    they stay as they were and the request fails, although the row is changed. *)
Theorem update_spec (d : int) (u : UpdateCampaignInput) (w : World) (r : campaignRecord) :
  let c := apply_update d u (env_now (S w.(w_tick))) (toDomain r) in
  let policy := normalizeRetry <$> u.(ui_RetryPolicy) in
  reliable -> pg_ok w -> w.(w_campaigns) !! u.(ui_ID) = Some r ->
  0 <= r.(cr_RetryBaseDelayMs) <= r.(cr_RetryMaxDelayMs) -> r.(cr_RetryMaxDelayMs) * Millisecond <= max_int64 ->
  campaign_row_ok (delete u.(ui_ID) w.(w_campaigns)) (campaign_params c) = true ->
  exists w' res, Update d u w = (w', res) /\
    w'.(w_campaigns) = <[u.(ui_ID) := mkCampaignRow u.(ui_ID)
      (default r.(cr_Name) u.(ui_Name))
      (Some (default (default EmptyString r.(cr_Description)) u.(ui_Description)))
      r.(cr_TimeZone)
      (from_option (resolveConcurrency d) r.(cr_MaxConcurrentCalls) u.(ui_MaxConcurrentCalls))
      r.(cr_Status)
      (from_option rp_MaxAttempts r.(cr_RetryMaxAttempts) policy)
      (from_option (fun p => Milliseconds p.(rp_BaseDelay)) r.(cr_RetryBaseDelayMs) policy)
      (from_option (fun p => Milliseconds p.(rp_MaxDelay)) r.(cr_RetryMaxDelayMs) policy)
      (from_option rp_Jitter r.(cr_RetryJitter) policy)
      r.(cr_CreatedAt) (Some (env_now (S (S (S w.(w_tick)))))) None None]> w.(w_campaigns) /\
    match u.(ui_BusinessHours) with
    | None => res = Ok c /\ w'.(w_hours) = w.(w_hours)
    | Some hs =>
        let rows := window_row u.(ui_ID) <$> toDomainBusinessHours hs in
        (Forall hour_row_valid rows /\ res = Ok c /\ hours_of u.(ui_ID) w' = rows /\
          forall id, id <> u.(ui_ID) -> hours_of id w' = hours_of id w) \/
        (~ (Forall hour_row_valid rows /\ NoDup rows) /\ (exists e, res = Err e) /\ w'.(w_hours) = w.(w_hours))
    end.
Proof.
  intros c policy Hr Hok Hl Hb Hm Hrow. pose proof (proj1 (ok_campaign w Hok _ r Hl)) as Hid.
  set (row := mkCampaignRow _ _ _ _ _ _ _ _ _ _ _ _ _ _).
  assert (update_row c (env_now (S (S (S w.(w_tick))))) r = row) as Hrow'.
  { unfold row, policy, update_row, c, apply_update, campaign_params. cbn. rewrite Hid.
    destruct u as [??? [?|] [?|]?]; cbn; rewrite ?ms_of_ms by (unfold Millisecond in *; lia); done. }
  destruct (update_row_run c (bump (bump w)) r Hr) as (w1 & Hu & Hc1 & Hh1); [|by rewrite <- Hid in Hrow; destruct w|].
  { change (c_ID c) with r.(cr_ID). rewrite Hid. by destruct w. }
  unfold Update. rewrite (bind_step _ _ _ _ _ (get_stored _ _ _ Hr Hl)).
  rewrite (bind_step now _ _ _ _ eq_refl). rewrite tick_bump. cbv zeta. fold c. rewrite (bind_step _ _ _ _ _ Hu).
  change (c_ID c) with r.(cr_ID) in *. rewrite !tick_bump, Hid, Hrow' in *.
  replace (w_campaigns (bump (bump w))) with w.(w_campaigns) in Hc1 by (by destruct w).
  replace (w_hours (bump (bump w))) with w.(w_hours) in Hh1 by (by destruct w).
  destruct u.(ui_BusinessHours) as [hs|]; [|by exists w1, (Ok c)].
  rewrite run_bind, run_on_err. set (ws := toDomainBusinessHours hs).
  destruct (BusinessHourRepository_Replace _ ws w1) as [w2 [[]|e]] eqn:Hrep; cbn [fst snd map_err].
  - apply replace_hours_Ok in Hrep as ((n & _ & ->) & Hv). exists (with_hours_table n (replaced_hours u.(ui_ID) ws w1) w1), (Ok c).
    split_and!; [done|by rewrite <- Hc1; destruct w1|]. left. split_and!; [done|done|apply hours_of_replaced|].
    intros id Hne. rewrite hours_of_others by done. unfold hours_of. by rewrite Hh1.
  - pose proof (withTx_reliable_Err _ _ _ _ Hr Hrep) as Ht. unfold tables in Ht. injection Ht as Hc2 Hh2 _ _.
    exists w2, (Err (wrapf "campaign service: update business hours" e)). split_and!; [done|congruence|]. right.
    split_and!; [|by eexists|congruence]. intros [Hv Hnd].
    destruct (replace_hours_reliable u.(ui_ID) ws w1 Hr) as [n Hok1]; [|by rewrite Hc1, lookup_insert_eq|done|done|].
    { rewrite Hh1. apply ok_hours_unique, Hok. }
    rewrite Hok1 in Hrep. done.
Qed.

(** ** Adding targets *)

Lemma new_records_total c stamp ts : forall w, exists w' rs, new_records c stamp ts w = (w', Ok rs).
Proof.
  induction ts as [|t ts IH]; intros w; [by do 2 eexists|]. cbn [new_records].
  rewrite (bind_step uuid_New _ _ _ _ eq_refl). destruct (IH (bump w)) as (w' & rs & Hrun).
  rewrite (bind_step _ _ _ _ _ Hrun). by do 2 eexists.
Qed.

Lemma new_records_phones c stamp ts w w' rs x :
  new_records c stamp ts w = (w', Ok rs) -> x ∈ rs -> x.(t_PhoneNumber) ∈ ti_PhoneNumber <$> ts.
Proof.
  intros Hrun Hx. apply new_records_Ok in Hrun as (_ & _ & ->).
  apply elem_of_lookup_imap in Hx as (k & t & -> & Hk). apply list_elem_of_fmap. exists t.
  split; [done|]. by eapply list_elem_of_lookup_2.
Qed.

Lemma bulk_insert_cases c ts w w' r :
  CampaignTargetRepository_BulkInsert c ts w = (w', r) ->
  w'.(w_targets) = w.(w_targets) \/ w'.(w_targets) = foldl (insert_target c) w.(w_targets) ts.
Proof.
  unfold CampaignTargetRepository_BulkInsert. intros Hrun.
  destruct ts as [|t ts]; [injection Hrun as <- _; by left|]. rewrite run_on_err in Hrun.
  destruct (external _ w) as [w1 r1] eqn:E. apply external_cases in E. injection Hrun as <- _.
  destruct E as [[-> _]|(a & Hi & _)]; [left; by destruct w|].
  unfold insert_targets in Hi. case_match; [|done]. injection Hi as <- _. right. by destruct w.
Qed.

Lemma list_targets_cases c limit state w w' r :
  CampaignTargetRepository_ListByCampaign c limit state w = (w', r) ->
  w' = bump w /\
  forall ts, r = Ok ts -> forall t, t ∈ ts -> registered w c t.(t_PhoneNumber).
Proof.
  unfold CampaignTargetRepository_ListByCampaign. rewrite !run_on_err. intros Hrun.
  destruct (external _ w) as [w1 r1] eqn:E. injection Hrun as <- <-.
  apply external_cases in E as [[-> [e ->]]|(a & [= <- <-] & Hr1)]; [done|]. split; [done|].
  destruct Hr1 as [->|[e ->]]; [|done]. intros ts [= <-] t Ht.
  apply select_targets_registered in Ht. revert Ht. unfold registered. by destruct w.
Qed.

(** What AddTargets stores: nothing, or records for registered numbers. *)
Lemma add_targets_cases c ts w :
  let w' := (AddTargets c ts w).1 in
  w'.(w_targets) = w.(w_targets) \/
  exists rs, w'.(w_targets) = foldl (insert_target c) w.(w_targets) rs /\
    forall y, y ∈ rs -> registered w c y.(t_PhoneNumber).
Proof.
  match goal with |- let w' := ?x in @?P w' => change (P x); set (Q := P) end.
  unfold AddTargets. destruct ts as [|t0 ts0] eqn:Ets; [by left|]. rewrite <- Ets. clear Ets t0 ts0.
  rewrite run_bind, run_on_err.
  destruct (CampaignTargetRepository_ListByCampaign c 10000 EmptyString w) as [w1 r1] eqn:El.
  apply list_targets_cases in El as [-> Hreg].
  assert ((bump w).(w_targets) = w.(w_targets)) as Hb by (by destruct w).
  destruct r1 as [ex|e]; [|by left]. specialize (Hreg ex eq_refl). cbn [map_err fst snd].
  destruct ex as [|x xs] eqn:Eex; [by left|]. rewrite <- Eex in *. clear Eex x xs. cbv zeta.
  destruct (List.find _ ts) as [t|] eqn:Efind; [by left|].
  rewrite (bind_step now _ _ _ _ eq_refl).
  destruct (new_records_total c (env_now (bump w).(w_tick)) ts (bump (bump w))) as (w2 & rs & Hnew).
  rewrite (bind_step _ _ _ _ _ Hnew).
  rewrite !run_on_err. destruct (CampaignTargetRepository_BulkInsert c rs w2) as [w3 r3] eqn:Eb. cbn [fst].
  pose proof (new_records_Ok _ _ _ _ _ _ Hnew) as (Ht & _ & _). unfold tables in Ht.
  assert (w2.(w_targets) = w.(w_targets)) as Ht2 by (injection Ht as _ _ Ht _; rewrite Ht; by destruct w).
  destruct (bulk_insert_cases _ _ _ _ _ Eb) as [Ht3|Ht3]; rewrite Ht2 in Ht3; [by left|].
  right. exists rs. split; [done|]. intros y Hy.
  apply (new_records_phones _ _ _ _ _ _ _ Hnew) in Hy. apply list_elem_of_fmap in Hy as (t & -> & Hin).
  apply list_elem_of_In in Hin. apply (find_none _ _ Efind) in Hin.
  apply negb_false_iff, bool_decide_eq_true_1, elem_of_list_to_set, list_elem_of_fmap in Hin
    as (x & -> & Hx). by apply Hreg.
Qed.

(** AddTargets never registers a new number: whatever it is given and
    whatever becomes of its requests, the registered numbers of every campaign
    stay the same (it only adds further entries for numbers already there). *)
Theorem add_targets_registers_nothing (c : uuid) (ts : list TargetInput) (w : World) (c' : uuid) p :
  registered (AddTargets c ts w).1 c' p <-> registered w c' p.
Proof.
  destruct (add_targets_cases c ts w) as [Ht|(rs & Ht & Hreg)]; unfold registered at 1;
    rewrite Ht; [done|]. split; intros (id & r & Hl & Hc & Hp).
  - apply foldl_insert_target_inv in Hl as [Hl|(y & Hy & ->)]; [by exists id, r|].
    simpl in Hc, Hp. subst c' p. by apply Hreg.
  - exists id, r. split; [|done]. by apply foldl_insert_target_mono.
Qed.
End Properties.

(** ** Witnesses *)

#[local] Existing Instances quiet_env stable_sort_order.

Definition sample_input (hours : list BusinessHourInput) : CreateCampaignInput :=
  mkCreateInput "autumn" EmptyString "UTC" 0 (mkRetryPolicy 0 0 0 f64_zero) hours
    [mkTargetInput "+1555" None; mkTargetInput "+1666" None].

Lemma start_witness :
  exists w', Start 3%N (set_campaigns {[ 3%N := set_row_status CampaignStatusPaused 0 sample_row ]} sample_db)
    = (w', Ok ()) /\
    (exists r, w'.(w_campaigns) !! 3%N = Some r /\ r.(cr_Status) = CampaignStatusInProgress).
Proof.
  set (r := set_row_status CampaignStatusPaused 0 sample_row).
  set (w := set_campaigns {[ 3%N := r ]} sample_db).
  assert (pg_ok w) as Hok.
  { pose proof (pg_ok_put_campaign sample_db r ltac:(vm_compute; reflexivity) sample_db_ok) as Hp.
    exact Hp. }
  destruct (start_spec 3%N w r quiet_reliable Hok ltac:(reflexivity)) as (_ & _ & Hs).
  destruct Hs as (w' & Hrun & Hc); [done|done|].
  exists w'. split; [exact Hrun|]. rewrite Hc. eexists. split; [apply lookup_insert_eq|done].
Defined.

Lemma pause_complete_witness :
  exists w', Complete 3%N sample_db = (w', Ok ()) /\
    (exists r, w'.(w_campaigns) !! 3%N = Some r /\ r.(cr_Status) = CampaignStatusCompleted /\
       r.(cr_StartedAt) = None).
Proof.
  destruct (pause_complete_spec 3%N sample_db sample_row quiet_reliable sample_db_ok ltac:(reflexivity))
    as [_ (w' & r' & Hrun & Hc & Hst & Hsa & _)].
  exists w'. split; [exact Hrun|]. rewrite Hc. exists r'. split; [apply lookup_insert_eq|by split].
Defined.

Lemma sample_fresh : fresh_uuids empty_world.
Proof. split; [intros n m Hnm; simpl in Hnm; lia|done]. Qed.

Lemma create_success_witness :
  exists w' c, Create 500 (sample_input [mkHourInput 1 (date_0000_01_01 9 0) (date_0000_01_01 17 0)])
    empty_world = (w', Ok c) /\ c.(c_MaxConcurrentCalls) = 500 /\ registered w' c.(c_ID) "+1666".
Proof.
  set (i := sample_input _).
  assert (Create 500 i empty_world =
    ((Create 500 i empty_world).1, Ok (create_campaign_of 500 i empty_world))) as Hrun
    by (vm_compute; reflexivity).
  destruct (create_success 500 i empty_world _ _ pg_ok_empty sample_fresh Hrun)
    as (_ & _ & _ & _ & _ & Hreg & _).
  do 2 eexists. split; [exact Hrun|]. split; [reflexivity|].
  apply Hreg. right. left.
Defined.

Lemma create_midnight_witness :
  let i := sample_input [mkHourInput 5 (date_0000_01_01 22 0) (date_0000_01_01 2 0)] in
  let c := create_campaign_of 500 i empty_world in
  exists w' e, Create 500 i empty_world = (w', Err e) /\
    w'.(w_campaigns) = {[ c.(c_ID) := campaign_params c ]}.
Proof.
  intros i c.
  destruct (create_midnight_window 500 i empty_world quiet_reliable) as (w' & e & Hrun & Hc & _);
    [reflexivity | constructor; vm_compute; reflexivity | reflexivity | vm_compute; reflexivity |].
  exists w', e. split; [exact Hrun|exact Hc].
Defined.

Definition sample_update : UpdateCampaignInput :=
  mkUpdateInput 3%N (Some "winter") None (Some 7) None None.

Lemma update_witness :
  exists w' c r', Update 500 sample_update sample_db = (w', Ok c) /\ w'.(w_campaigns) !! 3%N = Some r' /\
    r'.(cr_Name) = "winter" /\ r'.(cr_MaxConcurrentCalls) = 7 /\
    r'.(cr_RetryBaseDelayMs) = sample_row.(cr_RetryBaseDelayMs) /\ r'.(cr_StartedAt) = None.
Proof.
  destruct (update_spec 500 sample_update sample_db sample_row quiet_reliable sample_db_ok)
    as (w' & res & Hu & Hc & Hres & _);
    [reflexivity|split; vm_compute; discriminate|vm_compute; discriminate|vm_compute; reflexivity|].
  do 3 eexists. split; [by rewrite Hu, Hres|]. split; [rewrite Hc; apply lookup_insert_eq|]. by repeat split.
Defined.
