(* ===== verification/CallService.v ===== *)
(** internal/service/call/service.go: triggering a call and reading it back. *)
From S2P Require Import Prelude Errors GoTime Json Domain Messages World Postgres PostgresInv.
From S2P Require Import PostgresSpec Scylla Queue CampaignService.

Record TriggerCallInput := mkTriggerInput {
  tc_CampaignID : uuid;
  tc_PhoneNumber : string;
  tc_Metadata : any_map;
}.

(** What the service is built with: the dispatcher's topic and the defaults
    (the default retry policy is stored and never read). *)
Record CallService := mkCallService {
  cs_dispatchTopic : string;
  cs_defaultRetry : RetryPolicy;
  cs_defaultConcurrency : int;
}.

Section Service.
Context `{Env} `{PgOrder} `{UuidText}.

Definition validatePhoneInCampaignTargets (campaignID : uuid) (phoneNumber : string) : M () :=
  existingTargets ← on_err (wrapf "call service: get campaign targets")
    (CampaignTargetRepository_ListByCampaign campaignID 10000 EmptyString);
  match existingTargets with
  | [] => throw (detailf ErrValidation "campaign has no registered targets")
  | _ =>
      if existsb (fun t => bool_decide (t.(t_PhoneNumber) = phoneNumber)) existingTargets
      then mret () else throw (unregistered phoneNumber)
  end.

Definition new_call (id : uuid) (input : TriggerCallInput) (stamp : Time) : Call :=
  mkCall id input.(tc_CampaignID) input.(tc_PhoneNumber) CallStatusQueued 0 None stamp stamp stamp
    None.

Definition first_dispatch (call : Call) (policy : RetryPolicy) (concurrencyLimit : int)
    (input : TriggerCallInput) (stamp : Time) : DispatchMessage :=
  mkDispatch call.(call_ID) call.(call_CampaignID) call.(call_PhoneNumber) 1
    policy.(rp_MaxAttempts) (Milliseconds policy.(rp_BaseDelay))
    (Milliseconds policy.(rp_MaxDelay)) policy.(rp_Jitter) concurrencyLimit
    input.(tc_Metadata) stamp.

Definition queued_delta : StatsDelta := mkDelta 1 0 0 0 1 0.
Definition undo_delta : StatsDelta := mkDelta 0 0 0 0 (-1) 0.

Definition TriggerCall (s : CallService) (input : TriggerCallInput) : M Call :=
  if bool_decide (input.(tc_PhoneNumber) = EmptyString)
  then throw (detailf ErrValidation "phone number is required")
  else
    let campaignID := input.(tc_CampaignID) in
    campaign ← on_err (wrapf "call service: lookup campaign") (CampaignRepository_Get campaignID);
    validatePhoneInCampaignTargets campaignID input.(tc_PhoneNumber) ≫= fun _ =>
    let policy := campaign.(c_RetryPolicy) in
    let concurrencyLimit :=
      if 0 <? campaign.(c_MaxConcurrentCalls) then campaign.(c_MaxConcurrentCalls)
      else s.(cs_defaultConcurrency) in
    stamp ← now;
    id ← uuid_New;
    let call := new_call id input stamp in
    on_err (wrapf "call service: persist call") (CallStore_CreateCall call) ≫= fun _ =>
    on_err (wrapf "call service: update stats")
      (CampaignStatisticsRepository_ApplyDelta campaignID queued_delta) ≫= fun _ =>
    let payload := first_dispatch call policy concurrencyLimit input stamp in
    r ← attempt (DispatchCall s.(cs_dispatchTopic) payload);
    match r with
    | Ok _ => mret call
    | Err err =>
        (if bool_decide (campaignID = uuid_Nil) then mret ()
         else ignore (CampaignStatisticsRepository_ApplyDelta campaignID undo_delta)) ≫= fun _ =>
        throw (wrapf "call service: dispatch call" err)
    end.

Definition GetCall (id : uuid) : M Call := CallStore_GetCall id.
End Service.

(** ** Lemmas *)

(** The stores a call goes through, without the clock. *)
Definition stores (w : World) :=
  (w.(w_campaigns), w.(w_hours), w.(w_targets), w.(w_stats), w.(w_calls), w.(w_by_status),
   w.(w_attempts), w.(w_redis), w.(w_log), w.(w_commits)).

Lemma stores_bump w : stores (bump w) = stores w.
Proof. by destruct w. Qed.

#[export] Hint Rewrite stores_bump : go.

Section Properties.
Context `{Env} `{PgOrder} `{UuidText}.

Lemma validate_phone_cases c p w w' r :
  validatePhoneInCampaignTargets c p w = (w', r) ->
  w' = bump w /\ (r = Ok () -> registered w c p).
Proof.
  unfold validatePhoneInCampaignTargets. intros Hrun. rewrite run_bind, !run_on_err in Hrun.
  destruct (CampaignTargetRepository_ListByCampaign c 10000 EmptyString w) as [w1 r1] eqn:El.
  apply list_targets_cases in El as [-> Hreg].
  destruct r1 as [ex|e]; [|by injection Hrun as <- <-]. specialize (Hreg ex eq_refl).
  cbn [map_err fst snd] in Hrun. destruct ex as [|x xs] eqn:Eex; [by injection Hrun as <- <-|].
  rewrite <- Eex in *. clear Eex x xs.
  destruct (existsb _ ex) eqn:Ee; injection Hrun as <- <-; [|done]. split; [done|]. intros _.
  apply existsb_exists in Ee as (t & Hin & Hp). apply bool_decide_eq_true_1 in Hp as <-.
  apply Hreg. by apply list_elem_of_In.
Qed.

Definition call_limit (s : CallService) (r : campaignRecord) : int :=
  if 0 <? r.(cr_MaxConcurrentCalls) then r.(cr_MaxConcurrentCalls) else s.(cs_defaultConcurrency).

(** The call and the dispatch message TriggerCall builds in state [w]. *)
Definition trigger_call_of (i : TriggerCallInput) (w : World) : Call :=
  new_call (env_uuid (3 + w.(w_tick))) i (env_now (2 + w.(w_tick))).
Definition trigger_message_of (s : CallService) (i : TriggerCallInput) (r : campaignRecord) (w : World)
    : DispatchMessage :=
  first_dispatch (trigger_call_of i w) (toDomain r).(c_RetryPolicy) (call_limit s r) i
    (env_now (2 + w.(w_tick))).

Lemma create_call_Ok c w w' u :
  CallStore_CreateCall c w = (w', Ok u) ->
  w'.(w_calls) !! call_key c = Some (mkCallRow c.(call_PhoneNumber) c.(call_Status) c.(call_AttemptCount)
    c.(call_ScheduledAt) c.(call_LastAttemptAt) c.(call_UpdatedAt) c.(call_CreatedAt) None) /\
  w'.(w_by_status) !! status_key c.(call_CampaignID) c.(call_Status) (bucketDate c.(call_CreatedAt)) c.(call_ID) =
    Some (mkStatusRow (Some c.(call_PhoneNumber)) c.(call_UpdatedAt)) /\
  tables w' = tables w /\ w'.(w_log) = w.(w_log).
Proof.
  unfold CallStore_CreateCall. intros Hrun. apply bind_Ok in Hrun as (u1 & w1 & Hc1 & Hc2).
  apply on_err_Ok, external_Ok in Hc1, Hc2. unfold cql_int in Hc1.
  destruct (bool_decide _) in Hc1; [|done]. injection Hc1 as <- _. injection Hc2 as <- _.
  destruct w; simpl. by rewrite !lookup_insert_eq.
Qed.

Lemma apply_delta_stats c d w w' u :
  apply_delta c d w = Ok (w', u) ->
  w'.(w_stats) !! c = (fun st => add_delta st d) <$> w.(w_stats) !! c /\ w'.(w_log) = w.(w_log) /\
  w'.(w_calls) = w.(w_calls) /\ w'.(w_by_status) = w.(w_by_status).
Proof.
  unfold apply_delta. intros Ha. destruct (w_stats w !! c) as [st|] eqn:Hs; [|by simplify_eq; rewrite Hs].
  destruct (stats_in_range _); simplify_eq. destruct w; simpl in *. by rewrite lookup_insert_eq.
Qed.

Lemma dispatch_Ok topic d w w' u :
  DispatchCall topic d w = (w', Ok u) ->
  exists m n k, marshal_dispatch d = Some m.(km_Value) /\ m.(km_Key) = d.(dm_CallID) /\
    w' = set_tick n (set_log (w.(w_log) ++ replicate k (topic, m)) w) /\
    (1 <= k <= writer_attempts)%nat /\ (reliable -> k = 1%nat).
Proof.
  unfold DispatchCall, marshalled. intros Hrun. destruct u, (marshal_dispatch d) as [v|] eqn:Em; [|done].
  rewrite ret_bind, (bind_step now _ _ _ _ eq_refl) in Hrun.
  apply on_err_Ok, write_copies in Hrun as (n & k & -> & _ & Hk & Hok & Hd). specialize (Hok eq_refl).
  eexists (mkKafka _ _ _), n, k. split_and!; [done|done|by destruct w|lia|done|]. intros Hr. by apply Hd.
Qed.

Lemma trigger_call_Ok (s : CallService) (i : TriggerCallInput) (w w' : World) (call : Call) :
  TriggerCall s i w = (w', Ok call) ->
  exists r m k,
    w.(w_campaigns) !! i.(tc_CampaignID) = Some r /\
    registered w i.(tc_CampaignID) i.(tc_PhoneNumber) /\ call = trigger_call_of i w /\
    w'.(w_calls) !! call_key call = Some (mkCallRow i.(tc_PhoneNumber) CallStatusQueued 0
      call.(call_CreatedAt) None call.(call_CreatedAt) call.(call_CreatedAt) None) /\
    w'.(w_by_status) !! status_key i.(tc_CampaignID) CallStatusQueued (bucketDate call.(call_CreatedAt))
      call.(call_ID) = Some (mkStatusRow (Some i.(tc_PhoneNumber)) call.(call_CreatedAt)) /\
    w'.(w_stats) !! i.(tc_CampaignID) =
      (fun st => add_delta st queued_delta) <$> w.(w_stats) !! i.(tc_CampaignID) /\
    w'.(w_log) = w.(w_log) ++ replicate k (s.(cs_dispatchTopic), m) /\
    (1 <= k <= writer_attempts)%nat /\ (reliable -> k = 1%nat) /\ m.(km_Key) = call.(call_ID) /\
    marshal_dispatch (trigger_message_of s i r w) = Some m.(km_Value).
Proof.
  unfold TriggerCall. case_bool_decide as Hp; [done|]. cbv zeta. intros Hrun.
  apply bind_Ok in Hrun as (c & w1 & Hget & Hrun). apply on_err_Ok in Hget.
  unfold CampaignRepository_Get in Hget. apply bind_Ok in Hget as (o & w1' & Hsel & Hget).
  apply on_err_Ok, external_Ok in Hsel. injection Hsel as <- <-.
  destruct (w_campaigns (bump w) !! _) as [r|] eqn:Hl; [|done]. injection Hget as <- <-.
  apply bind_Ok in Hrun as ([] & w2 & Hval & Hrun).
  apply validate_phone_cases in Hval as [-> Hreg]. specialize (Hreg eq_refl).
  do 2 (apply bind_Ok in Hrun as (? & ? & Hs & Hrun); injection Hs as <- <-).
  rewrite !tick_bump in Hrun. change (new_call _ i _) with (trigger_call_of i w) in Hrun.
  change (first_dispatch _ _ _ i _) with (trigger_message_of s i r w) in Hrun.
  apply bind_Ok in Hrun as (u3 & w3 & Hcreate & Hrun). apply on_err_Ok, create_call_Ok in Hcreate.
  destruct Hcreate as (Hcl & Hst & Ht3 & Hl3).
  apply bind_Ok in Hrun as (u4 & w4 & Hdelta & Hrun). do 2 apply on_err_Ok in Hdelta.
  apply external_Ok, apply_delta_stats in Hdelta as (Hs4 & Hl4 & Hc4 & Hb4).
  apply bind_Ok in Hrun as (rd & w5 & Hdisp & Hrun). rewrite run_attempt in Hdisp.
  destruct (DispatchCall _ _ w4) as [w5' rd'] eqn:Ed. injection Hdisp as -> <-.
  destruct rd' as [u|e].
  2:{ exfalso. destruct (bool_decide _) in Hrun; apply bind_Ok in Hrun as (? & ? & _ & Hrun); done. }
  injection Hrun as <- <-. apply dispatch_Ok in Ed as (m & n & k & Hm & Hk & -> & Hcopies & Hone).
  exists r, m, k. unfold tables in Ht3. injection Ht3 as _ _ _ Hs3.
  assert (forall l, stores (set_tick n (set_log l w4)) = stores (set_log l w4)) as Hst' by (by destruct w4).
  replace (w_log (bump w3)) with w3.(w_log) in Hl4 by (by destruct w3).
  replace (w_stats (bump w3)) with w3.(w_stats) in Hs4 by (by destruct w3).
  replace (w_calls (bump w3)) with w3.(w_calls) in Hc4 by (by destruct w3).
  replace (w_by_status (bump w3)) with w3.(w_by_status) in Hb4 by (by destruct w3).
  split_and!; try done; try lia.
  - by destruct w.
  - revert Hreg. unfold registered. by destruct w.
  - etrans; [|exact Hcl]. rewrite <- Hc4. by destruct w4.
  - etrans; [|exact Hst]. rewrite <- Hb4. by destruct w4.
  - transitivity (w_stats w4 !! i.(tc_CampaignID)); [by destruct w4|]. rewrite Hs4, Hs3. by destruct w.
  - transitivity (w_log w4 ++ replicate k (cs_dispatchTopic s, m)); [by destruct w4|].
    rewrite Hl4, Hl3. by destruct w.
Qed.

(** Claim C26: a call that is triggered is for a registered number of a stored
    campaign, whatever that campaign's state: a new call to that number, queued,
    without an attempt, stored as such and indexed under that status. The campaign's
    total and pending counters grow by one, and one message is published, keyed by
    the call: its first attempt, with the retry policy of the campaign in
    milliseconds and its limit, or the default one. The writer may leave up to ten
    copies of the message when acknowledgements are lost, and leaves exactly one
    when requests are answered. *)
Theorem trigger_call_success (s : CallService) (i : TriggerCallInput) (w w' : World) (call : Call) :
  TriggerCall s i w = (w', Ok call) ->
  let c := i.(tc_CampaignID) in
  let phone := i.(tc_PhoneNumber) in
  let id := env_uuid (3 + w.(w_tick)) in
  let stamp := env_now (2 + w.(w_tick)) in
  exists r m copies,
    w.(w_campaigns) !! c = Some r /\ registered w c phone /\
    call = mkCall id c phone CallStatusQueued 0 None stamp stamp stamp None /\
    w'.(w_calls) !! (c, bucketDate stamp, id) =
      Some (mkCallRow phone CallStatusQueued 0 stamp None stamp stamp None) /\
    w'.(w_by_status) !! status_key c CallStatusQueued (bucketDate stamp) id =
      Some (mkStatusRow (Some phone) stamp) /\
    w'.(w_stats) !! c = (fun st => add_delta st (mkDelta 1 0 0 0 1 0)) <$> w.(w_stats) !! c /\
    w'.(w_log) = w.(w_log) ++ replicate copies (s.(cs_dispatchTopic), m) /\
    (1 <= copies <= writer_attempts)%nat /\ (reliable -> copies = 1%nat) /\ m.(km_Key) = id /\
    marshal_dispatch (mkDispatch id c phone 1 r.(cr_RetryMaxAttempts)
      (Milliseconds (of_ms r.(cr_RetryBaseDelayMs))) (Milliseconds (of_ms r.(cr_RetryMaxDelayMs)))
      r.(cr_RetryJitter)
      (if 0 <? r.(cr_MaxConcurrentCalls) then r.(cr_MaxConcurrentCalls) else s.(cs_defaultConcurrency))
      i.(tc_Metadata) stamp) = Some m.(km_Value).
Proof.
  intros Hrun c phone id stamp.
  destruct (trigger_call_Ok s i w w' call Hrun) as (r & m & k & Hr & Hreg & -> & Hrest).
  by exists r, m, k.
Qed.

Lemma campaign_get_cases id w w' r :
  CampaignRepository_Get id w = (w', r) ->
  w' = bump w /\ forall c, r = Ok c -> toDomain <$> w.(w_campaigns) !! id = Some c.
Proof.
  unfold CampaignRepository_Get. intros Hrun. rewrite run_bind, !run_on_err in Hrun.
  destruct (external _ w) as [w1 r1] eqn:E.
  assert (w1 = bump w /\ forall o, r1 = Ok o -> o = w.(w_campaigns) !! id) as [-> Ho].
  { apply external_cases in E as [[-> [e ->]]|(a & [= <- <-] & Hr1)]; [done|]. split; [done|].
    destruct Hr1 as [->|[e ->]]; [|done]. intros o [= <-]. by destruct w. }
  destruct r1 as [o|e]; [|by injection Hrun as <- <-]. cbn [map_err fst snd] in Hrun.
  rewrite (Ho o eq_refl) in Hrun. destruct (w_campaigns w !! id) eqn:Hl; injection Hrun as <- <-;
    (split; [done|]); [|done]. by intros ? [= <-].
Qed.

(** A call without a number, or to a number that is not a registered
    target of the campaign, is refused, under any faults, with no store changed;
    when the database answers, the error is a validation error, or not-found for
    an unknown campaign. *)
Theorem trigger_call_rejected (s : CallService) (i : TriggerCallInput) (w : World) :
  i.(tc_PhoneNumber) = EmptyString \/ ~ registered w i.(tc_CampaignID) i.(tc_PhoneNumber) ->
  exists w' e, TriggerCall s i w = (w', Err e) /\ stores w' = stores w /\
    (reliable -> if bool_decide (is_Some (w.(w_campaigns) !! i.(tc_CampaignID))) ||
                    bool_decide (i.(tc_PhoneNumber) = EmptyString)
                 then errors_Is e ErrValidation = true else errors_Is e ErrNotFound = true).
Proof.
  intros Hbad. unfold TriggerCall. case_bool_decide as Hp.
  { do 2 eexists. split_and!; [reflexivity|done|]. intros _. by rewrite orb_true_r. }
  destruct Hbad as [?|Hbad]; [done|]. rewrite orb_false_r. cbv zeta.
  rewrite run_bind, run_on_err.
  pose proof (fun Hr => campaign_get_reliable Hr i.(tc_CampaignID) w) as Hrel.
  destruct (CampaignRepository_Get i.(tc_CampaignID) w) as [w1 rc] eqn:Eg.
  pose proof (campaign_get_cases _ _ _ _ Eg) as [-> _].
  destruct rc as [c|e]; cbn [map_err fst snd].
  2:{ do 2 eexists. split_and!; [reflexivity|by rewrite stores_bump|]. intros Hr.
      specialize (Hrel Hr). destruct (w_campaigns w !! _); simplify_eq. by rewrite bool_decide_false by (by intros []). }
  rewrite run_bind.
  destruct (validatePhoneInCampaignTargets _ _ (bump w)) as [w2 rv] eqn:Ev.
  pose proof (validate_phone_cases _ _ _ _ _ Ev) as [-> Hreg].
  assert (forall x y, registered (bump w) x y -> registered w x y) as Hb
    by (intros x y; unfold registered; by destruct w).
  destruct rv as [[]|e]; [by destruct Hbad; apply Hb, Hreg|].
  do 2 eexists. split_and!; [reflexivity|by rewrite !stores_bump|]. intros Hr.
  specialize (Hrel Hr). destruct (w_campaigns w !! _) as [r0|]; [|done].
  rewrite bool_decide_true by (by eexists). clear -Ev Hr.
  unfold validatePhoneInCampaignTargets, CampaignTargetRepository_ListByCampaign in Ev.
  rewrite run_bind, !run_on_err in Ev. rewrite external_reliable in Ev by done. cbn [map_err fst snd] in Ev.
  destruct (select_targets _ _ _ _) as [|x xs]; [by injection Ev as <-|].
  destruct (existsb _ _); [done|by injection Ev as <-].
Qed.

Lemma create_call_done c w :
  env_outcome w.(w_tick) = Done -> env_outcome (S w.(w_tick)) = Done ->
  in_int32 c.(call_AttemptCount) ->
  exists w', CallStore_CreateCall c w = (w', Ok ()) /\ w'.(w_tick) = (2 + w.(w_tick))%nat.
Proof.
  intros Hd1 Hd2 Hi. unfold CallStore_CreateCall. eexists. rewrite (bind_step _ _ w (set_calls
    (<[call_key c := mkCallRow c.(call_PhoneNumber) c.(call_Status) c.(call_AttemptCount)
       c.(call_ScheduledAt) c.(call_LastAttemptAt) c.(call_UpdatedAt) c.(call_CreatedAt) None]>
       w.(w_calls)) (bump w)) ()).
  - rewrite !run_on_err. rewrite external_done by (by destruct w). split; [reflexivity|]. by destruct w.
  - rewrite !run_on_err. rewrite external_done by done. unfold cql_int. rewrite bool_decide_true by done.
    by destruct w.
Qed.

Lemma apply_delta_done c d w st :
  env_outcome w.(w_tick) = Done -> w.(w_stats) !! c = Some st -> stats_in_range (add_delta st d) = true ->
  CampaignStatisticsRepository_ApplyDelta c d w =
    (set_stats (<[c := add_delta st d]> w.(w_stats)) (bump w), Ok ()).
Proof.
  intros Hd Hst Hr. unfold CampaignStatisticsRepository_ApplyDelta, apply_delta. rewrite run_on_err.
  rewrite external_done by done.
  replace (w_stats (bump w)) with w.(w_stats) by (by destruct w). by rewrite Hst, Hr.
Qed.

Lemma dispatch_refused topic d w :
  env_outcome (S w.(w_tick)) = Refused -> env_temporary (2 + w.(w_tick)) = false ->
  is_Some (marshal_dispatch d) ->
  exists e, DispatchCall topic d w = (bump (bump (bump w)), Err e).
Proof.
  intros Hr Ht [v Hv]. unfold DispatchCall, marshalled. rewrite Hv. run_monad.
  rewrite write_given_up by (by rewrite tick_bump). by eexists.
Qed.

(** When the message of a triggered call cannot be published, the
    pending counter is restored but the total is not: the counters of the
    campaign then count a call that was never dispatched, and its record stays
    queued. *)
Theorem trigger_call_unpublished (s : CallService) (i : TriggerCallInput) (w : World) r st :
  (forall n, n <> (8 + w.(w_tick))%nat -> env_outcome n = Done) ->
  env_outcome (8 + w.(w_tick)) = Refused -> env_temporary (9 + w.(w_tick)) = false ->
  i.(tc_PhoneNumber) <> EmptyString -> i.(tc_CampaignID) <> uuid_Nil ->
  w.(w_campaigns) !! i.(tc_CampaignID) = Some r ->
  validatePhoneInCampaignTargets i.(tc_CampaignID) i.(tc_PhoneNumber) (bump w) = (bump (bump w), Ok ()) ->
  is_Some (marshal_dispatch (trigger_message_of s i r w)) ->
  w.(w_stats) !! i.(tc_CampaignID) = Some st -> 
  stats_in_range (add_delta st queued_delta) = true ->
  stats_in_range (add_delta (add_delta st queued_delta) undo_delta) = true ->
  exists w' e st', TriggerCall s i w = (w', Err e) /\ w'.(w_log) = w.(w_log) /\
    w'.(w_stats) !! i.(tc_CampaignID) = Some st' /\
    st'.(st_TotalCalls) = st.(st_TotalCalls) + 1 /\ st'.(st_PendingCalls) = st.(st_PendingCalls) /\
    (cl_status <$> w'.(w_calls) !! call_key (trigger_call_of i w)) = Some CallStatusQueued.
Proof.
  intros Hdone Hrefused Htemp Hp Hnil Hl Hval Hv Hst Hr1 Hr2. unfold TriggerCall.
  rewrite bool_decide_false by done. cbv zeta.
  rewrite (bind_step _ _ w (bump w) (toDomain r)).
  2:{ unfold CampaignRepository_Get. run_monad. rewrite external_done by (apply Hdone; lia).
      replace (w_campaigns (bump w)) with w.(w_campaigns) by (by destruct w). by rewrite Hl. }
  rewrite (bind_step _ _ _ _ _ Hval).
  rewrite (bind_step now _ _ _ _ eq_refl), (bind_step uuid_New _ _ _ _ eq_refl). rewrite !tick_bump.
  change (new_call _ i _) with (trigger_call_of i w).
  change (first_dispatch _ _ _ i _) with (trigger_message_of s i r w).
  set (w4 := bump (bump (bump (bump w)))).
  assert (w4.(w_tick) = (4 + w.(w_tick))%nat) as Htick4 by (by destruct w).
  destruct (create_call_done (trigger_call_of i w) w4) as (w5 & Hcreate & Htick5);
    [rewrite Htick4; apply Hdone; lia..|done|].
  pose proof (create_call_Ok _ _ _ _ Hcreate) as (Hcl & _ & Ht & Hlog).
  rewrite (bind_step _ _ w4 w5 ()) by (rewrite !run_on_err; by rewrite Hcreate).
  assert (w5.(w_stats) !! i.(tc_CampaignID) = Some st) as Hst5.
  { unfold tables in Ht. injection Ht as _ _ _ ->. rewrite <- Hst. by destruct w. }
  rewrite (bind_step _ _ w5 (set_stats (<[i.(tc_CampaignID) := add_delta st queued_delta]> w5.(w_stats))
    (bump w5)) ()).
  2:{ rewrite !run_on_err. rewrite (apply_delta_done _ _ _ st) by (done || (apply Hdone; lia)). done. }
  set (w6 := set_stats _ _).
  assert (w6.(w_tick) = (7 + w.(w_tick))%nat) as Htick6 by (destruct w5; simpl in *; lia).
  destruct (dispatch_refused s.(cs_dispatchTopic) (trigger_message_of s i r w) w6) as [e He];
    [by rewrite Htick6|by rewrite Htick6|done|].
  rewrite (bind_step _ _ w6 (bump (bump (bump w6))) (Err e)) by (rewrite run_attempt; by rewrite He).
  rewrite bool_decide_false by done. rewrite run_bind, run_ignore.
  rewrite (apply_delta_done _ undo_delta _ (add_delta st queued_delta)).
  - eexists _, _, (add_delta (add_delta st queued_delta) undo_delta). split_and!; [reflexivity| | |simpl; lia|simpl; lia|].
    + transitivity w5.(w_log); [by destruct w5|]. rewrite Hlog. by destruct w.
    + destruct w5; simpl. by rewrite lookup_insert_eq.
    + transitivity (cl_status <$> w5.(w_calls) !! call_key (trigger_call_of i w)); [by destruct w5|]. by rewrite Hcl.
  - apply Hdone. rewrite !tick_bump. lia.
  - unfold w6. destruct w5; simpl. by rewrite lookup_insert_eq.
  - done.
Qed.
End Properties.

(** ** Witnesses *)

Definition sample_service : CallService :=
  mkCallService "calls" (mkRetryPolicy 5 0 0 f64_zero) 500.
Definition sample_calls_db : World := set_stats {[ 3%N := zero_stats ]} sample_db.
Definition sample_trigger (phone : string) : TriggerCallInput := mkTriggerInput 3%N phone None.

Lemma trigger_call_witness :
  let _ := quiet_env in let _ := stable_sort_order in let _ := bit_uuid in
  exists w' call, TriggerCall sample_service (sample_trigger "+1555") sample_calls_db = (w', Ok call) /\
    w'.(w_stats) !! 3%N = Some (mkStats 1 0 0 0 1 0) /\ length w'.(w_log) = 1%nat.
Proof.
  intros E O U.
  assert (TriggerCall sample_service (sample_trigger "+1555") sample_calls_db =
    ((TriggerCall sample_service (sample_trigger "+1555") sample_calls_db).1,
     Ok (trigger_call_of (sample_trigger "+1555") sample_calls_db))) as Hrun by (vm_compute; reflexivity).
  destruct (trigger_call_success _ _ _ _ _ Hrun)
    as (r & m & k & _ & _ & _ & _ & _ & Hst & Hlog & _ & Hone & _).
  specialize (Hone quiet_reliable). do 2 eexists. split; [exact Hrun|]. split; [exact Hst|]. by rewrite Hlog, Hone.
Defined.

Lemma trigger_rejected_witness :
  let _ := quiet_env in let _ := stable_sort_order in let _ := bit_uuid in
  exists w' e, TriggerCall sample_service (sample_trigger "+1999") sample_calls_db = (w', Err e) /\
    stores w' = stores sample_calls_db /\ errors_Is e ErrValidation = true.
Proof.
  intros E O U.
  destruct (trigger_call_rejected sample_service (sample_trigger "+1999") sample_calls_db)
    as (w' & e & Hrun & Hs & He).
  - right. intros (id & r & Hl & _ & Hp).
    cbv [sample_calls_db sample_db set_stats set_campaigns set_targets empty_world w_targets] in Hl.
    repeat (apply lookup_insert_Some in Hl as [[_ <-]|[_ Hl]]; [done|]).
    apply lookup_singleton_Some in Hl as [_ <-]. done.
  - exists w', e. split_and!; [exact Hrun|exact Hs|exact (He quiet_reliable)].
Defined.

Lemma trigger_unpublished_witness :
  let _ := faulty_env (fun n => if Nat.eqb n 8 then Refused else Done) in
  let _ := stable_sort_order in let _ := bit_uuid in
  exists w' e st', TriggerCall sample_service (sample_trigger "+1555") sample_calls_db = (w', Err e) /\
    w'.(w_log) = [] /\ w'.(w_stats) !! 3%N = Some st' /\
    st'.(st_TotalCalls) = 1 /\ st'.(st_PendingCalls) = 0.
Proof.
  intros E O U.
  destruct (trigger_call_unpublished sample_service (sample_trigger "+1555") sample_calls_db
    sample_row zero_stats) as (w' & e & st' & Hrun & Hl & Hst & Ht & Hp & _);
    try (vm_compute; reflexivity); try done.
  - intros n Hn. change ((if Nat.eqb n 8 then Refused else Done) = Done).
    destruct (Nat.eqb_spec n 8) as [->|]; [|done]. by destruct Hn.
  - exists w', e, st'. by split_and!.
Defined.
