(* ===== verification/CallLists.v ===== *)
(** Listing the calls of a campaign page by page: ListCallsByCampaign of
    internal/repository/scylla/call_store.go and internal/service/call/service.go,
    and the page tokens of the API. *)
From S2P Require Import Prelude Errors GoTime Json Domain Messages World Base64 Scylla.

(** ** The driver

    What github.com/gocql/gocql documents of an iterator: [cql_iter rows n st] is
    what Scan walks over in the result [rows] with page size [n] and page state
    [st], and what PageState returns afterwards. Without a page state the driver
    fetches every page as the scan reaches it, so that the state left is that of
    the last page, which is empty; setting a page state turns that off, and one
    page is walked over. *)
Class Gocql := {
  cql_iter : forall {A}, list A -> Z -> string -> list A * string;
  cql_position : string -> nat;
  cql_auto : forall A (rows : list A) n, 0 < n < 2 ^ 31 ->
    cql_iter rows n EmptyString = (rows, EmptyString);
  cql_page : forall A (rows : list A) n st, st <> EmptyString -> 0 < n < 2 ^ 31 ->
    (cql_iter rows n st).1 = take (Z.to_nat n) (drop (cql_position st) rows);
  cql_next : forall A (rows : list A) n st, st <> EmptyString -> 0 < n < 2 ^ 31 ->
    let next := (cql_iter rows n st).2 in
    (next = EmptyString /\ (length rows <= cql_position st + Z.to_nat n)%nat) \/
    (next <> EmptyString /\ cql_position next = (cql_position st + Z.to_nat n)%nat);
}.

(** ** The store *)

(** The partition of a campaign, CLUSTERING ORDER BY (bucket DESC, call_id ASC). *)
Definition rows_of_campaign (campaignID : uuid) (w : World) : list ((uuid * Time * uuid) * callRow) :=
  sort_by (fun '((_, bucket, _), _) => - bucket)
    (sort_by (fun '((_, _, id), _) => Z.of_N id)
      (List.filter (fun '((campaign, _, _), _) => bool_decide (campaign = campaignID))
         (map_to_list w.(w_calls)))).

(** make([]domain.Call, 0, limit) panics when the backing array cannot exist: a
    domain.Call takes 160 bytes, and an address space holds 2^48. *)
Definition call_size : Z := 160.
Definition max_alloc : Z := 2 ^ 48.
Definition make_calls_panics (limit : int) : bool := max_alloc <? limit * call_size.

Section CallLists.
Context `{Env} `{UuidText} `{Gocql}.

(** One turn of the scan: a row whose identifier does not parse is skipped. *)
Definition listed_call (campaignID : uuid) (row : (uuid * Time * uuid) * callRow) : option Call :=
  let '((_, _, callID), r) := row in
  (fun id => mkCall id campaignID r.(cl_phone_number) r.(cl_status) r.(cl_attempt_count)
     r.(cl_last_attempt_at) r.(cl_scheduled_at) r.(cl_created_at) r.(cl_updated_at)
     r.(cl_last_error)) <$> uuid_parse (uuid_text callID).

Definition CallStore_ListCallsByCampaign (campaignID : uuid) (limit : int) (pagingState : string)
    : M (list Call * string) :=
  let limit := if limit <=? 0 then 100 else limit in
  if make_calls_panics limit
  then ignore (external (fun w => Ok (w, ()))) ≫= fun _ =>
       throw (Panic "makeslice: cap out of range")
  else
    page ← on_err (wrapf "call store: iter close")
      (external (fun w => Ok (w, cql_iter (rows_of_campaign campaignID w) limit pagingState)));
    mret (omap (M:=list) (listed_call campaignID) page.1, page.2).

(** ** The service *)

Record ListCallsByCampaignResult := mkListResult {
  lr_Calls : list Call;
  lr_PagingState : string;
}.

Definition ListCallsByCampaign (campaignID : uuid) (limit : int) (pagingState : string)
    : M ListCallsByCampaignResult :=
  page ← CallStore_ListCallsByCampaign campaignID limit pagingState;
  mret (mkListResult page.1 page.2).

Definition EncodePagingState (state : string) : string :=
  if bool_decide (state = EmptyString) then EmptyString else EncodeBase64 state.

Definition DecodePagingState (token : string) : result error string :=
  if bool_decide (token = EmptyString) then Ok EmptyString else DecodeBase64 token.

(** ** Lemmas *)

Lemma EncodeToString_nonempty s : s <> EmptyString -> EncodeToString s <> EmptyString.
Proof. destruct s as [|a [|b [|c s]]]; intros ?; [done|..]; discriminate. Qed.

(** A page token decodes to the paging state it was made of. *)
Theorem page_token_roundtrip (state : string) :
  DecodePagingState (EncodePagingState state) = Ok state.
Proof.
  unfold EncodePagingState. case_bool_decide as Hs; [by subst|].
  unfold DecodePagingState. rewrite bool_decide_false by (by apply EncodeToString_nonempty).
  apply DecodeBase64_Encode.
Qed.

Lemma omap_listed campaignID (rows : list ((uuid * Time * uuid) * callRow)) :
  call_ID <$> omap (listed_call campaignID) rows = (fun row => row.1.2) <$> rows.
Proof.
  induction rows as [|[[[c b] i] r] rows IH]; [done|]. cbn [omap list_omap listed_call].
  rewrite uuid_parse_text. cbn. by rewrite IH.
Qed.

Lemma rows_of_campaign_spec campaignID w key r :
  (key, r) ∈ rows_of_campaign campaignID w <-> w.(w_calls) !! key = Some r /\ key.1.1 = campaignID.
Proof.
  unfold rows_of_campaign. destruct key as [[c b] i].
  rewrite !sort_by_Permutation, list_elem_of_In, filter_In, <- list_elem_of_In, elem_of_map_to_list,
    bool_decide_eq_true. done.
Qed.

Lemma make_calls_int32 n : n < 2 ^ 31 -> make_calls_panics n = false.
Proof. intros Hn. unfold make_calls_panics, max_alloc, call_size. apply Z.ltb_ge. lia. Qed.

(** Whatever is walked over is a row of the partition. *)
Lemma cql_iter_sub {A} (rows : list A) n st x :
  0 < n < 2 ^ 31 -> x ∈ (cql_iter rows n st).1 -> x ∈ rows.
Proof.
  intros Hn. destruct (decide (st = EmptyString)) as [->|Hst]; [by rewrite cql_auto|].
  rewrite cql_page by done. intros Hx.
  apply list_elem_of_In in Hx. rewrite <- (take_drop (cql_position st) rows).
  apply elem_of_app. right. rewrite <- (take_drop (Z.to_nat n) (drop (cql_position st) rows)).
  apply elem_of_app. left. by apply list_elem_of_In.
Qed.

(** What listing does when the request is answered. *)
Lemma list_calls_run campaignID limit st w :
  reliable -> (if limit <=? 0 then 100 else limit) < 2 ^ 31 ->
  ListCallsByCampaign campaignID limit st w =
    (bump w, Ok (mkListResult
       (omap (listed_call campaignID)
          (cql_iter (rows_of_campaign campaignID w) (if limit <=? 0 then 100 else limit) st).1)
       (cql_iter (rows_of_campaign campaignID w) (if limit <=? 0 then 100 else limit) st).2)).
Proof.
  intros Hr Hl. unfold ListCallsByCampaign, CallStore_ListCallsByCampaign.
  rewrite make_calls_int32 by done. run_monad. rewrite external_reliable by done. cbn [map_err fst snd].
  unfold rows_of_campaign. by destruct w.
Qed.

(** Claim C34: without a page token the limit is not respected: whatever it is, up
    to the 2^31 at which the capacity of the slice may panic, every call of the campaign is returned, once, and no token for a next page. *)
Theorem first_page_is_everything (campaignID : uuid) (limit : int) (w : World) :
  reliable -> limit < 2 ^ 31 ->
  exists calls, ListCallsByCampaign campaignID limit EmptyString w =
      (bump w, Ok (mkListResult calls EmptyString)) /\
    forall id, id ∈ (call_ID <$> calls) <->
      exists bucket, is_Some (w.(w_calls) !! (campaignID, bucket, id)).
Proof.
  intros Hr Hl. set (n := if limit <=? 0 then 100 else limit).
  assert (0 < n < 2 ^ 31) as Hn by (unfold n; destruct (limit <=? 0) eqn:?; zbool; lia).
  rewrite list_calls_run by (done || apply Hn). fold n. rewrite cql_auto by done.
  eexists. split; [reflexivity|]. intros id. cbn [fst]. rewrite omap_listed, list_elem_of_fmap. split.
  - intros ([[[c b] i] r] & -> & Hin). apply rows_of_campaign_spec in Hin as [Hin Hc].
    simpl in *. subst c. by exists b, r.
  - intros (b & r & Hl'). exists (campaignID, b, id, r). split; [done|].
    by apply rows_of_campaign_spec.
Qed.

(** A listed call and the same call read on its own agree on every
    field but the creation time, which the list keeps and the read cuts down to
    the day of the bucket. *)
Theorem listed_call_agrees_with_read (campaignID : uuid) (limit : int) (st : string)
    (w w' : World) (res : ListCallsByCampaignResult) (c : Call) :
  reliable -> limit < 2 ^ 31 ->
  ListCallsByCampaign campaignID limit st w = (w', Ok res) -> c ∈ res.(lr_Calls) ->
  (forall k k' r r', w.(w_calls) !! k = Some r -> w.(w_calls) !! k' = Some r' -> k.2 = k'.2 -> k = k') ->
  exists bucket c', is_Some (w.(w_calls) !! (campaignID, bucket, c.(call_ID))) /\
    CallStore_GetCall c.(call_ID) w' = (bump w', Ok c') /\
    c' = mkCall c.(call_ID) c.(call_CampaignID) c.(call_PhoneNumber) c.(call_Status)
      c.(call_AttemptCount) c.(call_LastAttemptAt) c.(call_ScheduledAt) (bucketDate bucket)
      c.(call_UpdatedAt) c.(call_LastError).
Proof.
  intros Hr Hl Hrun Hin Huniq. set (n := if limit <=? 0 then 100 else limit) in *.
  assert (0 < n < 2 ^ 31) as Hn by (unfold n; destruct (limit <=? 0) eqn:?; zbool; lia).
  rewrite list_calls_run in Hrun by (done || apply Hn). injection Hrun as <- <-. cbn [lr_Calls] in Hin.
  apply list_elem_of_omap in Hin as ([[[camp b] i] r] & Hrow & Hc).
  apply cql_iter_sub in Hrow; [|done]. apply rows_of_campaign_spec in Hrow as [Hlk Hcamp]. simpl in Hcamp. subst camp.
  simpl in Hc. rewrite uuid_parse_text in Hc. simplify_eq/=.
  exists b. eexists. split; [done|]. split.
  - apply (get_call_unique i (bump w) campaignID b r Hr); [by destruct w|].
    intros key r' Hk Hid. assert (w.(w_calls) !! key = Some r') as Hk' by (by destruct w).
    by apply (Huniq _ _ _ _ Hk' Hlk).
  - done.
Qed.
End CallLists.

(** ** Witnesses *)

(** A driver whose page state is the position in unary. *)
Fixpoint unary (n : nat) : string :=
  match n with O => EmptyString | S n => String (char_of 42) (unary n) end.

Lemma unary_length n : String.length (unary n) = n.
Proof. induction n; simpl; congruence. Qed.

#[local] Obligation Tactic := idtac.
Program Definition unary_pages : Gocql :=
  {| cql_iter := fun A rows n st =>
       if bool_decide (st = EmptyString) then (rows, EmptyString)
       else let position := (String.length st + Z.to_nat n)%nat in
            (take (Z.to_nat n) (drop (String.length st) rows),
             if bool_decide (length rows <= position)%nat then EmptyString else unary position);
     cql_position := String.length |}.
Next Obligation. done. Qed.
Next Obligation. intros A rows n st Hst Hn. simpl. by case_bool_decide. Qed.
Next Obligation.
  intros A rows n st Hst Hn. simpl. case_bool_decide as He; [done|]. simpl.
  case_bool_decide as Hle; [by left|right]. rewrite unary_length. split; [|done].
  replace (String.length st + Z.to_nat n)%nat with (S (String.length st + Z.to_nat n - 1)) by lia.
  done.
Qed.

(** Three calls of campaign 3, asked for one at a time. *)
Definition sample_calls_rows : World :=
  let row created := mkCallRow "+1555" CallStatusQueued 0 0 None 0 created None in
  set_calls (list_to_map [((3%N, 0, 7%N), row 5); ((3%N, 0, 8%N), row 6);
                          ((3%N, day_ns, 9%N), row (day_ns + 7))]) empty_world.

Lemma first_page_witness :
  let _ := quiet_env in let _ := bit_uuid in let _ := unary_pages in
  exists calls, ListCallsByCampaign 3%N 1 EmptyString sample_calls_rows =
      (bump sample_calls_rows, Ok (mkListResult calls EmptyString)) /\
    call_ID <$> calls = [9; 7; 8]%N.
Proof.
  intros E U G.
  destruct (first_page_is_everything 3%N 1 sample_calls_rows quiet_reliable ltac:(done))
    as (calls & Hrun & _).
  exists calls. split; [exact Hrun|].
  assert (ListCallsByCampaign 3%N 1 EmptyString sample_calls_rows =
    (bump sample_calls_rows, Ok (mkListResult calls EmptyString))) as Hrun' by exact Hrun.
  vm_compute in Hrun'. injection Hrun' as <-. reflexivity.
Defined.

Definition sample_call_row : World :=
  set_calls {[ (3%N, 0, 7%N) := mkCallRow "+1555" CallStatusQueued 0 0 None 0 5 None ]} empty_world.

Lemma listed_agrees_witness :
  let _ := quiet_env in let _ := bit_uuid in let _ := unary_pages in
  exists res c c', ListCallsByCampaign 3%N 0 EmptyString sample_call_row = (bump sample_call_row, Ok res) /\
    c ∈ res.(lr_Calls) /\ call_CreatedAt c = 5 /\
    CallStore_GetCall (call_ID c) (bump sample_call_row) = (bump (bump sample_call_row), Ok c') /\
    call_CreatedAt c' = 0.
Proof.
  intros E U G.
  pose (c := mkCall 7 3 "+1555" CallStatusQueued 0 None 0 5 0 None).
  pose (res := mkListResult [c] EmptyString).
  assert (ListCallsByCampaign 3%N 0 EmptyString sample_call_row = (bump sample_call_row, Ok res)) as Hrun
    by (vm_compute; reflexivity).
  assert (c ∈ res.(lr_Calls)) as Hin by (by left).
  destruct (listed_call_agrees_with_read 3%N 0 EmptyString sample_call_row _ res c quiet_reliable
    ltac:(done) Hrun Hin) as (b & c' & [r Hb] & Hg & Hc').
  - intros k k' r r' Hk Hk' _.
    cbv [sample_call_row set_calls empty_world w_calls] in Hk, Hk'.
    apply lookup_singleton_Some in Hk as [<- _]. by apply lookup_singleton_Some in Hk' as [<- _].
  - exists res, c, c'. split_and!; [exact Hrun|exact Hin|reflexivity|exact Hg|].
    cbv [sample_call_row set_calls empty_world w_calls] in Hb.
    apply lookup_singleton_Some in Hb as [[= <-] _]. rewrite Hc'. reflexivity.
Defined.
