(* ===== verification/Raises.v ===== *)
(** Which errors an operation can return: a predicate on errors that follows the
    structure of the monad, as [stable] does for its effects, and the class of
    errors the services return. *)
From S2P Require Import Prelude Errors GoTime Json Domain Messages World Postgres Scylla Queue.
From S2P Require Import CampaignService CallService CallLists.

Definition raises {A} (P : error -> Prop) (m : M A) : Prop :=
  forall w w' e, m w = (w', Err e) -> P e.

Section Raises.
Context `{Env} (P : error -> Prop).

Lemma raises_ret {A} (a : A) : raises P (mret a : M A).
Proof. intros w w' e [=]. Qed.

Lemma raises_throw {A} e : P e -> raises P (throw e : M A).
Proof. intros He w w' e' [= _ <-]. done. Qed.

Lemma raises_bind {A B} (m : M A) (k : A -> M B) :
  raises P m -> (forall a, raises P (k a)) -> raises P (m ≫= k).
Proof.
  intros Hm Hk w w' e Hrun. apply bind_Err in Hrun as [Hrun|(a & w1 & _ & Hrun)].
  - by eapply Hm.
  - by eapply Hk.
Qed.

Lemma raises_mono {A} (Q : error -> Prop) (m : M A) :
  (forall e, Q e -> P e) -> raises Q m -> raises P m.
Proof. intros HQ Hm w w' e Hrun. eapply HQ, Hm, Hrun. Qed.

Lemma raises_on_err {A} (Q : error -> Prop) f (m : M A) :
  (forall e, Q e -> P (f e)) -> raises Q m -> raises P (on_err f m).
Proof.
  intros HQ Hm w w' e. rewrite !run_on_err. destruct (m w) as [w1 [a|e1]] eqn:E; intros [= _ <-].
  eapply HQ, Hm, E.
Qed.

Lemma raises_attempt {A} (m : M A) : raises P (attempt m).
Proof. intros w w' e. rewrite run_attempt. by destruct (m w). Qed.

(** The error a caller looks at is one the operation returns. *)
Lemma raises_attempt_bind {A B} (m : M A) (k : result error A -> M B) :
  raises P m -> (forall a, raises P (k (Ok a))) -> (forall e, P e -> raises P (k (Err e))) ->
  raises P (attempt m ≫= k).
Proof.
  intros Hm Hok Herr w w' e Hrun. rewrite run_bind, run_attempt in Hrun.
  destruct (m w) as [w1 [a|e1]] eqn:E; [by eapply Hok|]. eapply Herr; [by eapply Hm|done].
Qed.

Lemma raises_ignore {A} (m : M A) : raises P (ignore m).
Proof. intros w w' e. rewrite run_ignore. by destruct (m w). Qed.

Lemma raises_consult {A} (oracle : nat -> A) : raises P (consult oracle).
Proof. intros w w' e [=]. Qed.

Lemma raises_for_each {A} (l : list A) body :
  (forall x, raises P (body x)) -> raises P (for_each l body).
Proof. intros Hb. induction l; simpl; [apply raises_ret|]. by apply raises_bind. Qed.

Lemma raises_external {A} (f : World -> result error (World * A)) :
  P (New "connection refused") -> P (New "connection reset") ->
  (forall w e, f w = Err e -> P e) -> raises P (external f).
Proof.
  intros H1 H2 Hf w w' e. rewrite run_external; unfold execute.
  destruct (env_outcome _), (f (bump w)) as [[w2 a]|e1] eqn:E; intros [=]; subst; eauto.
Qed.

Lemma raises_withTx fn :
  (forall pre e post, P e -> P (Errorf pre e post)) ->
  P (New "connection refused") -> P (New "connection reset") ->
  raises P fn -> raises P (withTx fn).
Proof.
  intros Hw H1 H2 Hfn w w' e. rewrite run_withTx. unfold in_tx.
  destruct (external _ w) as [w1 [u|e1]] eqn:E1.
  - destruct (fn w1) as [w2 [v|e2]] eqn:E2; [|apply Hfn in E2].
    + rewrite !run_on_err. destruct (external _ (put_tables w1 w2)) as [w3 [x|e3]] eqn:E3; intros [= _ <-].
      apply Hw. revert E3. apply raises_external; [done..|]. by intros ?? [=].
    + destruct (external _ (put_tables w1 w2)) as [w3 [x|e3]] eqn:E3; intros [= _ <-]; [done|by apply Hw].
  - intros [= _ <-]. apply Hw. revert E1. apply raises_external; [done..|]. by intros ?? [=].
Qed.
End Raises.

(** ** The errors of the stores and services

    Texts, and sentinels of a given set, wrapped any number of times: never an
    error of the web framework, never a panic. *)
Inductive tame (allowed : sentinel -> bool) : error -> Prop :=
| tame_new t : tame allowed (New t)
| tame_sentinel s : allowed s = true -> tame allowed (Sentinel s)
| tame_wrap pre e post : tame allowed e -> tame allowed (Errorf pre e post).

Lemma tame_wrapf allowed c e : tame allowed e -> tame allowed (wrapf c e).
Proof. apply tame_wrap. Qed.
Lemma tame_detailf allowed s d : allowed s = true -> tame allowed (detailf s d).
Proof. intros. by apply tame_wrap, tame_sentinel. Qed.

(** An error of the class is, to errors.Is, only what the set allows. *)
Lemma tame_Is allowed e s : tame allowed e -> errors_Is e s = true -> allowed s = true.
Proof. induction 1; simpl; intros Hs; [done| |auto]. apply bool_decide_eq_true in Hs. by subst. Qed.

Definition missing (s : sentinel) : bool := bool_decide (s = ErrNotFound).
Definition missing_or_invalid (s : sentinel) : bool :=
  bool_decide (s = ErrNotFound) || bool_decide (s = ErrValidation).

(** What the stores return, and what the services return. *)
Abbreviation store_error := (tame missing).
Abbreviation service_error := (tame missing_or_invalid).

Lemma store_service e : store_error e -> service_error e.
Proof.
  induction 1 as [t|s Hs|pre e post _ IH]; [apply tame_new| |by apply tame_wrap].
  apply tame_sentinel. unfold missing_or_invalid. unfold missing in Hs. by rewrite Hs.
Qed.

Lemma raises_service {A} (m : M A) : raises store_error m -> raises service_error m.
Proof. intros Hm w w' e Hrun. by eapply store_service, Hm. Qed.

Lemma unregistered_service p : service_error (unregistered p).
Proof. by apply tame_detailf. Qed.
Lemma detail_service d : service_error (detailf ErrValidation d).
Proof. by apply tame_detailf. Qed.

Create HintDb raises.
#[export] Hint Resolve tame_new tame_wrapf tame_wrap unregistered_service detail_service
  raises_attempt raises_ignore raises_ret : raises.
#[export] Hint Extern 1 (tame _ (Sentinel _)) => apply tame_sentinel; reflexivity : raises.

Ltac raises_leaf :=
  intros;
  repeat match goal with
  | H : cql_int _ _ _ = Err _ |- _ => unfold cql_int in H
  | H : context [match ?x with _ => _ end] |- _ => destruct x eqn:?
  end; simplify_eq; auto with raises.

Ltac raise_steps :=
  repeat first
  [ assumption
  | solve [eauto 2 with raises]
  | solve [apply raises_service; eauto 2 with raises]
  | match goal with
    | |- raises _ (attempt _ ≫= _) => apply raises_attempt_bind; [|intros ?|intros ? ?]
    | |- raises _ (_ ≫= _) => apply raises_bind; [|intros ?]
    | |- raises _ (on_err _ _) => eapply raises_on_err; [apply tame_wrapf|]
    | |- raises _ (external _) => apply raises_external; [apply tame_new|apply tame_new|raises_leaf]
    | |- raises _ (for_each _ _) => apply raises_for_each; intros ?
    | |- raises _ (throw _) => apply raises_throw; solve [eauto with raises]
    | |- raises _ (mret _) => apply raises_ret
    | |- raises _ now => apply raises_consult
    | |- raises _ (consult _) => apply raises_consult
    | |- raises _ uuid_New => apply raises_consult
    | |- raises _ (withTx _) =>
        apply raises_withTx; [intros; by apply tame_wrap|apply tame_new|apply tame_new|]
    | |- raises _ (if ?b then _ else _) => destruct b
    | |- raises _ (match ?x with _ => _ end) => destruct x eqn:?
    end ].

Section Services.
Context `{Env} `{PgOrder} `{UuidText} `{Gocql}.

Lemma tame_campaign_get id : raises store_error (CampaignRepository_Get id).
Proof. unfold CampaignRepository_Get. raise_steps. Qed.
Lemma tame_campaign_update c : raises store_error (CampaignRepository_Update c).
Proof. unfold CampaignRepository_Update, rows_or_not_found, update_campaign, constraint_violation. raise_steps. Qed.
Lemma tame_campaign_create c : raises store_error (CampaignRepository_Create c).
Proof. unfold CampaignRepository_Create, insert_campaign, constraint_violation. raise_steps. Qed.
Lemma tame_campaign_list a n : raises store_error (CampaignRepository_List a n).
Proof. unfold CampaignRepository_List. raise_steps. Qed.
Lemma tame_hours_list c : raises store_error (BusinessHourRepository_List c).
Proof. unfold BusinessHourRepository_List. raise_steps. Qed.
Lemma tame_hours_replace c ws : raises store_error (BusinessHourRepository_Replace c ws).
Proof.
  unfold BusinessHourRepository_Replace, replace_hours_tx, delete_hours, insert_hour, constraint_violation.
  raise_steps.
Qed.
Lemma tame_stats_ensure c : raises store_error (CampaignStatisticsRepository_Ensure c).
Proof. unfold CampaignStatisticsRepository_Ensure, ensure_stats, constraint_violation. raise_steps. Qed.
Lemma tame_stats_get c : raises store_error (CampaignStatisticsRepository_Get c).
Proof. unfold CampaignStatisticsRepository_Get. raise_steps. Qed.
Lemma tame_stats_delta c d : raises store_error (CampaignStatisticsRepository_ApplyDelta c d).
Proof. unfold CampaignStatisticsRepository_ApplyDelta, apply_delta. raise_steps. Qed.
Lemma tame_bulk_insert c ts : raises store_error (CampaignTargetRepository_BulkInsert c ts).
Proof. unfold CampaignTargetRepository_BulkInsert, insert_targets, constraint_violation. raise_steps. Qed.
Lemma tame_list_targets c n s : raises store_error (CampaignTargetRepository_ListByCampaign c n s).
Proof. unfold CampaignTargetRepository_ListByCampaign. raise_steps. Qed.
Lemma tame_create_call c : raises store_error (CallStore_CreateCall c).
Proof. unfold CallStore_CreateCall. raise_steps. Qed.
Lemma tame_get_call id : raises store_error (CallStore_GetCall id).
Proof. unfold CallStore_GetCall. raise_steps. Qed.
Lemma tame_write t m : raises store_error (WriteMessages t m).
Proof.
  unfold WriteMessages. generalize writer_attempts as n.
  induction n as [|n IH]; cbn [write_attempts]; unfold produce; raise_steps.
Qed.
Lemma tame_dispatch t m : raises store_error (DispatchCall t m).
Proof. pose proof tame_write. unfold DispatchCall, marshalled. raise_steps. Qed.
Lemma tame_new_records c t ts : raises store_error (new_records c t ts).
Proof. induction ts; cbn [new_records]; raise_steps. Qed.
Lemma tame_validate i e : validateCreateInput i = Some e -> service_error e.
Proof. unfold validateCreateInput. repeat case_match; intros; simplify_eq; apply detail_service. Qed.
Hint Resolve tame_campaign_get tame_campaign_update tame_campaign_create tame_campaign_list
  tame_hours_list tame_hours_replace tame_stats_ensure tame_stats_get tame_stats_delta
  tame_bulk_insert tame_list_targets tame_create_call tame_get_call tame_dispatch tame_new_records
  tame_validate : raises.

Lemma tame_Create d i : raises service_error (Create d i).
Proof. unfold Create. raise_steps. Qed.
Lemma tame_Get id : raises store_error (Get id).
Proof. unfold Get. raise_steps. Qed.
Lemma tame_List a n : raises store_error (List_ a n).
Proof. unfold List_. raise_steps. Qed.
Lemma tame_Update d u : raises store_error (Update d u).
Proof. unfold Update. raise_steps. Qed.
Lemma tame_Start id : raises store_error (Start id).
Proof. unfold Start. raise_steps. Qed.
Lemma tame_Pause id : raises store_error (Pause id).
Proof. unfold Pause. raise_steps. Qed.
Lemma tame_Complete id : raises store_error (Complete id).
Proof. unfold Complete. raise_steps. Qed.
Lemma tame_Stats id : raises store_error (Stats id).
Proof. unfold Stats. raise_steps. Qed.
Lemma tame_AddTargets c ts : raises service_error (AddTargets c ts).
Proof. unfold AddTargets. raise_steps. Qed.
Lemma tame_validate_phone c p : raises service_error (validatePhoneInCampaignTargets c p).
Proof. unfold validatePhoneInCampaignTargets. raise_steps. Qed.
Hint Resolve tame_validate_phone : raises.
Lemma tame_TriggerCall s i : raises service_error (TriggerCall s i).
Proof. unfold TriggerCall. raise_steps. Qed.
Lemma tame_GetCall id : raises store_error (GetCall id).
Proof. apply tame_get_call. Qed.

(** Listing calls may also panic, when it is asked for too many. *)
Lemma list_calls_errors c n st w w' e :
  ListCallsByCampaign c n st w = (w', Err e) ->
  store_error e \/ (make_calls_panics (if n <=? 0 then 100 else n) = true /\ exists t, e = Panic t).
Proof.
  unfold ListCallsByCampaign, CallStore_ListCallsByCampaign. intros Hrun.
  destruct (make_calls_panics _).
  - right. split; [done|]. revert Hrun. run_monad. intros [= _ <-].
    by eexists.
  - left. revert Hrun. apply (raises_bind store_error).
    + raise_steps.
    + intros ?. apply raises_ret.
Qed.
End Services.

#[export] Hint Resolve tame_campaign_get tame_campaign_update tame_campaign_create tame_campaign_list
  tame_hours_list tame_hours_replace tame_stats_ensure tame_stats_get tame_stats_delta
  tame_bulk_insert tame_list_targets tame_create_call tame_get_call tame_dispatch tame_new_records
  tame_validate tame_Create tame_Get tame_List tame_Update tame_Start tame_Pause tame_Complete
  tame_Stats tame_AddTargets tame_TriggerCall tame_GetCall : raises.
