(* ===== verification/Requests.v ===== *)
(** The requests and responses of the HTTP API: the types of
    internal/api/handlers/campaigns.go and calls.go, their JSON, and their
    translation from and to the values of the services. *)
From S2P Require Import Prelude Errors GoTime Durations Json Domain Messages World CampaignService.

(** ** Requests *)

Record retryPolicyRequest := mkPolicyReq {
  pq_MaxAttempts : int;
  pq_BaseDelay : string;
  pq_MaxDelay : string;
  pq_Jitter : float64;
}.

Record businessHourRequest := mkHourReq {
  hq_DayOfWeek : int;
  hq_Start : string;
  hq_End : string;
}.

Record targetRequest := mkTargetReq {
  tq_PhoneNumber : string;
  tq_Metadata : any_map;
}.

Record createCampaignRequest := mkCreateReq {
  cq_Name : string;
  cq_Description : string;
  cq_TimeZone : string;
  cq_MaxConcurrentCalls : int;
  cq_RetryPolicy : option retryPolicyRequest;
  cq_BusinessHours : list businessHourRequest;
  cq_Targets : list targetRequest;
}.

Record updateCampaignRequest := mkUpdateReq {
  uq_Name : option string;
  uq_Description : option string;
  uq_MaxConcurrentCalls : option int;
  uq_RetryPolicy : option retryPolicyRequest;
  uq_BusinessHours : option (list businessHourRequest);
}.

Record addTargetsRequest := mkAddTargetsReq { aq_Targets : list targetRequest }.

Record triggerCallRequest := mkTriggerReq {
  gq_CampaignID : string;
  gq_PhoneNumber : string;
  gq_Metadata : any_map;
}.

Definition zero_policy_req := mkPolicyReq 0 EmptyString EmptyString f64_zero.
Definition zero_hour_req := mkHourReq 0 EmptyString EmptyString.
Definition zero_target_req := mkTargetReq EmptyString None.
Definition zero_create_req := mkCreateReq EmptyString EmptyString EmptyString 0 None [] [].
Definition zero_update_req := mkUpdateReq None None None None None.
Definition zero_targets_req := mkAddTargetsReq [].
Definition zero_trigger_req := mkTriggerReq EmptyString EmptyString None.

(** Their json tags. *)
Definition retryPolicyRequest_fields : list (Field retryPolicyRequest) := [
  in_field "max_attempts" (fun x '(mkPolicyReq a b c d) =>
    (fun v => mkPolicyReq v b c d) <$> dec_int x a);
  in_field "base_delay" (fun x '(mkPolicyReq a b c d) =>
    (fun v => mkPolicyReq a v c d) <$> dec_string x b);
  in_field "max_delay" (fun x '(mkPolicyReq a b c d) =>
    (fun v => mkPolicyReq a b v d) <$> dec_string x c);
  in_field "jitter" (fun x '(mkPolicyReq a b c d) =>
    (fun v => mkPolicyReq a b c v) <$> dec_float x d) ].

Definition businessHourRequest_fields : list (Field businessHourRequest) := [
  in_field "day_of_week" (fun x '(mkHourReq a b c) => (fun v => mkHourReq v b c) <$> dec_int x a);
  in_field "start" (fun x '(mkHourReq a b c) => (fun v => mkHourReq a v c) <$> dec_string x b);
  in_field "end" (fun x '(mkHourReq a b c) => (fun v => mkHourReq a b v) <$> dec_string x c) ].

Definition targetRequest_fields : list (Field targetRequest) := [
  in_field "phone_number" (fun x '(mkTargetReq a b) => (fun v => mkTargetReq v b) <$> dec_string x a);
  in_field "metadata" (fun x '(mkTargetReq a b) => (fun v => mkTargetReq a v) <$> dec_map x) ].

Definition dec_policy_req := Unmarshal retryPolicyRequest_fields.
Definition dec_hour_req := Unmarshal businessHourRequest_fields.
Definition dec_target_req := Unmarshal targetRequest_fields.

Definition createCampaignRequest_fields : list (Field createCampaignRequest) := [
  in_field "name" (fun x '(mkCreateReq a b c d e f g) =>
    (fun v => mkCreateReq v b c d e f g) <$> dec_string x a);
  in_field "description" (fun x '(mkCreateReq a b c d e f g) =>
    (fun v => mkCreateReq a v c d e f g) <$> dec_string x b);
  in_field "time_zone" (fun x '(mkCreateReq a b c d e f g) =>
    (fun v => mkCreateReq a b v d e f g) <$> dec_string x c);
  in_field "max_concurrent_calls" (fun x '(mkCreateReq a b c d e f g) =>
    (fun v => mkCreateReq a b c v e f g) <$> dec_int x d);
  in_field "retry_policy" (fun x '(mkCreateReq a b c d e f g) =>
    (fun v => mkCreateReq a b c d v f g) <$> dec_ptr zero_policy_req dec_policy_req x e);
  in_field "business_hours" (fun x '(mkCreateReq a b c d e f g) =>
    (fun v => mkCreateReq a b c d e v g) <$> dec_slice zero_hour_req dec_hour_req x f);
  in_field "targets" (fun x '(mkCreateReq a b c d e f g) =>
    (fun v => mkCreateReq a b c d e f v) <$> dec_slice zero_target_req dec_target_req x g) ].

Definition updateCampaignRequest_fields : list (Field updateCampaignRequest) := [
  in_field "name" (fun x '(mkUpdateReq a b c d e) =>
    (fun v => mkUpdateReq v b c d e) <$> dec_ptr EmptyString dec_string x a);
  in_field "description" (fun x '(mkUpdateReq a b c d e) =>
    (fun v => mkUpdateReq a v c d e) <$> dec_ptr EmptyString dec_string x b);
  in_field "max_concurrent_calls" (fun x '(mkUpdateReq a b c d e) =>
    (fun v => mkUpdateReq a b v d e) <$> dec_ptr 0 dec_int x c);
  in_field "retry_policy" (fun x '(mkUpdateReq a b c d e) =>
    (fun v => mkUpdateReq a b c v e) <$> dec_ptr zero_policy_req dec_policy_req x d);
  in_field "business_hours" (fun x '(mkUpdateReq a b c d e) =>
    (fun v => mkUpdateReq a b c d v) <$>
      dec_ptr [] (dec_slice zero_hour_req dec_hour_req) x e) ].

Definition addTargetsRequest_fields : list (Field addTargetsRequest) := [
  in_field "targets" (fun x '(mkAddTargetsReq a) =>
    mkAddTargetsReq <$> dec_slice zero_target_req dec_target_req x a) ].

Definition triggerCallRequest_fields : list (Field triggerCallRequest) := [
  in_field "campaign_id" (fun x '(mkTriggerReq a b c) => (fun v => mkTriggerReq v b c) <$> dec_string x a);
  in_field "phone_number" (fun x '(mkTriggerReq a b c) => (fun v => mkTriggerReq a v c) <$> dec_string x b);
  in_field "metadata" (fun x '(mkTriggerReq a b c) => (fun v => mkTriggerReq a b v) <$> dec_map x) ].

(** ** Requests to inputs *)

(** time.ParseDuration unless the text is empty. *)
Definition parse_delay (text : string) (detail : string) : result error Duration :=
  if bool_decide (text = EmptyString) then Ok 0
  else match ParseDuration text with
       | Some d => Ok d
       | None => Err (detailf ErrValidation detail)
       end.

Definition parseRetryPolicy (req : retryPolicyRequest) : result error RetryPolicy :=
  match parse_delay req.(pq_BaseDelay) "invalid base_delay" with
  | Err e => Err e
  | Ok base =>
      match parse_delay req.(pq_MaxDelay) "invalid max_delay" with
      | Err e => Err e
      | Ok max => Ok (mkRetryPolicy req.(pq_MaxAttempts) base max req.(pq_Jitter))
      end
  end.

Fixpoint parseBusinessHours (req : list businessHourRequest) : result error (list BusinessHourInput) :=
  match req with
  | [] => Ok []
  | bh :: req =>
      match parse_clock bh.(hq_Start) with
      | None => Err (detailf ErrValidation "invalid start time")
      | Some start =>
          match parse_clock bh.(hq_End) with
          | None => Err (detailf ErrValidation "invalid end time")
          | Some end_ =>
              match parseBusinessHours req with
              | Err e => Err e
              | Ok windows => Ok (mkHourInput bh.(hq_DayOfWeek) start end_ :: windows)
              end
          end
      end
  end.

Definition target_inputs (req : list targetRequest) : list TargetInput :=
  (fun t => mkTargetInput t.(tq_PhoneNumber) t.(tq_Metadata)) <$> req.

Definition zero_policy : RetryPolicy := mkRetryPolicy 0 0 0 f64_zero.

Definition toCreateCampaignInput (req : createCampaignRequest) : result error CreateCampaignInput :=
  match (match req.(cq_RetryPolicy) with
         | None => Ok zero_policy
         | Some p => parseRetryPolicy p
         end) with
  | Err e => Err e
  | Ok policy =>
      match parseBusinessHours req.(cq_BusinessHours) with
      | Err e => Err e
      | Ok windows =>
          Ok (mkCreateInput req.(cq_Name) req.(cq_Description) req.(cq_TimeZone)
                req.(cq_MaxConcurrentCalls) policy windows (target_inputs req.(cq_Targets)))
      end
  end.

(** The input updateCampaign builds, field by field. *)
Definition toUpdateCampaignInput (id : uuid) (req : updateCampaignRequest)
    : result error UpdateCampaignInput :=
  match (match req.(uq_RetryPolicy) with
         | None => Ok None
         | Some p => match parseRetryPolicy p with Ok rp => Ok (Some rp) | Err e => Err e end
         end) with
  | Err e => Err e
  | Ok policy =>
      match (match req.(uq_BusinessHours) with
             | None => Ok None
             | Some hs => match parseBusinessHours hs with Ok bh => Ok (Some bh) | Err e => Err e end
             end) with
      | Err e => Err e
      | Ok hours =>
          Ok (mkUpdateInput id req.(uq_Name) req.(uq_Description) req.(uq_MaxConcurrentCalls)
                policy hours)
      end
  end.

(** ** Responses *)

Record businessHourResponse := mkHourResp {
  hr_DayOfWeek : int;
  hr_Start : string;
  hr_End : string;
}.

Record retryPolicyResponse := mkPolicyResp {
  pr_MaxAttempts : int;
  pr_BaseDelay : string;
  pr_MaxDelay : string;
  pr_Jitter : float64;
}.

Record campaignResponse := mkCampaignResp {
  cr_id : uuid;
  cr_name : string;
  cr_description : string;
  cr_time_zone : string;
  cr_status : CampaignStatus;
  cr_max_concurrent_calls : int;
  cr_retry_policy : retryPolicyResponse;
  cr_business_hours : list businessHourResponse;
  cr_created_at : Time;
  cr_updated_at : Time;
  cr_started_at : option Time;
  cr_completed_at : option Time;
}.

Definition toCampaignResponse (campaign : Campaign) : campaignResponse :=
  mkCampaignResp campaign.(c_ID) campaign.(c_Name) campaign.(c_Description) campaign.(c_TimeZone)
    campaign.(c_Status) campaign.(c_MaxConcurrentCalls)
    (mkPolicyResp campaign.(c_RetryPolicy).(rp_MaxAttempts)
       (Duration_String campaign.(c_RetryPolicy).(rp_BaseDelay))
       (Duration_String campaign.(c_RetryPolicy).(rp_MaxDelay))
       campaign.(c_RetryPolicy).(rp_Jitter))
    ((fun window => mkHourResp window.(w_DayOfWeek) (format_clock window.(w_Start))
        (format_clock window.(w_End))) <$> campaign.(c_BusinessHours))
    campaign.(c_CreatedAt) campaign.(c_UpdatedAt) campaign.(c_StartedAt) campaign.(c_CompletedAt).

Record callResponse := mkCallResp {
  lr_id : uuid;
  lr_campaign_id : uuid;
  lr_phone_number : string;
  lr_status : CallStatus;
  lr_attempt_count : int;
  lr_scheduled_at : Time;
  lr_created_at : Time;
  lr_updated_at : Time;
  lr_last_error : option string;
}.

Definition toCallResponse (call : Call) : callResponse :=
  mkCallResp call.(call_ID) call.(call_CampaignID) call.(call_PhoneNumber) call.(call_Status)
    call.(call_AttemptCount) call.(call_ScheduledAt) call.(call_CreatedAt) call.(call_UpdatedAt)
    call.(call_LastError).

Record listCallsResponse := mkListCallsResp {
  lr_calls : list callResponse;
  lr_next_page_token : string;
}.

Definition retryPolicyResponse_fields : list (Field retryPolicyResponse) := [
  out_field "max_attempts" (fun p => Some (JInt p.(pr_MaxAttempts)));
  out_field "base_delay" (fun p => Some (JString p.(pr_BaseDelay)));
  out_field "max_delay" (fun p => Some (JString p.(pr_MaxDelay)));
  out_field "jitter" (fun p => enc_float p.(pr_Jitter)) ].

Definition businessHourResponse_fields : list (Field businessHourResponse) := [
  out_field "day_of_week" (fun h => Some (JInt h.(hr_DayOfWeek)));
  out_field "start" (fun h => Some (JString h.(hr_Start)));
  out_field "end" (fun h => Some (JString h.(hr_End))) ].

Definition nil_time (t : option Time) : bool := match t with None => true | Some _ => false end.

Section Responses.
Context `{UuidText}.

Definition campaignResponse_fields : list (Field campaignResponse) := [
  out_field "id" (fun c => Some (enc_uuid c.(cr_id)));
  out_field "name" (fun c => Some (JString c.(cr_name)));
  out_field "description" (fun c => Some (JString c.(cr_description)));
  out_field "time_zone" (fun c => Some (JString c.(cr_time_zone)));
  out_field "status" (fun c => Some (JString (campaign_status_text c.(cr_status))));
  out_field "max_concurrent_calls" (fun c => Some (JInt c.(cr_max_concurrent_calls)));
  out_field "retry_policy" (fun c => Marshal retryPolicyResponse_fields c.(cr_retry_policy));
  out_field "business_hours" (fun c =>
    enc_slice (Marshal businessHourResponse_fields) c.(cr_business_hours));
  out_field "created_at" (fun c => enc_time c.(cr_created_at));
  out_field "updated_at" (fun c => enc_time c.(cr_updated_at));
  out_omitempty "started_at" (fun c => nil_time c.(cr_started_at))
    (fun c => enc_time_ptr c.(cr_started_at));
  out_omitempty "completed_at" (fun c => nil_time c.(cr_completed_at))
    (fun c => enc_time_ptr c.(cr_completed_at)) ].

Definition enc_campaign (c : campaignResponse) : option json := Marshal campaignResponse_fields c.

Definition listCampaignsResponse_fields : list (Field (list campaignResponse)) := [
  out_field "campaigns" (enc_slice enc_campaign) ].

Definition campaignStatsResponse_fields : list (Field CampaignStats) := [
  out_field "total_calls" (fun s => Some (JInt s.(st_TotalCalls)));
  out_field "completed_calls" (fun s => Some (JInt s.(st_CompletedCalls)));
  out_field "failed_calls" (fun s => Some (JInt s.(st_FailedCalls)));
  out_field "in_progress_calls" (fun s => Some (JInt s.(st_InProgressCalls)));
  out_field "pending_calls" (fun s => Some (JInt s.(st_PendingCalls)));
  out_field "retries_attempted" (fun s => Some (JInt s.(st_RetriesAttempted))) ].

Definition callResponse_fields : list (Field callResponse) := [
  out_field "id" (fun c => Some (enc_uuid c.(lr_id)));
  out_field "campaign_id" (fun c => Some (enc_uuid c.(lr_campaign_id)));
  out_field "phone_number" (fun c => Some (JString c.(lr_phone_number)));
  out_field "status" (fun c => Some (JString (call_status_text c.(lr_status))));
  out_field "attempt_count" (fun c => Some (JInt c.(lr_attempt_count)));
  out_field "scheduled_at" (fun c => enc_time c.(lr_scheduled_at));
  out_field "created_at" (fun c => enc_time c.(lr_created_at));
  out_field "updated_at" (fun c => enc_time c.(lr_updated_at));
  out_omitempty "last_error" (fun c => bool_decide (c.(lr_last_error) = None))
    (fun c => JString <$> c.(lr_last_error)) ].

Definition enc_call (c : callResponse) : option json := Marshal callResponse_fields c.

Definition listCallsResponse_fields : list (Field listCallsResponse) := [
  out_field "calls" (fun r => enc_slice enc_call r.(lr_calls));
  out_omitempty "next_page_token" (fun r => bool_decide (r.(lr_next_page_token) = EmptyString))
    (fun r => Some (JString r.(lr_next_page_token))) ].
End Responses.
