(* ===== verification/Handlers.v ===== *)
(** internal/api/handlers: every handler of the HTTP API from its request to its
    reply, the translation of errors, the central error handler and the routes. *)
From S2P Require Import Prelude Errors GoTime Durations Json Domain Messages World Postgres.
From S2P Require Import CampaignService CallService CallLists Requests.

(** ** Fiber

    What github.com/gofiber/fiber hands to a handler: the path parameter "id",
    the query parameters, and the body. [BodyParser] decodes a body into a
    struct; for a JSON document it is json.Unmarshal. *)
Inductive Body :=
| BodyJSON (document : json)
| BodyOther (contentType raw : string).

Class Fiber := {
  BodyParser : forall {T}, list (Field T) -> Body -> T -> option T;
  BodyParser_json : forall T (fs : list (Field T)) j (t : T),
    BodyParser fs (BodyJSON j) t = Unmarshal fs j t;
}.

Record Ctx := mkCtx {
  ctx_id : string;
  ctx_query : string -> string;
  ctx_body : Body;
  ctx_trace_id : string;
}.

(** ctx.Query(key, defaultValue): the default stands for a missing or empty value. *)
Definition Query (ctx : Ctx) (key defaultValue : string) : string :=
  if bool_decide (ctx.(ctx_query) key = EmptyString) then defaultValue else ctx.(ctx_query) key.

(** A reply; SendStatus sends no document. *)
Record Reply := mkReply { reply_status : Z; reply_json : option json }.

(** ** Errors *)

(** translateError of a non-nil error. *)
Definition translateError (err : error) : error :=
  if errors_Is err ErrValidation then FiberError 400 (error_text err)
  else if errors_Is err ErrNotFound then FiberError 404 "resource not found"
  else if errors_Is err ErrConflict then FiberError 409 (error_text err)
  else if errors_Is err ErrQuotaExceeded then FiberError 429 (error_text err)
  else if errors_Is err ErrUnavailable then FiberError 503 (error_text err)
  else err.

(** The type assertion err.( *fiber.Error ): only the error itself, not what it wraps. *)
Definition ErrorHandler (ctx : Ctx) (err : error) : Reply :=
  let '(code, message) :=
    match err with FiberError code message => (code, message) | _ => (500, error_text err) end in
  mkReply code (Some (JObj [("error", JString message); ("trace_id", JString ctx.(ctx_trace_id))])).

(** A pure step that may fail. *)
Definition lift {A} (r : result error A) : M A :=
  match r with Ok a => mret a | Err e => throw e end.

(** An option whose absence is a bad request. *)
Definition or_bad_request {A} (o : option A) (message : string) : M A :=
  match o with Some a => mret a | None => throw (FiberError 400 message) end.

(** ctx.Status(code).JSON(v) *)
Definition send {T} (code : Z) (fs : list (Field T)) (v : T) : M Reply :=
  match Marshal fs v with
  | Some j => mret (mkReply code (Some j))
  | None => throw (New "json: unsupported value")
  end.

Definition SendStatus (code : Z) : M Reply := mret (mkReply code None).

(** ** Endpoints *)

Inductive Endpoint :=
| EHealth
| ECreateCampaign | EListCampaigns | EGetCampaign | EUpdateCampaign
| EStartCampaign | EPauseCampaign | ECompleteCampaign | ECampaignStats
| EAddTargets | EListCampaignCalls
| ETriggerCall | EGetCall.

#[export] Instance Endpoint_eq_dec : EqDecision Endpoint.
Proof. solve_decision. Defined.

(** ** Handlers *)

Record HandlerSet := mkHandlerSet {
  hs_defaultConcurrency : int;   (* of the campaign service *)
  hs_calls : CallService;
}.

Section Handlers.
Context `{Env} `{PgOrder} `{UuidText} `{Gocql} `{Fiber} (h : HandlerSet).

Definition parseUUID (ctx : Ctx) (message : string) : M uuid :=
  or_bad_request (uuid_parse ctx.(ctx_id)) message.

Definition parse_body {T} (ctx : Ctx) (fs : list (Field T)) (zero : T) : M T :=
  or_bad_request (BodyParser fs ctx.(ctx_body) zero) "invalid request body".

Definition createCampaign (ctx : Ctx) : M Reply :=
  req ← parse_body ctx createCampaignRequest_fields zero_create_req;
  input ← on_err translateError (lift (toCreateCampaignInput req));
  campaign ← on_err translateError (Create h.(hs_defaultConcurrency) input);
  fullCampaign ← on_err translateError (Get campaign.(c_ID));
  send 201 campaignResponse_fields (toCampaignResponse fullCampaign).

(** The loop that reads every campaign of the page again. *)
Fixpoint full_campaigns (campaigns : list Campaign) : M (list campaignResponse) :=
  match campaigns with
  | [] => mret []
  | c :: cs =>
      fullCampaign ← on_err translateError (Get c.(c_ID));
      rest ← full_campaigns cs;
      mret (toCampaignResponse fullCampaign :: rest)
  end.

Definition listCampaigns (ctx : Ctx) : M Reply :=
  let limit := Atoi (Query ctx "limit" "50") in
  let afterStr := Query ctx "after_id" EmptyString in
  let afterID := if bool_decide (afterStr = EmptyString) then None else uuid_parse afterStr in
  campaigns ← on_err translateError (List_ afterID limit);
  resp ← full_campaigns campaigns;
  send 200 listCampaignsResponse_fields resp.

Definition getCampaign (ctx : Ctx) : M Reply :=
  id ← parseUUID ctx "invalid campaign id";
  campaign ← on_err translateError (Get id);
  send 200 campaignResponse_fields (toCampaignResponse campaign).

Definition updateCampaign (ctx : Ctx) : M Reply :=
  id ← parseUUID ctx "invalid campaign id";
  req ← parse_body ctx updateCampaignRequest_fields zero_update_req;
  input ← on_err translateError (lift (toUpdateCampaignInput id req));
  campaign ← on_err translateError (Update h.(hs_defaultConcurrency) input);
  send 200 campaignResponse_fields (toCampaignResponse campaign).

Definition startCampaign (ctx : Ctx) : M Reply :=
  id ← parseUUID ctx "invalid campaign id";
  on_err translateError (Start id) ≫= fun _ => SendStatus 204.

Definition pauseCampaign (ctx : Ctx) : M Reply :=
  id ← parseUUID ctx "invalid campaign id";
  on_err translateError (Pause id) ≫= fun _ => SendStatus 204.

Definition completeCampaign (ctx : Ctx) : M Reply :=
  id ← parseUUID ctx "invalid campaign id";
  on_err translateError (Complete id) ≫= fun _ => SendStatus 204.

Definition campaignStats (ctx : Ctx) : M Reply :=
  id ← parseUUID ctx "invalid campaign id";
  stats ← on_err translateError (Stats id);
  send 200 campaignStatsResponse_fields stats.

Definition addTargets (ctx : Ctx) : M Reply :=
  id ← parseUUID ctx "invalid campaign id";
  req ← parse_body ctx addTargetsRequest_fields zero_targets_req;
  on_err translateError (AddTargets id (target_inputs req.(aq_Targets))) ≫= fun _ =>
  SendStatus 202.

Definition listCampaignCalls (ctx : Ctx) : M Reply :=
  id ← parseUUID ctx "invalid campaign id";
  let limit := Atoi (Query ctx "limit" "100") in
  let token := Query ctx "page_token" EmptyString in
  match DecodePagingState token with
  | Err _ => throw (FiberError 400 "invalid page token")
  | Ok paging =>
      res ← on_err translateError (ListCallsByCampaign id limit paging);
      send 200 listCallsResponse_fields
        (mkListCallsResp (toCallResponse <$> res.(lr_Calls)) (EncodePagingState res.(lr_PagingState)))
  end.

Definition triggerCall (ctx : Ctx) : M Reply :=
  req ← parse_body ctx triggerCallRequest_fields zero_trigger_req;
  campaignID ← or_bad_request (uuid_parse req.(gq_CampaignID)) "invalid campaign_id format";
  call ← on_err translateError (TriggerCall h.(hs_calls)
    (mkTriggerInput campaignID req.(gq_PhoneNumber) req.(gq_Metadata)));
  send 202 callResponse_fields (toCallResponse call).

Definition getCall (ctx : Ctx) : M Reply :=
  id ← or_bad_request (uuid_parse ctx.(ctx_id)) "invalid call id";
  record ← on_err translateError (GetCall id);
  send 200 callResponse_fields (toCallResponse record).

(** The three pings of health, each a request of its own. *)
Definition ping (store : string) : M (list (string * json)) :=
  r ← attempt (external (fun w => Ok (w, ())));
  mret (match r with Ok _ => [] | Err e => [(store, JString (error_text e))] end).

Definition health : M Reply :=
  e1 ← ping "postgres";
  e2 ← ping "redis";
  e3 ← ping "scylla";
  let errs := e1 ++ e2 ++ e3 in
  mret (mkReply (match errs with [] => 200 | _ => 503 end)
    (Some (JObj [("errors", JObj errs); ("status", JString "ok")]))).

(** ** Routes *)

(** Register: the method and path of every endpoint, in order. *)
Definition Register : list (string * string * Endpoint) := [
  ("GET", "/healthz", EHealth);
  ("POST", "/api/v1/campaigns/", ECreateCampaign);
  ("GET", "/api/v1/campaigns/", EListCampaigns);
  ("GET", "/api/v1/campaigns/:id", EGetCampaign);
  ("PUT", "/api/v1/campaigns/:id", EUpdateCampaign);
  ("POST", "/api/v1/campaigns/:id/start", EStartCampaign);
  ("POST", "/api/v1/campaigns/:id/pause", EPauseCampaign);
  ("POST", "/api/v1/campaigns/:id/complete", ECompleteCampaign);
  ("GET", "/api/v1/campaigns/:id/stats", ECampaignStats);
  ("POST", "/api/v1/campaigns/:id/targets", EAddTargets);
  ("GET", "/api/v1/campaigns/:id/calls", EListCampaignCalls);
  ("POST", "/api/v1/calls/", ETriggerCall);
  ("GET", "/api/v1/calls/:id", EGetCall) ].

Definition handle (e : Endpoint) (ctx : Ctx) : M Reply :=
  match e with
  | EHealth => health
  | ECreateCampaign => createCampaign ctx
  | EListCampaigns => listCampaigns ctx
  | EGetCampaign => getCampaign ctx
  | EUpdateCampaign => updateCampaign ctx
  | EStartCampaign => startCampaign ctx
  | EPauseCampaign => pauseCampaign ctx
  | ECompleteCampaign => completeCampaign ctx
  | ECampaignStats => campaignStats ctx
  | EAddTargets => addTargets ctx
  | EListCampaignCalls => listCampaignCalls ctx
  | ETriggerCall => triggerCall ctx
  | EGetCall => getCall ctx
  end.

(** A request from its arrival to its reply: an error goes to the error handler;
    a panic is not recovered, and ends the process without a reply. *)
Definition answer (ctx : Ctx) (r : result error Reply) : result error Reply :=
  match r with
  | Ok reply => Ok reply
  | Err (Panic t) => Err (Panic t)
  | Err err => Ok (ErrorHandler ctx err)
  end.

Definition serve (e : Endpoint) (ctx : Ctx) : M Reply := map_result (answer ctx) (handle e ctx).
End Handlers.

(** Bodies that are JSON documents, and no other, for examples. *)
Definition json_bodies : Fiber :=
  {| BodyParser := fun T fs b t => match b with BodyJSON j => Unmarshal fs j t | BodyOther _ _ => None end;
     BodyParser_json := fun T fs j t => eq_refl |}.
