(* ===== verification/Scheduler.v ===== *)
(** internal/scheduler/scheduler.go: the business-hours test and the tick that
    feeds pending targets to the call service. *)
From S2P Require Import Prelude Errors GoTime Json Domain Messages World Postgres Scylla Queue.
From S2P Require Import CampaignService CallService.

(** ** Business hours *)

Definition in_window (minuteOfDay : int) (weekday : WeekdayT) (window : BusinessHourWindow) : bool :=
  let start := Hour window.(w_Start) * 60 + Minute window.(w_Start) in
  let end_ := Hour window.(w_End) * 60 + Minute window.(w_End) in
  if end_ <=? start then
    let nextDay := Z.rem (wrap64 (window.(w_DayOfWeek) + 1)) 7 in
    ((window.(w_DayOfWeek) =? weekday) && (start <=? minuteOfDay)) ||
    ((nextDay =? weekday) && (minuteOfDay <? end_))
  else if negb (window.(w_DayOfWeek) =? weekday) then false
  else (start <=? minuteOfDay) && (minuteOfDay <? end_).

Section Hours.
Context `{Env}.

Definition isWithinBusinessHours (nowUTC : Time) (campaign : Campaign) : bool :=
  match campaign.(c_BusinessHours) with
  | [] => true
  | windows =>
      match LoadLocation campaign.(c_TimeZone) with
      | None => true
      | Some loc =>
          let local := In loc nowUTC in
          let minuteOfDay := Hour local * 60 + Minute local in
          let weekday := Weekday local in
          existsb (in_window minuteOfDay weekday) windows
      end
  end.
End Hours.

(** ** The scheduler *)

Record SchedulerSettings := mkSchedulerSettings {
  sc_WorkerCount : int;
  sc_MaxBatchSize : int;
  sc_RetryTopics : list string;
}.

Definition campaignFetchLimit (cfg : SchedulerSettings) : int :=
  let limit := wrap64 (cfg.(sc_WorkerCount) * 10) in
  let limit := if limit <=? 0 then 100 else limit in
  wrap64 (limit * 2).

Section Tick.
Context `{Env} `{PgOrder} `{UuidText}.

(** The temporary reader of hasPendingRetries: its consumer group has no
    committed offset, so it starts at the first record the topic holds. *)
Definition topic_records (topic : string) (w : World) : list KafkaMessage :=
  (List.filter (fun '(t, _) => String.eqb t topic) w.(w_log)).*2.

Definition FetchFirst (topic : string) : M KafkaMessage :=
  external (fun w =>
    match topic_records topic w with
    | m :: _ => Ok (w, m)
    | [] => Err (New "context deadline exceeded")
    end).

Fixpoint hasPendingRetries (topics : list string) : M bool :=
  match topics with
  | [] => mret false
  | topic :: rest =>
      r ← attempt (FetchFirst topic);
      match r with
      | Ok _ => mret true
      | Err _ => hasPendingRetries rest
      end
  end.

(** The dispatch loop of one campaign: the ids whose call was not triggered. *)
Fixpoint trigger_targets (s : CallService) (campaignID : uuid) (targets : list CampaignTargetRecord)
    : M (list uuid) :=
  match targets with
  | [] => mret []
  | t :: ts =>
      r ← attempt (TriggerCall s (mkTriggerInput campaignID t.(t_PhoneNumber) t.(t_Payload)));
      failed ← trigger_targets s campaignID ts;
      match r with
      | Ok _ => mret failed
      | Err _ => mret (t.(t_ID) :: failed)
      end
  end.

(** What is done with the batch of one campaign. *)
Definition call_batch (s : CallService) (campaignID : uuid) (targets : list CampaignTargetRecord) : M () :=
  match targets with
  | [] => mret ()
  | _ =>
      let ids := t_ID <$> targets in
      scheduledAt ← now;
      r ← attempt (CampaignTargetRepository_MarkScheduled campaignID ids scheduledAt);
      match r with
      | Err _ => mret ()
      | Ok _ =>
          failed ← trigger_targets s campaignID targets;
          match failed with
          | [] => mret ()
          | _ => ignore (CampaignTargetRepository_SetState campaignID failed "pending")
          end
      end
  end.

(** One iteration of the loop over campaigns: every [continue] is a [mret ()]. *)
Definition schedule_campaign (cfg : SchedulerSettings) (s : CallService) (nowUTC : Time)
    (campaign : Campaign) : M () :=
  if negb (isWithinBusinessHours nowUTC campaign) then mret ()
  else
    r ← attempt (CampaignTargetRepository_NextBatchForScheduling campaign.(c_ID)
                   cfg.(sc_MaxBatchSize));
    match r with
    | Err _ => mret ()
    | Ok targets => call_batch s campaign.(c_ID) targets
    end.

Definition tick (cfg : SchedulerSettings) (s : CallService) : M () :=
  pending ← hasPendingRetries cfg.(sc_RetryTopics);
  if (pending : bool) then mret ()
  else
    nowUTC ← now;
    campaigns ← ListByStatus CampaignStatusInProgress (campaignFetchLimit cfg);
    for_each campaigns (schedule_campaign cfg s nowUTC).

(** Run: tick until the context is done, and return its error; after [fuel] ticks
    the loop still runs. *)
Inductive endless := StillRunning.

Fixpoint Run (fuel : nat) (cfg : SchedulerSettings) (s : CallService) : M endless :=
  match fuel with
  | O => mret StillRunning
  | S fuel =>
      ignore (tick cfg s) ≫= fun _ =>
      stop ← ctx_done;
      if (stop : bool) then (err ← ctx_err; throw err) else Run fuel cfg s
  end.
End Tick.

(** ** Business hours as intervals of the week *)

(** The minute of the week an instant of the wall clock lies in. *)
Definition week_minute (w : Z) : Z := (w / (60 * Second) + 4 * 1440) mod 10080.

(** When a window opens, and for how many minutes it stays open: an end at or
    before the start is on the next day. *)
Definition opens (win : BusinessHourWindow) : Z :=
  win.(w_DayOfWeek) * 1440 + (Hour win.(w_Start) * 60 + Minute win.(w_Start)).
Definition open_for (win : BusinessHourWindow) : Z :=
  let start := Hour win.(w_Start) * 60 + Minute win.(w_Start) in
  let end_ := Hour win.(w_End) * 60 + Minute win.(w_End) in
  if end_ <=? start then 1440 + end_ - start else end_ - start.

Definition window_wf (win : BusinessHourWindow) : Prop := 0 <= win.(w_DayOfWeek) <= 6.

(** The reference definition: [m] minutes into the week, the window is open. *)
Definition open_at (m : Z) (win : BusinessHourWindow) : Prop :=
  (m - opens win) mod 10080 < open_for win.

Lemma day_minutes w :
  Weekday w * 1440 + (Hour w * 60 + Minute w) = week_minute w.
Proof.
  rewrite minute_of_day. unfold Weekday, week_minute, day_ns.
  replace (86400 * Second) with (60 * Second * 1440) by (unfold Second, Millisecond; lia).
  rewrite <- Z.div_div by (unfold Second, Millisecond; lia).
  set (m := w / (60 * Second)). clearbody m.
  pose proof (Z.div_mod m 1440). pose proof (Z.mod_pos_bound m 1440).
  pose proof (Z.div_mod (m / 1440 + 4) 7). pose proof (Z.mod_pos_bound (m / 1440 + 4) 7).
  apply (Z.mod_unique_pos _ _ ((m / 1440 + 4) / 7)); lia.
Qed.

Lemma week_diff_mod d x : -10080 < x < 10080 -> d = (if x <? 0 then x + 10080 else x) ->
  x mod 10080 = d.
Proof.
  intros Hx ->. destruct (x <? 0) eqn:?; zbool.
  - rewrite <- (Z.mod_add x 1) by lia. apply Z.mod_small. lia.
  - apply Z.mod_small. lia.
Qed.

Lemma in_window_spec minute weekday win :
  0 <= minute < 1440 -> 0 <= weekday < 7 -> window_wf win ->
  in_window minute weekday win = true <-> open_at (weekday * 1440 + minute) win.
Proof.
  intros Hmin Hwd Hwf. unfold window_wf in Hwf. unfold open_at, open_for, opens, in_window.
  pose proof (minute_of_day_range win.(w_Start)) as Hs.
  pose proof (minute_of_day_range win.(w_End)) as He.
  set (start := Hour _ * 60 + Minute (w_Start win)) in *.
  set (end_ := Hour _ * 60 + Minute (w_End win)) in *.
  set (day := win.(w_DayOfWeek)) in *. clearbody start end_ day.
  rewrite (week_diff_mod _ (weekday * 1440 + minute - (day * 1440 + start)) ltac:(nia) eq_refl).
  rewrite (wrap64_id (day + 1)) by (unfold in_int64, min_int64, max_int64; lia).
  rewrite Z.rem_mod_nonneg by lia.
  assert ((day + 1) mod 7 = if day =? 6 then 0 else day + 1) as ->.
  { destruct (day =? 6) eqn:?; zbool; [by subst|]. apply Z.mod_small. lia. }
  destruct (end_ <=? start) eqn:?, (day =? 6) eqn:?; zbool;
    rewrite ?orb_true_iff, ?andb_true_iff, ?Z.eqb_eq, ?Z.leb_le, ?Z.ltb_lt;
    [| | destruct (day =? weekday) eqn:? | destruct (day =? weekday) eqn:?]; zbool; simpl;
    rewrite ?andb_true_iff, ?Z.leb_le, ?Z.ltb_lt;
    destruct (weekday * 1440 + minute - (day * 1440 + start) <? 0) eqn:?; zbool; lia.
Qed.

(** ** Properties of business hours *)

Section HoursProperties.
Context `{Env}.

(** Claim C19: the day-by-day test of isWithinBusinessHours, midnight-spanning
    windows included, is membership of the current minute of the week, read on
    the campaign's own clock, in one of the windows seen as half-open intervals
    of a circular week of 10080 minutes. *)
Theorem business_hours_are_week_intervals (t : Time) (c : Campaign) loc :
  c.(c_BusinessHours) <> [] -> LoadLocation c.(c_TimeZone) = Some loc ->
  Forall window_wf c.(c_BusinessHours) ->
  isWithinBusinessHours t c = true <->
  Exists (open_at (week_minute (In loc t))) c.(c_BusinessHours).
Proof.
  intros Hne Hloc Hwf. unfold isWithinBusinessHours.
  rewrite Hloc. destruct c.(c_BusinessHours) as [|w ws] eqn:E; [done|]. clear Hne E.
  rewrite existsb_exists, Exists_exists.
  setoid_rewrite list_elem_of_In.
  assert (forall win, List.In win (w :: ws) ->
    in_window (Hour (In loc t) * 60 + Minute (In loc t)) (Weekday (In loc t)) win = true <->
    open_at (week_minute (In loc t)) win) as Hiff.
  { intros win Hin. rewrite <- day_minutes. apply in_window_spec.
    - apply minute_of_day_range.
    - apply Weekday_range.
    - rewrite Forall_forall in Hwf. by apply Hwf, list_elem_of_In. }
  split; intros (win & Hin & Hw); exists win; (split; [done|]); by apply Hiff.
Qed.

(** The test fails open: with no windows, or a zone that cannot be
    loaded, every instant is within business hours. *)
Lemma business_hours_fail_open (t : Time) (c : Campaign) :
  c.(c_BusinessHours) = [] \/ LoadLocation c.(c_TimeZone) = None ->
  isWithinBusinessHours t c = true.
Proof.
  unfold isWithinBusinessHours. intros [-> | ->]; [done|]. by destruct (c_BusinessHours c).
Qed.
End HoursProperties.

(** ** Witnesses: Monday 2024-01-01, 10:00 UTC *)

Definition monday_10am : Time := 1704103200 * Second.
Definition hours_campaign (zone : string) (hours : list BusinessHourWindow) : Campaign :=
  mkCampaign 3 "spring" EmptyString zone hours 10 (mkRetryPolicy 5 0 0 f64_zero)
    CampaignStatusInProgress 0 0 None None.

Lemma week_intervals_witness :
  let c := hours_campaign "UTC" [mkWindow 0 (date_0000_01_01 22 0) (date_0000_01_01 11 0)] in
  @isWithinBusinessHours quiet_env monday_10am c = true /\
  Exists (open_at (week_minute (In UTC monday_10am))) c.(c_BusinessHours).
Proof.
  intros c. split; [vm_compute; reflexivity|].
  apply (@business_hours_are_week_intervals quiet_env monday_10am c UTC);
    [discriminate | reflexivity | | vm_compute; reflexivity].
  repeat constructor; discriminate.
Defined.
