(* ===== verification/CallWorker.v ===== *)
(** internal/worker/call/worker.go: a dispatch message becomes a call attempt
    under the campaign's concurrency limit and a status message; and the
    telephony provider of internal/telephony. *)
From S2P Require Import Prelude Errors GoTime Json Domain Messages World Queue Limiter.

(** ** Telephony *)

(** telephony.Result *)
Record CallResult := mkResult {
  res_Status : CallStatus;
  res_Duration : Duration;
  res_Retryable : bool;
  res_Error : string;
}.

(** telephony.Provider: PlaceCall returns a result together with an error. *)
Class Provider := PlaceCall : DispatchMessage -> M (CallResult * option error).

(** The float64 constant 0.6. *)
Definition f64_0_6 : float64 := S754_finite false 5404319552844595 (-53).

(** mock.Provider.PlaceCall: five to nine seconds, then a draw of 0.6. *)
Definition mock_PlaceCall `{Env} : Provider := fun _ =>
  n ← Intn 5;
  let duration := (5 + n) * Second in
  cancelled ← ctx_done;
  if (cancelled : bool)
  then (err ← ctx_err; mret (mkResult CallStatusFailed duration true (error_text err), Some err))
  else
    f ← Float64;
    if SFleb f f64_0_6 then mret (mkResult CallStatusCompleted duration false EmptyString, None)
    else mret (mkResult CallStatusFailed duration true "simulated failure", None).

(** ** The worker *)

Record CallWorker := mkCallWorker {
  cw_limiter : Limiter;
  cw_DefaultPerCampaign : int;
  cw_StatusTopic : string;
  cw_ConsumerGroupID : string;
}.

(** What waitForSlot returns: no slot needed, a slot to release, or, when the
    fuel of the model ends first, still waiting. *)
Inductive slot := NoSlot | HeldSlot | Waiting.

Section Worker.
Context `{Env} `{UuidText}.

(** ** Backoff *)

Definition retry_base (msg : DispatchMessage) : Duration :=
  let base := of_ms msg.(dm_RetryBaseMs) in if base <=? 0 then 2 * Second else base.

Definition retry_max (msg : DispatchMessage) : Duration :=
  let maxDelay := of_ms msg.(dm_RetryMaxMs) in if maxDelay <=? 0 then 2 * MinuteD else maxDelay.

(** The delay before jitter. *)
Definition backoff (msg : DispatchMessage) : Duration :=
  let exponent := f64_pow2 (wrap64 (msg.(dm_Attempt) - 1)) in
  let delay := wrap64 (f64_to_int64 exponent * retry_base msg) in
  if retry_max msg <? delay then retry_max msg else delay.

(** [r] is the draw of rng.Float64(). *)
Definition jittered (msg : DispatchMessage) (r : float64) : Duration :=
  let delay := backoff msg in
  let jitterFraction :=
    f64_sub (f64_mul r msg.(dm_RetryJitter)) (f64_div msg.(dm_RetryJitter) (f64_of_Z 2)) in
  let jitter := f64_to_int64 (f64_mul (f64_of_Z delay) jitterFraction) in
  let delay := wrap64 (delay + jitter) in
  if delay <? retry_base msg then retry_base msg else delay.

Definition computeNextAttempt (msg : DispatchMessage) : M Time :=
  delay ← (if f64_ltb f64_zero msg.(dm_RetryJitter)
           then (r ← Float64; mret (jittered msg r))
           else mret (backoff msg));
  t ← now;
  mret (t + delay).

(** ** Waiting for a slot *)

Definition slot_limit (cw : CallWorker) (dispatch : DispatchMessage) : option int :=
  if bool_decide (dispatch.(dm_CampaignID) = uuid_Nil) then None
  else
    let limit := if dispatch.(dm_ConcurrencyLimit) <=? 0 then cw.(cw_DefaultPerCampaign)
                 else dispatch.(dm_ConcurrencyLimit) in
    if limit <=? 0 then None else Some limit.

Fixpoint acquire_loop (fuel : nat) (cw : CallWorker) (campaignID : uuid) (limit : int) : M slot :=
  match fuel with
  | O => mret Waiting
  | S fuel =>
      r ← attempt (Acquire cw.(cw_limiter) campaignID limit);
      match r with
      | Err err =>
          stop ← ctx_done;
          if (stop : bool) then throw context_canceled else throw err
      | Ok true => mret HeldSlot
      | Ok false =>
          stop ← ctx_done;
          if (stop : bool) then throw context_canceled else acquire_loop fuel cw campaignID limit
      end
  end.

Definition waitForSlot (fuel : nat) (cw : CallWorker) (dispatch : DispatchMessage) : M slot :=
  match slot_limit cw dispatch with
  | None => mret NoSlot
  | Some limit => acquire_loop fuel cw dispatch.(dm_CampaignID) limit
  end.

(** ** The status message of a finished attempt *)

Definition status_of (dispatch : DispatchMessage) (result : CallResult) (callErr : option error)
    (stamp : Time) : StatusMessage :=
  let more := dispatch.(dm_Attempt) <? dispatch.(dm_MaxAttempts) in
  let duration := if 0 <? result.(res_Duration) then Z.quot result.(res_Duration) Millisecond else 0 in
  let '(status, err, retryable) :=
    match callErr with
    | Some e =>
        if bool_decide (result.(res_Error) = EmptyString)
        then (call_status_text CallStatusFailed, error_text e, more)
        else (call_status_text result.(res_Status), result.(res_Error), result.(res_Retryable) && more)
    | None => (call_status_text result.(res_Status), result.(res_Error), result.(res_Retryable) && more)
    end in
  mkStatus dispatch.(dm_CallID) dispatch.(dm_CampaignID) dispatch.(dm_PhoneNumber) status
    dispatch.(dm_Attempt) dispatch.(dm_MaxAttempts) retryable dispatch.(dm_RetryBaseMs)
    dispatch.(dm_RetryMaxMs) dispatch.(dm_RetryJitter) dispatch.(dm_ConcurrencyLimit)
    duration err stamp None dispatch.(dm_Metadata).

Definition with_next_attempt (t : option Time) (m : StatusMessage) : StatusMessage :=
  let '(mkStatus a b c d e f g h i j k l n o _ q) := m in
  mkStatus a b c d e f g h i j k l n o t q.

Context `{Provider}.

(** From the call to the commit, with the slot (if any) held. *)
Definition place_and_report (cw : CallWorker) (dispatch : DispatchMessage) (m : KafkaMessage)
    : M () :=
  rc ← PlaceCall dispatch;
  stamp ← now;
  let statusMsg := status_of dispatch rc.1 rc.2 stamp in
  next ← (if statusMsg.(sm_Retryable) then (t ← computeNextAttempt dispatch; mret (Some t))
          else mret None);
  let statusMsg := with_next_attempt next statusMsg in
  ignore (PublishStatus cw.(cw_StatusTopic) statusMsg) ≫= fun _ =>
  on_err (wrapf "commit message") (CommitMessages cw.(cw_ConsumerGroupID) m).

(** processMessage; [Waiting] when the fuel ends before a slot is free. *)
Definition processMessage (fuel : nat) (cw : CallWorker) (m : KafkaMessage) : M slot :=
  match unmarshal_dispatch m.(km_Value) with
  | None =>
      ignore (CommitMessages cw.(cw_ConsumerGroupID) m) ≫= fun _ =>
      throw (wrapf "unmarshal dispatch" (New "json: cannot unmarshal"))
  | Some dispatch =>
      held ← waitForSlot fuel cw dispatch;
      match held with
      | Waiting => mret Waiting
      | NoSlot => place_and_report cw dispatch m ≫= fun _ => mret NoSlot
      | HeldSlot =>
          r ← attempt (place_and_report cw dispatch m);
          ignore (Release cw.(cw_limiter) dispatch.(dm_CampaignID)) ≫= fun _ =>
          match r with
          | Ok _ => mret HeldSlot
          | Err e => throw e
          end
      end
  end.
End Worker.

(** ** Lemmas on the backoff *)

Lemma pow2_exact n : 0 <= n <= 62 -> f64_trunc (f64_pow2 n) = Some (2 ^ n).
Proof.
  intros Hn.
  assert (forallb (fun k => bool_decide (f64_trunc (f64_pow2 (Z.of_nat k)) = Some (2 ^ Z.of_nat k)))
            (seq 0 63) = true) as Hall by (vm_compute; reflexivity).
  rewrite forallb_forall in Hall.
  specialize (Hall (Z.to_nat n)). rewrite Z2Nat.id in Hall by lia.
  apply bool_decide_eq_true_1 in Hall; [done|]. apply in_seq. lia.
Qed.

Section Backoff.
Context `{Env}.

Lemma pow2_int64 n : 0 <= n <= 62 -> f64_to_int64 (f64_pow2 n) = 2 ^ n.
Proof.
  intros Hn. unfold f64_to_int64. rewrite pow2_exact by done.
  rewrite bool_decide_true; [done|]. unfold in_int64, min_int64, max_int64.
  pose proof (Z.pow_pos_nonneg 2 n). pose proof (Z.pow_le_mono_r 2 n 62). lia.
Qed.

Lemma retry_base_pos msg : 0 < retry_base msg.
Proof. unfold retry_base. case_match; zbool; [done|lia]. Qed.

Lemma retry_max_pos msg : 0 < retry_max msg.
Proof. unfold retry_max. case_match; zbool; [done|lia]. Qed.

(** As long as the product fits 64 bits, the delay is the capped exponential. *)
Lemma backoff_eq msg :
  1 <= msg.(dm_Attempt) <= 63 ->
  2 ^ (msg.(dm_Attempt) - 1) * retry_base msg <= max_int64 ->
  backoff msg = Z.min (retry_max msg) (2 ^ (msg.(dm_Attempt) - 1) * retry_base msg).
Proof.
  intros Ha Hfit. pose proof (retry_base_pos msg). unfold backoff.
  assert (0 < 2 ^ (msg.(dm_Attempt) - 1)) by (apply Z.pow_pos_nonneg; lia).
  rewrite (wrap64_id (_ - 1)) by (unfold in_int64, min_int64, max_int64; lia).
  rewrite pow2_int64 by lia.
  rewrite wrap64_id by (unfold in_int64, min_int64; nia).
  case_match; zbool; lia.
Qed.

Lemma jittered_ge msg r : retry_base msg <= jittered msg r.
Proof. unfold jittered. case_match; zbool; lia. Qed.
End Backoff.

(** ** Properties of the backoff *)

Section BackoffProperties.
Context `{Env}.

(** Claim C35: while base * 2^(attempt-1) fits in 64 bits, the delay before
    jitter is exactly min(maxDelay, base * 2^(attempt-1)); it is positive, never
    above the maximum, and never shorter for a later attempt. *)
Theorem backoff_capped_exponential (msg msg' : DispatchMessage) :
  1 <= msg.(dm_Attempt) <= msg'.(dm_Attempt) -> msg'.(dm_Attempt) <= 63 ->
  retry_base msg' = retry_base msg -> retry_max msg' = retry_max msg ->
  2 ^ (msg'.(dm_Attempt) - 1) * retry_base msg <= max_int64 ->
  backoff msg = Z.min (retry_max msg) (2 ^ (msg.(dm_Attempt) - 1) * retry_base msg) /\
  0 < backoff msg <= retry_max msg /\ backoff msg <= backoff msg'.
Proof.
  intros Ha Ha' Hb Hm Hfit.
  pose proof (retry_base_pos msg). pose proof (retry_max_pos msg).
  assert (0 < 2 ^ (msg.(dm_Attempt) - 1)) by (apply Z.pow_pos_nonneg; lia).
  assert (2 ^ (msg.(dm_Attempt) - 1) <= 2 ^ (msg'.(dm_Attempt) - 1)) by (apply Z.pow_le_mono_r; lia).
  assert (2 ^ (msg.(dm_Attempt) - 1) * retry_base msg <=
          2 ^ (msg'.(dm_Attempt) - 1) * retry_base msg) by (apply Z.mul_le_mono_nonneg_r; lia).
  assert (0 < 2 ^ (msg.(dm_Attempt) - 1) * retry_base msg) by (apply Z.mul_pos_pos; lia).
  rewrite (backoff_eq msg') by (rewrite ?Hb; lia).
  rewrite (backoff_eq msg) by lia. rewrite Hb, Hm. lia.
Qed.

(** With a jitter factor, whatever is drawn, the next attempt is at
    least the base delay after the moment it is computed. *)
Theorem next_attempt_after_base_delay (msg : DispatchMessage) (w w' : World) (t : Time) :
  f64_ltb f64_zero msg.(dm_RetryJitter) = true ->
  computeNextAttempt msg w = (w', Ok t) ->
  env_now (S w.(w_tick)) + retry_base msg <= t /\ 0 < retry_base msg.
Proof.
  intros Hj Hrun. unfold computeNextAttempt in Hrun. rewrite Hj in Hrun.
  pose proof (retry_base_pos msg). pose proof (jittered_ge msg (env_rand w.(w_tick))).
  run_monad_in Hrun. simplify_eq. rewrite ?tick_bump. lia.
Qed.

(** The product is not guarded against overflow. With the default
    two-second base the delay of the 34th attempt wraps to a negative number,
    which the cap does not catch: the next attempt lies in the past. *)
Theorem backoff_overflow_goes_to_the_past (msg : DispatchMessage) (w w' : World) (t : Time) :
  msg.(dm_Attempt) = 34 -> msg.(dm_RetryBaseMs) = 2000 ->
  f64_ltb f64_zero msg.(dm_RetryJitter) = false ->
  computeNextAttempt msg w = (w', Ok t) -> t < env_now w.(w_tick).
Proof.
  intros Ha Hb Hj Hrun. unfold computeNextAttempt in Hrun. rewrite Hj in Hrun.
  assert (backoff msg < 0) as Hneg.
  { pose proof (retry_max_pos msg). unfold backoff.
    rewrite Ha. change (wrap64 (34 - 1)) with 33. rewrite pow2_int64 by lia.
    assert (retry_base msg = 2000000000) as -> by (unfold retry_base; by rewrite Hb).
    assert (wrap64 (2 ^ 33 * 2000000000) < 0) by (vm_compute; reflexivity).
    case_match; zbool; lia. }
  run_monad_in Hrun. simplify_eq. rewrite ?tick_bump. lia.
Qed.
End BackoffProperties.

Definition sample_msg (attempt base max : Z) (jitter : float64) : DispatchMessage :=
  mkDispatch 7 3 "+15555550001" attempt 40 base max jitter 10 None 0.

Lemma backoff_capped_witness :
  let m := sample_msg 2 2000 30000 f64_zero in
  let m' := sample_msg 3 2000 30000 f64_zero in
  @backoff quiet_env m = Z.min (retry_max m) (2 ^ 1 * retry_base m) /\
  0 < @backoff quiet_env m <= retry_max m /\ @backoff quiet_env m <= @backoff quiet_env m'.
Proof.
  intros m m'. apply (@backoff_capped_exponential quiet_env m m'); vm_compute; intuition discriminate.
Defined.

Lemma next_attempt_witness :
  let m := sample_msg 2 2000 30000 f64_0_6 in
  exists w' t, @computeNextAttempt quiet_env m empty_world = (w', Ok t) /\
    @env_now quiet_env 1 + retry_base m <= t /\ 0 < retry_base m.
Proof.
  intros m. do 2 eexists. split; [vm_compute; reflexivity|].
  eapply (@next_attempt_after_base_delay quiet_env m empty_world); vm_compute; reflexivity.
Defined.

Lemma overflow_witness :
  let m := sample_msg 34 2000 120000 f64_zero in
  exists w' t, @computeNextAttempt quiet_env m empty_world = (w', Ok t) /\ t < @env_now quiet_env 0.
Proof.
  intros m. do 2 eexists. split; [vm_compute; reflexivity|].
  eapply (@backoff_overflow_goes_to_the_past quiet_env m empty_world); vm_compute; reflexivity.
Defined.
