(* ===== verification/StatusWorker.v ===== *)
(** internal/worker/status/worker.go: a status message updates the call record,
    the attempt timeline and the statistics, and schedules a retry. *)
From S2P Require Import Prelude Errors GoTime Json Domain Messages World Postgres Scylla Queue.

Record StatusWorker := mkStatusWorker {
  sw_ConsumerGroupID : string;
  sw_RetryTopics : list string;
}.

Definition status_group (sw : StatusWorker) : string :=
  String.append sw.(sw_ConsumerGroupID) "-status".

Definition optionalString (value : string) : option string :=
  if bool_decide (value = EmptyString) then None else Some value.

(** The counters a status message changes. *)
Definition status_delta (status : StatusMessage) : StatsDelta :=
  let retries := if 1 <? status.(sm_Attempt) then 1 else 0 in
  match call_status_of status.(sm_Status) with
  | CallStatusCompleted => mkDelta 0 1 0 0 (-1) retries
  | CallStatusFailed =>
      if status.(sm_Retryable) then mkDelta 0 0 0 0 0 retries
      else mkDelta 0 0 1 0 (-1) retries
  | _ => mkDelta 0 0 0 0 0 retries
  end.

Definition retry_of (status : StatusMessage) (next : Time) : RetryMessage :=
  mkRetry
    (mkDispatch status.(sm_CallID) status.(sm_CampaignID) status.(sm_PhoneNumber)
       (wrap64 (status.(sm_Attempt) + 1)) status.(sm_MaxAttempts) status.(sm_RetryBaseMs)
       status.(sm_RetryMaxMs) status.(sm_RetryJitter) status.(sm_ConcurrencyLimit)
       status.(sm_Metadata) next)
    status.(sm_MaxAttempts) next.

Definition attempt_of (id : uuid) (status : StatusMessage) : CallAttempt :=
  mkCallAttempt id status.(sm_CallID) status.(sm_Attempt) (call_status_of status.(sm_Status))
    status.(sm_Error) status.(sm_OccurredAt) (of_ms status.(sm_DurationMs)).

Section Worker.
Context `{Env} `{UuidText}.

Definition record_status (status : StatusMessage) : M () :=
  ignore (CallStore_UpdateCallStatus status.(sm_CallID) (call_status_of status.(sm_Status))
            status.(sm_Attempt) (optionalString status.(sm_Error))) ≫= fun _ =>
  id ← uuid_New;
  ignore (CallStore_AppendAttempt (attempt_of id status)).

Definition count_status (status : StatusMessage) : M () :=
  if bool_decide (status.(sm_CampaignID) = uuid_Nil) then mret ()
  else ignore (CampaignStatisticsRepository_ApplyDelta status.(sm_CampaignID) (status_delta status)).

Definition schedule_retry (sw : StatusWorker) (status : StatusMessage) : M () :=
  match status.(sm_Retryable), status.(sm_NextAttempt) with
  | true, Some next =>
      ignore (ScheduleRetry sw.(sw_RetryTopics) status.(sm_Attempt) (retry_of status next))
  | _, _ => mret ()
  end.

(** The body of the loop of Run for one fetched record. *)
Definition handle_status (sw : StatusWorker) (m : KafkaMessage) : M () :=
  match unmarshal_status m.(km_Value) with
  | None => ignore (CommitMessages (status_group sw) m)
  | Some status =>
      record_status status ≫= fun _ =>
      count_status status ≫= fun _ =>
      schedule_retry sw status ≫= fun _ =>
      ignore (CommitMessages (status_group sw) m)
  end.
End Worker.
