(* ===== verification/RetryWorker.v ===== *)
(** internal/worker/retry/worker.go: a retry message is held until its time and
    dispatched again. *)
From S2P Require Import Prelude Errors GoTime Json Domain Messages World Queue CallWorker.

Record RetryWorker := mkRetryWorker {
  rw_ConsumerGroupID : string;
  rw_RetryConsumerGroupID : string;
  rw_CallTopic : string;
}.

(** The consumer group of the topic with the given (1-based) index. *)
Definition retry_group (rw : RetryWorker) (attemptIndex : int) : string :=
  if bool_decide (rw.(rw_RetryConsumerGroupID) = EmptyString)
  then String.append rw.(rw_ConsumerGroupID) (String.append "-retry-" (pretty attemptIndex))
  else String.append rw.(rw_RetryConsumerGroupID) (String.append "-" (pretty attemptIndex)).

Section Worker.
Context `{Env} `{UuidText}.

Definition sleepUntil (t : Time) : M () :=
  t0 ← now;
  if t - t0 <=? 0 then mret ()
  else
    stop ← ctx_done;
    if (stop : bool) then throw context_canceled else mret ().

(** The body of the loop of consumeTopic for one fetched record. *)
Definition handle_retry (rw : RetryWorker) (attemptIndex : int) (msg : KafkaMessage) : M () :=
  let commit := ignore (CommitMessages (retry_group rw attemptIndex) msg) in
  match unmarshal_retry msg.(km_Value) with
  | None => commit
  | Some retryMsg =>
      slept ← attempt (sleepUntil retryMsg.(rm_NextAttempt));
      match slept with
      | Err _ => commit
      | Ok _ =>
          t ← now;
          let dispatch := set_dm_EnqueuedAt t retryMsg.(rm_DispatchMessage) in
          r ← attempt (DispatchCall rw.(rw_CallTopic) dispatch);
          match r with
          | Err _ => mret ()
          | Ok _ => commit
          end
      end
  end.
End Worker.
