(* ===== verification/Effects.v ===== *)
(** What each operation of the program may write, as type classes over a
    preorder on worlds: an invariant ([inv I]) or an observation ([keeps g])
    that tolerates the writes an operation makes is respected by the operation,
    under every fault and every choice of the oracle. *)
From S2P Require Import Prelude Errors GoTime Json Domain Messages World Postgres PostgresInv.
From S2P Require Import Scylla Queue Limiter CampaignService CallService CallLists Requests.
From S2P Require Import Handlers Scheduler CallWorker StatusWorker RetryWorker.

(** ** The effects *)

Class CanRun (R : relation World) := {
  can_preorder :: PreOrder R;
  can_bump : forall w, R w (bump w);
}.

Class CanWriteCampaigns `{Env} (R : relation World) := {
  can_insert_campaign : forall r w w' a, insert_campaign r w = Ok (w', a) -> R w w';
  can_update_campaign : forall id f w w' n,
    (forall r, (f r).(cr_ID) = r.(cr_ID)) -> update_campaign id f w = Ok (w', n) -> R w w';
}.

Class CanWriteHours `{Env} (R : relation World) :=
  can_replace_hours : forall c ws, stable R (BusinessHourRepository_Replace c ws).

Class CanInsertTargets (R : relation World) :=
  can_insert_targets : forall c ts w w' a, insert_targets c ts w = Ok (w', a) -> R w w'.

Class CanUpdateTargets (R : relation World) := {
  can_set_state : forall c ids s w, R w (update_targets c ids (with_state s) w);
  can_set_schedule : forall c ids t w, R w (update_targets c ids (with_schedule t) w);
}.

Class CanEnsureStats (R : relation World) :=
  can_ensure_stats : forall c w w' a, ensure_stats c w = Ok (w', a) -> R w w'.

(** The changes of the counters the program makes. *)
Definition program_delta (d : StatsDelta) : Prop :=
  d = queued_delta \/ d = undo_delta \/ exists s, d = status_delta s.

Class CanApplyDelta (R : relation World) :=
  can_apply_delta : forall c d w w' a, program_delta d -> apply_delta c d w = Ok (w', a) -> R w w'.

Class CanWriteCalls (R : relation World) := {
  can_put_call : forall key row w, R w (set_calls (<[key := row]> w.(w_calls)) w);
  can_set_by_status : forall v w, R w (set_by_status v w);
}.

Class CanWriteAttempts (R : relation World) := can_set_attempts : forall v w, R w (set_attempts v w).

Class CanWriteRedis (R : relation World) := can_set_redis : forall v w, R w (set_redis v w).

Class CanPublish (R : relation World) :=
  can_publish : forall t m w, R w (set_log (w.(w_log) ++ [(t, m)]) w).
Class CanCommit (R : relation World) :=
  can_commit : forall g m w, R w (set_commits (w.(w_commits) ++ [(g, m)]) w).

(** ** Automation *)

(** Closes the side condition of an external call. *)
Ltac effect_leaf :=
  intros;
  repeat match goal with
  | H : cql_int _ _ _ = Ok _ |- _ => unfold cql_int in H; case_hyp H; [|done]
  end;
  first
  [ by eapply can_insert_campaign
  | eapply can_update_campaign; [|eassumption]; by intros
  | by eapply can_insert_targets
  | by eapply can_ensure_stats
  | by eapply can_apply_delta
  | simplify_eq; first
    [ reflexivity | apply can_set_state | apply can_set_schedule | apply can_put_call
    | apply can_set_by_status | apply can_set_attempts | apply can_set_redis
    | apply can_publish | apply can_commit ]
  | repeat match goal with H : context [let '(_, _) := ?x in _] |- _ => destruct x end;
    simplify_eq; apply can_set_redis
  | repeat case_match; simplify_eq; reflexivity ].

Ltac effects :=
  repeat first
  [ match goal with
    | |- stable _ (mret _ ≫= _) => apply stable_ret_bind
    | |- stable _ (throw _ ≫= _) => apply stable_throw_bind; typeclasses eauto
    | |- stable _ (_ ≫= _) => apply stable_bind; [typeclasses eauto | | intros ?]
    | |- stable _ (external _) =>
        apply stable_external; [typeclasses eauto | apply can_bump | effect_leaf]
    | |- stable _ (for_each _ _) => apply stable_for_each; [typeclasses eauto | intros ?]
    | |- stable _ (on_err _ _) => apply stable_on_err
    | |- stable _ (attempt _) => apply stable_attempt
    | |- stable _ (ignore _) => apply stable_ignore
    | |- stable _ (mret _) => apply stable_ret; typeclasses eauto
    | |- stable _ (throw _) => apply stable_throw; typeclasses eauto
    | |- stable _ now => apply stable_now, can_bump
    | |- stable _ uuid_New => apply stable_uuid_New, can_bump
    | |- stable _ Float64 => apply stable_Float64, can_bump
    | |- stable _ (Intn _) => apply stable_Intn, can_bump
    | |- stable _ ctx_done => apply stable_ctx_done, can_bump
    | |- stable _ ctx_err => apply stable_ctx_err, can_bump
    | |- stable _ (if ?b then _ else _) => destruct b
    | |- stable _ (match ?x with _ => _ end) => destruct x eqn:?
    end
  | assumption
  | solve [eauto 2 with stable]
  | solve [typeclasses eauto with stable typeclass_instances] ].

(** Takes a program apart, down to the operations it calls. *)
Ltac composed :=
  repeat match goal with
  | |- _ _ (mret _) => apply composes_return
  | |- _ _ (throw _) => apply composes_return
  | |- _ _ (_ ≫= _) => apply composes_bind; [|intros ?]
  | |- _ _ (on_err _ _) => apply composes_map_result
  | |- _ _ (attempt _) => apply composes_map_result
  | |- _ _ (ignore _) => apply composes_map_result
  | |- _ _ (if ?b then _ else _) => destruct b
  | |- _ _ (match ?x with _ => _ end) => destruct x eqn:?
  | |- _ => assumption
  end.

Lemma program_delta_queued : program_delta queued_delta.
Proof. by left. Qed.
Lemma program_delta_undo : program_delta undo_delta.
Proof. right. by left. Qed.
Lemma program_delta_status s : program_delta (status_delta s).
Proof. right. right. by exists s. Qed.
#[export] Hint Resolve program_delta_queued program_delta_undo program_delta_status : stable.

Section Effects.
Context `{Env} `{PgOrder} `{UuidText} (R : relation World) `{!CanRun R}.

(** ** Repositories *)

Lemma eff_campaign_get id : stable R (CampaignRepository_Get id).
Proof. unfold CampaignRepository_Get. effects. Qed.
Lemma eff_campaign_list s n : stable R (CampaignRepository_ListByStatus s n).
Proof. unfold CampaignRepository_ListByStatus. effects. Qed.
Lemma eff_campaign_create `{!CanWriteCampaigns R} c : stable R (CampaignRepository_Create c).
Proof. unfold CampaignRepository_Create. effects. Qed.
Lemma eff_campaign_update `{!CanWriteCampaigns R} c : stable R (CampaignRepository_Update c).
Proof. unfold CampaignRepository_Update, rows_or_not_found. effects. Qed.
Lemma eff_campaign_update_status `{!CanWriteCampaigns R} id s :
  stable R (CampaignRepository_UpdateStatus id s).
Proof. unfold CampaignRepository_UpdateStatus, rows_or_not_found. effects. Qed.
Lemma eff_hours_replace `{!CanWriteHours R} c ws : stable R (BusinessHourRepository_Replace c ws).
Proof. apply can_replace_hours. Qed.
Lemma eff_hours_list c : stable R (BusinessHourRepository_List c).
Proof. unfold BusinessHourRepository_List. effects. Qed.
Lemma eff_bulk_insert `{!CanInsertTargets R} c ts :
  stable R (CampaignTargetRepository_BulkInsert c ts).
Proof. unfold CampaignTargetRepository_BulkInsert. effects. Qed.
Lemma eff_next_batch c n : stable R (CampaignTargetRepository_NextBatchForScheduling c n).
Proof. unfold CampaignTargetRepository_NextBatchForScheduling. effects. Qed.
Lemma eff_list_targets c n s : stable R (CampaignTargetRepository_ListByCampaign c n s).
Proof. unfold CampaignTargetRepository_ListByCampaign. effects. Qed.
Lemma eff_mark_scheduled `{!CanUpdateTargets R} c ids t :
  stable R (CampaignTargetRepository_MarkScheduled c ids t).
Proof. unfold CampaignTargetRepository_MarkScheduled. effects. Qed.
Lemma eff_set_state `{!CanUpdateTargets R} c ids s :
  stable R (CampaignTargetRepository_SetState c ids s).
Proof. unfold CampaignTargetRepository_SetState. effects. Qed.
Lemma eff_stats_ensure `{!CanEnsureStats R} c : stable R (CampaignStatisticsRepository_Ensure c).
Proof. unfold CampaignStatisticsRepository_Ensure. effects. Qed.
Lemma eff_stats_get c : stable R (CampaignStatisticsRepository_Get c).
Proof. unfold CampaignStatisticsRepository_Get. effects. Qed.
Lemma eff_apply_delta `{!CanApplyDelta R} c d :
  program_delta d -> stable R (CampaignStatisticsRepository_ApplyDelta c d).
Proof. intros. unfold CampaignStatisticsRepository_ApplyDelta. effects. Qed.

Lemma eff_get_call id : stable R (CallStore_GetCall id).
Proof. unfold CallStore_GetCall. effects. Qed.
Lemma eff_create_call `{!CanWriteCalls R} c : stable R (CallStore_CreateCall c).
Proof. unfold CallStore_CreateCall. effects. Qed.
Lemma eff_append_attempt `{!CanWriteAttempts R} a : stable R (CallStore_AppendAttempt a).
Proof. unfold CallStore_AppendAttempt. effects. Qed.

(** ** Queues and limiter *)

Lemma eff_write `{!CanPublish R} t m : stable R (WriteMessages t m).
Proof. apply stable_write; [apply _|apply can_bump|apply can_publish]. Qed.
Lemma eff_commit `{!CanCommit R} g m : stable R (CommitMessages g m).
Proof. unfold CommitMessages. effects. Qed.
Lemma eff_acquire `{!CanWriteRedis R} l c n : stable R (Acquire l c n).
Proof. unfold Acquire. effects. Qed.
Lemma eff_release `{!CanWriteRedis R} l c : stable R (Release l c).
Proof. unfold Release. effects. Qed.
End Effects.

#[export] Hint Resolve eff_campaign_get eff_campaign_list eff_campaign_create eff_campaign_update
  eff_campaign_update_status eff_hours_replace eff_hours_list eff_bulk_insert eff_next_batch
  eff_list_targets eff_mark_scheduled eff_set_state eff_stats_ensure eff_stats_get eff_apply_delta
  eff_get_call eff_create_call eff_append_attempt eff_write eff_commit eff_acquire eff_release
  : stable.

Section Components.
Context `{Env} `{PgOrder} `{UuidText} (R : relation World) `{!CanRun R}.

Lemma eff_update_call_status `{!CanWriteCalls R} id s n e :
  stable R (CallStore_UpdateCallStatus id s n e).
Proof. unfold CallStore_UpdateCallStatus. effects. Qed.
Lemma eff_dispatch `{!CanPublish R} t m : stable R (DispatchCall t m).
Proof. unfold DispatchCall, marshalled. effects. Qed.
Lemma eff_publish_status `{!CanPublish R} t m : stable R (PublishStatus t m).
Proof. unfold PublishStatus, marshalled. effects. Qed.
Lemma eff_schedule_retry `{!CanPublish R} ts a m : stable R (ScheduleRetry ts a m).
Proof. unfold ScheduleRetry, marshalled. effects. Qed.
Hint Resolve eff_update_call_status eff_dispatch eff_publish_status eff_schedule_retry : stable.

(** ** Services *)

Lemma eff_new_records c t ts : stable R (new_records c t ts).
Proof. induction ts; cbn [new_records]; effects. Qed.
Hint Resolve eff_new_records : stable.
Lemma eff_Create `{!CanWriteCampaigns R, !CanWriteHours R, !CanEnsureStats R, !CanInsertTargets R}
  d i : stable R (Create d i).
Proof. unfold Create. effects. Qed.
Lemma eff_Update `{!CanWriteCampaigns R, !CanWriteHours R} d i : stable R (Update d i).
Proof. unfold Update. effects. Qed.
Lemma eff_Start `{!CanWriteCampaigns R} id : stable R (Start id).
Proof. unfold Start. effects. Qed.
Lemma eff_Pause `{!CanWriteCampaigns R} id : stable R (Pause id).
Proof. unfold Pause. effects. Qed.
Lemma eff_Complete `{!CanWriteCampaigns R} id : stable R (Complete id).
Proof. unfold Complete. effects. Qed.
Lemma eff_AddTargets `{!CanInsertTargets R} c ts : stable R (AddTargets c ts).
Proof. unfold AddTargets. effects. Qed.
Lemma eff_validate_phone c p : stable R (validatePhoneInCampaignTargets c p).
Proof. unfold validatePhoneInCampaignTargets. effects. Qed.
Hint Resolve eff_validate_phone : stable.
Lemma eff_TriggerCall `{!CanWriteCalls R, !CanApplyDelta R, !CanPublish R} s i :
  stable R (TriggerCall s i).
Proof. unfold TriggerCall. effects. Qed.
Hint Resolve eff_TriggerCall : stable.

(** ** Scheduler *)

Lemma eff_fill_hours cs : stable R (fill_hours cs).
Proof. induction cs; cbn [fill_hours]; effects. Qed.
Hint Resolve eff_fill_hours : stable.
Lemma eff_pending_retries ts : stable R (hasPendingRetries ts).
Proof. induction ts; cbn [hasPendingRetries]; unfold FetchFirst in *; effects. Qed.
Hint Resolve eff_pending_retries : stable.
(** The scheduler's own writes are the states of targets; the rest is TriggerCall. *)
Section GivenTriggerCall.
Context (P : forall A, M A -> Prop) `{!Composes P} (Hwrites : forall A (m : M A), stable R m -> P A m).
Context (s : CallService) (Htrigger : forall i, P _ (TriggerCall s i)).

Lemma eff_trigger_targets c ts : P _ (trigger_targets s c ts).
Proof using All. induction ts; cbn [trigger_targets]; composed; apply Htrigger. Qed.
Lemma eff_schedule_campaign `{!CanUpdateTargets R} cfg t c : P _ (schedule_campaign cfg s t c).
Proof using All.
  pose proof eff_trigger_targets. unfold schedule_campaign, call_batch. composed; auto; apply Hwrites; effects.
Qed.
Lemma eff_tick_given `{!CanUpdateTargets R} cfg : P _ (tick cfg s).
Proof using All.
  unfold tick, ListByStatus. composed; try solve [apply Hwrites; effects].
  match goal with |- P _ (for_each ?l _) => induction l end; cbn [for_each]; composed.
  by apply eff_schedule_campaign.
Qed.
End GivenTriggerCall.

Lemma eff_tick `{!CanWriteCalls R, !CanApplyDelta R, !CanPublish R, !CanUpdateTargets R} cfg s :
  stable R (tick cfg s).
Proof. apply (eff_tick_given (fun A => stable R)); try done; try apply _. intros. effects. Qed.

(** ** Workers *)

Lemma eff_acquire_loop `{!CanWriteRedis R} n cw c l : stable R (acquire_loop n cw c l).
Proof. induction n; cbn [acquire_loop]; effects. Qed.
Hint Resolve eff_acquire_loop : stable.
Lemma eff_place_and_report `{!Provider} `{!CanPublish R, !CanCommit R} cw d m :
  (forall d, stable R (PlaceCall d)) -> stable R (place_and_report cw d m).
Proof. intros. unfold place_and_report, computeNextAttempt. effects. Qed.
Lemma eff_processMessage `{!Provider} `{!CanWriteRedis R, !CanPublish R, !CanCommit R} n cw m :
  (forall d, stable R (PlaceCall d)) -> stable R (processMessage n cw m).
Proof.
  intros Hp. pose proof (fun cw d m => eff_place_and_report cw d m Hp).
  unfold processMessage, waitForSlot. effects.
Qed.
Lemma eff_handle_status `{!CanWriteCalls R, !CanWriteAttempts R, !CanApplyDelta R, !CanPublish R,
    !CanCommit R} sw m :
  stable R (handle_status sw m).
Proof. unfold handle_status, record_status, count_status, schedule_retry. effects. Qed.
Lemma eff_handle_retry `{!CanPublish R, !CanCommit R} rw i m : stable R (handle_retry rw i m).
Proof. unfold handle_retry, sleepUntil. effects. Qed.

(** The mock provider only draws random numbers. *)
Lemma eff_mock_place_call d : stable R (mock_PlaceCall d).
Proof. unfold mock_PlaceCall. effects. Qed.
End Components.

#[export] Hint Resolve eff_update_call_status eff_dispatch eff_publish_status eff_schedule_retry
  eff_new_records eff_Create eff_Update eff_Start eff_Pause eff_Complete eff_AddTargets
  eff_validate_phone eff_TriggerCall eff_fill_hours eff_pending_retries eff_tick eff_acquire_loop eff_processMessage eff_handle_status
  eff_handle_retry eff_mock_place_call : stable.

(** ** The handlers of the API *)

Section ApiEffects.
Context `{Env} `{PgOrder} `{UuidText} `{Gocql} `{Fiber} (R : relation World) `{!CanRun R}.

Lemma eff_or_bad_request {A} (o : option A) m : stable R (or_bad_request o m).
Proof. unfold or_bad_request. effects. Qed.
Lemma eff_lift {A} (r : result error A) : stable R (lift r).
Proof. unfold lift. effects. Qed.
Lemma eff_send {T} code (fs : list (Field T)) v : stable R (send code fs v).
Proof. unfold send. effects. Qed.
Lemma eff_list s n : stable R (List_ s n).
Proof. unfold List_, CampaignRepository_List. effects. Qed.
Lemma eff_Get id : stable R (Get id).
Proof. unfold Get. effects. Qed.
Lemma eff_Stats id : stable R (Stats id).
Proof. unfold Stats. effects. Qed.
Lemma eff_list_calls c n st : stable R (ListCallsByCampaign c n st).
Proof. unfold ListCallsByCampaign, CallStore_ListCallsByCampaign. effects. Qed.
Hint Resolve eff_or_bad_request eff_lift eff_send eff_list eff_Get eff_Stats eff_list_calls : stable.

Lemma eff_full_campaigns cs : stable R (full_campaigns cs).
Proof. induction cs; cbn [full_campaigns]; effects. Qed.
Lemma eff_health : stable R health.
Proof. unfold health, ping. effects. Qed.
Hint Resolve eff_full_campaigns eff_health : stable.

Section GivenTriggerCall.
Context (P : forall A, M A -> Prop) `{!Composes P} (Hwrites : forall A (m : M A), stable R m -> P A m).
Context (h : HandlerSet) (Htrigger : forall i, P _ (TriggerCall h.(hs_calls) i)).

(** Apart from TriggerCall, the API writes campaigns and adds targets. *)
Lemma eff_handle_editing `{!CanInsertTargets R} e ctx :
  P _ (createCampaign h ctx) -> P _ (updateCampaign h ctx) -> P _ (startCampaign ctx) ->
  P _ (pauseCampaign ctx) -> P _ (completeCampaign ctx) -> P _ (handle h e ctx).
Proof using All.
  intros ?????. destruct e; try assumption; cycle 6.
  { cbn [handle]. unfold triggerCall, parse_body. composed; try solve [apply Hwrites; effects]. apply Htrigger. }
  all: apply Hwrites; cbn [handle]; unfold listCampaigns, getCampaign, campaignStats, addTargets,
    listCampaignCalls, getCall, GetCall, SendStatus, parseUUID, parse_body; cbv zeta; effects.
Qed.

Lemma eff_handle_given `{!CanWriteCampaigns R, !CanWriteHours R, !CanEnsureStats R, !CanInsertTargets R}
  e ctx : P _ (handle h e ctx).
Proof using All.
  apply eff_handle_editing; apply Hwrites; unfold createCampaign, updateCampaign, startCampaign,
    pauseCampaign, completeCampaign, SendStatus, parseUUID, parse_body; effects.
Qed.

(** A request may do what its handler may do. *)
Lemma eff_serve_given `{!CanWriteCampaigns R, !CanWriteHours R, !CanEnsureStats R, !CanInsertTargets R}
  e ctx : P _ (serve h e ctx).
Proof using All.
  apply composes_map_result, eff_handle_given.
Qed.
End GivenTriggerCall.

Lemma eff_serve `{!CanWriteCampaigns R, !CanWriteHours R, !CanEnsureStats R, !CanInsertTargets R,
    !CanWriteCalls R, !CanApplyDelta R, !CanPublish R} h e ctx :
  stable R (serve h e ctx).
Proof. apply (eff_serve_given (fun A => stable R)); try done; try apply _. intros. effects. Qed.
End ApiEffects.

#[export] Hint Resolve eff_or_bad_request eff_lift eff_send eff_Get eff_list_calls eff_serve : stable.

(** ** What replacing business hours leaves alone *)

Section ReplaceHours.
Context `{Env}.

Definition other_tables (w : World) := (w.(w_campaigns), w.(w_targets), w.(w_stats)).
Definition other_stores (w : World) :=
  (w.(w_calls), w.(w_by_status), w.(w_attempts), w.(w_redis), w.(w_log), w.(w_commits)).

Lemma stable_replace_body (R : relation World) `{!CanRun R} :
  (forall v w, R w (set_hours v w)) ->
  (forall fn, stable R fn -> stable R (withTx fn)) ->
  forall c ws, stable R (BusinessHourRepository_Replace c ws).
Proof.
  intros Hh Htx c ws. unfold BusinessHourRepository_Replace, replace_hours_tx. apply Htx.
  repeat first
  [ match goal with
    | |- stable _ (_ ≫= _) => apply stable_bind; [typeclasses eauto | | intros ?]
    | |- stable _ (external _) => apply stable_external; [typeclasses eauto | apply can_bump | ]
    | |- stable _ (for_each _ _) => apply stable_for_each; [typeclasses eauto | intros ?]
    | |- stable _ (on_err _ _) => apply stable_on_err
    | |- stable _ (mret _) => apply stable_ret; typeclasses eauto
    | |- stable _ (match ?x with _ => _ end) => destruct x
    end ];
  unfold delete_hours, insert_hour; intros; try case_match; simplify_eq; try apply Hh; reflexivity.
Qed.

Instance keeps_other_tables : CanRun (keeps other_tables).
Proof. split; [apply _|]. by intros []. Qed.
Instance keeps_other_stores : CanRun (keeps other_stores).
Proof. split; [apply _|]. by intros []. Qed.

Lemma replace_hours_tables c ws : stable (keeps other_tables) (BusinessHourRepository_Replace c ws).
Proof.
  apply stable_replace_body; [apply _|by intros v []|].
  intros. apply stable_withTx_keeps; [by intros []| |done]. right. by intros [] [].
Qed.

Lemma replace_hours_stores c ws : stable (keeps other_stores) (BusinessHourRepository_Replace c ws).
Proof.
  apply stable_replace_body; [apply _|by intros v []|].
  intros. apply stable_withTx_keeps; [by intros []| |done]. left. by intros [] [].
Qed.

(** Replacing business hours respects what does not look at that table. *)
Lemma replace_hours_respects (R : relation World) c ws :
  (forall w w', other_tables w' = other_tables w -> other_stores w' = other_stores w -> R w w') ->
  stable R (BusinessHourRepository_Replace c ws).
Proof.
  intros HR. eapply stable_combine; [apply replace_hours_tables|apply replace_hours_stores|]. auto.
Qed.
End ReplaceHours.

(** ** Two relations at once *)

Section Meet.
Context (R S : relation World).

Definition meet : relation World := fun w w' => R w w' /\ S w w'.

Lemma stable_meet {A} (m : M A) : stable R m -> stable S m -> stable meet m.
Proof. intros HR HS. eapply stable_combine; [exact HR|exact HS|by split]. Qed.

#[export] Instance meet_preorder : PreOrder R -> PreOrder S -> PreOrder meet.
Proof. intros HR HS. split; [by split|]. intros w1 w2 w3 [] []. split; by etrans. Qed.
#[export] Instance meet_run : CanRun R -> CanRun S -> CanRun meet.
Proof. intros HR HS. split; [apply _|]. split; apply can_bump. Qed.
#[export] Instance meet_campaigns `{Env} : CanWriteCampaigns R -> CanWriteCampaigns S -> CanWriteCampaigns meet.
Proof.
  intros HR HS. split; intros; split; first [by eapply can_insert_campaign | by eapply can_update_campaign].
Qed.
#[export] Instance meet_hours `{Env} : CanWriteHours R -> CanWriteHours S -> CanWriteHours meet.
Proof. intros HR HS c ws. apply stable_meet; apply can_replace_hours. Qed.
#[export] Instance meet_insert_targets : CanInsertTargets R -> CanInsertTargets S -> CanInsertTargets meet.
Proof. intros HR HS c ts w w' a Hi. split; by eapply can_insert_targets. Qed.
#[export] Instance meet_update_targets : CanUpdateTargets R -> CanUpdateTargets S -> CanUpdateTargets meet.
Proof. intros HR HS. split; intros; split; first [apply can_set_state | apply can_set_schedule]. Qed.
#[export] Instance meet_ensure : CanEnsureStats R -> CanEnsureStats S -> CanEnsureStats meet.
Proof. intros HR HS c w w' a Hi. split; by eapply can_ensure_stats. Qed.
#[export] Instance meet_delta : CanApplyDelta R -> CanApplyDelta S -> CanApplyDelta meet.
Proof. intros HR HS c d w w' a Hd Hi. split; by eapply can_apply_delta. Qed.
#[export] Instance meet_calls : CanWriteCalls R -> CanWriteCalls S -> CanWriteCalls meet.
Proof. intros HR HS. split; intros; split; first [apply can_put_call | apply can_set_by_status]. Qed.
#[export] Instance meet_attempts : CanWriteAttempts R -> CanWriteAttempts S -> CanWriteAttempts meet.
Proof. intros HR HS v w. split; apply can_set_attempts. Qed.
#[export] Instance meet_redis : CanWriteRedis R -> CanWriteRedis S -> CanWriteRedis meet.
Proof. intros HR HS v w. split; apply can_set_redis. Qed.
#[export] Instance meet_publish : CanPublish R -> CanPublish S -> CanPublish meet.
Proof. intros HR HS t m w. split; apply can_publish. Qed.
#[export] Instance meet_commit : CanCommit R -> CanCommit S -> CanCommit meet.
Proof. intros HR HS g m w. split; apply can_commit. Qed.
End Meet.

(** ** Relations that watch one part of the world

    What holds between worlds that agree on [g] tolerates every write outside of
    what [g] looks at. *)
Section Watching.
Context {B : Type} (g : World -> B) (R : relation World) (HR : forall w w', g w' = g w -> R w w').

Let unseen {V} (set : V -> World -> World) : Prop := forall v w, g (set v w) = g w.

Lemma watch_run : PreOrder R -> unseen set_tick -> CanRun R.
Proof. intros HP Hg. split; [done|]. intros w. by apply HR, Hg. Qed.
Lemma watch_campaigns `{Env} : PreOrder R -> unseen set_campaigns -> CanWriteCampaigns R.
Proof.
  intros HP Hg. split.
  - intros r w w' a. unfold insert_campaign. intros Hi. case_match; simplify_eq. by apply HR, Hg.
  - intros id f w w' n _. unfold update_campaign. intros Hi.
    repeat case_match; simplify_eq; [by apply HR, Hg|reflexivity].
Qed.
Lemma watch_hours `{Env} :
  (forall w w', other_tables w' = other_tables w -> other_stores w' = other_stores w -> R w w') ->
  CanWriteHours R.
Proof. intros Hg c ws. by apply replace_hours_respects. Qed.
Lemma watch_insert_targets : unseen set_targets -> CanInsertTargets R.
Proof.
  intros Hg c ts w w' a. unfold insert_targets. intros Hi. case_match; simplify_eq. by apply HR, Hg.
Qed.
Lemma watch_update_targets : unseen set_targets -> CanUpdateTargets R.
Proof. intros Hg. split; intros; by apply HR, Hg. Qed.
Lemma watch_ensure : PreOrder R -> unseen set_stats -> CanEnsureStats R.
Proof.
  intros HP Hg c w w' a. unfold ensure_stats. intros Hi.
  repeat case_match; simplify_eq; [reflexivity|by apply HR, Hg].
Qed.
Lemma watch_delta : PreOrder R -> unseen set_stats -> CanApplyDelta R.
Proof.
  intros HP Hg c d w w' a _. unfold apply_delta. intros Hi.
  repeat case_match; simplify_eq; [by apply HR, Hg|reflexivity].
Qed.
Lemma watch_calls : unseen set_calls -> unseen set_by_status -> CanWriteCalls R.
Proof. intros Hc Hs. split; intros; by apply HR. Qed.
Lemma watch_attempts : unseen set_attempts -> CanWriteAttempts R.
Proof. intros Hg v w. by apply HR, Hg. Qed.
Lemma watch_redis : unseen set_redis -> CanWriteRedis R.
Proof. intros Hg v w. by apply HR, Hg. Qed.
Lemma watch_publish : unseen set_log -> CanPublish R.
Proof. intros Hg t m w. by apply HR, Hg. Qed.
Lemma watch_commit : unseen set_commits -> CanCommit R.
Proof. intros Hg t m w. by apply HR, Hg. Qed.
End Watching.

(** ** What is tolerated by a relation is tolerated by a weaker one *)
Section Weaker.
Context (R S : relation World) `{!PreOrder S} (HRS : forall w w', R w w' -> S w w').

Lemma weaker_run : CanRun R -> CanRun S.
Proof. intros HR. split; [apply _|]. intros. apply HRS, can_bump. Qed.
Lemma weaker_campaigns `{Env} : CanWriteCampaigns R -> CanWriteCampaigns S.
Proof. intros HR. split; intros; apply HRS; [by eapply can_insert_campaign|by eapply can_update_campaign]. Qed.
Lemma weaker_hours `{Env} : CanWriteHours R -> CanWriteHours S.
Proof. intros HR c ws. eapply stable_mono; [apply can_replace_hours|exact HRS]. Qed.
Lemma weaker_insert_targets : CanInsertTargets R -> CanInsertTargets S.
Proof. intros HR c ts w w' a Hi. by eapply HRS, can_insert_targets. Qed.
Lemma weaker_update_targets : CanUpdateTargets R -> CanUpdateTargets S.
Proof. intros HR. split; intros; apply HRS; [apply can_set_state|apply can_set_schedule]. Qed.
Lemma weaker_ensure : CanEnsureStats R -> CanEnsureStats S.
Proof. intros HR c w w' a Hi. by eapply HRS, can_ensure_stats. Qed.
Lemma weaker_delta : CanApplyDelta R -> CanApplyDelta S.
Proof. intros HR c d w w' a Hd Hi. by eapply HRS, can_apply_delta. Qed.
Lemma weaker_calls : CanWriteCalls R -> CanWriteCalls S.
Proof. intros HR. split; intros; apply HRS; [apply can_put_call|apply can_set_by_status]. Qed.
Lemma weaker_attempts : CanWriteAttempts R -> CanWriteAttempts S.
Proof. intros HR v w. apply HRS, can_set_attempts. Qed.
Lemma weaker_redis : CanWriteRedis R -> CanWriteRedis S.
Proof. intros HR v w. apply HRS, can_set_redis. Qed.
Lemma weaker_publish : CanPublish R -> CanPublish S.
Proof. intros HR t m w. apply HRS, can_publish. Qed.
Lemma weaker_commit : CanCommit R -> CanCommit S.
Proof. intros HR g m w. apply HRS, can_commit. Qed.
End Weaker.

(** For a relation that no write of calls offends. *)
Lemma any_calls (R : relation World) :
  (forall v w, R w (set_calls v w)) -> (forall v w, R w (set_by_status v w)) -> CanWriteCalls R.
Proof. by split. Qed.

(** Proves that an observation does not see a write. *)
Ltac unseen := intros v []; reflexivity.

(** ** Time passes

    Every operation of the oracle, and no write of a store, moves the clock. *)
Section Later.
Context `{Env}.

Definition later : relation World := fun w w' => (w.(w_tick) <= w'.(w_tick))%nat.

#[export] Instance later_preorder : PreOrder later.
Proof. split; unfold later; [intros ?; lia|intros ???; lia]. Qed.
Lemma later_same w w' : w'.(w_tick) = w.(w_tick) -> later w w'.
Proof. unfold later. by intros ->. Qed.
#[export] Instance later_run : CanRun later.
Proof. split; [apply _|]. intros w. unfold later. rewrite tick_bump. lia. Qed.
#[export] Instance later_delta : CanApplyDelta later.
Proof. apply (watch_delta w_tick); [apply later_same|apply _|unseen]. Qed.
#[export] Instance later_update_targets : CanUpdateTargets later.
Proof. apply (watch_update_targets w_tick); [apply later_same|unseen]. Qed.
#[export] Instance later_calls : CanWriteCalls later.
Proof. apply (watch_calls w_tick); [apply later_same|unseen..]. Qed.
#[export] Instance later_attempts : CanWriteAttempts later.
Proof. apply (watch_attempts w_tick); [apply later_same|unseen]. Qed.
#[export] Instance later_redis : CanWriteRedis later.
Proof. apply (watch_redis w_tick); [apply later_same|unseen]. Qed.
Lemma later_external {A} (f : World -> result error (World * A)) w :
  (forall w w' a, f w = Ok (w', a) -> later w w') -> later w (external f w).1.
Proof. intros Hf. apply stable_run; [apply _|]. apply stable_external; [apply _|apply can_bump|done]. Qed.
Lemma later_withTx fn : stable later fn -> stable later (withTx fn).
Proof.
  intros Hfn. apply stable_atomic; [apply _|]. intros w. unfold in_tx.
  assert (forall w1 w2, w_tick (put_tables w1 w2) = w_tick w2) as Hput by (by intros [] []).
  pose proof (later_external (fun w => Ok (w, ())) w ltac:(by intros ??? [= <-])) as H1.
  destruct (external _ w) as [w1 [[]|e]]; [|done]. pose proof (stable_run later fn Hfn w1) as H2.
  destruct (fn w1) as [w2 [[]|e]]; unfold later in *; cbn [fst] in *.
  - rewrite !run_on_err. pose proof (later_external (fun w => Ok (put_tables w2 w, ())) (put_tables w1 w2)
      ltac:(intros ??? [= <-]; unfold later; by rewrite Hput)) as H3.
    unfold later in H3. rewrite Hput in H3. destruct (external _ _) as [w3 r]; cbn [fst] in *; lia.
  - pose proof (later_external (fun w => Ok (w, ())) (put_tables w1 w2) ltac:(by intros ??? [= <-])) as H3.
    unfold later in H3. rewrite Hput in H3. destruct (external _ _) as [w3 [[]|e3]]; cbn [fst] in *; lia.
Qed.
#[export] Instance later_hours : CanWriteHours later.
Proof. intros c ws. apply stable_replace_body; [apply _|intros v []; by apply later_same|apply later_withTx]. Qed.
#[export] Instance later_publish : CanPublish later.
Proof. apply (watch_publish w_tick); [apply later_same|unseen]. Qed.
#[export] Instance later_commit : CanCommit later.
Proof. apply (watch_commit w_tick); [apply later_same|unseen]. Qed.

End Later.
