(* ===== verification/Integrity.v ===== *)
(** The constraints of the schema as an invariant of every operation: each write
    the program makes preserves [pg_ok]. *)
From S2P Require Import Prelude Errors GoTime Json Domain Messages World Postgres PostgresInv.
From S2P Require Import Effects.

Section Integrity.
Context `{Env}.

Ltac same_tables :=
  intros; intros Hw;
  match type of Hw with pg_ok ?w => eapply (pg_ok_same w); [by destruct w..|exact Hw] end.

#[export] Instance pg_run : CanRun (inv pg_ok).
Proof. split; [apply _|]. intros w Hw. by apply pg_ok_bump. Qed.
#[export] Instance pg_campaigns : CanWriteCampaigns (inv pg_ok).
Proof. split; [apply insert_campaign_ok | apply update_campaign_ok]. Qed.
#[export] Instance pg_insert_targets : CanInsertTargets (inv pg_ok).
Proof. red. apply insert_targets_ok. Qed.
#[export] Instance pg_update_targets : CanUpdateTargets (inv pg_ok).
Proof. split; intros; by apply update_targets_ok. Qed.
#[export] Instance pg_ensure : CanEnsureStats (inv pg_ok).
Proof. red. apply ensure_stats_ok. Qed.
#[export] Instance pg_delta : CanApplyDelta (inv pg_ok).
Proof. intros c d w w' a _. apply apply_delta_ok. Qed.
#[export] Instance pg_calls : CanWriteCalls (inv pg_ok).
Proof. split; same_tables. Qed.
#[export] Instance pg_attempts : CanWriteAttempts (inv pg_ok).
Proof. red. same_tables. Qed.
#[export] Instance pg_redis : CanWriteRedis (inv pg_ok).
Proof. red. same_tables. Qed.
#[export] Instance pg_publish : CanPublish (inv pg_ok).
Proof. intros t m. same_tables. Qed.
#[export] Instance pg_commit : CanCommit (inv pg_ok).
Proof. intros g m. same_tables. Qed.

#[export] Instance pg_hours : CanWriteHours (inv pg_ok).
Proof.
  intros c ws. unfold BusinessHourRepository_Replace, replace_hours_tx. apply stable_withTx_inv.
  - apply pg_ok_bump.
  - apply pg_ok_put_tables.
  - repeat first
    [ match goal with
      | |- stable _ (_ ≫= _) => apply stable_bind; [typeclasses eauto | | intros ?]
      | |- stable _ (external _) =>
          apply stable_external; [typeclasses eauto | apply can_bump | intros; simplify_eq]
      | |- stable _ (for_each _ _) => apply stable_for_each; [typeclasses eauto | intros ?]
      | |- stable _ (on_err _ _) => apply stable_on_err
      | |- stable _ (mret _) => apply stable_ret; typeclasses eauto
      | |- stable _ (match ?x with _ => _ end) => destruct x
      end ];
    first [ by eapply delete_hours_ok | by eapply insert_hour_ok | reflexivity ].
Qed.
End Integrity.
