(* ===== verification/ApiProofs.v ===== *)
(** What the HTTP API promises its clients: how every request is answered, what
    a rejected request leaves behind, and what the replies say. *)
From S2P Require Import Prelude Errors GoTime Durations Json Domain Messages World Postgres.
From S2P Require Import PostgresInv PostgresSpec Scylla Queue CampaignService CallService.
From S2P Require Import CallLists Raises Requests Handlers Effects.

(** ** Every request is answered *)

(** The errors handlers return: of the services, or of the framework with one of
    the codes the handlers use. *)
Inductive handler_error : error -> Prop :=
| handler_service e : store_error e -> handler_error e
| handler_status code m : code ∈ [400; 404] -> handler_error (FiberError code m).

Lemma translate_service e : service_error e -> handler_error (translateError e).
Proof.
  intros He. unfold translateError.
  assert (forall s, errors_Is e s = true -> missing_or_invalid s = true) as Hi
    by (intros; by eapply tame_Is).
  destruct (errors_Is e ErrValidation) eqn:E1; [apply handler_status; set_solver|].
  destruct (errors_Is e ErrNotFound) eqn:E2; [apply handler_status; set_solver|].
  destruct (errors_Is e ErrConflict) eqn:E3; [by specialize (Hi _ E3)|].
  destruct (errors_Is e ErrQuotaExceeded) eqn:E4; [by specialize (Hi _ E4)|].
  destruct (errors_Is e ErrUnavailable) eqn:E5; [by specialize (Hi _ E5)|].
  apply handler_service. clear Hi E3 E4 E5.
  induction He as [t|s Hs|pre e post _ IH]; [apply tame_new| |by apply tame_wrap, IH].
  unfold missing_or_invalid in Hs. simpl in E1, E2. by rewrite E1, E2 in Hs.
Qed.

Lemma handler_bad_request m : handler_error (FiberError 400 m).
Proof. apply handler_status. set_solver. Qed.
#[export] Hint Resolve handler_bad_request : raises.

Lemma raises_or_bad_request {A} (o : option A) m : raises handler_error (or_bad_request o m).
Proof. destruct o; [apply raises_ret|]. by apply raises_throw, handler_bad_request. Qed.

Lemma raises_translated {A} (m : M A) :
  raises service_error m -> raises handler_error (on_err translateError m).
Proof. apply raises_on_err, translate_service. Qed.

Lemma raises_send {T} code (fs : list (Field T)) v : raises handler_error (send code fs v).
Proof.
  unfold send. destruct (Marshal fs v); [apply raises_ret|].
  by apply raises_throw, handler_service, tame_new.
Qed.

Lemma raises_lift {A} (r : result error A) (P : error -> Prop) :
  (forall e, r = Err e -> P e) -> raises P (lift r).
Proof. destruct r; intros Hr; [apply raises_ret|]. by apply raises_throw, Hr. Qed.

Lemma parse_delay_error t d e : parse_delay t d = Err e -> service_error e.
Proof. unfold parse_delay. repeat case_match; intros; simplify_eq. apply detail_service. Qed.

Lemma parseRetryPolicy_error p e : parseRetryPolicy p = Err e -> service_error e.
Proof.
  unfold parseRetryPolicy. repeat case_match; intros; simplify_eq; by eapply parse_delay_error.
Qed.

Lemma parseBusinessHours_error hs e : parseBusinessHours hs = Err e -> service_error e.
Proof.
  revert e. induction hs as [|h hs IH]; simpl; intros e; [done|].
  repeat case_match; intros; simplify_eq; try apply detail_service. by apply IH.
Qed.

Lemma create_input_error req e : toCreateCampaignInput req = Err e -> service_error e.
Proof.
  unfold toCreateCampaignInput. destruct (cq_RetryPolicy req); repeat case_match; intros; simplify_eq;
    eauto using parseRetryPolicy_error, parseBusinessHours_error.
Qed.

Lemma update_input_error id req e : toUpdateCampaignInput id req = Err e -> service_error e.
Proof.
  unfold toUpdateCampaignInput. repeat case_match; intros; simplify_eq;
    eauto using parseRetryPolicy_error, parseBusinessHours_error.
Qed.
#[export] Hint Resolve raises_or_bad_request raises_send create_input_error update_input_error : raises.

Ltac handler_steps :=
  repeat first
  [ solve [eauto 2 with raises]
  | match goal with
    | |- raises _ (_ ≫= _) => apply raises_bind; [|intros ?]
    | |- raises _ (on_err translateError (lift _)) =>
        apply raises_translated, raises_lift; intros ? ?; solve [eauto 2 with raises]
    | |- raises _ (on_err translateError _) =>
        apply raises_translated; first [solve [eauto 2 with raises] | apply raises_service; solve [eauto 2 with raises]]
    | |- raises _ (throw _) => apply raises_throw; solve [eauto 2 with raises]
    | |- raises _ (mret _) => apply raises_ret
    | |- raises _ (match ?x with _ => _ end) => destruct x
    end ].

Section Api.
Context `{Env} `{PgOrder} `{UuidText} `{Gocql} `{Fiber} (h : HandlerSet).

Lemma raises_full_campaigns cs : raises handler_error (full_campaigns cs).
Proof. induction cs; cbn [full_campaigns]; handler_steps. Qed.
Hint Resolve raises_full_campaigns : raises.

(** The codes of the replies that are not errors. *)
Definition success_code (e : Endpoint) : list Z :=
  match e with
  | EHealth => [200; 503]
  | ECreateCampaign => [201]
  | EStartCampaign | EPauseCampaign | ECompleteCampaign => [204]
  | EAddTargets | ETriggerCall => [202]
  | _ => [200]
  end.

Definition too_many_calls (ctx : Ctx) : bool :=
  let limit := Atoi (Query ctx "limit" "100") in
  make_calls_panics (if limit <=? 0 then 100 else limit).

Lemma handle_errors e ctx w w' err :
  handle h e ctx w = (w', Err err) ->
  handler_error err \/ (e = EListCampaignCalls /\ too_many_calls ctx = true /\ exists t, err = Panic t).
Proof.
  destruct (decide (e = EListCampaignCalls)) as [->|Hne].
  - cbn [handle]. unfold listCampaignCalls. intros Hrun.
    apply bind_Err in Hrun as [Hrun|(id & w1 & _ & Hrun)].
    { left. revert Hrun. apply raises_or_bad_request. }
    destruct (DecodePagingState _) as [paging|]; [|left; injection Hrun as _ <-; apply handler_bad_request].
    apply bind_Err in Hrun as [Hrun|(res & w2 & _ & Hrun)].
    + rewrite !run_on_err in Hrun. destruct (ListCallsByCampaign _ _ _ _) as [w2 [?|e1]] eqn:E; [done|].
      injection Hrun as <- <-. apply list_calls_errors in E as [E|[E (t & ->)]].
      * left. by apply translate_service, store_service.
      * right. split_and!; [done|exact E|]. by eexists.
    + left. revert Hrun. apply raises_send.
  - intros Hrun. left. revert w w' err Hrun.
    change (raises handler_error (handle h e ctx)).
    destruct e; try done; cbn [handle]; unfold createCampaign, listCampaigns, getCampaign, updateCampaign,
      startCampaign, pauseCampaign, completeCampaign, campaignStats, addTargets, triggerCall, getCall,
      health, ping, parseUUID, parse_body, SendStatus; handler_steps.
    all: apply raises_bind; [apply raises_attempt|intros ?; apply raises_ret].
Qed.

(** The replies an operation can give. *)
Definition yields {A} (P : A -> Prop) (m : M A) : Prop := forall w w' a, m w = (w', Ok a) -> P a.

Lemma yields_bind {A B} (P : B -> Prop) (m : M A) (k : A -> M B) :
  (forall a, yields P (k a)) -> yields P (m ≫= k).
Proof. intros Hk w w' b Hrun. apply bind_Ok in Hrun as (a & w1 & _ & Hrun). by eapply Hk. Qed.

Lemma yields_send {T} (P : Reply -> Prop) code (fs : list (Field T)) v :
  (forall j, P (mkReply code j)) -> yields P (send code fs v).
Proof. intros HP w w' r. unfold send. destruct (Marshal fs v); intros [=]; subst. apply HP. Qed.

Lemma yields_ret {A} (P : A -> Prop) a : P a -> yields P (mret a).
Proof. intros Ha w w' b [= _ <-]. done. Qed.

Lemma handle_code e ctx :
  yields (fun r => r.(reply_status) ∈ success_code e) (handle h e ctx).
Proof.
  destruct e; cbn [handle]; unfold createCampaign, listCampaigns, getCampaign, updateCampaign,
    startCampaign, pauseCampaign, completeCampaign, campaignStats, addTargets, listCampaignCalls,
    triggerCall, getCall, health, SendStatus;
  repeat first
  [ apply yields_bind; intros ?
  | apply yields_send; intros ?; simpl; set_solver
  | apply yields_ret; simpl; try case_match; set_solver
  | match goal with |- yields _ (match ?x with _ => _ end) => destruct x end ].
  all: intros ? ? ? [=].
Qed.

(** A list of calls that passes the checks and asks for too many panics. *)
Lemma too_many_calls_panics ctx w id paging :
  uuid_parse ctx.(ctx_id) = Some id ->
  DecodePagingState (Query ctx "page_token" EmptyString) = Ok paging -> too_many_calls ctx = true ->
  exists w' t, serve h EListCampaignCalls ctx w = (w', Err (Panic t)).
Proof.
  intros Hid Hp Hm. unfold serve. cbn [handle]. unfold listCampaignCalls, parseUUID, or_bad_request.
  rewrite Hid, ret_bind, Hp.
  unfold ListCallsByCampaign, CallStore_ListCallsByCampaign. unfold too_many_calls in Hm.
  cbv zeta in Hm. rewrite Hm. run_monad. by do 2 eexists.
Qed.
(** Claim C22: whatever the request and whatever becomes of the requests it
    makes, it is answered: with a code of its endpoint, or with an error whose
    code is 400, 404 or 500. So a clash of names or a store that cannot be
    reached is a 500, never the 409 or 503 the error translation provides for.
    The one exception, which any client can bring about, is a list of calls with
    a limit no slice can hold: it panics, and with it the server. *)
Theorem every_request_is_answered (e : Endpoint) (ctx : Ctx) (w : World) :
  ((exists w' r, serve h e ctx w = (w', Ok r) /\
      (r.(reply_status) ∈ success_code e \/ r.(reply_status) ∈ [400; 404; 500])) \/
   (e = EListCampaignCalls /\ too_many_calls ctx = true)) /\
  (e = EListCampaignCalls -> too_many_calls ctx = true ->
   is_Some (uuid_parse ctx.(ctx_id)) -> is_ok (DecodePagingState (Query ctx "page_token" EmptyString)) = true ->
   exists w' t, serve h e ctx w = (w', Err (Panic t))).
Proof.
  split; [|intros -> Hm [id Hid]; destruct (DecodePagingState _) eqn:Hp; [|done]; intros _;
    by eapply too_many_calls_panics].
  unfold serve. rewrite run_map_result. destruct (handle h e ctx w) as [w' [r|err]] eqn:E.
  - left. exists w', r. split; [done|]. left. by apply (handle_code e ctx w w' r).
  - apply handle_errors in E as [Herr|(-> & Hm & t & ->)].
    + left. exists w', (ErrorHandler ctx err). destruct Herr as [err He|code m Hc].
      * destruct He; (split; [done|right; simpl; set_solver]).
      * split; [done|right; simpl; revert Hc; set_solver].
    + by right.
Qed.


(** ** A rejected request *)

(** The errors that become a 400, and operations that fail with one of them only
    before they have changed anything. *)
Definition invalid (e : error) : Prop :=
  errors_Is e ErrValidation = true \/ exists m, e = FiberError 400 m.
Definition clean {A} (m : M A) : Prop :=
  forall w w' e, m w = (w', Err e) -> invalid e -> stores w' = stores w.

Lemma store_error_valid e : store_error e -> ~ invalid e.
Proof. intros He [Hi|[m ->]]; [by apply (tame_Is _ _ _ He) in Hi|inversion He]. Qed.

Lemma clean_never {A} (m : M A) : raises store_error m -> clean m.
Proof. intros Hm w w' e Hrun Hi. apply Hm in Hrun. by apply store_error_valid in Hrun. Qed.

Lemma clean_throw {A} e : clean (throw e : M A).
Proof. by intros w w' e' [= <- _] _. Qed.

Lemma clean_ret {A} (a : A) : clean (mret a : M A).
Proof. intros w w' e [=]. Qed.

Lemma clean_read_bind {A B} (m : M A) (k : A -> M B) :
  stable (keeps stores) m -> (forall a, clean (k a)) -> clean (m ≫= k).
Proof.
  intros Hm Hk w w' e Hrun Hi. apply bind_Err in Hrun as [Hrun|(a & w1 & Hstep & Hrun)].
  - exact (stable_ran _ _ _ _ _ Hm Hrun).
  - rewrite (Hk _ _ _ _ Hrun Hi). exact (stable_ran _ _ _ _ _ Hm Hstep).
Qed.

Lemma clean_bind_never {A B} (m : M A) (k : A -> M B) :
  clean m -> (forall a, raises (fun e => ~ invalid e) (k a)) -> clean (m ≫= k).
Proof.
  intros Hm Hk w w' e Hrun Hi. apply bind_Err in Hrun as [Hrun|(a & w1 & _ & Hrun)].
  - by eapply Hm.
  - by apply Hk in Hrun.
Qed.

(** Translation does not make an error invalid, nor valid. *)
Lemma translate_invalid e : service_error e -> invalid (translateError e) -> invalid e.
Proof.
  intros He Hi. left. unfold translateError in Hi. destruct (errors_Is e ErrValidation) eqn:E; [done|].
  exfalso. revert Hi. assert (store_error e -> ~ invalid e) by apply store_error_valid.
  assert (forall s, errors_Is e s = true -> missing_or_invalid s = true) as Ha
    by (intros; by eapply tame_Is).
  destruct (errors_Is e ErrNotFound) eqn:E1; [intros [?|[m [=]]]; done|].
  destruct (errors_Is e ErrConflict) eqn:E2; [by specialize (Ha _ E2)|].
  destruct (errors_Is e ErrQuotaExceeded) eqn:E3; [by specialize (Ha _ E3)|].
  destruct (errors_Is e ErrUnavailable) eqn:E4; [by specialize (Ha _ E4)|].
  intros [Hv|[m ->]]; [by rewrite Hv in E|inversion He].
Qed.

Lemma clean_translated {A} (m : M A) :
  raises service_error m -> clean m -> clean (on_err translateError m).
Proof.
  intros Hr Hm w w' e. rewrite !run_on_err. destruct (m w) as [w1 [a|e1]] eqn:E; intros [= <- <-] Hi.
  eapply Hm; [done|]. eapply translate_invalid; [by eapply Hr|done].
Qed.

(** A translated store error is not a 400 either. *)
Lemma translated_store_valid e : store_error e -> ~ invalid (translateError e).
Proof.
  intros He Hi. apply translate_invalid in Hi; [by apply store_error_valid in Hi|by apply store_service].
Qed.

Lemma raises_valid {A} (m : M A) :
  raises store_error m -> raises (fun e => ~ invalid e) (on_err translateError m).
Proof. apply raises_on_err, translated_store_valid. Qed.

Lemma send_valid {T} code (fs : list (Field T)) v : raises (fun e => ~ invalid e) (send code fs v).
Proof.
  unfold send. destruct (Marshal fs v); [apply raises_ret|].
  by apply raises_throw, store_error_valid, tame_new.
Qed.

#[local] Instance keeps_stores : CanRun (keeps stores).
Proof. split; [apply _|]. intros []; done. Qed.

Lemma clean_Create d i : clean (Create d i).
Proof.
  unfold Create. destruct (validateCreateInput i); [apply clean_throw|]. apply clean_never. raise_steps.
Qed.

Lemma clean_AddTargets c ts : clean (AddTargets c ts).
Proof.
  unfold AddTargets. destruct ts as [|t ts]; [apply clean_ret|].
  apply clean_read_bind; [apply stable_on_err, eff_list_targets, _|].
  intros [|x xs]; [apply clean_throw|]. cbv zeta.
  destruct (List.find _ _); [apply clean_throw|]. apply clean_never. raise_steps.
Qed.

Lemma clean_TriggerCall s i : clean (TriggerCall s i).
Proof.
  unfold TriggerCall. case_bool_decide; [apply clean_throw|]. cbv zeta.
  apply clean_read_bind; [apply stable_on_err, eff_campaign_get, _|intros c].
  apply clean_read_bind; [apply eff_validate_phone, _|intros _].
  apply clean_never. raise_steps.
Qed.

Ltac clean_steps :=
  repeat first
  [ apply clean_ret | apply clean_throw
  | apply clean_read_bind; [first [apply eff_or_bad_request, _ | apply stable_on_err, eff_lift, _]|intros ?]
  | apply clean_bind_never; [apply clean_translated|intros ?]
  | apply raises_valid; solve [eauto 2 with raises]
  | solve [eauto 2 with raises]
  | solve [apply raises_service; eauto 2 with raises]
  | apply clean_Create | apply clean_AddTargets | apply clean_TriggerCall
  | apply clean_never; solve [eauto 2 with raises]
  | apply send_valid | apply raises_ret
  | match goal with |- raises _ (_ ≫= _) => apply raises_bind; [|intros ?] end ].

Lemma full_campaigns_valid cs : raises (fun e => ~ invalid e) (full_campaigns cs).
Proof. induction cs; cbn [full_campaigns]; clean_steps. Qed.

Hint Resolve full_campaigns_valid : raises.

Lemma clean_list_calls ctx : clean (listCampaignCalls ctx).
Proof.
  unfold listCampaignCalls, parseUUID.
  apply clean_read_bind; [apply eff_or_bad_request, _|intros id]. cbv zeta.
  destruct (DecodePagingState _) as [paging|]; [|apply clean_throw].
  apply clean_bind_never; [|intros; apply send_valid].
  intros w w' e. rewrite !run_on_err. destruct (ListCallsByCampaign _ _ _ _) as [w1 [?|e1]] eqn:E; intros [= <- <-] Hi.
  exfalso. apply list_calls_errors in E as [E|[_ (t & ->)]].
  - by apply (translated_store_valid _ E).
  - destruct Hi as [Hi|[m Hi]]; done.
Qed.

Lemma clean_health : clean health.
Proof.
  unfold health, ping. apply clean_never. raise_steps.
Qed.

Lemma handle_clean e ctx : clean (handle h e ctx).
Proof.
  destruct e; cbn [handle]; [apply clean_health|..|apply clean_list_calls| |];
  unfold createCampaign, listCampaigns, getCampaign, updateCampaign,
    startCampaign, pauseCampaign, completeCampaign, campaignStats, addTargets, triggerCall, getCall,
    parseUUID, parse_body, SendStatus; clean_steps.
Qed.

(** Claim C23: a request answered 400 has changed nothing, under any faults: a
    request is found wanting (its identifiers, body, delays, clock times, name,
    zone, windows, numbers) before the first write. *)
Theorem bad_request_changes_nothing (e : Endpoint) (ctx : Ctx) (w w' : World) (r : Reply) :
  serve h e ctx w = (w', Ok r) -> r.(reply_status) = 400 -> stores w' = stores w.
Proof.
  unfold serve. rewrite run_map_result. destruct (handle h e ctx w) as [w1 [r1|err]] eqn:E; intros Hrun Hs; cbn [fst snd answer] in Hrun.
  - simplify_eq. apply handle_code in E. rewrite Hs in E. exfalso. destruct e; simpl in E; set_solver.
  - assert (stores w1 = stores w) as Hst.
    { apply (handle_clean e ctx w w1 err E). destruct err; simplify_eq/=; try done. right. by eexists. }
    assert (w1 = w') as <- by (destruct err; congruence). done.
Qed.
End Api.

(** A campaign without a name, and a database in which everything works. *)
Lemma bad_request_witness :
  let _ := quiet_env in let _ := stable_sort_order in let _ := bit_uuid in
  let _ := unary_pages in let _ := json_bodies in
  exists w' r, serve (mkHandlerSet 10 sample_service) ECreateCampaign
      (mkCtx EmptyString (fun _ => EmptyString) (BodyJSON (JObj [])) "trace") sample_db = (w', Ok r) /\
    r.(reply_status) = 400 /\ stores w' = stores sample_db.
Proof.
  intros E O U G F.
  pose (ctx := mkCtx EmptyString (fun _ => EmptyString) (BodyJSON (JObj [])) "trace").
  pose (reply := ErrorHandler ctx (translateError (detailf ErrValidation "campaign name is required"))).
  assert (serve (mkHandlerSet 10 sample_service) ECreateCampaign ctx sample_db = (sample_db, Ok reply)) as Hrun
    by (vm_compute; reflexivity).
  exists sample_db, reply. split; [exact Hrun|]. split; [reflexivity|].
  exact (bad_request_changes_nothing (mkHandlerSet 10 sample_service) ECreateCampaign ctx sample_db _ _ Hrun eq_refl).
Defined.
