(* ===== verification/ApiEcho.v ===== *)
(** What the API says of a campaign it can be told again: PUT of what GET
    returned. *)
From S2P Require Import Prelude Errors GoTime Durations Json Domain Messages World Postgres.
From S2P Require Import PostgresInv PostgresSpec CampaignService CallService CallLists Requests Handlers.
From S2P Require Import Effects Integrity.

(** ** The document of a campaign *)

Definition hour_json (window : BusinessHourWindow) : json :=
  JObj [("day_of_week", JInt window.(w_DayOfWeek)); ("start", JString (format_clock window.(w_Start)));
        ("end", JString (format_clock window.(w_End)))].

Definition policy_json (p : RetryPolicy) (jitter : json) : json :=
  JObj [("max_attempts", JInt p.(rp_MaxAttempts)); ("base_delay", JString (Duration_String p.(rp_BaseDelay)));
        ("max_delay", JString (Duration_String p.(rp_MaxDelay))); ("jitter", jitter)].

Section Documents.
Context `{UuidText}.

Definition campaign_json (c : Campaign) (jitter : json) : json :=
  JObj [("id", enc_uuid c.(c_ID)); ("name", JString c.(c_Name)); ("description", JString c.(c_Description));
        ("time_zone", JString c.(c_TimeZone)); ("status", JString (campaign_status_text c.(c_Status)));
        ("max_concurrent_calls", JInt c.(c_MaxConcurrentCalls));
        ("retry_policy", policy_json c.(c_RetryPolicy) jitter);
        ("business_hours", JArr (hour_json <$> c.(c_BusinessHours)));
        ("created_at", JTime c.(c_CreatedAt)); ("updated_at", JTime c.(c_UpdatedAt))].

Lemma marshal_hours ws :
  enc_slice (Marshal businessHourResponse_fields)
    ((fun window => mkHourResp window.(w_DayOfWeek) (format_clock window.(w_Start))
        (format_clock window.(w_End))) <$> ws) = Some (JArr (hour_json <$> ws)).
Proof.
  unfold enc_slice. induction ws as [|x ws IH]; [done|].
  cbn [fmap list_fmap mapM]. destruct (mapM _ _) as [l|]; [|done].
  injection IH as ->. reflexivity.
Qed.

(** The document the API sends of a campaign without a start or completion time,
    which is every campaign that was read from its row. *)
Lemma marshal_campaign c :
  c.(c_StartedAt) = None -> c.(c_CompletedAt) = None ->
  Marshal campaignResponse_fields (toCampaignResponse c) =
    match enc_float c.(c_RetryPolicy).(rp_Jitter) with
    | Some jitter =>
        if year_ok c.(c_CreatedAt) && year_ok c.(c_UpdatedAt) then Some (campaign_json c jitter) else None
    | None => None
    end.
Proof.
  intros Hs Hc. unfold Marshal.
  change (typeFields campaignResponse_fields) with campaignResponse_fields.
  unfold campaignResponse_fields, out_field, out_omitempty.
  cbn [encode_fields f_name f_omit f_get never].
  change (cr_business_hours (toCampaignResponse c)) with
    ((fun window => mkHourResp window.(w_DayOfWeek) (format_clock window.(w_Start))
        (format_clock window.(w_End))) <$> c.(c_BusinessHours)).
  rewrite marshal_hours.
  cbn [toCampaignResponse cr_started_at cr_completed_at cr_created_at cr_updated_at cr_id cr_name
    cr_description cr_time_zone cr_status cr_max_concurrent_calls cr_retry_policy].
  rewrite Hs, Hc. cbn [nil_time].
  unfold Marshal. change (typeFields retryPolicyResponse_fields) with retryPolicyResponse_fields.
  unfold retryPolicyResponse_fields, out_field. cbn [encode_fields f_name f_omit f_get never].
  cbn [pr_MaxAttempts pr_BaseDelay pr_MaxDelay pr_Jitter].
  destruct (enc_float _) as [jitter|]; [|done].
  unfold enc_time. by destruct (year_ok (c_CreatedAt c)), (year_ok (c_UpdatedAt c)).
Qed.

(** ** Decoding it as a request *)

Lemma decode_skip {T} (fs : list (Field T)) k j l t :
  find_field fs k = None -> decode_fields fs ((k, j) :: l) t = decode_fields fs l t.
Proof. simpl. by intros ->. Qed.

Lemma dec_ptr_some {T} (zero : T) dec j t :
  j <> JNull -> dec j zero = Some t -> dec_ptr zero dec j None = Some (Some t).
Proof. destruct j; simpl; try done; by intros _ ->. Qed.

Lemma decode_set {T} (fs : list (Field T)) k j l f t t' :
  find_field fs k = Some f -> f.(f_set) j t = Some t' ->
  decode_fields fs ((k, j) :: l) t = decode_fields fs l t'.
Proof. simpl. intros -> ->. done. Qed.

Lemma dec_policy_json p jitter :
  enc_float p.(rp_Jitter) = Some jitter -> in_int64 p.(rp_MaxAttempts) ->
  dec_policy_req (policy_json p jitter) zero_policy_req =
    Some (mkPolicyReq p.(rp_MaxAttempts) (Duration_String p.(rp_BaseDelay))
            (Duration_String p.(rp_MaxDelay)) p.(rp_Jitter)).
Proof.
  intros Hj Ha. unfold dec_policy_req, policy_json, Unmarshal.
  change (typeFields retryPolicyRequest_fields) with retryPolicyRequest_fields.
  cbn -[dec_int dec_float Duration_String]. rewrite dec_int_enc by done.
  cbn -[dec_int dec_float Duration_String]. by rewrite (dec_float_enc _ _ _ Hj).
Qed.

Definition hour_req (window : BusinessHourWindow) : businessHourRequest :=
  mkHourReq window.(w_DayOfWeek) (format_clock window.(w_Start)) (format_clock window.(w_End)).

Lemma dec_hours_json ws :
  Forall (fun w => in_int64 w.(w_DayOfWeek)) ws ->
  dec_elems zero_hour_req dec_hour_req (hour_json <$> ws) [] = Some (hour_req <$> ws).
Proof.
  induction 1 as [|x ws Hx _ IH]; [done|]. cbn [fmap list_fmap dec_elems hd tl]. rewrite IH.
  assert (dec_hour_req (hour_json x) zero_hour_req = Some (hour_req x)) as ->; [|done].
  unfold dec_hour_req, hour_json, Unmarshal.
  change (typeFields businessHourRequest_fields) with businessHourRequest_fields.
  cbn -[dec_int format_clock]. by rewrite dec_int_enc.
Qed.

Lemma decode_campaign_json c jitter :
  enc_float c.(c_RetryPolicy).(rp_Jitter) = Some jitter ->
  in_int64 c.(c_MaxConcurrentCalls) -> in_int64 c.(c_RetryPolicy).(rp_MaxAttempts) ->
  Forall (fun w => in_int64 w.(w_DayOfWeek)) c.(c_BusinessHours) ->
  Unmarshal updateCampaignRequest_fields (campaign_json c jitter) zero_update_req =
    Some (mkUpdateReq (Some c.(c_Name)) (Some c.(c_Description)) (Some c.(c_MaxConcurrentCalls))
      (Some (mkPolicyReq c.(c_RetryPolicy).(rp_MaxAttempts)
         (Duration_String c.(c_RetryPolicy).(rp_BaseDelay))
         (Duration_String c.(c_RetryPolicy).(rp_MaxDelay)) c.(c_RetryPolicy).(rp_Jitter)))
      (Some (hour_req <$> c.(c_BusinessHours)))).
Proof.
  intros Hj Hm Ha Hh. unfold Unmarshal, campaign_json.
  change (typeFields updateCampaignRequest_fields) with updateCampaignRequest_fields.
  rewrite decode_skip by reflexivity.
  do 2 (erewrite decode_set by reflexivity). do 2 rewrite decode_skip by reflexivity.
  erewrite decode_set by (reflexivity || (cbn -[dec_int]; by rewrite dec_int_enc)).
  erewrite decode_set; [|reflexivity|].
  2: { cbn -[dec_policy_req policy_json]. by erewrite dec_ptr_some by (done || by apply dec_policy_json). }
  erewrite decode_set; [|reflexivity|].
  2: { cbn -[dec_elems]. by rewrite dec_hours_json by done. }
  do 2 rewrite decode_skip by reflexivity. reflexivity.
Qed.
End Documents.

(** ** The inputs the request stands for *)

Definition hour_input (window : BusinessHourWindow) : BusinessHourInput :=
  let clock t := date_0000_01_01 (Hour t) (Minute t) in
  mkHourInput window.(w_DayOfWeek) (clock window.(w_Start)) (clock window.(w_End)).

Lemma parse_hours_echo ws : parseBusinessHours (hour_req <$> ws) = Ok (hour_input <$> ws).
Proof.
  induction ws as [|x ws IH]; [done|]. cbn -[format_clock date_0000_01_01].
  rewrite !parse_format_clock, IH. reflexivity.
Qed.

Lemma parse_delay_echo d detail : in_int64 d -> parse_delay (Duration_String d) detail = Ok d.
Proof.
  intros Hd. apply duration_roundtrip in Hd as Hp. unfold parse_delay.
  rewrite bool_decide_false; [by rewrite Hp|]. intros He. rewrite He in Hp. by vm_compute in Hp.
Qed.

Lemma parse_policy_echo p :
  in_int64 p.(rp_BaseDelay) -> in_int64 p.(rp_MaxDelay) ->
  parseRetryPolicy (mkPolicyReq p.(rp_MaxAttempts) (Duration_String p.(rp_BaseDelay))
    (Duration_String p.(rp_MaxDelay)) p.(rp_Jitter)) = Ok p.
Proof.
  intros Hb Hm. unfold parseRetryPolicy. cbn [pq_BaseDelay pq_MaxDelay pq_MaxAttempts pq_Jitter].
  rewrite !parse_delay_echo by done. by destruct p.
Qed.

(** Windows that were read are written as the rows they were read from. *)
Lemma rows_echo id (rows : list hourRow) :
  Forall (fun r => r.(hr_campaign_id) = id /\ hour_row_valid r) rows ->
  window_row id <$> toDomainBusinessHours (hour_input <$> (row_window <$> rows)) = rows.
Proof.
  induction 1 as [|r rows [Hid Hv] _ IH]; [done|].
  unfold toDomainBusinessHours in *. cbn [fmap list_fmap]. f_equal; [|exact IH].
  transitivity (window_row id (row_window r)); [|rewrite <- Hid; by apply window_row_window].
  unfold window_row, hour_input. cbn [w_DayOfWeek w_Start w_End bhi_DayOfWeek bhi_Start bhi_End].
  unfold date_0000_01_01.
  by rewrite !Hour_date, !Minute_date by (done || apply Hour_range || apply Minute_range).
Qed.

(** ** GET, then PUT *)

Section Echo.
Context `{Env} `{PgOrder} `{UuidText} `{Gocql} `{Fiber} (h : HandlerSet).

Definition stored_windows (id : uuid) (w : World) : list BusinessHourWindow :=
  row_window <$> pg_order hour_key (hours_of id w).

Definition as_read (id : uuid) (w : World) (r : campaignRecord) : Campaign :=
  with_hours (stored_windows id w) (toDomain r).

Lemma get_run id r w :
  reliable -> w.(w_campaigns) !! id = Some r ->
  Get id w = (bump (bump w), Ok (as_read id w r)).
Proof.
  intros Hr Hl. unfold Get. rewrite (bind_step _ _ _ _ _ (get_stored _ _ _ Hr Hl)).
  unfold BusinessHourRepository_List. erewrite bind_step; [reflexivity|].
  rewrite !run_on_err. rewrite external_reliable by done. cbn [map_err fst snd].
  by replace (hours_of id (bump (bump w))) with (hours_of id w) by (by destruct w).
Qed.

(** What the tables allow, and what of a policy survives its columns: milliseconds
    that a Duration can hold, in the order normalizeRetry leaves them. *)
Definition storable_policy (r : campaignRecord) : Prop :=
  0 < r.(cr_RetryMaxAttempts) /\
  0 < r.(cr_RetryBaseDelayMs) <= r.(cr_RetryMaxDelayMs) /\
  r.(cr_RetryMaxDelayMs) * Millisecond <= max_int64.

Lemma stored_policy_normal r :
  storable_policy r ->
  let p := (toDomain r).(c_RetryPolicy) in
  normalizeRetry p = p /\ in_int64 p.(rp_BaseDelay) /\ in_int64 p.(rp_MaxDelay) /\
  Milliseconds p.(rp_BaseDelay) = r.(cr_RetryBaseDelayMs) /\
  Milliseconds p.(rp_MaxDelay) = r.(cr_RetryMaxDelayMs).
Proof.
  intros (Ha & Hb & Hm). unfold Millisecond in Hm. simpl.
  rewrite !ms_of_ms by (unfold Millisecond; lia). rewrite !of_ms_exact by (unfold Millisecond; lia).
  unfold in_int64, min_int64, max_int64, Millisecond in *. split_and!; try lia; try done.
  unfold normalizeRetry. simpl. repeat (destruct (_ <=? _) eqn:?; zbool; try lia).
  destruct (_ <? _) eqn:?; zbool; [lia|done].
Qed.

(** The input updateCampaign builds from the document. *)
Definition echo_input (id : uuid) (c : Campaign) : UpdateCampaignInput :=
  mkUpdateInput id (Some c.(c_Name)) (Some c.(c_Description)) (Some c.(c_MaxConcurrentCalls))
    (Some c.(c_RetryPolicy)) (Some (hour_input <$> c.(c_BusinessHours))).

Definition echo_request (c : Campaign) : updateCampaignRequest :=
  mkUpdateReq (Some c.(c_Name)) (Some c.(c_Description)) (Some c.(c_MaxConcurrentCalls))
    (Some (mkPolicyReq c.(c_RetryPolicy).(rp_MaxAttempts)
       (Duration_String c.(c_RetryPolicy).(rp_BaseDelay))
       (Duration_String c.(c_RetryPolicy).(rp_MaxDelay)) c.(c_RetryPolicy).(rp_Jitter)))
    (Some (hour_req <$> c.(c_BusinessHours))).

Lemma echo_request_input id c :
  in_int64 c.(c_RetryPolicy).(rp_BaseDelay) -> in_int64 c.(c_RetryPolicy).(rp_MaxDelay) ->
  toUpdateCampaignInput id (echo_request c) = Ok (echo_input id c).
Proof.
  intros Hb Hm. unfold toUpdateCampaignInput, echo_request.
  cbn [uq_RetryPolicy uq_BusinessHours uq_Name uq_Description uq_MaxConcurrentCalls].
  by rewrite parse_policy_echo, parse_hours_echo.
Qed.

(** Every window of a stored campaign is one the schema admits. *)
Lemma stored_rows id w :
  pg_ok w -> Forall (fun r => r.(hr_campaign_id) = id /\ hour_row_valid r) (pg_order hour_key (hours_of id w)).
Proof.
  intros Hok. rewrite pg_order_perm. apply Forall_forall. intros r Hr.
  apply list_elem_of_In, List.filter_In in Hr as [Hin Hid]. apply bool_decide_eq_true in Hid.
  split; [done|]. by apply (ok_hours w Hok), list_elem_of_In.
Qed.

(** The document of a stored campaign decodes into the request that repeats it. *)
Lemma echo_decoded id r w jitter :
  pg_ok w -> w.(w_campaigns) !! id = Some r -> enc_float r.(cr_RetryJitter) = Some jitter ->
  BodyParser updateCampaignRequest_fields (BodyJSON (campaign_json (as_read id w r) jitter)) zero_update_req
    = Some (echo_request (as_read id w r)).
Proof.
  intros Hok Hl Hj. destruct (ok_campaign w Hok _ _ Hl) as (_ & ? & ?).
  rewrite BodyParser_json. apply decode_campaign_json.
  - exact Hj.
  - simpl. unfold in_int64, min_int64, max_int64. lia.
  - simpl. unfold in_int64, min_int64, max_int64. lia.
  - apply Forall_fmap. eapply Forall_impl; [by apply stored_rows|].
    intros x (_ & Hd & _). simpl. unfold in_int64, min_int64, max_int64. lia.
Qed.

Definition restamped (stamp : Time) (c : Campaign) : Campaign :=
  let '(mkCampaign a b d e f g h i j _ l m) := c in mkCampaign a b d e f g h i j stamp l m.

Lemma apply_update_echo id r w stamp :
  pg_ok w -> w.(w_campaigns) !! id = Some r -> storable_policy r ->
  apply_update h.(hs_defaultConcurrency) (echo_input id (as_read id w r)) stamp (toDomain r)
    = restamped stamp (toDomain r).
Proof.
  intros Hok Hl Hp. destruct (ok_campaign w Hok _ _ Hl) as (_ & ? & _).
  destruct (stored_policy_normal r Hp) as [Hn _]. unfold apply_update, echo_input, resolveConcurrency.
  cbn [ui_Name ui_Description ui_MaxConcurrentCalls ui_RetryPolicy default as_read with_hours toDomain
    c_Name c_Description c_MaxConcurrentCalls c_RetryPolicy] in *.
  rewrite Hn. destruct (_ <=? 0) eqn:?; zbool; [lia|reflexivity].
Qed.

(** The row after the rewrite: what no read shows is lost, the rest is kept. *)
Definition rewritten (stamp : Time) (r : campaignRecord) : campaignRecord :=
  mkCampaignRow r.(cr_ID) r.(cr_Name) (Some (default EmptyString r.(cr_Description))) r.(cr_TimeZone)
    r.(cr_MaxConcurrentCalls) r.(cr_Status) r.(cr_RetryMaxAttempts) r.(cr_RetryBaseDelayMs)
    r.(cr_RetryMaxDelayMs) r.(cr_RetryJitter) r.(cr_CreatedAt) (Some stamp) None None.

Lemma update_row_echo stamp stamp' r :
  storable_policy r -> update_row (restamped stamp (toDomain r)) stamp' r = rewritten stamp' r.
Proof.
  intros Hp. destruct (stored_policy_normal r Hp) as (_ & _ & _ & Hb & Hm). simpl in Hb, Hm.
  unfold update_row, rewritten, campaign_params. cbn. by rewrite Hb, Hm.
Qed.

Lemma replaced_same id w rows :
  rows ≡ₚ hours_of id w ->
  List.filter (fun r => negb (bool_decide (r.(hr_campaign_id) = id))) w.(w_hours) ++ rows ≡ₚ w.(w_hours).
Proof.
  intros ->. unfold hours_of. induction w.(w_hours) as [|x l IH]; [done|]. simpl.
  destruct (bool_decide _); simpl; [|by f_equiv].
  rewrite <- Permutation_middle. by f_equiv.
Qed.

Lemma update_echo id r w n :
  reliable -> pg_ok w -> w.(w_campaigns) !! id = Some r -> storable_policy r ->
  exists n' hs stamp stamp',
    Update h.(hs_defaultConcurrency) (echo_input id (as_read id w r)) (set_tick n w)
      = (set_tick n' (set_hours hs (set_campaigns (<[id := rewritten stamp' r]> w.(w_campaigns)) w)),
         Ok (restamped stamp (toDomain r))) /\
    hs ≡ₚ w.(w_hours) /\ exists k k', stamp = env_now k /\ stamp' = env_now k'.
Proof.
  intros Hr Hok Hl Hp. destruct (ok_campaign w Hok _ _ Hl) as (Hid & _).
  assert (forall m, w_campaigns (set_tick m w) !! id = Some r) as Hlm by (by destruct w).
  assert (forall m, pg_ok (set_tick m w)) as Hokm by (intros m; revert Hok; destruct w; by apply pg_ok_same).
  unfold Update. rewrite (bind_step _ _ _ _ _ (get_stored _ _ _ Hr (Hlm n))).
  rewrite (bind_step now _ _ _ _ eq_refl).
  set (w1 := bump (bump (set_tick n w))). set (stamp := env_now _).
  rewrite (apply_update_echo id r w stamp Hok Hl Hp).
  assert (w1 = set_tick (S (S n)) w) as Hw1 by (by destruct w).
  assert (pg_ok w1) as Hok1 by (rewrite Hw1; apply Hokm).
  assert (w1.(w_campaigns) !! id = Some r) as Hl1 by (rewrite Hw1; apply Hlm).
  pose proof (campaign_rewrite_reliable Hr (restamped stamp (toDomain r)) id r w1 Hok1 Hl1
    Hid eq_refl eq_refl eq_refl) as Hup.
  set (stamp' := env_now (S (w_tick w1))) in Hup.
  rewrite update_row_echo in Hup by done.
  rewrite (bind_step _ _ _ _ _ Hup). cbn [ui_BusinessHours echo_input].
  set (rows := pg_order hour_key (hours_of id w)).
  assert (window_row id <$> toDomainBusinessHours (hour_input <$> (as_read id w r).(c_BusinessHours)) = rows)
    as Hrows by (apply rows_echo, stored_rows, Hok).
  set (w2 := set_campaigns _ _). change (c_ID (restamped stamp (toDomain r))) with r.(cr_ID). rewrite Hid.
  assert (w2.(w_hours) = w.(w_hours)) as Hh2 by (by destruct w).
  pose proof (stored_rows id w Hok) as Hst. fold rows in Hst.
  destruct (replace_hours_reliable id
    (toDomainBusinessHours (hour_input <$> (as_read id w r).(c_BusinessHours))) w2 Hr) as [n' Hrep].
  { rewrite Hh2. by apply ok_hours_unique. }
  { unfold w2. destruct w; simpl. rewrite lookup_insert_eq. by eexists. }
  { rewrite Hrows. eapply Forall_impl; [exact Hst|]. by intros x []. }
  { rewrite Hrows. unfold rows. rewrite pg_order_perm. unfold hours_of. rewrite <- Hh2.
    rewrite Hh2. apply NoDup_filter_list, ok_hours_unique, Hok. }
  rewrite (bind_step _ _ w2 _ ()) by (by rewrite run_on_err, Hrep).
  do 4 eexists. split_and!; [|apply (replaced_same id w rows), pg_order_perm|by do 2 eexists].
  unfold with_hours_table, replaced_hours. rewrite Hrows, Hh2. unfold w2. by destruct w.
Qed.

(** Claim C20: the document GET sends of a stored campaign can be PUT back, when its
    retry policy has not lost a delay below a millisecond to its columns
    ([storable_policy]: one attempt at least, a base delay of one millisecond at
    least, and not above the maximum): it is accepted, and the stores are left as they were, but for the fields of the row
    that no read shows (a missing description is now empty, the last update is
    now, the start and completion times are gone) and the order of the hours.
    The reply of the PUT shows the campaign without its business hours. *)
Theorem put_of_get (id : uuid) (ctx : Ctx) (put : json -> Ctx) (r : campaignRecord) (w w1 : World) (j : json) :
  reliable -> (forall n, year_ok (env_now n) = true) -> pg_ok w ->
  w.(w_campaigns) !! id = Some r -> storable_policy r ->
  uuid_parse ctx.(ctx_id) = Some id ->
  (forall j, (put j).(ctx_id) = ctx.(ctx_id) /\ (put j).(ctx_body) = BodyJSON j) ->
  serve h EGetCampaign ctx w = (w1, Ok (mkReply 200 (Some j))) ->
  exists n hs stamp j',
    serve h EUpdateCampaign (put j) w1
      = (set_tick n (set_hours hs (set_campaigns (<[id := rewritten stamp r]> w.(w_campaigns)) w)),
         Ok (mkReply 200 (Some j'))) /\
    hs ≡ₚ w.(w_hours) /\ toDomain (rewritten stamp r) = toDomain r /\
    exists jitter stamp', j = campaign_json (as_read id w r) jitter /\
      j' = campaign_json (restamped stamp' (toDomain r)) jitter.
Proof.
  intros Hr Hclock Hok Hl Hp Hid Hput Hget. destruct (Hput j) as [Hpid Hbody].
  destruct (stored_policy_normal r Hp) as (_ & Hb & Hm & _).
  unfold serve in Hget. rewrite run_map_result in Hget. cbn [handle] in Hget. unfold getCampaign, parseUUID, or_bad_request in Hget.
  rewrite Hid in Hget. rewrite ret_bind in Hget.
  rewrite (bind_step _ _ w (bump (bump w)) (as_read id w r)) in Hget
    by (rewrite !run_on_err; by rewrite (get_run id r w Hr Hl)).
  unfold send in Hget. rewrite marshal_campaign in Hget by done.
  change (c_RetryPolicy (as_read id w r)) with (toDomain r).(c_RetryPolicy) in Hget.
  destruct (enc_float (rp_Jitter (c_RetryPolicy (toDomain r)))) as [jitter|] eqn:Ej; [|by simplify_eq].
  change (year_ok _ && year_ok _) with true in Hget. cbv iota in Hget.
  injection Hget as <- <-.
  unfold serve. rewrite run_map_result. cbn [handle]. unfold updateCampaign, parseUUID, parse_body, or_bad_request.
  rewrite Hpid, Hid, Hbody. rewrite ret_bind.
  rewrite (echo_decoded id r w jitter Hok Hl Ej).
  rewrite ret_bind.
  rewrite echo_request_input by done. cbn [lift].
  change (on_err translateError (mret ?x)) with (mret x : M UpdateCampaignInput). rewrite ret_bind.
  destruct (update_echo id r w (S (S w.(w_tick))) Hr Hok Hl Hp) as (n & hs & stamp' & stamp & Hu & Hhs & k & k' & -> & ->).
  replace (bump (bump w)) with (set_tick (S (S w.(w_tick))) w) by (by destruct w).
  erewrite bind_step by (by rewrite run_on_err, Hu).
  unfold send. rewrite marshal_campaign by done.
  change (c_RetryPolicy (restamped _ (toDomain r))) with (toDomain r).(c_RetryPolicy). rewrite Ej.
  change (c_UpdatedAt (restamped _ (toDomain r))) with (env_now k). rewrite Hclock.
  change (year_ok _ && true) with true. cbv iota.
  do 4 eexists. split_and!; [reflexivity|done|reflexivity|by do 2 eexists].
Qed.
End Echo.

(** ** An example *)

(** No faults, and a clock that stands still. *)
Definition still_env : Env :=
  {| env_outcome := fun _ => Done; env_now := fun _ => 1700000000 * Second;
     env_uuid := fun n => N.of_nat (S n); env_rand := fun _ => f64_zero; env_intn := fun _ _ => 0;
     env_ctx_done := fun _ => false; env_deadline := fun _ => false; env_temporary := fun _ => false;
     env_tzdb := fun _ => None; env_tzdb_error := fun name => String.append "unknown time zone " name;
     env_local := UTC;
     env_f64_overflow := fun _ => min_int64; env_pg_lower := lower |}.

Definition sample_hours_db : World :=
  (@BusinessHourRepository_Replace still_env 3%N sample_hours sample_db).1.
Definition sample_request (body : Body) : Ctx :=
  mkCtx (bit_uuid_text 3) (fun _ => EmptyString) body "trace".
Definition sample_api : HandlerSet := mkHandlerSet 10 sample_service.

Lemma sample_hours_db_ok : @pg_ok still_env sample_hours_db.
Proof.
  apply (stable_run (inv (@pg_ok still_env)) _ (eff_hours_replace (H := still_env) _ 3%N sample_hours) sample_db).
  destruct sample_db_ok. by constructor.
Qed.

Lemma put_of_get_witness :
  let _ := still_env in let _ := stable_sort_order in let _ := bit_uuid in
  let _ := unary_pages in let _ := json_bodies in
  exists j n hs stamp j',
    (serve sample_api EGetCampaign (sample_request (BodyOther EmptyString EmptyString)) sample_hours_db).2
      = Ok (mkReply 200 (Some j)) /\
    serve sample_api EUpdateCampaign (sample_request (BodyJSON j)) (bump (bump sample_hours_db))
      = (set_tick n (set_hours hs (set_campaigns {[ 3%N := rewritten stamp sample_row ]} sample_hours_db)),
         Ok (mkReply 200 (Some j'))) /\
    hs ≡ₚ sample_hours_db.(w_hours).
Proof.
  intros E O U G F.
  pose (j := campaign_json (as_read 3%N sample_hours_db sample_row) (JFloat f64_zero)).
  assert (serve sample_api EGetCampaign (sample_request (BodyOther EmptyString EmptyString)) sample_hours_db
    = (bump (bump sample_hours_db), Ok (mkReply 200 (Some j)))) as Hrun by (vm_compute; reflexivity).
  destruct (put_of_get sample_api 3%N (sample_request (BodyOther EmptyString EmptyString))
    (fun j => sample_request (BodyJSON j)) sample_row sample_hours_db (bump (bump sample_hours_db)) j)
    as (n & hs & stamp & j' & Hput & Hhs & _).
  - intros k. reflexivity.
  - intros k. reflexivity.
  - exact sample_hours_db_ok.
  - vm_compute; reflexivity.
  - vm_compute; repeat split; discriminate.
  - vm_compute; reflexivity.
  - intros k. split; reflexivity.
  - exact Hrun.
  - exists j, n, hs, stamp, j'. split; [by rewrite Hrun|]. split; [|exact Hhs].
    rewrite Hput. by replace (<[3%N := _]> (w_campaigns sample_hours_db))
      with ({[ 3%N := rewritten stamp sample_row ]} : gmap uuid campaignRecord) by (vm_compute; reflexivity).
Defined.
