(* ===== verification/ApiCreate.v ===== *)
(** What the API says of a campaign when it is created is what it says of it from
    then on: GET after POST. *)
From S2P Require Import Prelude Errors GoTime Durations Json Domain Messages World Postgres.
From S2P Require Import PostgresInv PostgresSpec CampaignService CallService CallLists Raises Requests.
From S2P Require Import Handlers Effects Integrity ApiProofs ApiEcho.

(** ** Windows, as they are shown *)

Lemma clock_minutes h m :
  0 <= h < 24 -> 0 <= m < 60 -> Hour (minuteToTime (h * 60 + m)) = h /\ Minute (minuteToTime (h * 60 + m)) = m.
Proof.
  intros Hh Hm. unfold minuteToTime, date_2000_01_01.
  rewrite Z.quot_div_nonneg, Z.rem_mod_nonneg by lia.
  rewrite Z.div_add_l, (Z.add_comm (h * 60)), Z.mod_add by done.
  rewrite (Z.div_small m), (Z.mod_small m) by lia. rewrite Z.add_0_r.
  by rewrite Hour_date, Minute_date by (done || lia).
Qed.

(** A window is stored to the minute, and shown to the minute. *)
Lemma hour_json_stored id x : hour_json (row_window (window_row id x)) = hour_json x.
Proof.
  unfold hour_json, format_clock, row_window, window_row. cbn.
  destruct (clock_minutes (Hour x.(w_Start)) (Minute x.(w_Start)) (Hour_range _) (Minute_range _)) as [-> ->].
  by destruct (clock_minutes (Hour x.(w_End)) (Minute x.(w_End)) (Hour_range _) (Minute_range _)) as [-> ->].
Qed.

Section Create.
Context `{Env} `{PgOrder} `{UuidText} `{Gocql} `{Fiber} (h : HandlerSet).

(** A reply with the code of a success is that of the handler. *)
Lemma serve_handled e ctx w w' r :
  serve h e ctx w = (w', Ok r) -> r.(reply_status) ∉ [400; 404; 500] -> handle h e ctx w = (w', Ok r).
Proof.
  unfold serve. rewrite run_map_result. destruct (handle h e ctx w) as [w1 [r1|err]] eqn:E; cbn [fst snd answer].
  - by intros [= <- <-].
  - intros Hrun Hs. exfalso. apply Hs. apply handle_errors in E as [Herr|(_ & _ & t & ->)]; [|done].
    destruct Herr as [err He|code m Hc]; [destruct He|]; injection Hrun as _ <-; simpl; set_solver.
Qed.

(** A campaign that could be read is the one the tables hold. *)
Lemma get_Ok id w w' c :
  Get id w = (w', Ok c) ->
  exists r, w.(w_campaigns) !! id = Some r /\ c = as_read id w r /\ stores w' = stores w.
Proof.
  unfold Get, CampaignRepository_Get, BusinessHourRepository_List. intros Hrun.
  apply bind_Ok in Hrun as (c0 & w1 & Hc & Hrun). apply bind_Ok in Hc as (row & w0 & Hrow & Hc).
  apply on_err_Ok, external_Ok in Hrow. injection Hrow as <- <-.
  replace (w_campaigns (bump w)) with w.(w_campaigns) in Hc by (by destruct w).
  destruct (w_campaigns w !! id) as [r|] eqn:Hl; [|done]. injection Hc as <- <-.
  apply bind_Ok in Hrun as (hs & w2 & Hh & Hrun). apply on_err_Ok, on_err_Ok, external_Ok in Hh.
  injection Hh as <- <-. injection Hrun as <- <-. exists r. rewrite !stores_bump. split_and!; [done| |done].
  unfold as_read, stored_windows. by destruct w.
Qed.

(** Storing targets touches neither the campaign nor its hours. *)
Definition shown_tables (w : World) := (w.(w_campaigns), w.(w_hours)).

#[local] Instance shown_run : CanRun (keeps shown_tables).
Proof. apply (watch_run shown_tables); [done|apply _|by intros v []]. Qed.
#[local] Instance shown_targets : CanInsertTargets (keeps shown_tables).
Proof. apply (watch_insert_targets shown_tables); [done|by intros v []]. Qed.

Lemma add_targets_shown c ts w : shown_tables (AddTargets c ts w).1 = shown_tables w.
Proof. apply (stable_run (keeps shown_tables)), eff_AddTargets; apply _. Qed.

(** What Create leaves for a read to show. *)
Lemma created_is_stored d i w w' c :
  pg_ok w -> Create d i w = (w', Ok c) ->
  c = create_campaign_of d i w /\ w.(w_campaigns) !! c.(c_ID) = None /\
  w'.(w_campaigns) !! c.(c_ID) = Some (campaign_params c) /\
  hours_of c.(c_ID) w' = window_row c.(c_ID) <$> toDomainBusinessHours i.(ci_BusinessHours).
Proof.
  intros Hok Hrun. apply create_until_targets in Hrun
    as (Hc & Hnew & w3 & _ & Hc3 & Hh3 & _ & _ & Hts); [|done].
  assert (shown_tables w' = shown_tables w3) as [= Hcw Hhw].
  { destruct i.(ci_Targets) as [|t ts]; [by subst|]. destruct Hts as (rs & w4 & Hnewr & Hbulk).
    pose proof (stable_ran (keeps shown_tables) _ _ _ _ (eff_new_records _ _ _ _) Hnewr) as H1'.
    pose proof (stable_ran (keeps shown_tables) _ _ _ _ (eff_bulk_insert _ _ _) Hbulk) as H2'.
    unfold keeps in *. congruence. }
  split_and!; [done|done|by rewrite Hcw, Hc3, lookup_insert_eq|].
  rewrite <- Hh3. unfold hours_of. by rewrite Hhw.
Qed.

(** The campaign the reply to a POST shows. *)
Definition shown (id : uuid) (i : CreateCampaignInput) (c : Campaign) : Prop :=
  let p := normalizeRetry i.(ci_RetryPolicy) in
  c.(c_ID) = id /\ c.(c_Name) = i.(ci_Name) /\ c.(c_Description) = i.(ci_Description) /\
  c.(c_TimeZone) = i.(ci_TimeZone) /\ c.(c_Status) = CampaignStatusPending /\
  c.(c_MaxConcurrentCalls) = resolveConcurrency h.(hs_defaultConcurrency) i.(ci_MaxConcurrentCalls) /\
  c.(c_RetryPolicy) = mkRetryPolicy p.(rp_MaxAttempts) (of_ms (Milliseconds p.(rp_BaseDelay)))
    (of_ms (Milliseconds p.(rp_MaxDelay))) p.(rp_Jitter) /\
  hour_json <$> c.(c_BusinessHours) ≡ₚ hour_json <$> toDomainBusinessHours i.(ci_BusinessHours) /\
  Sorted (fun a b => hour_key a <= hour_key b) (window_row id <$> c.(c_BusinessHours)) /\
  c.(c_CreatedAt) = zero_time /\ c.(c_UpdatedAt) = zero_time.

Lemma created_shown d i w w' c :
  d = h.(hs_defaultConcurrency) -> pg_ok w -> pg_ok w' -> Create d i w = (w', Ok c) ->
  shown c.(c_ID) i (as_read c.(c_ID) w' (campaign_params c)).
Proof.
  intros -> Hok Hok' Hrun. apply created_is_stored in Hrun as (Hc & _ & _ & Hh); [|done].
  pose proof (stored_rows c.(c_ID) w' Hok') as Hrows.
  set (rows := pg_order hour_key (hours_of c.(c_ID) w')) in *.
  set (c' := as_read _ _ _). assert (c'.(c_BusinessHours) = row_window <$> rows) as Hhours by done.
  unfold shown. rewrite Hhours. split_and!; try (unfold c'; by rewrite Hc).
  - unfold rows. rewrite pg_order_perm, Hh, <- !list_fmap_compose. apply reflexive_eq, list_fmap_ext.
    intros _ x _. apply hour_json_stored.
  - replace (window_row _ <$> (row_window <$> rows)) with rows; [apply pg_order_sorted|]. clear Hhours.
    induction Hrows as [|x l [Hid Hv] _ IH]; [done|]. cbn [fmap list_fmap]. f_equal; [|exact IH].
    rewrite <- Hid. symmetry. by apply window_row_window.
Qed.

(** The document of a campaign that was read. *)
Lemma read_document id w r :
  Marshal campaignResponse_fields (toCampaignResponse (as_read id w r)) =
    (fun jitter => campaign_json (as_read id w r) jitter) <$> enc_float r.(cr_RetryJitter).
Proof. rewrite marshal_campaign by done. by destruct (enc_float _). Qed.

Lemma get_shows ctx id r w :
  reliable -> uuid_parse ctx.(ctx_id) = Some id -> w.(w_campaigns) !! id = Some r ->
  is_Some (enc_float r.(cr_RetryJitter)) ->
  serve h EGetCampaign ctx w = (bump (bump w),
    Ok (mkReply 200 (Marshal campaignResponse_fields (toCampaignResponse (as_read id w r))))).
Proof.
  intros Hr Hid Hl [jitter Hj]. unfold serve. rewrite run_map_result. cbn [handle].
  unfold getCampaign, parseUUID, or_bad_request. rewrite Hid, ret_bind.
  rewrite (bind_step _ _ w (bump (bump w)) (as_read id w r)) by (by rewrite run_on_err, (get_run id r w Hr Hl)).
  unfold send. rewrite read_document, Hj. done.
Qed.

(** Claim C21: a POST that is answered 201 shows the campaign it has created: new,
    pending, with the settings and the windows of the request (the limit
    defaulted, the policy normalised and its delays cut to milliseconds, the
    windows sorted by day and start), but with zero times of creation and update.
    From then on, for as long as nobody changes its row or its hours, and whatever
    else is changed, every GET that reaches the database is answered with the very
    same document. *)
Theorem get_of_post (ctx : Ctx) (w w1 : World) (doc : option json) :
  pg_ok w -> serve h ECreateCampaign ctx w = (w1, Ok (mkReply 201 doc)) ->
  exists req i c jitter,
    BodyParser createCampaignRequest_fields ctx.(ctx_body) zero_create_req = Some req /\
    toCreateCampaignInput req = Ok i /\ w.(w_campaigns) !! c.(c_ID) = None /\ shown c.(c_ID) i c /\
    doc = Some (campaign_json c jitter) /\ enc_float c.(c_RetryPolicy).(rp_Jitter) = Some jitter /\
    forall get w2, reliable -> uuid_parse get.(ctx_id) = Some c.(c_ID) ->
      w2.(w_campaigns) !! c.(c_ID) = w1.(w_campaigns) !! c.(c_ID) ->
      hours_of c.(c_ID) w2 = hours_of c.(c_ID) w1 ->
      serve h EGetCampaign get w2 = (bump (bump w2), Ok (mkReply 200 doc)).
Proof.
  intros Hok Hrun. apply serve_handled in Hrun; [|simpl; set_solver]. cbn [handle] in Hrun.
  unfold createCampaign, parse_body, or_bad_request in Hrun.
  apply bind_Ok in Hrun as (req & w0 & Hreq & Hrun). destruct (BodyParser _ _ _) as [req'|] eqn:Eb; [|done].
  injection Hreq as <- <-. apply bind_Ok in Hrun as (i & w0 & Hi & Hrun). apply on_err_Ok in Hi.
  destruct (toCreateCampaignInput req') as [i'|] eqn:Ei; [|done]. injection Hi as <- <-.
  apply bind_Ok in Hrun as (c0 & w2 & Hcreate & Hrun). apply on_err_Ok in Hcreate.
  apply bind_Ok in Hrun as (c & w3 & Hget & Hrun). apply on_err_Ok in Hget.
  apply get_Ok in Hget as (r & Hl & -> & Hst). unfold send in Hrun.
  pose proof (stable_ran (inv pg_ok) _ _ _ _ (eff_Create _ _ _) Hcreate Hok) as Hok2.
  pose proof (created_is_stored _ _ _ _ _ Hok Hcreate) as (_ & Hnew & Hl' & _).
  rewrite Hl' in Hl. injection Hl as <-.
  pose proof (created_shown _ _ _ _ _ eq_refl Hok Hok2 Hcreate) as Hshown.
  set (id := c0.(c_ID)) in *. set (c := as_read id w2 (campaign_params c0)) in *.
  unfold c in Hrun. rewrite read_document in Hrun. destruct (enc_float _) as [jitter|] eqn:Ej in Hrun; [|done].
  injection Hrun as <- <-. exists req', i', c, jitter. split_and!; try done.
  intros get w4 Hr Hid Hrow Hhours. unfold stores in Hst. injection Hst as Hc3 Hh3 _ _ _ _ _ _ _ _.
  change (c_ID c) with id in *. rewrite Hc3, Hl' in Hrow.
  rewrite (get_shows get id _ w4 Hr Hid Hrow) by (by eexists). rewrite read_document, Ej.
  assert (as_read id w4 (campaign_params c0) = c) as ->; [|done].
  unfold c, as_read, stored_windows. rewrite Hhours. unfold hours_of. by rewrite Hh3.
Qed.
End Create.

(** ** An example *)

Definition posted_body : json :=
  JObj [("name", JString "autumn"); ("time_zone", JString "UTC");
        ("retry_policy", JObj [("base_delay", JString "1.5s"); ("jitter", JInt 0)]);
        ("business_hours", JArr [JObj [("day_of_week", JInt 2); ("start", JString "9:30"); ("end", JString "17:00")];
                                 JObj [("day_of_week", JInt 1); ("start", JString "09:00"); ("end", JString "12:00")]]);
        ("targets", JArr [JObj [("phone_number", JString "+1555")]])].

Lemma get_of_post_witness :
  let _ := still_env in let _ := stable_sort_order in let _ := bit_uuid in
  let _ := unary_pages in let _ := json_bodies in
  exists w1 doc c, serve sample_api ECreateCampaign (sample_request (BodyJSON posted_body)) empty_world
      = (w1, Ok (mkReply 201 doc)) /\
    length c.(c_BusinessHours) = 2%nat /\
    forall ts w2, w2 = (AddTargets c.(c_ID) ts w1).1 ->
      (serve sample_api EGetCampaign (mkCtx (bit_uuid_text c.(c_ID)) (fun _ => EmptyString)
         (BodyOther EmptyString EmptyString) "trace") w2).2 = Ok (mkReply 200 doc).
Proof.
  intros E O U G F.
  pose (w1 := (serve sample_api ECreateCampaign (sample_request (BodyJSON posted_body)) empty_world).1).
  assert (exists doc, serve sample_api ECreateCampaign (sample_request (BodyJSON posted_body)) empty_world
    = (w1, Ok (mkReply 201 doc))) as [doc Hrun] by (eexists; vm_compute; reflexivity).
  clearbody w1. destruct (get_of_post sample_api (sample_request (BodyJSON posted_body)) empty_world w1 doc pg_ok_empty Hrun)
    as (req & i & c & jitter & Hreq & Hi & _ & Hshown & _ & _ & Hget).
  exists w1, doc, c. split; [exact Hrun|]. split.
  - destruct Hshown as (_ & _ & _ & _ & _ & _ & _ & Hhours & _). apply Permutation_length in Hhours.
    rewrite !length_fmap in Hhours. rewrite Hhours.
    assert (toCreateCampaignInput req = toCreateCampaignInput (default zero_create_req
      (BodyParser createCampaignRequest_fields (BodyJSON posted_body) zero_create_req))) as Hq
      by (change (ctx_body _) with (BodyJSON posted_body) in Hreq; by rewrite Hreq).
    rewrite Hq in Hi. vm_compute in Hi. injection Hi as <-. reflexivity.
  - intros ts w2 Hw2. pose proof (add_targets_shown c.(c_ID) ts w1) as Hs. rewrite <- Hw2 in Hs. clear Hw2.
    injection Hs as Hc Hh.
    set (get := mkCtx _ _ _ _). pose proof (bit_uuid_parse_text c.(c_ID) : uuid_parse get.(ctx_id) = Some c.(c_ID)) as Hid.
    assert (w2.(w_campaigns) !! c.(c_ID) = w1.(w_campaigns) !! c.(c_ID)) as Hrow by (by rewrite Hc).
    assert (hours_of c.(c_ID) w2 = hours_of c.(c_ID) w1) as Hhours by (unfold hours_of; by rewrite Hh).
    pose proof (Hget get w2 (fun _ => eq_refl) Hid Hrow Hhours) as ->. reflexivity.
Defined.
