(* ===== verification/WorkerProofs.v ===== *)
(** What the three workers do with a message: the call worker reports, commits
    and gives its slot back; the status worker counts, records and schedules; the
    retry worker dispatches again. *)
From S2P Require Import Prelude Errors GoTime Json Domain Messages World Postgres PostgresInv.
From S2P Require Import PostgresSpec Scylla Queue Limiter CampaignService CallService Scheduler.
From S2P Require Import CallWorker StatusWorker RetryWorker Effects.

(** ** Requests that are answered *)

Section Answered.
Context `{Env} `{UuidText} (Hr : reliable).

Lemma commit_reliable group m w :
  CommitMessages group m w = (set_commits (w.(w_commits) ++ [(group, m)]) (bump w), Ok ()).
Proof using Hr. unfold CommitMessages. rewrite external_reliable by done. by destruct w. Qed.

(** What publishing a document adds to the log. *)
Definition published (topic : string) (key : uuid) (doc : option json) (stamp : Time)
    : list (string * KafkaMessage) :=
  match doc with Some v => [(topic, mkKafka key v stamp)] | None => [] end.

Lemma publish_status_run topic sm w :
  exists w' r, PublishStatus topic sm w = (w', r) /\ w'.(w_commits) = w.(w_commits) /\
    w'.(w_redis) = w.(w_redis) /\ w'.(w_stats) = w.(w_stats) /\
    w'.(w_log) = w.(w_log) ++ published topic sm.(sm_CallID) (marshal_status sm) (env_now w.(w_tick)).
Proof using Hr.
  unfold PublishStatus, marshalled. destruct (marshal_status sm) as [v|].
  - run_monad. rewrite write_done by apply Hr. do 2 eexists. split; [reflexivity|]. by destruct w.
  - do 2 eexists. split; [reflexivity|]. by rewrite app_nil_r.
Qed.

Lemma dispatch_reliable topic d v w :
  marshal_dispatch d = Some v ->
  DispatchCall topic d w =
    (set_log (w.(w_log) ++ [(topic, mkKafka d.(dm_CallID) v (env_now w.(w_tick)))]) (bump (bump w)), Ok ()).
Proof using Hr.
  intros Hv. unfold DispatchCall, marshalled. rewrite Hv. run_monad.
  rewrite write_done by apply Hr. by destruct w.
Qed.

Lemma apply_delta_reliable c d st w :
  w.(w_stats) !! c = Some st -> stats_in_range (add_delta st d) = true ->
  CampaignStatisticsRepository_ApplyDelta c d w =
    (set_stats (<[c := add_delta st d]> w.(w_stats)) (bump w), Ok ()).
Proof using Hr. intros. by apply apply_delta_done. Qed.

Lemma append_attempt_reliable a w :
  in_int32 a.(att_AttemptNum) ->
  CallStore_AppendAttempt a w =
    (set_attempts (<[(a.(att_CallID), a.(att_AttemptNum)) :=
       mkAttemptRow a.(att_Status) a.(att_Error) a.(att_CreatedAt) (Z.quot a.(att_Duration) Millisecond)]>
       w.(w_attempts)) (bump w), Ok ()).
Proof using Hr.
  intros Hi. unfold CallStore_AppendAttempt. rewrite !run_on_err. rewrite external_reliable by done.
  unfold cql_int. rewrite bool_decide_true by done. by destruct w.
Qed.

(** The retry record, if the attempt has a retry topic. *)
Definition retry_records (topics : list string) (attempt : int) (r : RetryMessage) (stamp : Time)
    : list (string * KafkaMessage) :=
  if (1 <=? attempt) && (attempt <=? Z.of_nat (length topics))
  then match topics !! Z.to_nat (attempt - 1) with
       | Some topic => published topic r.(rm_DispatchMessage).(dm_CallID) (marshal_retry r) stamp
       | None => []
       end
  else [].

Lemma schedule_retry_run topics n r w :
  exists w' res, ScheduleRetry topics n r w = (w', res) /\ w'.(w_commits) = w.(w_commits) /\
    w'.(w_stats) = w.(w_stats) /\ w'.(w_attempts) = w.(w_attempts) /\
    w'.(w_log) = w.(w_log) ++ retry_records topics n r (env_now w.(w_tick)).
Proof using Hr.
  unfold ScheduleRetry, retry_records, marshalled.
  destruct (n <=? 0) eqn:?, (Z.of_nat (length topics) <? n) eqn:?, (1 <=? n) eqn:?,
    (n <=? Z.of_nat (length topics)) eqn:?; zbool; try lia; cbn [andb orb];
    try (do 2 eexists; split; [reflexivity|]; by rewrite app_nil_r).
  destruct (lookup_lt_is_Some_2 topics (Z.to_nat (n - 1)) ltac:(lia)) as [topic Htopic].
  rewrite Htopic. destruct (marshal_retry r) as [v|].
  - run_monad. rewrite write_done by apply Hr.
    do 2 eexists. split; [reflexivity|]. by destruct w.
  - do 2 eexists. split; [reflexivity|]. by rewrite app_nil_r.
Qed.
End Answered.

(** ** The status worker *)

Section Status.
Context `{Env} `{UuidText}.

Definition counted (w : World) := (w.(w_stats), w.(w_log), w.(w_commits)).

#[local] Instance counted_run : CanRun (keeps counted).
Proof. split; [apply _|]. by intros []. Qed.
#[local] Instance counted_calls : CanWriteCalls (keeps counted).
Proof. by apply any_calls; intros v []. Qed.

#[local] Instance attempts_run : CanRun (keeps w_attempts).
Proof. split; [apply _|]. by intros []. Qed.
#[local] Instance attempts_calls : CanWriteCalls (keeps w_attempts).
Proof. by apply any_calls; intros v []. Qed.

(** The row of the timeline a status message writes. *)
Definition timeline_row (status : StatusMessage) : attemptRow :=
  mkAttemptRow (call_status_of status.(sm_Status)) status.(sm_Error) status.(sm_OccurredAt)
    (Z.quot (of_ms status.(sm_DurationMs)) Millisecond).
Definition timeline_key (status : StatusMessage) : uuid * Z :=
  (status.(sm_CallID), status.(sm_Attempt)).

(** Recording a status is best effort, and its last write is the attempt. *)
Lemma record_status_run status w :
  reliable -> in_int32 status.(sm_Attempt) ->
  exists w', record_status status w = (w', Ok ()) /\ counted w' = counted w /\
    w'.(w_attempts) = <[timeline_key status := timeline_row status]> w.(w_attempts).
Proof.
  intros Hr Hi. unfold record_status. rewrite run_bind, run_ignore.
  pose proof (stable_run _ _ (eff_update_call_status (keeps counted) status.(sm_CallID)
    (call_status_of status.(sm_Status)) status.(sm_Attempt) (optionalString status.(sm_Error))) w) as Hk.
  pose proof (stable_run _ _ (eff_update_call_status (keeps w_attempts) status.(sm_CallID)
    (call_status_of status.(sm_Status)) status.(sm_Attempt) (optionalString status.(sm_Error))) w) as Ha.
  destruct (CallStore_UpdateCallStatus _ _ _ _ w) as [w1 r1]. cbn [fst] in *. unfold keeps in *.
  rewrite (bind_step uuid_New _ _ _ _ eq_refl). rewrite run_ignore.
  rewrite append_attempt_reliable by done. eexists. split; [reflexivity|].
  rewrite <- Hk, <- Ha. by destruct w1.
Qed.

(** The retry of an attempt asks for the next attempt: the number does not wrap. *)
Lemma retry_of_next status next :
  in_int32 status.(sm_Attempt) ->
  retry_of status next =
    mkRetry
      (mkDispatch status.(sm_CallID) status.(sm_CampaignID) status.(sm_PhoneNumber)
         (status.(sm_Attempt) + 1) status.(sm_MaxAttempts) status.(sm_RetryBaseMs)
         status.(sm_RetryMaxMs) status.(sm_RetryJitter) status.(sm_ConcurrencyLimit)
         status.(sm_Metadata) next)
      status.(sm_MaxAttempts) next.
Proof.
  intros Hi. unfold retry_of. rewrite wrap64_id; [done|].
  unfold in_int32 in Hi. unfold in_int64, min_int64, max_int64. lia.
Qed.

(** The counters after a status message: those of its campaign move, if it has any
    and they can. *)
Definition counters_after (status : StatusMessage) (m : gmap uuid CampaignStats) : gmap uuid CampaignStats :=
  if bool_decide (status.(sm_CampaignID) = uuid_Nil) then m
  else match m !! status.(sm_CampaignID) with
       | Some st => if stats_in_range (add_delta st (status_delta status))
                    then <[status.(sm_CampaignID) := add_delta st (status_delta status)]> m else m
       | None => m
       end.

Lemma counters_after_done status st m :
  status.(sm_CampaignID) <> uuid_Nil -> m !! status.(sm_CampaignID) = Some st ->
  stats_in_range (add_delta st (status_delta status)) = true ->
  counters_after status m = <[status.(sm_CampaignID) := add_delta st (status_delta status)]> m.
Proof. intros Hnil Hst Hr. unfold counters_after. by rewrite bool_decide_false, Hst, Hr by done. Qed.

Lemma count_status_run status w :
  reliable -> exists w', count_status status w = (w', Ok ()) /\
    w'.(w_stats) = counters_after status w.(w_stats) /\ w'.(w_attempts) = w.(w_attempts) /\
    w'.(w_log) = w.(w_log) /\ w'.(w_commits) = w.(w_commits).
Proof.
  intros Hr. unfold count_status, counters_after. case_bool_decide; [by exists w|]. rewrite run_ignore.
  unfold CampaignStatisticsRepository_ApplyDelta, apply_delta. rewrite run_on_err, external_reliable by done.
  replace (w_stats (bump w)) with w.(w_stats) by (by destruct w).
  destruct (w_stats w !! _) as [st|]; [destruct (stats_in_range _)|]; eexists; (split; [reflexivity|]); by destruct w.
Qed.

Lemma schedule_retry_step sw status w :
  reliable -> exists w' stamp, schedule_retry sw status w = (w', Ok ()) /\ w'.(w_commits) = w.(w_commits) /\
    w'.(w_stats) = w.(w_stats) /\ w'.(w_attempts) = w.(w_attempts) /\
    w'.(w_log) = w.(w_log) ++ match status.(sm_Retryable), status.(sm_NextAttempt) with
      | true, Some next => retry_records sw.(sw_RetryTopics) status.(sm_Attempt) (retry_of status next) stamp
      | _, _ => []
      end.
Proof.
  intros Hr. unfold schedule_retry. destruct (sm_Retryable status), (sm_NextAttempt status) as [next|];
    try (exists w, 0; by rewrite app_nil_r).
  destruct (schedule_retry_run Hr sw.(sw_RetryTopics) status.(sm_Attempt) (retry_of status next) w)
    as (w' & res & Hrun & ?). exists w', (env_now w.(w_tick)). rewrite run_ignore. by rewrite Hrun.
Qed.

(** What a status message does when every request is answered. *)
Lemma handle_status_run sw m status w :
  reliable -> unmarshal_status m.(km_Value) = Some status -> in_int32 status.(sm_Attempt) ->
  exists w' stamp, handle_status sw m w = (w', Ok ()) /\
    w'.(w_stats) = counters_after status w.(w_stats) /\
    w'.(w_attempts) = <[timeline_key status := timeline_row status]> w.(w_attempts) /\
    w'.(w_commits) = w.(w_commits) ++ [(status_group sw, m)] /\
    w'.(w_log) = w.(w_log) ++ match status.(sm_Retryable), status.(sm_NextAttempt) with
      | true, Some next => retry_records sw.(sw_RetryTopics) status.(sm_Attempt) (retry_of status next) stamp
      | _, _ => []
      end.
Proof.
  intros Hr Hu Hi. unfold handle_status. rewrite Hu.
  destruct (record_status_run status w Hr Hi) as (w1 & H1 & Hc & Ha).
  unfold counted in Hc. injection Hc as Hs1 Hl1 Hc1. rewrite (bind_step _ _ _ _ _ H1).
  destruct (count_status_run status w1 Hr) as (w2 & H2 & Hs2 & Ha2 & Hl2 & Hc2). rewrite (bind_step _ _ _ _ _ H2).
  destruct (schedule_retry_step sw status w2 Hr) as (w3 & stamp & H3 & Hc3 & Hs3 & Ha3 & Hl3).
  rewrite (bind_step _ _ _ _ _ H3). rewrite run_ignore. rewrite commit_reliable by done.
  exists (set_commits (w3.(w_commits) ++ [(status_group sw, m)]) (bump w3)), stamp. split; [reflexivity|].
  rewrite <- Hs1, <- Ha, <- Hl1, <- Hc1, <- Hl2, <- Ha2, <- Hc2, <- Hs2, <- Hl3, <- Ha3, <- Hc3, <- Hs3.
  by destruct w3.
Qed.

(** Claim C28: when requests are answered, a status message moves the counters of its
    campaign and no others: a call that completed is one pending less and one
    completed more, a call that failed and is not tried again one pending less and
    one failed more, any other report changes neither, and every attempt after the
    first is one retry more; the totals stay. The attempt enters the timeline,
    exactly one retry is published, for the next attempt and on the topic of this
    one, if and only if the attempt is retryable with a time and has a topic, and
    the message is committed. *)
Theorem status_message_effects (sw : StatusWorker) (m : KafkaMessage) (status : StatusMessage)
    (st : CampaignStats) (w : World) :
  reliable -> unmarshal_status m.(km_Value) = Some status -> in_int32 status.(sm_Attempt) ->
  status.(sm_CampaignID) <> uuid_Nil -> w.(w_stats) !! status.(sm_CampaignID) = Some st ->
  let completed := bool_decide (status.(sm_Status) = "completed") in
  let failed := bool_decide (status.(sm_Status) = "failed") && negb status.(sm_Retryable) in
  let one (b : bool) := if b then 1 else 0 in
  let st' := {|
    st_TotalCalls := st.(st_TotalCalls);
    st_CompletedCalls := st.(st_CompletedCalls) + one completed;
    st_FailedCalls := st.(st_FailedCalls) + one failed;
    st_InProgressCalls := st.(st_InProgressCalls);
    st_PendingCalls := st.(st_PendingCalls) - one (completed || failed);
    st_RetriesAttempted := st.(st_RetriesAttempted) + one (1 <? status.(sm_Attempt)) |} in
  stats_in_range st' = true ->
  exists w' recs, handle_status sw m w = (w', Ok ()) /\
    w'.(w_stats) = <[status.(sm_CampaignID) := st']> w.(w_stats) /\
    w'.(w_attempts) !! timeline_key status = Some (timeline_row status) /\
    w'.(w_commits) = w.(w_commits) ++ [(status_group sw, m)] /\
    w'.(w_log) = w.(w_log) ++ recs /\
    (forall next topic v, status.(sm_Retryable) = true -> status.(sm_NextAttempt) = Some next ->
       1 <= status.(sm_Attempt) -> sw.(sw_RetryTopics) !! Z.to_nat (status.(sm_Attempt) - 1) = Some topic ->
       marshal_retry
         (mkRetry
            (mkDispatch status.(sm_CallID) status.(sm_CampaignID) status.(sm_PhoneNumber)
               (status.(sm_Attempt) + 1) status.(sm_MaxAttempts) status.(sm_RetryBaseMs)
               status.(sm_RetryMaxMs) status.(sm_RetryJitter) status.(sm_ConcurrencyLimit)
               status.(sm_Metadata) next)
            status.(sm_MaxAttempts) next) = Some v ->
       exists stamp, recs = [(topic, mkKafka status.(sm_CallID) v stamp)]) /\
    (status.(sm_Retryable) = false \/ status.(sm_NextAttempt) = None \/
     Z.of_nat (length sw.(sw_RetryTopics)) < status.(sm_Attempt) -> recs = []).
Proof.
  intros Hr Hu Hi Hnil Hst completed failed one st' Hrange.
  assert (add_delta st (status_delta status) = st') as Hst'.
  { unfold add_delta, status_delta, call_status_of, st', completed, failed, one.
    destruct (1 <? _), (sm_Retryable status);
      repeat (case_bool_decide; [simplify_eq|]); cbn; f_equal; try lia; congruence. }
  destruct (handle_status_run sw m status w Hr Hu Hi) as (w' & stamp & Hrun & Hs & Ha & Hc & Hl).
  rewrite (counters_after_done status st), Hst' in Hs by (by rewrite ?Hst').
  eexists w', _. split_and!; [exact Hrun|exact Hs|rewrite Ha; apply lookup_insert_eq|exact Hc|exact Hl| |].
  - intros next topic v Hre Hne H1 Htopic Hv. exists stamp. rewrite Hre, Hne.
    unfold retry_records. apply lookup_lt_Some in Htopic as Hlt.
    destruct (1 <=? _) eqn:?, (_ <=? Z.of_nat _) eqn:?; zbool; try lia. simpl.
    rewrite Htopic. unfold published. by rewrite retry_of_next, Hv.
  - intros [Hre|[Hne|Hlt]].
    + by rewrite Hre.
    + rewrite Hne. by destruct (sm_Retryable status).
    + destruct (sm_Retryable status), (sm_NextAttempt status); try done. unfold retry_records.
      destruct (_ <=? Z.of_nat _) eqn:?; zbool; [lia|]. by rewrite andb_false_r.
Qed.

(** A status message that is delivered twice enters the timeline once
    (the attempt is keyed by call and number) but is counted twice: nothing
    remembers that its delta was applied. *)
Theorem status_redelivery (sw : StatusWorker) (m : KafkaMessage) (status : StatusMessage)
    (st : CampaignStats) (w : World) :
  let d := status_delta status in
  reliable -> unmarshal_status m.(km_Value) = Some status -> in_int32 status.(sm_Attempt) ->
  status.(sm_CampaignID) <> uuid_Nil -> w.(w_stats) !! status.(sm_CampaignID) = Some st ->
  stats_in_range (add_delta st d) = true -> stats_in_range (add_delta (add_delta st d) d) = true ->
  exists w1 w2, handle_status sw m w = (w1, Ok ()) /\ handle_status sw m w1 = (w2, Ok ()) /\
    w2.(w_attempts) = w1.(w_attempts) /\
    w1.(w_stats) !! status.(sm_CampaignID) = Some (add_delta st d) /\
    w2.(w_stats) !! status.(sm_CampaignID) = Some (add_delta (add_delta st d) d).
Proof.
  intros d Hr Hu Hi Hnil Hst Hr1 Hr2.
  destruct (handle_status_run sw m status w Hr Hu Hi) as (w1 & t1 & Hrun1 & Hs1 & Ha1 & _).
  rewrite (counters_after_done status st) in Hs1 by done.
  assert (w1.(w_stats) !! status.(sm_CampaignID) = Some (add_delta st d)) as Hst1
    by (rewrite Hs1; apply lookup_insert_eq).
  destruct (handle_status_run sw m status w1 Hr Hu Hi) as (w2 & t2 & Hrun2 & Hs2 & Ha2 & _).
  rewrite (counters_after_done status (add_delta st d)) in Hs2 by done.
  exists w1, w2. split_and!; [done|done| |done|rewrite Hs2; apply lookup_insert_eq].
  rewrite Ha2, Ha1. apply insert_insert_eq.
Qed.

End Status.

(** ** The retry worker *)

Section Retry.
Context `{Env} `{UuidText}.

(** A retry whose time has come, or that is waited for, is dispatched. *)
Lemma retry_dispatched (rw : RetryWorker) (i : int) (m : KafkaMessage) (r : RetryMessage) (v : json) (w : World) :
  let d := r.(rm_DispatchMessage) in
  let due := r.(rm_NextAttempt) <= env_now w.(w_tick) in
  let stamp := env_now ((if decide due then 1 else 2) + w.(w_tick)) in
  reliable -> unmarshal_retry m.(km_Value) = Some r -> due \/ env_ctx_done (S w.(w_tick)) = false ->
  marshal_dispatch (set_dm_EnqueuedAt stamp d) = Some v ->
  exists w' t, handle_retry rw i m w = (w', Ok ()) /\
    w'.(w_log) = w.(w_log) ++ [(rw.(rw_CallTopic), mkKafka d.(dm_CallID) v t)] /\
    w'.(w_commits) = w.(w_commits) ++ [(retry_group rw i, m)].
Proof.
  intros d due stamp Hr Hu Hwait Hv. unfold handle_retry. rewrite Hu. fold d. unfold sleepUntil.
  set (slept := bump (if decide due then w else bump w)).
  erewrite (bind_step _ _ w slept (Ok ())).
  2:{ rewrite run_attempt. run_monad. clear Hv stamp. subst due slept.
      destruct (decide (r.(rm_NextAttempt) <= env_now w.(w_tick))) as [Hdue|Hdue],
        (rm_NextAttempt r - env_now (w_tick w) <=? 0) eqn:?; zbool; try lia; [done|].
      destruct Hwait as [?|Hctx]; [done|]. run_monad. rewrite !tick_bump, Hctx. done. }
  rewrite (bind_step now _ _ _ _ eq_refl).
  assert (env_now slept.(w_tick) = stamp) as ->.
  { unfold stamp, slept. destruct (decide due); by rewrite !tick_bump. }
  erewrite bind_step.
  2:{ rewrite run_attempt. rewrite (dispatch_reliable Hr _ _ _ _ Hv). reflexivity. }
  cbn [fst snd]. rewrite run_ignore. rewrite commit_reliable by done.
  eexists _, (env_now (bump slept).(w_tick)). split; [reflexivity|].
  assert (dm_CallID (set_dm_EnqueuedAt stamp d) = dm_CallID d) as -> by (by destruct d).
  unfold slept. destruct (decide due), w; by split.
Qed.

(** One that is not waited for is committed all the same. *)
Lemma retry_given_up (rw : RetryWorker) (i : int) (m : KafkaMessage) (r : RetryMessage) (w : World) :
  reliable -> unmarshal_retry m.(km_Value) = Some r -> ~ r.(rm_NextAttempt) <= env_now w.(w_tick) ->
  env_ctx_done (S w.(w_tick)) = true ->
  exists w', handle_retry rw i m w = (w', Ok ()) /\ w'.(w_log) = w.(w_log) /\
    w'.(w_commits) = w.(w_commits) ++ [(retry_group rw i, m)].
Proof.
  intros Hr Hu Hdue Hctx. unfold handle_retry, sleepUntil. rewrite Hu.
  erewrite (bind_step _ _ w (bump (bump w)) (Err context_canceled)).
  2:{ rewrite run_attempt. run_monad. destruct (rm_NextAttempt r - env_now (w_tick w) <=? 0) eqn:?; zbool; [lia|].
      run_monad. by rewrite tick_bump, Hctx. }
  rewrite run_ignore, commit_reliable by done. eexists. split; [reflexivity|]. by destruct w.
Qed.

(** Claim C29: what the retry worker does with a retry message when requests are
    answered: once its time has come (or has been waited for) the call is
    dispatched again, under the same number, campaign and attempt, and the message
    is committed; but if the worker is stopped while it waits, the message is
    committed all the same and the call is never dispatched again. *)
Theorem retry_message_effects (rw : RetryWorker) (i : int) (m : KafkaMessage) (r : RetryMessage) (w : World) :
  reliable -> unmarshal_retry m.(km_Value) = Some r ->
  let d := r.(rm_DispatchMessage) in
  let due := r.(rm_NextAttempt) <= env_now w.(w_tick) in
  (due \/ env_ctx_done (S w.(w_tick)) = false ->
     forall stamp v, stamp = env_now ((if decide due then 1 else 2) + w.(w_tick)) ->
     marshal_dispatch (set_dm_EnqueuedAt stamp d) = Some v ->
     exists w' t, handle_retry rw i m w = (w', Ok ()) /\
       w'.(w_log) = w.(w_log) ++ [(rw.(rw_CallTopic), mkKafka d.(dm_CallID) v t)] /\
       w'.(w_commits) = w.(w_commits) ++ [(retry_group rw i, m)]) /\
  (~ due -> env_ctx_done (S w.(w_tick)) = true ->
     exists w', handle_retry rw i m w = (w', Ok ()) /\ w'.(w_log) = w.(w_log) /\
       w'.(w_commits) = w.(w_commits) ++ [(retry_group rw i, m)]).
Proof.
  intros Hr Hu d due. split.
  - intros Hwait stamp v -> Hv. by apply retry_dispatched.
  - intros. by eapply retry_given_up.
Qed.
End Retry.

(** ** The call worker *)

Section Call.
Context `{Env} `{UuidText} `{Provider}.

(** A provider that answers, and keeps out of the platform's stores. *)
Definition provider_answers (d : DispatchMessage) : Prop :=
  forall w, exists w' rc, PlaceCall d w = (w', Ok rc) /\ stores w' = stores w.

(** The report of an attempt: its result, when it ended and, if it may be
    retried, when. *)
Definition report_of (d : DispatchMessage) (rc : CallResult * option error) (stamp : Time)
    (next : option Time) : StatusMessage := with_next_attempt next (status_of d rc.1 rc.2 stamp).

Lemma report_spelled d res err stamp next :
  let unexplained := bool_decide (is_Some err /\ res.(res_Error) = EmptyString) in
  report_of d (res, err) stamp next =
    mkStatus d.(dm_CallID) d.(dm_CampaignID) d.(dm_PhoneNumber)
      (if unexplained then "failed" else call_status_text res.(res_Status)) d.(dm_Attempt) d.(dm_MaxAttempts)
      ((unexplained || res.(res_Retryable)) && (d.(dm_Attempt) <? d.(dm_MaxAttempts)))
      d.(dm_RetryBaseMs) d.(dm_RetryMaxMs) d.(dm_RetryJitter) d.(dm_ConcurrencyLimit)
      (if 0 <? res.(res_Duration) then Z.quot res.(res_Duration) Millisecond else 0)
      (if unexplained then from_option error_text EmptyString err else res.(res_Error)) stamp next d.(dm_Metadata).
Proof.
  cbv zeta. unfold report_of, status_of. destruct err as [e|]; cbn [fst snd].
  - destruct (decide (res.(res_Error) = EmptyString)).
    + by rewrite !bool_decide_true by (done || (split; [by eexists|done])).
    + by rewrite !bool_decide_false by (done || by intros []).
  - by rewrite bool_decide_false by (by intros [[] _]).
Qed.

(** A delay fits 64 bits, so that the next attempt is less than 293 years away. *)
Definition within_reach (t : Time) : Prop := exists n delay, t = env_now n + delay /\ in_int64 delay.

Lemma backoff_in_int64 msg : in_int64 (backoff msg).
Proof. unfold backoff, retry_max, of_ms. repeat case_match; (apply wrap64_range || done). Qed.

Lemma jittered_in_int64 msg r : in_int64 (jittered msg r).
Proof. unfold jittered, retry_base, of_ms. repeat case_match; (apply wrap64_range || done). Qed.

Lemma next_attempt_run d w :
  exists w' t, computeNextAttempt d w = (w', Ok t) /\ stores w' = stores w /\ within_reach t.
Proof.
  unfold computeNextAttempt. run_monad. destruct (f64_ltb _ _); do 2 eexists; (split; [reflexivity|]);
    (split; [by rewrite !stores_bump|]); do 2 eexists; (split; [reflexivity|]);
    [apply jittered_in_int64|apply backoff_in_int64].
Qed.

Lemma place_and_report_run cw d m w :
  reliable -> provider_answers d ->
  exists w' w1 rc next t, PlaceCall d w = (w1, Ok rc) /\ place_and_report cw d m w = (w', Ok ()) /\
    let sm := report_of d rc (env_now w1.(w_tick)) next in
    (is_Some next <-> sm.(sm_Retryable) = true) /\
    w'.(w_redis) = w.(w_redis) /\
    w'.(w_log) = w.(w_log) ++ published cw.(cw_StatusTopic) d.(dm_CallID) (marshal_status sm) t /\
    w'.(w_commits) = w.(w_commits) ++ [(cw.(cw_ConsumerGroupID), m)] /\
    w'.(w_stats) = w.(w_stats) /\
    (forall t, next = Some t -> may_return (computeNextAttempt d) t /\ within_reach t).
Proof.
  intros Hr Hp. unfold place_and_report. destruct (Hp w) as (w1 & rc & Hcall & Hs).
  rewrite (bind_step _ _ _ _ _ Hcall), (bind_step now _ _ _ _ eq_refl).
  set (stamp := env_now w1.(w_tick)). set (sm0 := status_of d rc.1 rc.2 stamp). cbv zeta.
  assert (exists w2 next, (if sm0.(sm_Retryable) then (t ← computeNextAttempt d; mret (Some t))
      else mret None) (bump w1) = (w2, Ok next) /\ stores w2 = stores w1 /\
      (is_Some next <-> sm0.(sm_Retryable) = true) /\
      (forall t, next = Some t -> may_return (computeNextAttempt d) t /\ within_reach t))
    as (w2 & next & Hnext & Hs2 & Hiff & Hreach).
  { destruct (sm_Retryable sm0).
    - destruct (next_attempt_run d (bump w1)) as (w2 & t & Hrun & Hsw & Ht).
      rewrite (bind_step _ _ _ _ _ Hrun). exists w2, (Some t). rewrite Hsw, stores_bump.
      split_and!; [done..|]. intros t' [= <-]. by apply run_may_return in Hrun.
    - exists (bump w1), None. rewrite stores_bump. split_and!; [done|done|by split; [intros []|]|done]. }
  rewrite (bind_step _ _ _ _ _ Hnext).
  destruct (publish_status_run Hr cw.(cw_StatusTopic) (with_next_attempt next sm0) w2)
    as (w3 & res & Hpub & Hc3 & Hr3 & Hst3 & Hl3).
  rewrite (bind_step _ _ w2 w3 ()) by (by rewrite run_ignore, Hpub).
  rewrite !run_on_err. rewrite commit_reliable by done.
  exists (set_commits (w3.(w_commits) ++ [(cw.(cw_ConsumerGroupID), m)]) (bump w3)), w1, rc, next,
    (env_now w2.(w_tick)). split; [exact Hcall|]. split; [reflexivity|].
  assert (stores w2 = stores w) as Hs3 by congruence. unfold stores in Hs3.
  injection Hs3 as _ _ _ Est _ _ _ Er El Ec. unfold report_of. fold stamp sm0.
  assert (sm_Retryable (with_next_attempt next sm0) = sm_Retryable sm0 /\
    sm_CallID (with_next_attempt next sm0) = d.(dm_CallID)) as [-> Hid].
  { split; [by destruct sm0|]. subst sm0. unfold status_of.
    destruct rc.2 as [e|]; [case_bool_decide|]; done. }
  rewrite Hid in Hl3. rewrite <- Er, <- El, <- Ec, <- Est, <- Hr3, <- Hl3, <- Hc3, <- Hst3.
  split; [done|]. by destruct w3.
Qed.

(** ** The slot of a call *)

Definition slots_used (c : uuid) (t : Time) (w : World) : Z :=
  redis_current t (limiter_key c) w.(w_redis).

Lemma slot_limit_effective cw d n :
  slot_limit cw d = Some n -> d.(dm_CampaignID) <> uuid_Nil /\ 0 < n /\
  effective_limit cw.(cw_limiter) d.(dm_CampaignID) n = Some n.
Proof.
  unfold slot_limit. case_bool_decide as Hnil; [done|].
  set (lim := if dm_ConcurrencyLimit d <=? 0 then _ else _). destruct (lim <=? 0) eqn:E; [done|]. intros [= <-].
  split_and!; [done|by zbool|]. unfold effective_limit. rewrite bool_decide_false by done.
  by rewrite !E.
Qed.

Lemma acquire_run l c n w :
  reliable -> effective_limit l c n = Some n ->
  exists w' m granted, Acquire l c n w = (w', Ok granted) /\
    w' = set_redis m (bump w) /\
    acquire_script (env_now (S w.(w_tick))) (limiter_key c) n (Milliseconds l.(lim_ttl)) w.(w_redis)
      = (m, if granted then 1 else 0).
Proof.
  intros Hr He. unfold Acquire. rewrite He. run_monad. rewrite external_reliable by done.
  rewrite tick_bump. replace (w_redis (bump w)) with w.(w_redis) by (by destruct w).
  destruct (acquire_script _ _ _ _ _) as [m r] eqn:Ea. exists (set_redis m (bump w)), m, (bool_decide (r = 1)).
  split_and!; [done|done|].
  destruct (acquire_script_cases _ _ _ _ _ _ _ Ea) as [[_ ->]|(_ & _ & ->)]; done.
Qed.

(** A release within the time to live of the slot takes its one off. *)
Lemma release_run l c w v x :
  reliable -> c <> uuid_Nil -> w.(w_redis) !! limiter_key c = Some (mkEntry v (Some x)) -> 0 < v ->
  exists w', Release l c w = (w', Ok ()) /\ w'.(w_tick) = S w.(w_tick) /\
    w'.(w_log) = w.(w_log) /\ w'.(w_commits) = w.(w_commits) /\
    (env_now w'.(w_tick) < x -> slots_used c (env_now w'.(w_tick)) w' = v - 1).
Proof.
  intros Hr Hc Hm Hv. unfold Release. rewrite bool_decide_false by done.
  run_monad. rewrite external_reliable by done. rewrite tick_bump.
  replace (w_redis (bump w)) with w.(w_redis) by (by destruct w).
  destruct (release_script _ _ _) as [rm res] eqn:Erel. eexists. split; [reflexivity|].
  destruct w; cbn in Hm |- *. split_and!; try done. intros Hx. revert Erel.
  unfold release_script. cbn. rewrite (current_live _ _ _ _ _ Hm Hx).
  destruct (v <=? 0) eqn:?; zbool; [lia|]. unfold redis_ADD, redis_GET. rewrite Hm. simpl.
  destruct (x <=? _) eqn:?; zbool; [lia|]. intros [= <- _].
  unfold slots_used. simpl. erewrite current_live; [reflexivity|apply lookup_insert_eq|done].
Qed.

(** Claim C27: a dispatch message for which a slot is free (or none is needed) is
    processed to the end when requests are answered: the slot is taken, then, in
    the state this leaves, the call is placed, and what the provider returned is reported: one report is
    published (none if it cannot be encoded), with the time the call ended, its
    duration in milliseconds, the status of the result, which is failed when there
    is an error without an explanation, and retryable only while attempts are left;
    there is a next attempt, at a time the backoff gives, exactly when the report
    is retryable. The message is committed, and a slot that was taken is given
    back: unless that took longer than the time to live, as many slots are in use
    as before. *)
Theorem call_message_effects (cw : CallWorker) (fuel : nat) (m : KafkaMessage) (d : DispatchMessage)
    (w : World) :
  let now0 := env_now (S w.(w_tick)) in
  let ttl := Milliseconds cw.(cw_limiter).(lim_ttl) in
  let used := slots_used d.(dm_CampaignID) in
  reliable -> 0 < ttl -> 0 <= used now0 w ->
  unmarshal_dispatch m.(km_Value) = Some d -> provider_answers d ->
  match slot_limit cw d with
  | Some n => used now0 w < n /\ (0 < fuel)%nat
  | None => True
  end ->
  exists w' held w1 w2 res err next t, processMessage fuel cw m w = (w', Ok held) /\
    waitForSlot fuel cw d w = (w1, Ok held) /\
    (held = HeldSlot <-> is_Some (slot_limit cw d)) /\
    (w1.(w_log), w1.(w_commits)) = (w.(w_log), w.(w_commits)) /\
    (is_Some (slot_limit cw d) -> used now0 w1 = used now0 w + 1) /\
    PlaceCall d w1 = (w2, Ok (res, err)) /\
    let unexplained := bool_decide (is_Some err /\ res.(res_Error) = EmptyString) in
    let sm := {|
      sm_CallID := d.(dm_CallID);
      sm_CampaignID := d.(dm_CampaignID);
      sm_PhoneNumber := d.(dm_PhoneNumber);
      sm_Status := if unexplained then "failed" else call_status_text res.(res_Status);
      sm_Attempt := d.(dm_Attempt);
      sm_MaxAttempts := d.(dm_MaxAttempts);
      sm_Retryable := (unexplained || res.(res_Retryable)) && (d.(dm_Attempt) <? d.(dm_MaxAttempts));
      sm_RetryBaseMs := d.(dm_RetryBaseMs);
      sm_RetryMaxMs := d.(dm_RetryMaxMs);
      sm_RetryJitter := d.(dm_RetryJitter);
      sm_ConcurrencyLimit := d.(dm_ConcurrencyLimit);
      sm_DurationMs := if 0 <? res.(res_Duration) then Z.quot res.(res_Duration) Millisecond else 0;
      sm_Error := if unexplained then from_option error_text EmptyString err else res.(res_Error);
      sm_OccurredAt := env_now w2.(w_tick);
      sm_NextAttempt := next;
      sm_Metadata := d.(dm_Metadata) |} in
    (is_Some next <-> sm.(sm_Retryable) = true) /\
    (forall at_, next = Some at_ -> may_return (computeNextAttempt d) at_) /\
    w'.(w_log) = w.(w_log) ++ published cw.(cw_StatusTopic) d.(dm_CallID) (marshal_status sm) t /\
    w'.(w_commits) = w.(w_commits) ++ [(cw.(cw_ConsumerGroupID), m)] /\
    (is_Some (slot_limit cw d) -> env_now w'.(w_tick) < now0 + ttl * Millisecond ->
       used (env_now w'.(w_tick)) w' = used now0 w).
Proof.
  intros now0 ttl used Hr Httl Hcur Hu Hp Hslot. unfold processMessage. rewrite Hu.
  unfold waitForSlot. destruct (slot_limit cw d) as [n|] eqn:El.
  - destruct Hslot as [Hfree Hfuel]. destruct fuel as [|fuel]; [lia|].
    destruct (slot_limit_effective _ _ _ El) as (Hnil & Hn & Heff).
    destruct (acquire_run cw.(cw_limiter) d.(dm_CampaignID) n w Hr Heff) as (w1 & rm & g & Hacq & -> & Hscr).
    destruct (acquire_script_cases _ _ _ _ _ _ _ Hscr) as [[_ Hg]|(Hge & _)];
      [destruct g; [|done] | unfold used, slots_used in Hfree; fold now0 in Hge; lia].
    apply acquire_script_granted in Hscr as Hkey; [|done]. cbn [acquire_loop].
    set (w1 := set_redis rm (bump w)) in *.
    assert (((r ← attempt (Acquire (cw_limiter cw) (dm_CampaignID d) n);
      match r with
      | Ok true => mret HeldSlot
      | Ok false => stop ← ctx_done; (if (stop : bool) then throw context_canceled
                      else acquire_loop fuel cw d.(dm_CampaignID) n)
      | Err err => stop ← ctx_done; (if (stop : bool) then throw context_canceled else throw err)
      end) : M slot) w = (w1, Ok HeldSlot)) as Hwait
      by (by rewrite run_bind, run_attempt, Hacq).
    rewrite (bind_step _ _ _ _ _ Hwait).
    destruct (place_and_report_run cw d m w1 Hr Hp)
      as (w3 & w2 & [res err] & next & t & Hcall & Hrun & Hiff & Hred & Hl & Hc & _ & Hnext).
    rewrite (bind_step _ _ w1 w3 (Ok ())) by (by rewrite run_attempt, Hrun).
    assert (w1.(w_redis) = rm) as Erm by (by destruct w).
    assert (used now0 w1 = used now0 w + 1) as Hused.
    { unfold used, slots_used. rewrite Erm. apply (current_live _ _ _ _ _ Hkey). unfold Millisecond. lia. }
    rewrite Erm in Hred. rewrite <- Hred in Hkey.
    destruct (release_run cw.(cw_limiter) d.(dm_CampaignID) w3 _ _ Hr Hnil Hkey) as (w4 & Hrel & Ht4 & Hl4 & Hc4 & Hk4).
    { unfold used, slots_used in Hcur. fold now0. lia. }
    rewrite (bind_step _ _ w3 w4 ()) by (by rewrite run_ignore, Hrel).
    rewrite report_spelled in Hiff, Hl.
    exists w4, HeldSlot, w1, w2, res, err, next, t. split_and!; [done|exact Hwait|by split; [eexists|]|by destruct w|done|done
      |exact Hiff|intros; by apply Hnext| | |].
    + rewrite Hl4, Hl. by destruct w.
    + rewrite Hc4, Hc. by destruct w.
    + intros _ Hx. unfold used. rewrite (Hk4 Hx). unfold slots_used. fold now0. lia.
  - rewrite ret_bind.
    destruct (place_and_report_run cw d m w Hr Hp)
      as (w3 & w2 & [res err] & next & t & Hcall & Hrun & Hiff & Hred & Hl & Hc & _ & Hnext).
    rewrite report_spelled in Hiff, Hl.
    rewrite (bind_step _ _ _ _ _ Hrun). exists w3, NoSlot, w, w2, res, err, next, t.
    split_and!; [done|done|by split; [|intros []]|done|by intros []|done|exact Hiff|intros; by apply Hnext
      |exact Hl|exact Hc|by intros []].
Qed.

Lemma acquire_loop_full cw c n fuel : forall w,
  reliable -> effective_limit cw.(cw_limiter) c n = Some n -> (forall t, n <= slots_used c t w) ->
  exists w' r, acquire_loop fuel cw c n w = (w', r) /\ stores w' = stores w /\
    (r = Ok Waiting \/ r = Err context_canceled).
Proof.
  induction fuel as [|fuel IH]; intros w Hr He Hfull; [by do 2 eexists; split_and!; auto|].
  cbn [acquire_loop]. destruct (acquire_run cw.(cw_limiter) c n w Hr He) as (w1 & m & g & Hacq & -> & Hscr).
  destruct (acquire_script_cases _ _ _ _ _ _ _ Hscr) as [[Hlt _]|(_ & -> & Hg)].
  { specialize (Hfull (env_now (S w.(w_tick)))). unfold slots_used in Hfull. lia. }
  destruct g; [done|].
  assert (set_redis w.(w_redis) (bump w) = bump w) as Hsame by (by destruct w). rewrite Hsame in Hacq.
  rewrite (bind_step _ _ w (bump w) (Ok false)) by (by rewrite run_attempt, Hacq).
  rewrite (bind_step ctx_done _ _ _ _ eq_refl). destruct (env_ctx_done _).
  - do 2 eexists. split; [reflexivity|]. rewrite !stores_bump. auto.
  - destruct (IH (bump (bump w)) Hr He) as (w' & r & Hrun & Hs & Hres).
    { intros t. specialize (Hfull t). by destruct w. }
    exists w', r. rewrite !stores_bump in Hs. by split_and!.
Qed.

(** While as many slots are in use as the limit allows, a dispatch
    message is neither called, reported nor committed: the worker keeps waiting,
    for however long, or gives up when it is stopped, and no store changes. *)
Theorem no_call_above_limit (cw : CallWorker) (fuel : nat) (m : KafkaMessage) (d : DispatchMessage) (n : Z)
    (w : World) :
  reliable -> unmarshal_dispatch m.(km_Value) = Some d -> slot_limit cw d = Some n ->
  (forall t, n <= slots_used d.(dm_CampaignID) t w) ->
  exists w' r, processMessage fuel cw m w = (w', r) /\ stores w' = stores w /\
    (r = Ok Waiting \/ r = Err context_canceled).
Proof.
  intros Hr Hu Hl Hfull. unfold processMessage. rewrite Hu. unfold waitForSlot. rewrite Hl.
  destruct (slot_limit_effective _ _ _ Hl) as (_ & _ & Heff).
  destruct (acquire_loop_full cw d.(dm_CampaignID) n fuel w Hr Heff Hfull) as (w' & r & Hrun & Hs & Hres).
  rewrite run_bind. rewrite Hrun. destruct Hres as [-> | ->]; do 2 eexists; split_and!; auto.
Qed.

(** The report of a call can be lost: when its publication is refused
    the message is committed nevertheless, so that the outcome of a call that was
    placed is never seen by the status worker. *)
Theorem lost_report_is_committed (cw : CallWorker) (d : DispatchMessage) (m : KafkaMessage) (w w1 : World)
    (rc : CallResult * option error) :
  let report := report_of d rc (env_now w1.(w_tick)) None in
  PlaceCall d w = (w1, Ok rc) -> report.(sm_Retryable) = false -> is_Some (marshal_status report) ->
  env_outcome (2 + w1.(w_tick)) = Refused -> env_temporary (3 + w1.(w_tick)) = false ->
  env_outcome (4 + w1.(w_tick)) = Done ->
  exists w', place_and_report cw d m w = (w', Ok ()) /\ w'.(w_log) = w1.(w_log) /\
    w'.(w_commits) = w1.(w_commits) ++ [(cw.(cw_ConsumerGroupID), m)].
Proof.
  intros report Hcall Hre [v Hv] Hrefused Htemp Hdone. unfold place_and_report.
  rewrite (bind_step _ _ _ _ _ Hcall), (bind_step now _ _ _ _ eq_refl). cbv zeta.
  subst report. unfold report_of in Hre, Hv. set (sm0 := status_of d rc.1 rc.2 (env_now w1.(w_tick))) in *.
  assert (sm0.(sm_Retryable) = false) as -> by (by destruct sm0).
  rewrite ret_bind.
  rewrite (bind_step _ _ (bump w1) (bump (bump (bump (bump w1)))) ()).
  2:{ unfold PublishStatus, marshalled. rewrite Hv. run_monad.
      by rewrite write_given_up by (by rewrite !tick_bump). }
  rewrite run_on_err; unfold CommitMessages. rewrite external_done by (by rewrite !tick_bump).
  eexists. split; [reflexivity|]. by destruct w1.
Qed.

(** ** Messages that cannot be decoded *)

(** A record that cannot be decoded, on any of the three kinds of
    topic, is dropped: it is committed by the worker's group and nothing is
    called, counted, recorded or published for it. *)
Theorem undecodable_messages_are_dropped (cw : CallWorker) (sw : StatusWorker) (rw : RetryWorker)
    (fuel : nat) (i : int) (m : KafkaMessage) (w : World) :
  reliable ->
  let dropped (group : string) := set_commits (w.(w_commits) ++ [(group, m)]) (bump w) in
  (unmarshal_dispatch m.(km_Value) = None ->
     (processMessage fuel cw m w).1 = dropped cw.(cw_ConsumerGroupID) /\
     is_ok (processMessage fuel cw m w).2 = false) /\
  (unmarshal_status m.(km_Value) = None -> handle_status sw m w = (dropped (status_group sw), Ok ())) /\
  (unmarshal_retry m.(km_Value) = None -> handle_retry rw i m w = (dropped (retry_group rw i), Ok ())).
Proof.
  intros Hr dropped. split_and!; intros Hu; unfold processMessage, handle_status, handle_retry;
    rewrite Hu; autorewrite with run; rewrite commit_reliable by done; done.
Qed.
End Call.

(** ** Witnesses *)

#[local] Existing Instances quiet_env bit_uuid stable_sort_order.
#[local] Instance mock_provider : Provider := mock_PlaceCall.

Definition sample_worker : CallWorker :=
  mkCallWorker (NewLimiter 500 (60 * Second)) 500 "status" "calls-group".
Definition dispatch_record : KafkaMessage :=
  mkKafka 7 (default JNull (marshal_dispatch sample_dispatch)) 0.

Lemma mock_answers d : provider_answers d.
Proof.
  intros w. unfold PlaceCall, mock_provider, mock_PlaceCall, Float64, Intn, ctx_done. run_monad.
  cbn [env_ctx_done quiet_env sample_env]. cbv beta iota. run_monad. case_match; do 2 eexists; (split; [reflexivity|]);
    by rewrite !stores_bump.
Qed.

Lemma call_message_witness :
  exists w', processMessage 1 sample_worker dispatch_record empty_world = (w', Ok HeldSlot) /\
    w'.(w_commits) = [("calls-group", dispatch_record)] /\
    slots_used 3 (env_now w'.(w_tick)) w' = 0.
Proof.
  destruct (call_message_effects sample_worker 1 dispatch_record sample_dispatch empty_world)
    as (w' & held & w1 & w2 & res & err & next & t & Hrun & _ & Hheld & _ & _ & _ & _ & _ & _ & Hc & Hslot).
  - exact quiet_reliable.
  - vm_compute. reflexivity.
  - vm_compute. discriminate.
  - vm_compute. reflexivity.
  - apply mock_answers.
  - split; [vm_compute; reflexivity|lia].
  - assert (is_Some (slot_limit sample_worker sample_dispatch)) as Hsome by (exists 10; reflexivity).
    pose proof (proj2 Hheld Hsome) as ->. exists w'. split; [exact Hrun|]. split; [exact Hc|].
    assert (w'.(w_tick) = 9%nat) as Ht.
    { transitivity ((processMessage 1 sample_worker dispatch_record empty_world).1.(w_tick));
        [by rewrite Hrun|vm_compute; reflexivity]. }
    etrans; [apply (Hslot Hsome); rewrite Ht|]; vm_compute; reflexivity.
Defined.

Lemma no_call_above_limit_witness :
  let w := set_redis {[ limiter_key 3 := mkEntry 10 None ]} empty_world in
  exists w' r, processMessage 25 sample_worker dispatch_record w = (w', r) /\ stores w' = stores w /\
    (r = Ok Waiting \/ r = Err context_canceled).
Proof.
  intros w. apply (no_call_above_limit sample_worker 25 dispatch_record sample_dispatch 10 w);
    [exact quiet_reliable | vm_compute; reflexivity | vm_compute; reflexivity |].
  intros t. unfold slots_used, redis_current, redis_GET. unfold w.
  change (w_redis _) with ({[ limiter_key 3 := mkEntry 10 None ]} : gmap string redisEntry).
  rewrite lookup_singleton_eq. simpl. lia.
Defined.

Lemma undecodable_witness :
  handle_status (mkStatusWorker "g" []) (mkKafka 0 (JBool true) 0) empty_world =
  (set_commits [("g-status", mkKafka 0 (JBool true) 0)] (bump empty_world), Ok ()).
Proof.
  destruct (undecodable_messages_are_dropped sample_worker (mkStatusWorker "g" [])
    (mkRetryWorker "g" "r" "calls") 1 1 (mkKafka 0 (JBool true) 0) empty_world quiet_reliable) as (_ & Hs & _).
  apply Hs. vm_compute. reflexivity.
Defined.

Definition sample_status (status : string) (retryable : bool) (next : option Time) : StatusMessage :=
  mkStatus 9 3 "+1555" status 1 4 retryable 2000 30000 f64_zero 10 5000 EmptyString 0 next None.
Definition status_record (sm : StatusMessage) : KafkaMessage :=
  mkKafka 9 (default JNull (marshal_status sm)) 0.
Definition sample_status_worker : StatusWorker := mkStatusWorker "g" ["r1"; "r2"].
Definition stats_db : World := set_stats {[ 3%N := mkStats 1 0 0 0 1 0 ]} empty_world.

Lemma status_message_witness :
  let sm := sample_status "failed" true (Some 7) in
  exists w' recs, handle_status sample_status_worker (status_record sm) stats_db = (w', Ok ()) /\
    w'.(w_log) = recs /\ exists v stamp, recs = [("r1", mkKafka 9 v stamp)].
Proof.
  intros sm.
  destruct (status_message_effects sample_status_worker (status_record sm) sm (mkStats 1 0 0 0 1 0) stats_db)
    as (w' & recs & Hrun & _ & _ & _ & Hl & Hretry & _).
  - exact quiet_reliable.
  - vm_compute. reflexivity.
  - vm_compute. split; discriminate.
  - discriminate.
  - apply lookup_singleton_eq.
  - vm_compute. reflexivity.
  - exists w', recs. split; [exact Hrun|]. split; [exact Hl|].
    destruct (Hretry 7 "r1" (default JNull (marshal_retry (retry_of sm 7)))) as [stamp Hrecs];
      [reflexivity|reflexivity|vm_compute; discriminate|reflexivity|vm_compute; reflexivity|].
    do 2 eexists. exact Hrecs.
Defined.

Lemma status_redelivery_witness :
  let m := status_record (sample_status "completed" false None) in
  exists w1 w2, handle_status sample_status_worker m stats_db = (w1, Ok ()) /\
    handle_status sample_status_worker m w1 = (w2, Ok ()) /\
    w1.(w_stats) !! 3%N = Some (mkStats 1 1 0 0 0 0) /\ w2.(w_stats) !! 3%N = Some (mkStats 1 2 0 0 (-1) 0).
Proof.
  intros m.
  destruct (status_redelivery sample_status_worker m (sample_status "completed" false None)
    (mkStats 1 0 0 0 1 0) stats_db) as (w1 & w2 & H1 & H2 & _ & Hs1 & Hs2).
  - exact quiet_reliable.
  - vm_compute. reflexivity.
  - vm_compute. split; discriminate.
  - discriminate.
  - apply lookup_singleton_eq.
  - vm_compute. reflexivity.
  - vm_compute. reflexivity.
  - exists w1, w2. by split_and!.
Defined.

Definition retry_record : KafkaMessage := mkKafka 7 (default JNull (marshal_retry sample_retry)) 0.

Lemma retry_message_witness :
  exists w' v t, handle_retry (mkRetryWorker "g" "r" "calls") 1 retry_record empty_world = (w', Ok ()) /\
    w'.(w_log) = [("calls", mkKafka 7 v t)] /\ w'.(w_commits) = [("r-1", retry_record)].
Proof.
  set (r := over_the_wire sample_retry).
  assert (unmarshal_retry retry_record.(km_Value) = Some r) as Hu by (vm_compute; reflexivity).
  set (d := set_dm_EnqueuedAt (env_now 2) r.(rm_DispatchMessage)).
  assert (marshal_dispatch d = Some (default JNull (marshal_dispatch d))) as Hv by (vm_compute; reflexivity).
  destruct (retry_message_effects (mkRetryWorker "g" "r" "calls") 1 retry_record r empty_world
    quiet_reliable Hu) as [Hdue _].
  destruct (Hdue (or_intror eq_refl) (env_now 2) _ eq_refl Hv) as (w' & t & Hrun & Hl & Hc).
  do 3 eexists. split; [exact Hrun|]. split; [exact Hl|exact Hc].
Defined.

Definition lossy_env : Env := faulty_env (fun n => if Nat.eqb n 5 then Refused else Done).

Lemma lost_report_witness :
  exists w', @place_and_report lossy_env bit_uuid mock_provider sample_worker sample_dispatch
      dispatch_record empty_world = (w', Ok ()) /\
    w'.(w_log) = [] /\ w'.(w_commits) = [("calls-group", dispatch_record)].
Proof.
  apply (@lost_report_is_committed lossy_env bit_uuid mock_provider sample_worker sample_dispatch
    dispatch_record empty_world (bump (bump (bump empty_world)))
    (mkResult CallStatusCompleted (5 * Second) false EmptyString, None));
    [vm_compute; reflexivity | vm_compute; reflexivity | vm_compute; by eexists
    | vm_compute; reflexivity | reflexivity | vm_compute; reflexivity].
Defined.
