(* ===== verification/Config.v ===== *)
(** internal/config/config.go: the sections of the configuration, and loading it
    from a file and the environment. *)
From S2P Require Import Prelude Errors GoTime Domain.

(** ** The sections *)

Record AppConfig := mkAppConfig {
  ac_Name : string;
  ac_Env : string;
  ac_Version : string;
}.

Record HTTPConfig := mkHTTPConfig {
  hc_Port : int;
  hc_ReadTimeout : Duration;
  hc_WriteTimeout : Duration;
  hc_IdleTimeout : Duration;
}.

Record PostgresConfig := mkPostgresConfig {
  pc_Host : string;
  pc_Port : int;
  pc_User : string;
  pc_Password : string;
  pc_Database : string;
  pc_SSLMode : string;
  pc_MaxConns : Z;
  pc_MinConns : Z;
  pc_MaxConnLifetime : Duration;
  pc_MaxConnIdleTime : Duration;
  pc_HealthQuery : string;
}.

Record ScyllaConfig := mkScyllaConfig {
  yc_Hosts : list string;
  yc_Port : int;
  yc_Keyspace : string;
  yc_Consistency : string;
  yc_Timeout : Duration;
  yc_DisableInitSchema : bool;
}.

Record KafkaConfig := mkKafkaConfig {
  kc_Brokers : list string;
  kc_ClientID : string;
  kc_CallTopic : string;
  kc_StatusTopic : string;
  kc_RetryTopics : list string;
  kc_DeadLetterTopic : string;
  kc_ConsumerGroupID : string;
  kc_RetryConsumerGroupID : string;
  kc_CommitInterval : Duration;
}.

Record RedisConfig := mkRedisConfig {
  rc_Address : string;
  rc_Password : string;
  rc_DB : int;
  rc_DialTimeout : Duration;
  rc_ReadTimeout : Duration;
  rc_WriteTimeout : Duration;
  rc_PoolSize : int;
  rc_MinIdleConns : int;
  rc_MaxRetries : int;
}.

Record TelemetryConfig := mkTelemetryConfig {
  tc_Endpoint : string;
  tc_ServiceName : string;
  tc_SampleRatio : float64;
  tc_MetricsInterval : Duration;
  tc_MetricsEnabled : bool;
  tc_TracingEnabled : bool;
  tc_Propagators : list string;
  tc_ShutdownTimeout : Duration;
  tc_CollectorProtocol : string;
}.

Record SchedulerConfig := mkSchedulerConfig {
  sc_TickInterval : Duration;
  sc_LookAhead : Duration;
  sc_BatchSize : int;
  sc_Workers : int;
  sc_LockTTL : Duration;
  sc_LockKeyPrefix : string;
}.

Record RetryConfig := mkRetryConfig {
  rt_MaxAttempts : int;
  rt_BaseDelay : Duration;
  rt_MaxDelay : Duration;
  rt_Jitter : float64;
}.

Record ThrottleConfig := mkThrottleConfig {
  th_GlobalConcurrency : int;
  th_DefaultPerCampaign : int;
}.

Record CallBridgeConfig := mkCallBridgeConfig {
  cb_ProviderName : string;
  cb_RequestTimeout : Duration;
}.

Record Config := mkConfig {
  cfg_App : AppConfig;
  cfg_HTTP : HTTPConfig;
  cfg_Postgres : PostgresConfig;
  cfg_Scylla : ScyllaConfig;
  cfg_Kafka : KafkaConfig;
  cfg_Redis : RedisConfig;
  cfg_Telemetry : TelemetryConfig;
  cfg_Scheduler : SchedulerConfig;
  cfg_Retry : RetryConfig;
  cfg_Throttle : ThrottleConfig;
  cfg_CallBridge : CallBridgeConfig;
}.

(** ** Load *)

(** github.com/spf13/viper: reading a file, and decoding what was read together
    with the environment of the process, the keys of which it asks for under the
    name the replacer gives them. *)
Class Viper := {
  viper_source : Type;
  ReadInConfig : string -> result error viper_source;
  viper_Unmarshal : (string -> string) -> viper_source -> result error Config;
}.

(** strings.NewReplacer(".", "_", "-", "_").Replace *)
Definition replaced_char (c : Ascii.ascii) : Ascii.ascii :=
  if bool_decide (c = Ascii.ascii_of_nat 46) || bool_decide (c = Ascii.ascii_of_nat 45)
  then Ascii.ascii_of_nat 95 else c.

Fixpoint NewEnvReplacer (s : string) : string :=
  match s with
  | EmptyString => EmptyString
  | String c s => String (replaced_char c) (NewEnvReplacer s)
  end.

Definition Load `{Viper} (path : string) : result error Config :=
  match ReadInConfig path with
  | Err err => Err (wrapf "config: failed to read config file" err)
  | Ok v =>
      match viper_Unmarshal NewEnvReplacer v with
      | Err err => Err (wrapf "config: failed to unmarshal config" err)
      | Ok cfg => Ok cfg
      end
  end.

(** configs/config.yaml *)
Definition default_config : Config :=
  mkConfig
    (mkAppConfig "outbound-call-campaign" "development" "0.1.0")
    (mkHTTPConfig 8081 (30 * Second) (30 * Second) (120 * Second))
    (mkPostgresConfig "localhost" 5432 "campaign" "campaign" "campaign" "disable" 2 1 (30 * MinuteD)
       (10 * MinuteD) "SELECT 1")
    (mkScyllaConfig ["127.0.0.1"] 9042 "campaign" "quorum" (5 * Second) false)
    (mkKafkaConfig ["localhost:9092"] "outbound-call-service"
       "campaign.calls.dispatch" "campaign.calls.status"
       ["campaign.calls.retry.1"; "campaign.calls.retry.2"; "campaign.calls.retry.3";
        "campaign.calls.retry.4"; "campaign.calls.retry.5"]
       "campaign.calls.deadletter" "outbound-call-consumer" "outbound-call-retry-consumer" Second)
    (mkRedisConfig "localhost:6379" EmptyString 0 (2 * Second) Second Second 64 16 3)
    (mkTelemetryConfig "http://localhost:4318" "outbound-call-service"
       (S754_finite false 7205759403792794 (-56)) (15 * Second) true true ["tracecontext"; "baggage"]
       (10 * Second) "http")
    (mkSchedulerConfig (3 * Second) (5 * MinuteD) 50 4 MinuteD "campaign-scheduler")
    (mkRetryConfig 5 (2 * Second) (120 * Second) (S754_finite false 7205759403792794 (-55)))
    (mkThrottleConfig 50000 500)
    (mkCallBridgeConfig "mock" (10 * Second)).
