(* ===== verification/Container.v ===== *)
(** internal/app/container.go, initComponents: how the components are wired
    together. *)
From S2P Require Import Prelude Errors GoTime Json Domain Messages World Limiter CampaignService.
From S2P Require Import CallService CallLists Requests Handlers Scheduler CallWorker StatusWorker.
From S2P Require Import RetryWorker Config.

(** ** initComponents *)

Record Components := mkComponents {
  co_defaultConcurrency : int;
  co_calls : CallService;
  co_scheduler : SchedulerSettings;
  co_callWorker : CallWorker;
  co_statusWorker : StatusWorker;
  co_retryWorker : RetryWorker;
}.

Definition initComponents (c : Config) : Components :=
  let k := c.(cfg_Kafka) in
  let default_limit := c.(cfg_Throttle).(th_DefaultPerCampaign) in
  let limiter := NewLimiter default_limit c.(cfg_Scheduler).(sc_LockTTL) in
  let retry := c.(cfg_Retry) in
  mkComponents
    default_limit
    (mkCallService k.(kc_CallTopic)
       (mkRetryPolicy retry.(rt_MaxAttempts) retry.(rt_BaseDelay) retry.(rt_MaxDelay) retry.(rt_Jitter))
       default_limit)
    (mkSchedulerSettings c.(cfg_Scheduler).(sc_Workers) c.(cfg_Scheduler).(sc_BatchSize)
       k.(kc_RetryTopics))
    (mkCallWorker limiter default_limit k.(kc_StatusTopic)
       k.(kc_ConsumerGroupID))
    (mkStatusWorker k.(kc_ConsumerGroupID) k.(kc_RetryTopics))
    (mkRetryWorker k.(kc_ConsumerGroupID) k.(kc_RetryConsumerGroupID) k.(kc_CallTopic)).

(** NewHandlerSet (internal/api/handlers/handlers.go) *)
Definition NewHandlerSet (co : Components) : HandlerSet :=
  mkHandlerSet co.(co_defaultConcurrency) co.(co_calls).

(** The topics are pairwise distinct, as a message's topic decides its type. *)
Definition topics_distinct (k : KafkaConfig) : Prop :=
  NoDup (k.(kc_CallTopic) :: k.(kc_StatusTopic) :: k.(kc_RetryTopics)).

Lemma default_topics_distinct : topics_distinct default_config.(cfg_Kafka).
Proof. unfold topics_distinct. apply (bool_decide_unpack _). vm_compute. exact I. Qed.
