(* ===== verification/System.v ===== *)
(** The whole platform: API requests, scheduler ticks and workers acting on the
    shared stores at the same time, request by request, under any faults, and what
    holds in every state they can reach.

    A step is one request of one handler: between two requests of a handler any
    other may start, go on or end. A handler stops anywhere, as its process may
    crash. Workers may be handed any message of their topic, any number of times,
    in any order. *)
From S2P Require Import Prelude Errors GoTime Json Domain Messages World Postgres PostgresInv.
From S2P Require Import PostgresSpec Scylla Queue Limiter CampaignService CallService CallLists.
From S2P Require Import Requests Handlers Scheduler CallWorker StatusWorker RetryWorker Effects.
From S2P Require Import Interleaving Integrity Config Container.

Section System.
Context `{Env} `{PgOrder} `{UuidText} `{Gocql} `{Fiber} `{Provider} (cfg : Config).

Definition co : Components := initComponents cfg.
Definition api : HandlerSet := NewHandlerSet co.

(** What runs: a request to the API, a tick, or a worker handed a record of its topic. *)
Inductive starts (w : World) : M () -> Prop :=
| start_request e ctx : starts w (ignore (serve api e ctx))
| start_tick : starts w (ignore (tick co.(co_scheduler) co.(co_calls)))
| start_call_worker fuel m :
    (cfg.(cfg_Kafka).(kc_CallTopic), m) ∈ w.(w_log) ->
    starts w (ignore (processMessage fuel co.(co_callWorker) m))
| start_status_worker m :
    (cfg.(cfg_Kafka).(kc_StatusTopic), m) ∈ w.(w_log) ->
    starts w (ignore (handle_status co.(co_statusWorker) m))
| start_retry_worker idx topic m :
    cfg.(cfg_Kafka).(kc_RetryTopics) !! idx = Some topic ->
    (topic, m) ∈ w.(w_log) ->
    starts w (ignore (handle_retry co.(co_retryWorker) (Z.of_nat idx + 1) m)).

Definition step : relation Machine := machine_step starts.
Definition initial : Machine := mkMachine empty_world ∅.
Definition reachable (w : World) : Prop := exists ts, rtc step initial (mkMachine w ts).

(** A state the system can reach, and one it can reach from there. *)
Definition leads (w w' : World) : Prop :=
  exists ts ts', rtc step initial (mkMachine w ts) /\ rtc step (mkMachine w ts) (mkMachine w' ts').

(** Handlers that run one after the other are one way to run. *)
Lemma reachable_run {A} (m : M A) w :
  starts w (ignore m) -> reachable w -> reachable (m w).1.
Proof.
  intros Hm [ts Hr]. exists ts. etrans; [exact Hr|].
  pose proof (machine_runs starts (ignore m) w ts Hm) as Hs. by rewrite run_ignore in Hs.
Qed.

(** Two handlers, one of which is overtaken by the other. *)
Lemma reachable_overtaken n p q w :
  starts w p -> starts (advance n p w).1 q -> reachable w ->
  reachable (run (advance n p w).2 (run q (advance n p w).1).1).1.
Proof.
  intros Hp Hq [ts Hr]. exists ts. etrans; [exact Hr|].
  pose proof (machine_overtakes starts n p q w ts Hp) as Hs. destruct (advance n p w). by apply Hs.
Qed.

(** The provider does not touch the platform's stores: whatever tolerates the
    passing of operations tolerates a call. *)
Definition provider_outside : Prop :=
  forall (R : relation World), CanRun R -> forall d, stable R (PlaceCall d).

(** An invariant of every request holds in every reachable state. *)
Lemma leads_respects (R : relation World) w w' :
  CanRun R -> (forall w p, starts w p -> stable R p) -> leads w w' -> R w w'.
Proof.
  intros HR Hs (ts & ts' & Hr & Hr'). destruct (machine_respects R starts _ _ can_bump Hs Hr) as [_ Hts].
  { intros i p Hp. cbn in Hp. by rewrite lookup_empty in Hp. }
  by apply (machine_respects R starts _ _ can_bump Hs Hr').
Qed.

Lemma reachable_inv (I : World -> Prop) w :
  I empty_world -> CanRun (inv I) -> (forall w p, starts w p -> stable (inv I) p) -> reachable w -> I w.
Proof.
  intros Hinit HI Hs [ts Hr]. apply (leads_respects (inv I) empty_world w HI Hs); [|done].
  exists ∅, ts. by split; [apply rtc_refl|].
Qed.

(** A handler respects a relation that tolerates every write of the program. *)
Lemma starts_respects (R : relation World) `{!CanRun R, !CanWriteCampaigns R, !CanWriteHours R,
    !CanInsertTargets R, !CanUpdateTargets R, !CanEnsureStats R, !CanApplyDelta R,
    !CanWriteCalls R, !CanWriteAttempts R, !CanWriteRedis R, !CanPublish R, !CanCommit R} w p :
  provider_outside -> starts w p -> stable R p.
Proof.
  intros Hp Hstart. destruct Hstart; apply stable_ignore;
    first [ apply eff_serve | apply eff_tick
          | apply eff_processMessage | apply eff_handle_status | apply eff_handle_retry ];
    try typeclasses eauto; intros d; apply (Hp _ _ d).
Qed.

(** ** Integrity of the tables *)

(** A completed campaign is not final: Start refuses it, but pausing it
    first is accepted and makes it startable again; it ends up in progress with
    its completion time erased. *)
Theorem completed_campaign_restarts (id : uuid) (w : World) (r : campaignRecord) :
  reliable -> pg_ok w -> w.(w_campaigns) !! id = Some r -> r.(cr_Status) = CampaignStatusCompleted ->
  (exists e, (Start id w).2 = Err e) /\
  exists w' r', (Pause id ≫= fun _ => Start id) w = (w', Ok ()) /\
    w'.(w_campaigns) !! id = Some r' /\ r'.(cr_Status) = CampaignStatusInProgress /\
    r'.(cr_CompletedAt) = None.
Proof.
  intros Hr Hok Hl Hst. split.
  { unfold Start. rewrite (bind_step _ _ _ _ _ (get_stored _ _ _ Hr Hl)).
    change (c_Status (toDomain r)) with r.(cr_Status). rewrite Hst.
    rewrite bool_decide_false, bool_decide_true by done. by eexists. }
  destruct (pause_run id w r Hr Hok Hl) as (w1 & Hrun & Hc).
  assert (pg_ok w1) as Hok1.
  { by apply (stable_ran _ _ _ _ _ (eff_Pause (inv pg_ok) id) Hrun). }
  destruct (start_run id w1 (lifecycle_row CampaignStatusPaused None None
    (env_now (S (S w.(w_tick)))) r) Hr Hok1) as (w2 & Hrun2 & Hc2); [|done|done|].
  { rewrite Hc. apply lookup_insert_eq. }
  do 2 eexists. rewrite (bind_step _ _ _ _ _ Hrun). split; [exact Hrun2|].
  rewrite Hc2, lookup_insert_eq. by split_and!.
Qed.

(** ** The counters of a campaign *)

(** No event is counted twice and none is taken back: the events counted so far,
    and the calls accounted for among those counted. *)
Definition stats_ok (s : CampaignStats) : Prop :=
  0 <= s.(st_TotalCalls) /\ 0 <= s.(st_CompletedCalls) /\ 0 <= s.(st_FailedCalls) /\
  0 <= s.(st_RetriesAttempted) /\ s.(st_InProgressCalls) = 0 /\
  s.(st_CompletedCalls) + s.(st_FailedCalls) + s.(st_PendingCalls) <= s.(st_TotalCalls).

Definition counters_ok (w : World) : Prop :=
  forall id s, w.(w_stats) !! id = Some s -> stats_ok s.

Lemma stats_ok_delta s d : stats_ok s -> program_delta d -> stats_ok (add_delta s d).
Proof.
  unfold stats_ok. intros (? & ? & ? & ? & ? & ?) [->|[->|[m ->]]]; simpl; [lia..|].
  unfold status_delta. destruct (call_status_of _), (sm_Retryable m), (1 <? sm_Attempt m); simpl; lia.
Qed.

Lemma counters_same w w' : w'.(w_stats) = w.(w_stats) -> inv counters_ok w w'.
Proof. unfold inv, counters_ok. by intros ->. Qed.

#[local] Instance cnt_run : CanRun (inv counters_ok).
Proof. apply (watch_run w_stats); [apply counters_same|apply _|unseen]. Qed.
#[local] Instance cnt_campaigns : CanWriteCampaigns (inv counters_ok).
Proof. apply (watch_campaigns w_stats); [apply counters_same|apply _|unseen]. Qed.
#[local] Instance cnt_hours : CanWriteHours (inv counters_ok).
Proof. apply watch_hours. intros w w' Ht _. unfold other_tables in Ht. simplify_eq. by apply counters_same. Qed.
#[local] Instance cnt_insert_targets : CanInsertTargets (inv counters_ok).
Proof. apply (watch_insert_targets w_stats); [apply counters_same|unseen]. Qed.
#[local] Instance cnt_update_targets : CanUpdateTargets (inv counters_ok).
Proof. apply (watch_update_targets w_stats); [apply counters_same|unseen]. Qed.
#[local] Instance cnt_ensure : CanEnsureStats (inv counters_ok).
Proof.
  intros c w w' a. unfold ensure_stats. intros Hi Hok. repeat case_match; simplify_eq; [done|].
  destruct w. intros id s Hl. simpl in Hl. apply lookup_insert_Some in Hl as [[_ <-]|[_ Hl]];
    [unfold stats_ok; simpl; lia|by apply (Hok id)].
Qed.
#[local] Instance cnt_delta : CanApplyDelta (inv counters_ok).
Proof.
  intros c d w w' a Hd. unfold apply_delta. intros Hi Hok. repeat case_match; simplify_eq; [|done].
  destruct w. intros id s' Hl. simpl in *. apply lookup_insert_Some in Hl as [[_ <-]|[_ Hl]];
    [apply stats_ok_delta; [by eapply Hok|done]|by apply (Hok id)].
Qed.
#[local] Instance cnt_calls : CanWriteCalls (inv counters_ok).
Proof. apply (watch_calls w_stats); [apply counters_same|unseen..]. Qed.
#[local] Instance cnt_attempts : CanWriteAttempts (inv counters_ok).
Proof. apply (watch_attempts w_stats); [apply counters_same|unseen]. Qed.
#[local] Instance cnt_redis : CanWriteRedis (inv counters_ok).
Proof. apply (watch_redis w_stats); [apply counters_same|unseen]. Qed.
#[local] Instance cnt_publish : CanPublish (inv counters_ok).
Proof. apply (watch_publish w_stats); [apply counters_same|unseen]. Qed.
#[local] Instance cnt_commit : CanCommit (inv counters_ok).
Proof. apply (watch_commit w_stats); [apply counters_same|unseen]. Qed.

(** The schema's constraints hold in every state the platform can
    reach, between any two requests of any handlers: every campaign row has a positive concurrency limit and a
    non-negative retry bound and its name is unique up to case, every business
    hour is a positive interval of one day of an existing campaign, every target
    and statistics row belongs to an existing campaign, and every counter fits
    a BIGINT. *)
Lemma integrity_reachable (w : World) : provider_outside -> reachable w -> pg_ok w.
Proof.
  intros Hp Hr. apply (reachable_inv pg_ok); [apply pg_ok_empty|apply _| |done].
  intros w1 p. apply starts_respects; [typeclasses eauto..|done].
Qed.

(** Claim C10: in every reachable state, redeliveries, crashes, failures and
    handlers that run at the same time included, the
    totals, completions, failures and retries counted for a campaign are never
    negative, the in-progress counter stays at zero, and completed, failed and
    pending calls together never exceed the total. *)
Theorem counters_never_exceed_total (w : World) : provider_outside -> reachable w -> counters_ok w.
Proof.
  intros Hp Hr. apply (reachable_inv counters_ok); [|apply _|clear w Hr|done].
  - intros id s Hl. simpl in Hl. by rewrite lookup_empty in Hl.
  - intros w1 p. by apply (starts_respects (inv counters_ok)).
Qed.
End System.

(** ** Examples: the API creates a campaign with one target *)

Definition to_api (id : string) (body : json) : Ctx :=
  mkCtx id (fun _ => EmptyString) (BodyJSON body) "trace".

Definition one_target_body : json :=
  JObj [("name", JString "spring"); ("time_zone", JString "UTC"); ("max_concurrent_calls", JInt 10);
        ("retry_policy", JObj [("max_attempts", JInt 5); ("base_delay", JString "2s");
                               ("max_delay", JString "2m")]);
        ("targets", JArr [JObj [("phone_number", JString "+15555550001")]])].

Section Examples.
Context `{Env} `{PgOrder} `{UuidText} `{Gocql} `{Fiber}.

Definition one_target_world : World :=
  (serve (api default_config) ECreateCampaign (to_api EmptyString one_target_body) empty_world).1.

Lemma one_target_reachable `{Provider} : reachable default_config one_target_world.
Proof. apply reachable_run; [apply start_request|]. exists ∅. apply rtc_refl. Qed.

Lemma mock_outside : @provider_outside mock_PlaceCall.
Proof. intros R ? d. apply eff_mock_place_call. typeclasses eauto. Qed.
End Examples.

Lemma counters_witness :
  let _ := quiet_env in let _ := bit_uuid in let _ := stable_sort_order in
  let _ := mock_PlaceCall in let _ := unary_pages in let _ := json_bodies in
  let w := (TriggerCall (mkCallService "calls" (mkRetryPolicy 5 0 0 f64_zero) 500)
    (mkTriggerInput 2 "+15555550001" None) one_target_world).1 in
  w.(w_stats) !! 2%N = Some (mkStats 1 0 0 0 1 0) /\ counters_ok one_target_world.
Proof.
  intros E U O P G F w. split; [vm_compute; reflexivity|].
  apply (counters_never_exceed_total default_config).
  - apply mock_outside.
  - apply one_target_reachable.
Defined.

Lemma restart_witness :
  let _ := quiet_env in let _ := bit_uuid in let _ := stable_sort_order in
  let w := set_campaigns {[ 3%N := set_row_status CampaignStatusCompleted 0 sample_row ]} sample_db in
  (exists e, (Start 3%N w).2 = Err e) /\
  exists w' r', (Pause 3%N ≫= fun _ => Start 3%N) w = (w', Ok ()) /\
    w'.(w_campaigns) !! 3%N = Some r' /\ r'.(cr_Status) = CampaignStatusInProgress /\
    r'.(cr_CompletedAt) = None.
Proof.
  intros E U O w.
  apply (completed_campaign_restarts 3%N w (set_row_status CampaignStatusCompleted 0 sample_row));
    [exact quiet_reliable | | reflexivity | reflexivity].
  pose proof (pg_ok_put_campaign sample_db (set_row_status CampaignStatusCompleted 0 sample_row)
    ltac:(vm_compute; reflexivity) sample_db_ok) as Hp. exact Hp.
Defined.
