(* ===== verification/Validity.v ===== *)
(** What validation promises of a campaign holds of every campaign that is stored,
    in every state the platform can reach. *)
From S2P Require Import Prelude Errors GoTime Durations Json Domain Messages World Postgres PostgresInv.
From S2P Require Import PostgresSpec Scylla Queue Limiter CampaignService CallService CallLists.
From S2P Require Import Requests Handlers Scheduler CallWorker StatusWorker RetryWorker Effects.
From S2P Require Import ApiEcho Interleaving Integrity Config Container System.

(** ** Valid campaigns *)

(** Delays that a duration can hold: each at most the largest one. *)
Definition policy_fits (p : RetryPolicy) : Prop :=
  p.(rp_BaseDelay) <= max_int64 /\ p.(rp_MaxDelay) <= max_int64.

Lemma parsed_fits s d : ParseDuration s = Some d -> d <= max_int64.
Proof.
  unfold ParseDuration, max_int64. destruct (split_sign s) as [neg s']. repeat case_match; intros; simplify_eq; zbool; try lia.
  pose proof (wrap64_range (- wrap64 z)) as Hr. unfold in_int64, max_int64 in Hr. lia.
Qed.

Lemma parsed_policy_fits req p : parseRetryPolicy req = Ok p -> policy_fits p.
Proof.
  assert (forall text detail d, parse_delay text detail = Ok d -> d <= max_int64) as Hd.
  { intros text detail d. unfold parse_delay. case_bool_decide; [by intros [= <-]|].
    destruct (ParseDuration text) eqn:Ep; [intros [= <-]; by eapply parsed_fits|done]. }
  unfold parseRetryPolicy. destruct (parse_delay (pq_BaseDelay req) _) as [b|] eqn:Eb; [|done].
  destruct (parse_delay (pq_MaxDelay req) _) as [m|] eqn:Em; [|done]. intros [= <-].
  split; [by eapply Hd|by eapply Hd].
Qed.

Section Validity.
Context `{Env} `{PgOrder} `{UuidText}.

(** The zone loads, and a call is attempted at least once, with delays that fit a
    duration and whose base does not exceed the maximum. *)
Definition valid (zone : string) (attempts base max : Z) : Prop :=
  zone <> EmptyString /\ is_Some (LoadLocation zone) /\ 0 < attempts /\ 0 <= base <= max.

Definition row_valid (r : campaignRecord) : Prop :=
  valid r.(cr_TimeZone) r.(cr_RetryMaxAttempts) r.(cr_RetryBaseDelayMs) r.(cr_RetryMaxDelayMs) /\
  r.(cr_RetryMaxDelayMs) * Millisecond <= max_int64.

Definition campaign_valid (c : Campaign) : Prop :=
  valid c.(c_TimeZone) c.(c_RetryPolicy).(rp_MaxAttempts) c.(c_RetryPolicy).(rp_BaseDelay)
    c.(c_RetryPolicy).(rp_MaxDelay) /\ c.(c_RetryPolicy).(rp_MaxDelay) <= max_int64.

Definition campaigns_valid (w : World) : Prop :=
  forall id r, w.(w_campaigns) !! id = Some r -> row_valid r.

Lemma read_valid r : row_valid r -> campaign_valid (toDomain r).
Proof.
  intros [(Hz & Hl & Ha & Hb) Hm]. unfold campaign_valid, toDomain, valid. cbn.
  rewrite !of_ms_exact by (unfold Millisecond in *; lia). unfold Millisecond in *. split_and!; (done || lia).
Qed.

Lemma written_valid c : campaign_valid c -> row_valid (campaign_params c).
Proof.
  intros [(Hz & Hl & Ha & Hb & Hbm) Hm]. unfold row_valid, campaign_params, valid, Milliseconds. cbn.
  pose proof (Z.quot_pos (rp_BaseDelay (c_RetryPolicy c)) Millisecond Hb ltac:(done)).
  pose proof (Z.quot_le_mono (rp_BaseDelay (c_RetryPolicy c)) (rp_MaxDelay (c_RetryPolicy c)) Millisecond ltac:(done) Hbm).
  pose proof (Z.mul_quot_le (rp_MaxDelay (c_RetryPolicy c)) Millisecond ltac:(lia) ltac:(done)).
  split_and!; (done || lia).
Qed.

Lemma normal_policy_valid p zone :
  policy_fits p -> zone <> EmptyString -> is_Some (LoadLocation zone) ->
  let q := normalizeRetry p in
  valid zone q.(rp_MaxAttempts) q.(rp_BaseDelay) q.(rp_MaxDelay) /\ q.(rp_MaxDelay) <= max_int64.
Proof.
  intros [Hb Hm] Hz Hl q. pose proof (normalizeRetry_spec p) as [[Hpos Ha] _]. fold q in Hpos, Ha.
  split; [split_and!; (done || lia)|]. subst q. unfold normalizeRetry, MinuteD, Second, Millisecond, max_int64 in *. cbn in *.
  repeat case_match; zbool; lia.
Qed.

(** ** Who may write campaigns *)

Let R : relation World := inv campaigns_valid.

Lemma valid_same w w' : w'.(w_campaigns) = w.(w_campaigns) -> R w w'.
Proof. unfold R, inv, campaigns_valid. by intros ->. Qed.

#[local] Instance valid_run : CanRun R.
Proof. apply (watch_run w_campaigns); [apply valid_same|apply _|unseen]. Qed.
#[local] Instance valid_hours : CanWriteHours R.
Proof. apply watch_hours. intros w w' Ht _. unfold other_tables in Ht. simplify_eq. by apply valid_same. Qed.
#[local] Instance valid_insert_targets : CanInsertTargets R.
Proof. apply (watch_insert_targets w_campaigns); [apply valid_same|unseen]. Qed.
#[local] Instance valid_update_targets : CanUpdateTargets R.
Proof. apply (watch_update_targets w_campaigns); [apply valid_same|unseen]. Qed.
#[local] Instance valid_ensure : CanEnsureStats R.
Proof. apply (watch_ensure w_campaigns); [apply valid_same|apply _|unseen]. Qed.
#[local] Instance valid_delta : CanApplyDelta R.
Proof. apply (watch_delta w_campaigns); [apply valid_same|apply _|unseen]. Qed.
#[local] Instance valid_calls : CanWriteCalls R.
Proof. apply (watch_calls w_campaigns); [apply valid_same|unseen..]. Qed.
#[local] Instance valid_attempts : CanWriteAttempts R.
Proof. apply (watch_attempts w_campaigns); [apply valid_same|unseen]. Qed.
#[local] Instance valid_redis : CanWriteRedis R.
Proof. apply (watch_redis w_campaigns); [apply valid_same|unseen]. Qed.
#[local] Instance valid_publish : CanPublish R.
Proof. apply (watch_publish w_campaigns); [apply valid_same|unseen]. Qed.
#[local] Instance valid_commit : CanCommit R.
Proof. apply (watch_commit w_campaigns); [apply valid_same|unseen]. Qed.

Lemma insert_keeps c : campaign_valid c -> stable R (CampaignRepository_Create c).
Proof.
  intros Hc. unfold CampaignRepository_Create. apply stable_on_err, stable_external; [apply _|apply can_bump|].
  unfold insert_campaign. intros w w' u Hi Hw id r Hl. case_match; simplify_eq. destruct w. cbn in Hl.
  apply lookup_insert_Some in Hl as [[_ <-]|[_ Hl]]; [by apply written_valid|by eapply Hw].
Qed.

Lemma update_keeps c : campaign_valid c -> stable R (CampaignRepository_Update c).
Proof.
  intros Hc. unfold CampaignRepository_Update. apply stable_bind; [apply _| |intros n; unfold rows_or_not_found; effects].
  apply stable_on_err, stable_external; [apply _|apply can_bump|]. unfold update_campaign.
  intros w w' n Hu Hw id r Hl. repeat case_match; simplify_eq; [|by eapply Hw].
  destruct w. cbn in Hl. apply lookup_insert_Some in Hl as [[_ <-]|[_ Hl]]; [|by eapply Hw].
  apply (written_valid c Hc).
Qed.

(** ** Every program keeps them valid

    What a request reads of a campaign is valid, whatever others do before it
    writes it back. *)
#[local] Instance validity : Protocol unit :=
  plain R campaigns_valid (fun w w' Hw Hi => Hw Hi) (can_bump (R := R)).

Lemma safe_valid {A} (m : M A) : stable R m -> safe m.
Proof.
  intros Hm w. eapply obeys_mono; [|apply (obeys_under (fun _ => True) m tt w)]; try done.
  eapply stable_mono; [exact Hm|]. by intros w1 w2 H12 _ _ _.
Qed.

Lemma safe_edit {A} id (k : Campaign -> M A) :
  (forall c, campaign_valid c -> stable R (k c)) -> safe (CampaignRepository_Get id ≫= k).
Proof.
  intros Hk w. unfold CampaignRepository_Get. apply obeys_bind, obeys_bind, obeys_map_result, obeys_read.
  intros w' _ Hw _. split; [|done]. cbn. destruct (w_campaigns w' !! id) as [r|] eqn:Hl; [|done].
  apply safe_valid, Hk, read_valid. by eapply Hw.
Qed.

Lemma safe_Create d i : policy_fits i.(ci_RetryPolicy) -> safe (Create d i).
Proof.
  intros Hp. apply safe_valid. unfold Create. destruct (validateCreateInput i) as [e|] eqn:Ev; [effects|].
  assert (i.(ci_TimeZone) <> EmptyString /\ is_Some (LoadLocation i.(ci_TimeZone))) as [Hz Hl].
  { revert Ev. unfold validateCreateInput. repeat case_bool_decide; try done.
    destruct (LoadLocation _); [by eauto|done]. }
  pose proof (fun t id => insert_keeps (mkCampaign id i.(ci_Name) i.(ci_Description) i.(ci_TimeZone) []
    (resolveConcurrency d i.(ci_MaxConcurrentCalls)) (normalizeRetry i.(ci_RetryPolicy))
    CampaignStatusPending t t None None) (normal_policy_valid _ _ Hp Hz Hl)).
  effects; auto.
Qed.

Lemma apply_update_valid d u t c :
  (forall p, u.(ui_RetryPolicy) = Some p -> policy_fits p) -> campaign_valid c -> campaign_valid (apply_update d u t c).
Proof.
  intros Hp [Hv Hm]. unfold apply_update, campaign_valid. cbn. destruct u.(ui_RetryPolicy) as [p|]; [|done].
  destruct Hv as (? & ? & _). by apply normal_policy_valid; [apply Hp|..].
Qed.

Lemma safe_Update d u : (forall p, u.(ui_RetryPolicy) = Some p -> policy_fits p) -> safe (Update d u).
Proof.
  intros Hp. apply safe_edit. intros c Hc.
  pose proof (fun t => update_keeps _ (apply_update_valid d u t c Hp Hc)). effects. cbv zeta. effects; auto.
Qed.

Lemma safe_Start id : safe (Start id).
Proof.
  apply safe_edit. intros c Hc. repeat case_bool_decide; [effects..|].
  pose proof (fun t => update_keeps (with_started (Some t) (with_status CampaignStatusInProgress c))).
  assert (forall t, campaign_valid (with_started (Some t) (with_status CampaignStatusInProgress c))) by (by destruct c).
  effects; auto.
Qed.

Lemma safe_Pause id : safe (Pause id).
Proof.
  apply safe_edit. intros c Hc. apply update_keeps. by destruct c.
Qed.

Lemma safe_Complete id : safe (Complete id).
Proof.
  apply safe_edit. intros c Hc.
  pose proof (fun t => update_keeps (with_completed (Some t) (with_status CampaignStatusCompleted c))).
  assert (forall t, campaign_valid (with_completed (Some t) (with_status CampaignStatusCompleted c))) by (by destruct c).
  effects; auto.
Qed.

Context `{Gocql} `{Fiber}.

Lemma safe_serve h e ctx : safe (serve h e ctx).
Proof.
  assert (forall A (m : M A), stable R m -> safe m) as Hwrites by (intros; by apply safe_valid).
  assert (forall A (m : M A) (k : A -> M Reply), safe m -> (forall a, stable R (k a)) ->
    safe (on_err translateError m ≫= k)) as Hthen.
  { intros A m k Hm Hk. apply safe_bind; [by apply safe_map_result|]. intros a. by apply Hwrites. }
  unfold serve. apply safe_map_result, (eff_handle_editing R (fun A => safe) Hwrites h).
  - intros i. apply Hwrites. effects.
  - apply _.
  - unfold createCampaign, parse_body. apply safe_bind; [apply Hwrites; effects|intros req].
    destruct (toCreateCampaignInput req) as [input|err] eqn:Ei; [|done].
    match goal with |- _ (_ ≫= ?k) => change (safe (k input)) end. apply Hthen; [|intros c; effects].
    apply safe_Create. revert Ei. unfold toCreateCampaignInput. destruct (cq_RetryPolicy req) as [p|].
    + destruct (parseRetryPolicy p) eqn:Ep; [|done]. destruct (parseBusinessHours _); [|done].
      intros [= <-]. by eapply parsed_policy_fits.
    + destruct (parseBusinessHours _); [|done]. intros [= <-]. done.
  - unfold updateCampaign, parseUUID, parse_body. apply safe_bind; [apply Hwrites; effects|intros id].
    apply safe_bind; [apply Hwrites; effects|intros req].
    destruct (toUpdateCampaignInput id req) as [input|err] eqn:Ei; [|done].
    match goal with |- _ (_ ≫= ?k) => change (safe (k input)) end. apply Hthen; [|intros c; effects].
    apply safe_Update. revert Ei. unfold toUpdateCampaignInput. destruct (uq_RetryPolicy req) as [p|].
    + destruct (parseRetryPolicy p) as [q|] eqn:Ep; [|done]. repeat case_match; try done; intros [= <-] p' [= <-];
        by eapply parsed_policy_fits.
    + repeat case_match; try done; by intros [= <-].
  - unfold startCampaign, parseUUID, SendStatus. apply safe_bind; [apply Hwrites; effects|intros id].
    apply Hthen; [apply safe_Start|intros; effects].
  - unfold pauseCampaign, parseUUID, SendStatus. apply safe_bind; [apply Hwrites; effects|intros id].
    apply Hthen; [apply safe_Pause|intros; effects].
  - unfold completeCampaign, parseUUID, SendStatus. apply safe_bind; [apply Hwrites; effects|intros id].
    apply Hthen; [apply safe_Complete|intros; effects].
Qed.

Context `{Provider} (cfg : Config) (Hprovider : provider_outside).

Lemma starts_valid w p : starts cfg w p -> obeys p (fun _ _ _ => True) no_token w.
Proof using Hprovider.
  intros Hstart. destruct Hstart; eapply obeys_ignore; [apply safe_serve|..]; apply safe_valid;
    first [ apply eff_tick | apply eff_processMessage; [..|intros d; apply (Hprovider R _ d)]
          | apply eff_handle_status | apply eff_handle_retry ]; apply _.
Qed.

Lemma reachable_valid w : reachable cfg w -> campaigns_valid w.
Proof using Hprovider.
  intros [ts Hr].
  destruct (steps_supervised (H := validity) (starts cfg) (fun w p _ => starts_valid w p) _ _ Hr) as [[Hw _] _];
    [|exact Hw].
  apply (idle_supervised (H := validity)). intros id r Hl. cbn in Hl. by rewrite lookup_empty in Hl.
Qed.
End Validity.

(** ** Properties *)

Section ValidityProperties.
Context `{Env} `{PgOrder} `{UuidText} `{Gocql} `{Fiber} `{Provider} (cfg : Config).

(** Claim C9: what the service checks and normalises when it is given a campaign
    holds of every campaign stored, in every state the platform can reach,
    whatever fails, and although a change writes back all that was read before
    others changed it: its time zone can be loaded, so that the scheduler's test of
    the business hours never lets a call through for want of a zone; and its retry
    policy has at least one attempt, and delays that are not negative, fit a
    duration, and do not exceed the maximum of the policy. *)
Theorem stored_campaigns_valid (w : World) (id : uuid) (r : campaignRecord) :
  provider_outside -> reachable cfg w -> w.(w_campaigns) !! id = Some r ->
  (exists loc, LoadLocation r.(cr_TimeZone) = Some loc) /\ r.(cr_TimeZone) <> EmptyString /\
  0 < r.(cr_RetryMaxAttempts) /\
  0 <= r.(cr_RetryBaseDelayMs) <= r.(cr_RetryMaxDelayMs) /\
  r.(cr_RetryMaxDelayMs) * Millisecond <= max_int64.
Proof.
  intros Hp Hr Hl. destruct (reachable_valid cfg Hp w Hr id r Hl) as [(Hz & Hloc & Ha & Hb) Hm].
  split_and!; (done || lia).
Qed.
End ValidityProperties.

Lemma stored_valid_witness :
  let _ := quiet_env in let _ := bit_uuid in let _ := stable_sort_order in
  let _ := mock_PlaceCall in let _ := unary_pages in let _ := json_bodies in
  exists r, one_target_world.(w_campaigns) !! 2%N = Some r /\
    r.(cr_RetryBaseDelayMs) = 2000 /\ 0 < r.(cr_RetryMaxAttempts).
Proof.
  intros E U O P G F. destruct (one_target_world.(w_campaigns) !! 2%N) as [r|] eqn:Hl.
  - exists r. split; [done|].
    destruct (stored_campaigns_valid default_config one_target_world 2 r) as (_ & _ & Ha & _).
    + apply mock_outside.
    + apply one_target_reachable.
    + exact Hl.
    + split; [|exact Ha].
      assert (cr_RetryBaseDelayMs <$> one_target_world.(w_campaigns) !! 2%N = Some 2000) as Hb by (vm_compute; reflexivity).
      rewrite Hl in Hb. by injection Hb.
  - exfalso. assert (is_Some (one_target_world.(w_campaigns) !! 2%N)) as [r Hr] by (vm_compute; eauto).
    congruence.
Defined.
