(* ===== verification/SchedulerProofs.v ===== *)
(** What a scheduler tick does: when it does nothing, which campaigns it dials
    for, and what becomes of the targets it takes. *)
From S2P Require Import Prelude Errors GoTime Json Domain Messages World Postgres PostgresInv.
From S2P Require Import PostgresSpec Scylla Queue Limiter CampaignService CallService CallLists.
From S2P Require Import Requests Handlers Scheduler CallWorker StatusWorker RetryWorker Effects.
From S2P Require Import Config Container System.

(** ** What a read leaves behind *)

Section Reads.
Context `{Env} `{PgOrder} `{UuidText}.

#[export] Instance keeps_stores : CanRun (keeps stores).
Proof. split; [apply _|]. intros w. apply stores_bump. Qed.

Lemma stores_fields a b :
  stores a = stores b -> a.(w_log) = b.(w_log) /\ a.(w_campaigns) = b.(w_campaigns) /\
  a.(w_hours) = b.(w_hours) /\ a.(w_targets) = b.(w_targets).
Proof. unfold stores. by intros [=]. Qed.

(** The campaigns of a tick, with their business hours as stored. *)
Definition stored_campaign (w : World) (c : Campaign) : Prop :=
  exists id r, w.(w_campaigns) !! id = Some r /\ r.(cr_ID) = c.(c_ID) /\
    c = with_hours (row_window <$> pg_order hour_key (hours_of r.(cr_ID) w)) (toDomain r).

Lemma stored_campaign_same w w' c : stores w' = stores w -> stored_campaign w' c -> stored_campaign w c.
Proof.
  intros Hs. apply stores_fields in Hs as (_ & Hc & Hh & _).
  unfold stored_campaign, hours_of. by rewrite Hc, Hh.
Qed.

Lemma list_by_status_stores st n w : stores (ListByStatus st n w).1 = stores w.
Proof.
  assert (stable (keeps stores) (ListByStatus st n)) as Hs; [|exact (stable_run _ _ Hs w)].
  unfold ListByStatus. effects.
Qed.

Lemma pending_retries_stores topics w : stores (hasPendingRetries topics w).1 = stores w.
Proof. apply (stable_run (keeps stores)), eff_pending_retries, _. Qed.

Lemma fill_hours_Ok cs : forall w w' cs',
  fill_hours cs w = (w', Ok cs') ->
  stores w' = stores w /\
  cs' = (fun c => with_hours (row_window <$> pg_order hour_key (hours_of c.(c_ID) w)) c) <$> cs.
Proof.
  induction cs as [|c cs IH]; intros w w' cs' Hrun; [by injection Hrun as <- <-|].
  cbn [fill_hours] in Hrun. apply bind_Ok in Hrun as (ws & w1 & Hl & Hrun).
  apply bind_Ok in Hrun as (rest & w2 & Hrest & Hrun). injection Hrun as <- <-.
  apply on_err_Ok, on_err_Ok, external_Ok in Hl. injection Hl as <- <-.
  apply IH in Hrest as [Hs ->]. rewrite stores_bump in Hs. split; [done|].
  by destruct w.
Qed.

Lemma list_by_status_Ok status limit w w' cs :
  ListByStatus status limit w = (w', Ok cs) ->
  stores w' = stores w /\
  forall c, c ∈ cs -> c.(c_Status) = status /\ stored_campaign w c.
Proof.
  unfold ListByStatus, CampaignRepository_ListByStatus. intros Hrun.
  apply bind_Ok in Hrun as (cs0 & w1 & Hl & Hrun). apply on_err_Ok, external_Ok in Hl.
  injection Hl as <- Hcs. apply fill_hours_Ok in Hrun as [Hs ->]. rewrite stores_bump in Hs.
  split; [done|]. intros c Hc. apply list_elem_of_fmap in Hc as (c0 & -> & Hc0).
  rewrite <- Hcs in Hc0. apply list_elem_of_fmap in Hc0 as (r & -> & Hr).
  unfold limit_rows in Hr. apply elem_of_take in Hr as (k & Hk & _).
  apply list_elem_of_lookup_2 in Hk. rewrite pg_order_perm in Hk.
  apply list_elem_of_In, filter_In in Hk as [Hk Hst]. apply bool_decide_eq_true_1 in Hst.
  apply list_elem_of_In, list_elem_of_fmap in Hk as ([id r'] & -> & Hk).
  apply elem_of_map_to_list in Hk. split; [done|].
  exists id, r'. split; [by destruct w|]. split; [done|]. by destruct w.
Qed.
End Reads.

Section Blocked.
Context `{Env} `{PgOrder} `{UuidText} (cfg : SchedulerSettings) (s : CallService).

Lemma fetch_first_reliable topic w :
  reliable ->
  attempt (FetchFirst topic) w =
  (bump w, Ok (match topic_records topic w with
               | m :: _ => Ok m
               | [] => Err (New "context deadline exceeded")
               end)).
Proof.
  intros Hr. rewrite run_attempt. unfold FetchFirst. rewrite external_reliable by done.
  replace (topic_records topic (bump w)) with (topic_records topic w) by (by destruct w).
  by destruct (topic_records topic w).
Qed.

Definition has_record (w : World) (topic : string) : bool :=
  match topic_records topic w with [] => false | _ => true end.

Lemma has_record_spec w topic : has_record w topic = true <-> topic_records topic w <> [].
Proof. unfold has_record. by destruct (topic_records topic w). Qed.

Lemma has_pending_reliable topics : forall w,
  reliable ->
  exists w', hasPendingRetries topics w =
    (w', Ok (existsb (has_record w) topics)).
Proof.
  induction topics as [|t ts IH]; intros w Hr; [by eexists|]. cbn [hasPendingRetries existsb].
  rewrite (bind_step _ _ _ _ _ (fetch_first_reliable t w Hr)).
  unfold has_record at 1. destruct (topic_records t w) as [|m ms] eqn:Et; [|by eexists].
  assert (has_record (bump w) = has_record w) as <- by (by destruct w). apply (IH (bump w) Hr).
Qed.

(** A tick that finds a retry changes nothing. *)
Lemma tick_blocked w :
  reliable -> Exists (fun t => topic_records t w <> []) cfg.(sc_RetryTopics) ->
  stores (tick cfg s w).1 = stores w /\ (tick cfg s w).2 = Ok ().
Proof.
  intros Hr Hex. unfold tick. destruct (has_pending_reliable cfg.(sc_RetryTopics) w Hr) as [w' Hp].
  assert (existsb (has_record w) cfg.(sc_RetryTopics) = true) as Ht.
  { rewrite Exists_exists in Hex. destruct Hex as (t & Hin & Hne). apply existsb_exists.
    exists t. split; [by apply list_elem_of_In|]. by apply has_record_spec. }
  rewrite Ht in Hp. rewrite (bind_step _ _ _ _ _ Hp). split; [|done].
  pose proof (pending_retries_stores cfg.(sc_RetryTopics) w) as Hs. by rewrite Hp in Hs.
Qed.
End Blocked.

(** ** The log only grows *)

Section Growth.
Context `{Env} `{PgOrder} `{UuidText}.

Definition log_grows : relation World := fun w w' => w.(w_log) `prefix_of` w'.(w_log).

#[local] Instance grows_preorder : PreOrder log_grows.
Proof. split; unfold log_grows; [intros w; done|]. intros x y z. apply transitivity. Qed.
Lemma grows_same w w' : w'.(w_log) = w.(w_log) -> log_grows w w'.
Proof. unfold log_grows. by intros ->. Qed.
#[local] Instance grows_run : CanRun log_grows.
Proof. apply (watch_run w_log); [apply grows_same|apply _|unseen]. Qed.
#[local] Instance grows_campaigns : CanWriteCampaigns log_grows.
Proof. apply (watch_campaigns w_log); [apply grows_same|apply _|unseen]. Qed.
#[local] Instance grows_hours : CanWriteHours log_grows.
Proof. apply watch_hours. intros w w' _ Hs. unfold other_stores in Hs. simplify_eq. by apply grows_same. Qed.
#[local] Instance grows_insert_targets : CanInsertTargets log_grows.
Proof. apply (watch_insert_targets w_log); [apply grows_same|unseen]. Qed.
#[local] Instance grows_update_targets : CanUpdateTargets log_grows.
Proof. apply (watch_update_targets w_log); [apply grows_same|unseen]. Qed.
#[local] Instance grows_ensure : CanEnsureStats log_grows.
Proof. apply (watch_ensure w_log); [apply grows_same|apply _|unseen]. Qed.
#[local] Instance grows_delta : CanApplyDelta log_grows.
Proof. apply (watch_delta w_log); [apply grows_same|apply _|unseen]. Qed.
#[local] Instance grows_calls : CanWriteCalls log_grows.
Proof. apply (watch_calls w_log); [apply grows_same|unseen..]. Qed.
#[local] Instance grows_attempts : CanWriteAttempts log_grows.
Proof. apply (watch_attempts w_log); [apply grows_same|unseen]. Qed.
#[local] Instance grows_redis : CanWriteRedis log_grows.
Proof. apply (watch_redis w_log); [apply grows_same|unseen]. Qed.
#[local] Instance grows_publish : CanPublish log_grows.
Proof. intros t m []. unfold log_grows. simpl. by apply prefix_app_r. Qed.
#[local] Instance grows_commit : CanCommit log_grows.
Proof. apply (watch_commit w_log); [apply grows_same|unseen]. Qed.

Context `{Gocql} `{Fiber} `{Provider} (cfg : Config).

Lemma leads_grow w w' : provider_outside -> leads cfg w w' -> log_grows w w'.
Proof. intros Hp. apply (leads_respects cfg); [apply _|]. intros w1 p. by apply starts_respects; try apply _. Qed.

(** Claim C36: one retry blocks the scheduler for good: the pause for pending
    retries looks for any record a retry topic holds, processed or not, so from
    the first retry on (for as long as the topic retains it and the read answers)
    no tick takes a target, dials a number or changes any store. *)
Theorem scheduler_blocked_for_good (w w' : World) (topic : string) (m : KafkaMessage) :
  reliable -> provider_outside -> topic ∈ cfg.(cfg_Kafka).(kc_RetryTopics) ->
  (topic, m) ∈ w.(w_log) -> leads cfg w w' ->
  stores (tick (co cfg).(co_scheduler) (co cfg).(co_calls) w').1 = stores w'.
Proof.
  intros Hr Hp Ht Hin Hsteps. apply tick_blocked; [done|]. apply Exists_exists. exists topic.
  split; [exact Ht|]. apply (leads_grow _ _ Hp) in Hsteps as [l Hl].
  assert ((topic, m) ∈ w'.(w_log)) as Hin' by (rewrite Hl, elem_of_app; by left).
  intros Hnil. apply (not_elem_of_nil m). rewrite <- Hnil. unfold topic_records.
  apply list_elem_of_fmap. exists (topic, m). split; [done|].
  apply list_elem_of_In, filter_In. split; [by apply list_elem_of_In|apply String.eqb_refl].
Qed.
End Growth.

(** ** Whom a tick dials for *)

Section Dialling.
Context `{Env} `{PgOrder} `{UuidText} (cfg : SchedulerSettings) (s : CallService).

(** TriggerCall dispatches at most the one message it builds. *)
Lemma trigger_respects (R : relation World) `{!CanRun R, !CanWriteCalls R, !CanApplyDelta R} i :
  (forall d, d.(dm_CampaignID) = i.(tc_CampaignID) -> d.(dm_PhoneNumber) = i.(tc_PhoneNumber) ->
     d.(dm_Attempt) = 1 -> stable R (DispatchCall s.(cs_dispatchTopic) d)) ->
  stable R (TriggerCall s i).
Proof. intros Hd. unfold TriggerCall. effects; by apply Hd. Qed.

(** The new records of a log are first attempts for campaigns that are [open]. *)
Definition dialled_for (is_open : uuid -> Prop) (old : list (string * KafkaMessage)) (w : World) : Prop :=
  forall x, x ∈ w.(w_log) -> x ∈ old \/ exists d m, x = (s.(cs_dispatchTopic), m) /\
    marshal_dispatch d = Some m.(km_Value) /\ d.(dm_Attempt) = 1 /\ is_open d.(dm_CampaignID).

Section Invariant.
Context (is_open : uuid -> Prop) (old : list (string * KafkaMessage)).
Let I := inv (dialled_for is_open old).

Lemma dialled_same w w' : w'.(w_log) = w.(w_log) -> I w w'.
Proof. unfold I, inv, dialled_for. by intros ->. Qed.

#[local] Instance dial_run : CanRun I.
Proof. split; [apply _|]. intros []. by apply dialled_same. Qed.
#[local] Instance dial_update_targets : CanUpdateTargets I.
Proof. split; intros ??? []; by apply dialled_same. Qed.
#[local] Instance dial_delta : CanApplyDelta I.
Proof.
  intros c d [] w' a _. unfold apply_delta. intros Hi. repeat case_match; simplify_eq;
    by apply dialled_same.
Qed.
#[local] Instance dial_calls : CanWriteCalls I.
Proof. apply any_calls; intros v []; by apply dialled_same. Qed.

Lemma dial_dispatch d :
  d.(dm_Attempt) = 1 -> is_open d.(dm_CampaignID) -> stable I (DispatchCall s.(cs_dispatchTopic) d).
Proof.
  intros Ha Ho. unfold DispatchCall, marshalled.
  destruct (marshal_dispatch d) as [v|] eqn:Em; effects.
  apply stable_write; [apply _|apply can_bump|].
  intros w Hw x Hx. unfold append_record in Hx. destruct w; simpl in *.
  apply elem_of_app in Hx as [Hx|Hx]; [by apply Hw|].
  apply list_elem_of_singleton in Hx as ->. right. do 2 eexists. by split_and!.
Qed.

Lemma dial_campaign t c :
  (isWithinBusinessHours t c = true -> is_open c.(c_ID)) -> stable I (schedule_campaign cfg s t c).
Proof.
  intros Hopen. unfold schedule_campaign, call_batch.
  destruct (isWithinBusinessHours t c); cbn [negb]; [|effects]. specialize (Hopen eq_refl).
  assert (forall ts, stable I (trigger_targets s c.(c_ID) ts)) as Ht.
  { intros ts. induction ts; cbn [trigger_targets]; effects. apply trigger_respects; [apply _..|].
    intros d Hd _ Ha. apply dial_dispatch; [done|]. by rewrite Hd. }
  pose proof (eff_next_batch I) as Hnext. pose proof (eff_mark_scheduled I) as Hmark.
  pose proof (eff_set_state I) as Hset. effects.
Qed.
End Invariant.

(** Claim C17: a tick, under any faults, only dials first attempts, and only for
    campaigns that are stored as in progress and, by their stored business hours,
    are open at the moment the tick reads the clock, once it has looked for retries:
    every record that is new on any topic is such a first attempt. *)
Theorem tick_dials_open_campaigns (w : World) :
  let t := env_now (hasPendingRetries cfg.(sc_RetryTopics) w).1.(w_tick) in
  dialled_for (fun id => exists c, stored_campaign w c /\ c.(c_ID) = id /\
      c.(c_Status) = CampaignStatusInProgress /\ isWithinBusinessHours t c = true)
    w.(w_log) (tick cfg s w).1.
Proof.
  cbv zeta. unfold tick. rewrite run_bind.
  pose proof (pending_retries_stores cfg.(sc_RetryTopics) w) as Hs1.
  destruct (hasPendingRetries _ w) as [w1 [p|e]]; simpl in Hs1.
  2:{ intros x Hx. left. by apply stores_fields in Hs1 as [<- _]. }
  cbn [fst]. set (t := env_now _). set (P := dialled_for _ _).
  assert (forall v, stores v = stores w -> P v) as Hsame.
  { intros v Hv x Hx. left. by apply stores_fields in Hv as [<- _]. }
  destruct p; [by apply Hsame|].
  rewrite (bind_step now _ w1 (bump w1) t eq_refl). rewrite run_bind.
  pose proof (list_by_status_stores CampaignStatusInProgress (campaignFetchLimit cfg) (bump w1)) as Hs2.
  destruct (ListByStatus _ _ (bump w1)) as [w2 [cs|e]] eqn:El; simpl in Hs2; rewrite stores_bump, Hs1 in Hs2;
    [|by apply Hsame].
  apply list_by_status_Ok in El as [_ Hcs].
  assert (forall l, (forall c, c ∈ l -> c ∈ cs) ->
    stable (inv P) (for_each l (schedule_campaign cfg s t))) as Hloop.
  { induction l as [|c l IH]; intros Hin; cbn [for_each]; [apply stable_ret; apply _|].
    apply stable_bind; [apply _| |intros _; apply IH; intros; apply Hin; by right].
    apply dial_campaign. intros Ht. destruct (Hcs c) as [Hst Hc]; [apply Hin; by left|].
    exists c. split_and!; [|done..]. apply (stored_campaign_same _ (bump w1)); [|done].
    by rewrite stores_bump. }
  by apply (stable_run _ _ (Hloop cs (fun _ Hc => Hc)) w2), Hsame.
Qed.
End Dialling.

(** ** What becomes of the targets a tick takes *)

Section Targets.
Context `{Env} `{PgOrder} `{UuidText} (cfg : SchedulerSettings) (s : CallService).

#[local] Instance keeps_targets : CanRun (keeps w_targets).
Proof. split; [apply _|]. by intros []. Qed.
#[local] Instance keeps_targets_delta : CanApplyDelta (keeps w_targets).
Proof.
  intros c d [] w' a _. unfold apply_delta. intros Hi. by repeat case_match; simplify_eq.
Qed.
#[local] Instance keeps_targets_calls : CanWriteCalls (keeps w_targets).
Proof. by apply any_calls; intros v []. Qed.
#[local] Instance keeps_targets_publish : CanPublish (keeps w_targets).
Proof. by intros t m []. Qed.

#[local] Instance keeps_log : CanRun (keeps w_log).
Proof. split; [apply _|]. by intros []. Qed.
#[local] Instance keeps_log_delta : CanApplyDelta (keeps w_log).
Proof.
  intros c d [] w' a _. unfold apply_delta. intros Hi. by repeat case_match; simplify_eq.
Qed.
#[local] Instance keeps_log_calls : CanWriteCalls (keeps w_log).
Proof. by apply any_calls; intros v []. Qed.

Lemma dispatch_reliable_Err topic d w w' e :
  reliable -> DispatchCall topic d w = (w', Err e) -> w' = w.
Proof.
  intros Hr. unfold DispatchCall, marshalled. destruct (marshal_dispatch d) as [v|].
  - run_monad. by rewrite write_done by apply Hr.
  - intros [= <- _]. done.
Qed.

(** An error is reported with the log as it was, when requests are answered. *)
Lemma trigger_call_Err i w w' e :
  reliable -> TriggerCall s i w = (w', Err e) -> w'.(w_log) = w.(w_log).
Proof.
  intros Hr Hrun.
  assert (forall {A} (m : M A) w w' r, stable (keeps w_log) m -> m w = (w', r) -> w'.(w_log) = w.(w_log))
    as Hk by (intros A m w0 w0' r Hs Hm; exact (stable_ran _ _ _ _ _ Hs Hm)).
  unfold TriggerCall in Hrun. case_bool_decide; [by injection Hrun as <- _|]. cbv zeta in Hrun.
  repeat match type of Hrun with
  | run (attempt _ ≫= _) _ = _ => fail 1
  | run (_ ≫= _) _ = (_, Err _) =>
      apply bind_Err in Hrun as [Hrun|(? & ? & Hs & Hrun)];
      [eapply Hk, Hrun; effects | apply Hk in Hs; [|effects]; try rewrite <- Hs; clear Hs]
  end.
  apply bind_Err in Hrun as [Hrun|(rd & w6 & Hd & Hrun)].
  { by rewrite run_attempt in Hrun. }
  rewrite run_attempt in Hd. destruct (DispatchCall _ _ _) as [w5 r5] eqn:Ed. injection Hd as <- <-.
  destruct r5 as [u|e5]; [done|].
  etrans; [|apply (dispatch_reliable_Err _ _ _ _ _ Hr) in Ed as ->; reflexivity].
  eapply Hk, Hrun. destruct (bool_decide _); effects.
Qed.

(** A record that carries a dispatch message, and the message of a target's call. *)
Definition written (d : DispatchMessage) (x : string * KafkaMessage) : Prop :=
  x.1 = s.(cs_dispatchTopic) /\ marshal_dispatch d = Some x.2.(km_Value).
Definition first_call (c : uuid) (phone : string) (d : DispatchMessage) : Prop :=
  d.(dm_CampaignID) = c /\ d.(dm_PhoneNumber) = phone /\ d.(dm_Attempt) = 1.

(** Each target is dispatched once, or reported as failed. *)
Lemma trigger_targets_run c ts : forall w,
  reliable ->
  exists w' called failed ds recs, trigger_targets s c ts w = (w', Ok failed) /\
    w'.(w_targets) = w.(w_targets) /\ w'.(w_log) = w.(w_log) ++ recs /\ Forall2 written ds recs /\
    Forall2 (fun t => first_call c t.(t_PhoneNumber)) called ds /\
    called `sublist_of` ts /\ (t_ID <$> called) ++ failed ≡ₚ t_ID <$> ts.
Proof.
  induction ts as [|t ts IH]; intros w Hr.
  { exists w, [], [], [], []. rewrite app_nil_r. by split_and!. }
  cbn [trigger_targets]. rewrite run_bind, run_attempt.
  pose proof (stable_run _ _ (eff_TriggerCall (keeps w_targets) s
    (mkTriggerInput c t.(t_PhoneNumber) t.(t_Payload))) w) as Ht.
  destruct (TriggerCall s _ w) as [w1 r] eqn:Et. cbn [fst snd] in Ht |- *.
  destruct (IH w1 Hr) as (w2 & called & failed & ds & recs & Hrun & Ht2 & Hl2 & Hw & Hf & Hsub & Hperm).
  unfold keeps in Ht. rewrite (bind_step _ _ _ _ _ Hrun). destruct r as [call|e].
  - apply trigger_call_Ok in Et as (r & m & k & _ & _ & _ & _ & _ & _ & Hl1 & _ & Hone & _ & Hm). rewrite (Hone Hr) in Hl1.
    set (i := mkTriggerInput c t.(t_PhoneNumber) t.(t_Payload)) in Hm.
    exists w2, (t :: called), failed, (trigger_message_of s i r w :: ds), ((s.(cs_dispatchTopic), m) :: recs).
    split_and!; [done|congruence| |by constructor|by constructor|by constructor|].
    + by rewrite Hl2, Hl1, <- app_assoc.
    + cbn. by f_equiv.
  - apply trigger_call_Err in Et; [|done]. exists w2, called, (t.(t_ID) :: failed), ds, recs.
    split_and!; [done|congruence|congruence|done|done|by constructor|].
    rewrite <- Permutation_middle. cbn. by f_equiv.
Qed.

Lemma update_targets_lookup c ids f w id :
  (update_targets c ids f w).(w_targets) !! id =
  (fun r => if bool_decide (r.(tr_campaign_id) = c) && bool_decide (id ∈ ids) then f r else r) <$>
  w.(w_targets) !! id.
Proof. destruct w; simpl. rewrite map_lookup_imap. by destruct (w_targets !! id). Qed.

Lemma mark_scheduled_reliable c ids t w :
  reliable -> ids <> [] ->
  CampaignTargetRepository_MarkScheduled c ids t w =
    (update_targets c ids (with_schedule t) (bump w), Ok ()).
Proof.
  intros Hr Hne. unfold CampaignTargetRepository_MarkScheduled. destruct ids as [|x ids]; [done|].
  rewrite !run_on_err. by rewrite external_reliable.
Qed.

Lemma set_state_reliable c ids st w :
  reliable ->
  exists w', CampaignTargetRepository_SetState c ids st w = (w', Ok ()) /\
    w'.(w_log) = w.(w_log) /\ w'.(w_stats) = w.(w_stats) /\ forall id, w'.(w_targets) !! id =
      (fun r => if bool_decide (r.(tr_campaign_id) = c) && bool_decide (id ∈ ids)
                then with_state st r else r) <$> w.(w_targets) !! id.
Proof.
  intros Hr. unfold CampaignTargetRepository_SetState. destruct ids as [|x ids].
  - exists w. split_and!; [done..|]. intros id. destruct (w_targets w !! id) as [r|]; [|done].
    simpl. rewrite andb_false_r. done.
  - rewrite !run_on_err. rewrite external_reliable by done. cbn [map_err fst snd]. eexists. split; [reflexivity|].
    do 2 (split; [by destruct w|]). intros id. rewrite update_targets_lookup. by destruct w.
Qed.

(** A limit that is not positive stands for 100. *)
Definition batch_size : int := if cfg.(sc_MaxBatchSize) <=? 0 then 100 else cfg.(sc_MaxBatchSize).

Lemma next_batch_reliable c w :
  reliable ->
  exists ts, CampaignTargetRepository_NextBatchForScheduling c cfg.(sc_MaxBatchSize) w = (bump w, Ok ts) /\
    NoDup (t_ID <$> ts) /\ Z.of_nat (length ts) <= batch_size /\
    (forall t, t ∈ ts -> exists r, w.(w_targets) !! t.(t_ID) = Some r /\ t = toModel c t.(t_ID) r /\
       r.(tr_campaign_id) = c /\ r.(tr_state) = "pending") /\
    (forall id r, w.(w_targets) !! id = Some r -> r.(tr_campaign_id) = c -> r.(tr_state) = "pending" ->
       id ∈ (t_ID <$> ts) \/ Z.of_nat (length ts) = batch_size).
Proof.
  intros Hr. assert (0 < batch_size) as Hb by (unfold batch_size; destruct (_ <=? 0) eqn:?; zbool; lia).
  assert (CampaignTargetRepository_NextBatchForScheduling c cfg.(sc_MaxBatchSize) w =
    CampaignTargetRepository_NextBatchForScheduling c batch_size w) as ->.
  { unfold CampaignTargetRepository_NextBatchForScheduling, batch_size. by destruct (_ <=? 0) eqn:E; [|rewrite E]. }
  destruct (CampaignTargetRepository_NextBatchForScheduling c batch_size w) as [w' [ts|e]] eqn:Hrun.
  - pose proof (next_batch_oldest_pending _ _ _ _ _ Hb Hrun) as (-> & Hnd & Hlen & Hin & Hall).
    exists ts. split_and!; [done..|]. intros id r Hl Hc Hp. destruct (Hall id r Hl Hc Hp) as [|[]]; auto.
  - exfalso. unfold CampaignTargetRepository_NextBatchForScheduling in Hrun.
    rewrite !run_on_err, external_reliable in Hrun by done. done.
Qed.

(** What scheduling an open campaign does, step by step. *)
Lemma schedule_campaign_run (t : Time) (c : Campaign) (w : World) :
  reliable -> isWithinBusinessHours t c = true ->
  exists ts called failed ds recs w',
    CampaignTargetRepository_NextBatchForScheduling c.(c_ID) cfg.(sc_MaxBatchSize) w = (bump w, Ok ts) /\
    schedule_campaign cfg s t c w = (w', Ok ()) /\
    called `sublist_of` ts /\ (t_ID <$> called) ++ failed ≡ₚ t_ID <$> ts /\
    (forall id r, w.(w_targets) !! id = Some r -> exists r', w'.(w_targets) !! id = Some r' /\
       r'.(tr_campaign_id) = r.(tr_campaign_id) /\ r'.(tr_phone_number) = r.(tr_phone_number) /\
       r'.(tr_state) = if bool_decide (id ∈ (t_ID <$> called)) then "queued" else r.(tr_state)) /\
    (forall id, w.(w_targets) !! id = None -> w'.(w_targets) !! id = None) /\
    w'.(w_log) = w.(w_log) ++ recs /\ Forall2 written ds recs /\
    Forall2 (fun t => first_call c.(c_ID) t.(t_PhoneNumber)) called ds /\
    (ts <> [] -> exists at_ w4, trigger_targets s c.(c_ID) ts
       (update_targets c.(c_ID) (t_ID <$> ts) (with_schedule at_) (bump (bump (bump w)))) = (w4, Ok failed) /\
       w'.(w_stats) = w4.(w_stats)) /\
    (ts = [] -> w'.(w_stats) = w.(w_stats)).
Proof.
  intros Hr Hopen. unfold schedule_campaign, call_batch. rewrite Hopen. cbn [negb].
  destruct (next_batch_reliable c.(c_ID) w Hr) as (batch & Hrun & Hnd & _ & Hb & _).
  rewrite (bind_step _ _ w (bump w) (Ok batch)) by (by rewrite run_attempt, Hrun).
  destruct batch as [|x xs] eqn:Eb.
  { exists [], [], [], [], [], (bump w). split_and!; try done.
    - intros id r Hl. exists r. split_and!; [by destruct w|done..].
    - by destruct w.
    - rewrite app_nil_r. by destruct w.
    - by destruct w. }
  rewrite <- Eb in *. assert (batch <> []) as Hne by (by rewrite Eb). clear Eb x xs. cbv zeta.
  rewrite (bind_step now _ _ _ _ eq_refl).
  set (t0 := env_now _). set (w2 := bump (bump w)).
  erewrite bind_step; [|rewrite run_attempt, mark_scheduled_reliable by (done || by destruct batch); reflexivity].
  set (w3 := update_targets _ _ _ _). set (ids := t_ID <$> batch). cbn [fst snd].
  destruct (trigger_targets_run c.(c_ID) batch w3 Hr)
    as (w4 & called & failed & ds & recs & Htrig & Ht4 & Hl4 & Hw & Hf & Hsub & Hperm).
  rewrite (bind_step _ _ _ _ _ Htrig).
  destruct (set_state_reliable c.(c_ID) failed "pending" w4 Hr) as (w5 & Hset & Hl5 & Hst5 & Ht5).
  assert (match failed with [] => mret () | _ => ignore
    (CampaignTargetRepository_SetState c.(c_ID) failed "pending") end w4 = (w5, Ok ())) as ->.
  { destruct failed as [|y ys]; [injection Hset as ->; done|]. rewrite run_ignore. by rewrite Hset. }
  exists batch, called, failed, ds, recs, w5. split_and!; try done.
  - intros id r Hl. rewrite Ht5, Ht4. unfold w3. rewrite update_targets_lookup.
    replace (w_targets (bump w2)) with w.(w_targets) by (by destruct w). rewrite Hl. simpl.
    eexists. split; [reflexivity|]. fold ids.
    assert (id ∈ ids -> r.(tr_campaign_id) = c.(c_ID) /\ r.(tr_state) = "pending") as Hcamp.
    { intros Hin. apply list_elem_of_fmap in Hin as (y & -> & Hy).
      destruct (Hb y Hy) as (r' & Hl' & _ & Hc' & Hp'). by simplify_eq. }
    pose proof Hnd as Hnd'. rewrite <- Hperm in Hnd'. apply NoDup_app in Hnd' as (_ & Hdis & _).
    assert (id ∈ ids <-> id ∈ (t_ID <$> called) \/ id ∈ failed) as Hids by (unfold ids; by rewrite <- Hperm, elem_of_app).
    destruct (decide (id ∈ ids)) as [Hin|Hni].
    + destruct (Hcamp Hin) as [Hc Hp]. rewrite (bool_decide_true (r.(tr_campaign_id) = _)), (bool_decide_true (id ∈ ids)) by done.
      simpl. rewrite (bool_decide_true (r.(tr_campaign_id) = _)) by done. apply Hids in Hin as [Hin|Hin].
      * rewrite (bool_decide_true (id ∈ (t_ID <$> called))), (bool_decide_false (id ∈ failed)) by auto. done.
      * rewrite (bool_decide_false (id ∈ (t_ID <$> called))), (bool_decide_true (id ∈ failed)) by naive_solver. done.
    + assert (id ∉ failed /\ id ∉ (t_ID <$> called)) as [] by naive_solver.
      rewrite !(bool_decide_false (id ∈ _)) by done. by rewrite !andb_false_r.
  - intros id Hl. rewrite Ht5, Ht4. unfold w3. rewrite update_targets_lookup.
    replace (w_targets (bump w2)) with w.(w_targets) by (by destruct w). by rewrite Hl.
  - rewrite Hl5, Hl4. unfold w3, w2. by destruct w.
  - intros _. by exists t0, w4.
Qed.

(** Claim C16: when requests are answered, every target a tick takes for a
    campaign was pending, is taken once, and is either called or not: exactly one
    message is published for each that is called, a first attempt to its number,
    and no others; those that are called are then queued, the others pending
    again, and no other target changes state. *)
Theorem scheduled_targets_fate (t : Time) (c : Campaign) (w : World) :
  reliable -> isWithinBusinessHours t c = true ->
  exists called failed ds recs,
    let w' := (schedule_campaign cfg s t c w).1 in
    NoDup (called ++ failed) /\
    (forall id, id ∈ called ++ failed -> exists r, w.(w_targets) !! id = Some r /\
       r.(tr_campaign_id) = c.(c_ID) /\ r.(tr_state) = "pending") /\
    (forall id r, w.(w_targets) !! id = Some r -> exists r', w'.(w_targets) !! id = Some r' /\
       r'.(tr_campaign_id) = r.(tr_campaign_id) /\ r'.(tr_phone_number) = r.(tr_phone_number) /\
       r'.(tr_state) = if bool_decide (id ∈ called) then "queued" else r.(tr_state)) /\
    w'.(w_log) = w.(w_log) ++ recs /\ Forall2 written ds recs /\
    Forall2 (fun id d => exists r, w.(w_targets) !! id = Some r /\
      first_call c.(c_ID) r.(tr_phone_number) d) called ds.
Proof.
  intros Hr Hopen.
  destruct (schedule_campaign_run t c w Hr Hopen)
    as (ts & called & failed & ds & recs & w' & Hnext & -> & Hsub & Hperm & Hfate & _ & Hlog & Hw & Hf & _).
  destruct (next_batch_reliable c.(c_ID) w Hr) as (ts' & Hnext' & Hnd & _ & Hb & _).
  rewrite Hnext' in Hnext. simplify_eq. exists (t_ID <$> called), failed, ds, recs. cbn [fst].
  split_and!; try done.
  - by rewrite Hperm.
  - intros id Hin. rewrite Hperm in Hin. apply list_elem_of_fmap in Hin as (y & -> & Hy).
    destruct (Hb y Hy) as (r & ? & _ & ? & ?). eauto.
  - apply Forall2_fmap_l. apply Forall2_same_length_lookup_2; [by eapply Forall2_length|].
    intros i y d Hy Hd. apply list_elem_of_lookup_2 in Hy as Hin.
    destruct (Hb y (sublist_subseteq _ _ Hsub _ Hin)) as (r & Hl & Hm & _). exists r. split; [done|].
    pose proof (Forall2_lookup_lr _ _ _ _ _ _ Hf Hy Hd) as Hcall. cbn in Hcall. by rewrite Hm in Hcall.
Qed.
End Targets.

(** ** Witnesses *)

#[local] Existing Instances quiet_env bit_uuid stable_sort_order unary_pages json_bodies.
#[local] Instance witness_provider : Provider := mock_PlaceCall.

Definition dial_world : World :=
  (serve (api default_config) EStartCampaign (to_api (bit_uuid_text 2) JNull) one_target_world).1.

Lemma tick_dials_witness :
  let t := env_now (hasPendingRetries (co default_config).(co_scheduler).(sc_RetryTopics) dial_world).1.(w_tick) in
  exists d c, (exists m, marshal_dispatch d = Some m.(km_Value) /\
      ((co default_config).(co_calls).(cs_dispatchTopic), m) ∈
        (tick (co default_config).(co_scheduler) (co default_config).(co_calls) dial_world).1.(w_log)) /\
    d.(dm_Attempt) = 1 /\ stored_campaign dial_world c /\ c.(c_ID) = d.(dm_CampaignID) /\
    isWithinBusinessHours t c = true.
Proof.
  intros t. set (w' := (tick _ _ dial_world).1).
  assert (length w'.(w_log) = 1%nat /\ dial_world.(w_log) = []) as [Hlen Hold] by (split; vm_compute; reflexivity).
  destruct w'.(w_log) as [|x l] eqn:Hl; [discriminate Hlen|].
  destruct (tick_dials_open_campaigns (co default_config).(co_scheduler) (co default_config).(co_calls) dial_world x)
    as [Hin|(d & m & -> & Hm & Ha & c & Hc & Hid & _ & Ho)].
  - fold w'. rewrite Hl. by left.
  - rewrite Hold in Hin. exact (match not_elem_of_nil x Hin with end).
  - exists d, c. split; [exists m; split; [exact Hm|apply list_elem_of_here]|].
    exact (conj Ha (conj Hc (conj Hid Ho))).
Defined.

Lemma scheduled_targets_witness :
  let c := hours_campaign "UTC" [] in
  exists (called failed : list uuid) ds recs, NoDup (called ++ failed) /\ Forall2 (written sample_service) ds recs /\
    (schedule_campaign (mkSchedulerSettings 4 50 []) sample_service 0 c sample_calls_db).1.(w_log) = recs.
Proof.
  intros c.
  destruct (scheduled_targets_fate (mkSchedulerSettings 4 50 []) sample_service 0 c sample_calls_db
    quiet_reliable eq_refl) as (called & failed & ds & recs & Hnd & _ & _ & Hlog & Hw & _).
  exists called, failed, ds, recs. split; [exact Hnd|]. split; [exact Hw|exact Hlog].
Defined.
