(* ===== verification/Pipeline.v ===== *)
(** The life of a call through the topics: every message of every reachable
    state speaks of a registered target and a stored call, and how many attempts a
    call gets. *)
From S2P Require Import Prelude Errors GoTime Json Domain Messages World Postgres PostgresInv.
From S2P Require Import PostgresSpec Scylla Queue Limiter CampaignService CallService CallLists.
From S2P Require Import Requests Handlers Scheduler CallWorker StatusWorker RetryWorker Effects.
From S2P Require Import Interleaving Integrity Config Container System SchedulerProofs.

(** What Go's types say of the values the model takes as integers: the
    configured limit is an int, the duration a provider reports an int64. *)
Definition typed_inputs `{Provider} (cfg : Config) : Prop :=
  in_int64 cfg.(cfg_Throttle).(th_DefaultPerCampaign) /\
  forall d rc, may_return (PlaceCall d) rc -> in_int64 rc.1.(res_Duration).

Section Pipeline.
Context `{Env} `{PgOrder} `{UuidText} `{Gocql} `{Fiber} `{Provider} (cfg : Config).

(** What a message relies on: the number it speaks of is registered, and the call
    has a row. *)
Definition stored_call (w : World) (c id : uuid) : Prop :=
  exists bucket row, w.(w_calls) !! (c, bucket, id) = Some row.
Definition grounded (w : World) (c : uuid) (p : string) (id : uuid) : Prop :=
  registered w c p /\ stored_call w c id.

(** What is true of the messages of each kind. *)
Definition dispatch_ok (w : World) (d : DispatchMessage) : Prop :=
  grounded w d.(dm_CampaignID) d.(dm_PhoneNumber) d.(dm_CallID) /\
  (d.(dm_Attempt) = 1 \/ (d.(dm_Attempt) = 2 /\ d.(dm_MaxAttempts) = 0)) /\
  (typed_inputs cfg -> dispatch_wf d).

Definition status_ok (w : World) (s : StatusMessage) : Prop :=
  grounded w s.(sm_CampaignID) s.(sm_PhoneNumber) s.(sm_CallID) /\
  (s.(sm_Attempt) = 1 \/ (s.(sm_Attempt) = 2 /\ s.(sm_Retryable) = false)) /\
  (typed_inputs cfg -> status_wf s).

Definition retry_ok (w : World) (r : RetryMessage) : Prop :=
  let d := r.(rm_DispatchMessage) in
  grounded w d.(dm_CampaignID) d.(dm_PhoneNumber) d.(dm_CallID) /\
  d.(dm_Attempt) = 2 /\ (typed_inputs cfg -> retry_wf r).

Definition message_ok (w : World) (topic : string) (m : KafkaMessage) : Prop :=
  (topic = cfg.(cfg_Kafka).(kc_CallTopic) ->
     exists d, marshal_dispatch d = Some m.(km_Value) /\ dispatch_ok w d) /\
  (topic = cfg.(cfg_Kafka).(kc_StatusTopic) ->
     exists s, marshal_status s = Some m.(km_Value) /\ status_ok w s) /\
  (topic ∈ cfg.(cfg_Kafka).(kc_RetryTopics) ->
     exists r, marshal_retry r = Some m.(km_Value) /\ retry_ok w r).

(** The invariant, together with what a handler relies on. *)
Definition remembers (known : option (uuid * string * option uuid)) (w : World) : Prop :=
  match known with
  | None => True
  | Some (c, p, None) => registered w c p
  | Some (c, p, Some id) => grounded w c p id
  end.
Definition log_ok (known : option (uuid * string * option uuid)) (w : World) : Prop :=
  (forall topic m, (topic, m) ∈ w.(w_log) -> message_ok w topic m) /\ remembers known w.

(** *** Registrations and the rows of calls only grow *)
Definition knows : relation World := fun w w' =>
  (forall c p, registered w c p -> registered w' c p) /\
  (forall c id, stored_call w c id -> stored_call w' c id).

Lemma knows_grounded w w' c p id : knows w w' -> grounded w c p id -> grounded w' c p id.
Proof. intros [Hr Hs] []. split; auto. Qed.

Lemma knows_remembers k w w' : knows w w' -> remembers k w -> remembers k w'.
Proof.
  intros Hk. destruct k as [[[c p] [id|]]|]; [by apply knows_grounded|apply Hk|done].
Qed.

#[local] Instance knows_preorder : PreOrder knows.
Proof. split; [by split|]. intros w1 w2 w3 [] []. split; auto. Qed.

Lemma message_ok_mono w w' topic m : knows w w' -> message_ok w topic m -> message_ok w' topic m.
Proof.
  intros Hk (Hd & Hs & Hy). pose proof (fun c p id => knows_grounded w w' c p id Hk) as Hg.
  unfold message_ok, dispatch_ok, status_ok, retry_ok in *.
  split_and!; intros Ht.
  - destruct (Hd Ht) as (d & ? & ? & ?). eauto 6.
  - destruct (Hs Ht) as (d & ? & ? & ?). eauto 6.
  - destruct (Hy Ht) as (d & ? & ? & ?). eauto 6.
Qed.

(** Nothing is published, and nothing is forgotten. *)
Definition quiet : relation World := meet (keeps w_log) knows.

Lemma quiet_same w w' :
  (w'.(w_log), w'.(w_targets), w'.(w_calls)) = (w.(w_log), w.(w_targets), w.(w_calls)) -> quiet w w'.
Proof.
  intros [= Hl Ht Hc]. split; [exact Hl|]. split; [intros c p; by apply registered_same|].
  intros c id. unfold stored_call. by rewrite Hc.
Qed.

Lemma quiet_targets w w' :
  w'.(w_log) = w.(w_log) -> w'.(w_calls) = w.(w_calls) ->
  (forall c p, registered w c p -> registered w' c p) -> quiet w w'.
Proof.
  intros Hl Hc Hr. split; [exact Hl|]. split; [done|]. intros c id. unfold stored_call. by rewrite Hc.
Qed.

#[local] Instance quiet_preorder : PreOrder quiet.
Proof. apply meet_preorder; apply _. Qed.
#[local] Instance quiet_run : CanRun quiet.
Proof. apply (watch_run _ _ quiet_same); [apply _|unseen]. Qed.
#[local] Instance quiet_campaigns : CanWriteCampaigns quiet.
Proof. apply (watch_campaigns _ _ quiet_same); [apply _|unseen]. Qed.
#[local] Instance quiet_hours : CanWriteHours quiet.
Proof.
  apply watch_hours. intros w w' Ht Hs. unfold other_tables, other_stores in *. apply quiet_same. congruence.
Qed.
#[local] Instance quiet_insert_targets : CanInsertTargets quiet.
Proof.
  intros c ts w w' a. unfold insert_targets. intros Hi. case_match; simplify_eq.
  destruct w. apply quiet_targets; [done..|]. intros c' p (id & r & Hl & Hr).
  exists id, r. split; [|done]. by apply foldl_insert_target_mono.
Qed.
#[local] Instance quiet_update_targets : CanUpdateTargets quiet.
Proof. split; intros; (apply quiet_targets; [by destruct w..|]; intros ??; by apply registered_update). Qed.
#[local] Instance quiet_ensure : CanEnsureStats quiet.
Proof. apply (watch_ensure _ _ quiet_same); [apply _|unseen]. Qed.
#[local] Instance quiet_delta : CanApplyDelta quiet.
Proof. apply (watch_delta _ _ quiet_same); [apply _|unseen]. Qed.
#[local] Instance quiet_calls : CanWriteCalls quiet.
Proof.
  split; [|by intros v []; apply quiet_same]. intros key row w. split; [by destruct w|]. split.
  - intros c p. apply registered_same. by destruct w.
  - intros c id (bucket & row' & Hl). exists bucket. destruct w; simpl in *.
    destruct (decide (key = (c, bucket, id))) as [->|Hne];
      [rewrite lookup_insert_eq|rewrite lookup_insert_ne by done]; by eexists.
Qed.
#[local] Instance quiet_attempts : CanWriteAttempts quiet.
Proof. apply (watch_attempts _ _ quiet_same); unseen. Qed.
#[local] Instance quiet_redis : CanWriteRedis quiet.
Proof. apply (watch_redis _ _ quiet_same); unseen. Qed.
#[local] Instance quiet_commit : CanCommit quiet.
Proof. apply (watch_commit _ _ quiet_same); unseen. Qed.

(** So the invariant tolerates every write but that of a record. *)
Lemma quiet_log_ok known w w' : quiet w w' -> inv (log_ok known) w w'.
Proof.
  intros [Hl Hk] [Hm Hr]. split.
  - intros topic m. rewrite Hl. intros Hin. by eapply message_ok_mono; [|apply Hm].
  - by eapply knows_remembers.
Qed.

(** What a handler that relies on [known] does, and does without publishing. *)
Definition tells (known : option (uuid * string * option uuid)) : relation World :=
  meet (inv (log_ok known)) (meet (inv pg_ok) knows).

Lemma quiet_tells known w w' : meet quiet (inv pg_ok) w w' -> tells known w w'.
Proof. intros [Hq Hp]. split; [by apply quiet_log_ok|]. by split; [|apply Hq]. Qed.

#[local] Instance tells_preorder k : PreOrder (tells k).
Proof. apply meet_preorder; [apply _|]. apply meet_preorder; apply _. Qed.
#[local] Instance tells_run k : CanRun (tells k) := weaker_run _ _ (quiet_tells k) _.
#[local] Instance tells_campaigns k : CanWriteCampaigns (tells k) := weaker_campaigns _ _ (quiet_tells k) _.
#[local] Instance tells_hours k : CanWriteHours (tells k) := weaker_hours _ _ (quiet_tells k) _.
#[local] Instance tells_insert k : CanInsertTargets (tells k) := weaker_insert_targets _ _ (quiet_tells k) _.
#[local] Instance tells_update k : CanUpdateTargets (tells k) := weaker_update_targets _ _ (quiet_tells k) _.
#[local] Instance tells_ensure k : CanEnsureStats (tells k) := weaker_ensure _ _ (quiet_tells k) _.
#[local] Instance tells_delta k : CanApplyDelta (tells k) := weaker_delta _ _ (quiet_tells k) _.
#[local] Instance tells_calls k : CanWriteCalls (tells k) := weaker_calls _ _ (quiet_tells k) _.
#[local] Instance tells_attempts k : CanWriteAttempts (tells k) := weaker_attempts _ _ (quiet_tells k) _.
#[local] Instance tells_redis k : CanWriteRedis (tells k) := weaker_redis _ _ (quiet_tells k) _.
#[local] Instance tells_commit k : CanCommit (tells k) := weaker_commit _ _ (quiet_tells k) _.

(** ** Publishing *)

Lemma knows_publish t m w : knows w (set_log (w.(w_log) ++ [(t, m)]) w).
Proof. destruct w. by split. Qed.

Lemma log_write k topic m :
  (forall w, log_ok k w -> message_ok w topic m) -> stable (tells k) (WriteMessages topic m).
Proof.
  intros Hm. apply stable_write; [apply _|apply can_bump|].
  intros w. unfold append_record. pose proof (knows_publish topic m w) as Hk.
  split; [|split; [apply can_publish|done]]. intros Hw. specialize (Hm w Hw). destruct Hw as [Hlog Hr].
  split; [|by eapply knows_remembers].
  intros t' m' Hin. eapply message_ok_mono; [exact Hk|]. destruct w; simpl in *.
  apply elem_of_app in Hin as [Hin|Hin]; [by apply Hlog|].
  apply list_elem_of_singleton in Hin. by simplify_eq.
Qed.
Context (Htopics : topics_distinct cfg.(cfg_Kafka)).

Lemma topics_differ :
  cfg.(cfg_Kafka).(kc_CallTopic) <> cfg.(cfg_Kafka).(kc_StatusTopic) /\
  cfg.(cfg_Kafka).(kc_CallTopic) ∉ cfg.(cfg_Kafka).(kc_RetryTopics) /\
  cfg.(cfg_Kafka).(kc_StatusTopic) ∉ cfg.(cfg_Kafka).(kc_RetryTopics).
Proof using Htopics.
  unfold topics_distinct in Htopics. rewrite !NoDup_cons in Htopics. set_solver.
Qed.

Lemma log_dispatch k d :
  (forall w, log_ok k w -> dispatch_ok w d) ->
  stable (tells k) (DispatchCall cfg.(cfg_Kafka).(kc_CallTopic) d).
Proof using Htopics.
  intros Hd. unfold DispatchCall, marshalled. destruct (marshal_dispatch d) eqn:Em; effects.
  apply log_write. intros w Hw. destruct topics_differ as (? & ? & ?).
  split_and!; intros; [eauto|done|done].
Qed.

Lemma log_publish k s :
  (forall w, log_ok k w -> status_ok w s) ->
  stable (tells k) (PublishStatus cfg.(cfg_Kafka).(kc_StatusTopic) s).
Proof using Htopics.
  intros Hd. unfold PublishStatus, marshalled. destruct (marshal_status s) eqn:Em; effects.
  apply log_write. intros w Hw. destruct topics_differ as (? & ? & ?).
  split_and!; intros; [by destruct topics_differ as (? & _)|eauto|done].
Qed.

Lemma log_schedule k n r :
  (forall w, log_ok k w -> retry_ok w r) ->
  stable (tells k) (ScheduleRetry cfg.(cfg_Kafka).(kc_RetryTopics) n r).
Proof using Htopics.
  intros Hd. unfold ScheduleRetry, marshalled. destruct topics_differ as (? & ? & ?).
  destruct (marshal_retry r) eqn:Em; destruct (_ || _); effects.
  apply log_write. intros w Hw.
  match goal with El : _ !! _ = Some _ |- _ => apply list_elem_of_lookup_2 in El end.
  split_and!; intros; [by subst|by subst|eauto].
Qed.

(** ** The protocol of the messages

    Everyone keeps the messages and the tables as they should be, and the
    registrations that were made. *)
Definition messages_ok (w : World) : Prop := log_ok None w /\ pg_ok w.

Lemma tells_messages w w' : tells None w w' -> meet (inv messages_ok) knows w w'.
Proof. intros (Hl & Hp & Hk). split; [|done]. intros []. by split; [apply Hl|apply Hp]. Qed.

Lemma messages_ok_bump w : messages_ok w -> messages_ok (bump w).
Proof. apply (tells_messages w (bump w)), (can_bump (R := tells None)). Qed.

#[local] Instance messages : Protocol unit :=
  plain (meet (inv messages_ok) knows) messages_ok (fun w w' Hw Hi => proj1 Hw Hi)
    (fun w => tells_messages _ _ (can_bump (R := tells None) w)).

(** What was seen, is there to stay. *)
Lemma remembers_lasting k : lasting (remembers k).
Proof. intros w w' [_ Hk]. by apply knows_remembers. Qed.

Lemma tells_under k w w' : tells k w w' -> under (remembers k) tt w w'.
Proof.
  intros (Hl & Hp & Hkn) Hr [Hlog Hpg] _. split; [|done].
  intros _. split; [|by apply Hp]. by destruct (Hl (conj (proj1 Hlog) Hr)).
Qed.

Lemma obeys_knowing {A} k (m : M A) w :
  remembers k w -> stable (tells k) m -> obeys m (fun _ _ => remembers k) tt w.
Proof.
  intros Hk Hm. eapply obeys_mono; [|apply (obeys_under (remembers k) m tt w (remembers_lasting k) Hk)].
  { by intros ? [] ? []. }
  eapply stable_mono; [exact Hm|apply tells_under].
Qed.

Lemma obeys_tells {A} k (m : M A) w :
  remembers k w -> stable (tells k) m -> obeys m (fun _ _ _ => True) no_token w.
Proof. intros Hk Hm. by eapply obeys_mono; [|by apply (obeys_knowing k)]. Qed.

(** A write that went through has done what it does. *)
Lemma obeys_write {A} k (f : World -> result error (World * A)) Q w :
  remembers k w -> (forall w1 w2 a, f w1 = Ok (w2, a) -> tells k w1 w2) ->
  (forall w1 w2 a, f w1 = Ok (w2, a) -> remembers k w2 -> Q (Ok a) tt w2) ->
  (forall w' e, Q (Err e) tt w') -> obeys (external f) Q tt w.
Proof.
  intros Hk Hf HQ He. apply obeys_atomic. intros w1 Hw1 Hi _. exists tt.
  assert (remembers k w1) as Hk1 by by eapply remembers_lasting.
  assert (tells k w1 (execute f w1).1) as Ht by (by apply execute_respects; [apply _|apply can_bump|]).
  pose proof (tells_under k _ _ Ht Hk1 Hi I) as Hp. split; [exact Hp|].
  assert (remembers k (execute f w1).1) as Hk2 by (eapply remembers_lasting; [exact Hp|done]).
  unfold execute in *. destruct (env_outcome _); [|apply He|]; destruct (f (bump w1)) as [[w2 a]|e] eqn:E; try apply He.
  by eapply HQ.
Qed.

Lemma safe_tells {A} (m : M A) : stable (tells None) m -> safe m.
Proof. intros Hm w. by apply (obeys_tells None). Qed.

(** ** TriggerCall: only registered numbers are dispatched *)

Lemma obeys_get_campaign id w Q :
  (forall w' r, extends w w' -> campaign_row_valid r.(cr_ID) r -> Q (Ok (toDomain r)) tt w') ->
  (forall w' e, Q (Err e) tt w') -> obeys (CampaignRepository_Get id) Q tt w.
Proof.
  intros HQ He. unfold CampaignRepository_Get. apply obeys_bind, obeys_map_result, obeys_read.
  intros w' Hw' [_ Hpg] _. cbn. split; [|intros; apply He].
  destruct (w_campaigns w' !! id) as [r|] eqn:Hl; [|apply He]. apply HQ; [done|].
  destruct (ok_campaign w' Hpg _ _ Hl) as (? & ?). by split.
Qed.

Lemma obeys_validate c p w Q :
  (forall w', extends w w' -> registered w' c p -> Q (Ok ()) tt w') -> (forall w' e, Q (Err e) tt w') ->
  obeys (validatePhoneInCampaignTargets c p) Q tt w.
Proof.
  intros HQ He. unfold validatePhoneInCampaignTargets, CampaignTargetRepository_ListByCampaign.
  apply obeys_bind. do 2 apply obeys_map_result. apply obeys_read. intros w' Hw' _ _. cbn. split; [|intros; apply He].
  destruct (select_targets _ _ _ _) as [|t ts] eqn:Es; [apply He|].
  destruct (existsb _ _) eqn:Ee; [|apply He]. apply HQ; [done|].
  apply existsb_exists in Ee as (t' & Hin & Hp). apply bool_decide_eq_true_1 in Hp as <-.
  apply list_elem_of_In in Hin. rewrite <- Es in Hin. by apply select_targets_registered in Hin.
Qed.

(** The message of a stored campaign's call fits its Go types. *)
Lemma first_dispatch_wf call r s i t limit :
  campaign_row_valid r.(cr_ID) r -> in_int64 s.(cs_defaultConcurrency) ->
  limit = (if 0 <? r.(cr_MaxConcurrentCalls) then r.(cr_MaxConcurrentCalls) else s.(cs_defaultConcurrency)) ->
  dispatch_wf (first_dispatch call (toDomain r).(c_RetryPolicy) limit i t).
Proof.
  intros (_ & Hc & Ha) Hs ->. unfold dispatch_wf, first_dispatch. simpl.
  pose proof (wrap64_range (r.(cr_RetryBaseDelayMs) * Millisecond)) as Hb.
  pose proof (wrap64_range (r.(cr_RetryMaxDelayMs) * Millisecond)) as Hm.
  fold (of_ms r.(cr_RetryBaseDelayMs)) in Hb. fold (of_ms r.(cr_RetryMaxDelayMs)) in Hm.
  assert (forall d, in_int64 d -> in_int64 (Milliseconds d)) as Hms.
  { intros d Hd. unfold Milliseconds, in_int64, min_int64, max_int64, Millisecond in *.
    pose proof (Z.quot_rem' d 1000000). pose proof (Z.rem_bound_abs d 1000000). lia. }
  assert (forall z, 0 <= z <= 2 ^ 31 - 1 -> in_int64 z) as H32
    by (intros z Hz; unfold in_int64, min_int64, max_int64; lia).
  split_and!; [by apply H32|by apply H32|by apply Hms|by apply Hms|].
  destruct (0 <? _); [apply H32; lia|done].
Qed.

(** A call that was created has its row. *)
Lemma obeys_create_call c w Q :
  remembers (Some (c.(call_CampaignID), c.(call_PhoneNumber), None)) w ->
  (forall w', remembers (Some (c.(call_CampaignID), c.(call_PhoneNumber), Some c.(call_ID))) w' ->
     Q (Ok ()) tt w') ->
  (forall w' e, Q (Err e) tt w') -> obeys (CallStore_CreateCall c) Q tt w.
Proof.
  intros Hreg HQ He. unfold CallStore_CreateCall. apply obeys_bind, obeys_map_result.
  eapply obeys_write; [exact Hreg|..].
  - intros w1 w2 a. effect_leaf.
  - intros w1 w2 [] Hw2 Hr. cbn [map_err]. apply obeys_map_result.
    apply (obeys_write (Some (c.(call_CampaignID), c.(call_PhoneNumber), Some c.(call_ID)))); [split; [exact Hr|]|..].
    + unfold cql_int in Hw2. case_hyp Hw2; [|done]. simplify_eq. destruct w1.
      eexists _, _. apply lookup_insert_eq.
    + intros w3 w4 a. effect_leaf.
    + intros w3 w4 [] _. apply HQ.
    + intros w' e. apply He.
  - intros w' e. apply He.
Qed.

(** A call is stored before its message is sent. *)
Lemma safe_trigger i : safe (TriggerCall (co cfg).(co_calls) i).
Proof using Htopics.
  intros w. unfold TriggerCall. case_bool_decide; [done|]. cbv zeta.
  apply obeys_bind, obeys_map_result, obeys_get_campaign; [|done]. intros w1 r _ Hvalid. cbn [map_err].
  apply obeys_bind, obeys_validate; [|done]. intros w2 _ Hreg.
  set (seen := Some (i.(tc_CampaignID), i.(tc_PhoneNumber), @None uuid)).
  apply obeys_bind. eapply obeys_mono; [|apply (obeys_knowing seen _ w2 Hreg), stable_now, can_bump].
  intros [stamp|e] [] w3 Hw3; [|done]. apply obeys_bind.
  eapply obeys_mono; [|apply (obeys_knowing seen _ w3 Hw3), stable_uuid_New, can_bump].
  intros [id|e] [] w4 Hw4; [|done].
  apply obeys_bind, obeys_map_result, (obeys_create_call (new_call id i stamp)); [exact Hw4| |done].
  intros w5 Hw5. cbn [map_err].
  eapply (obeys_tells _ _ _ Hw5). set (known := Some _).
  assert (stable (tells known) (DispatchCall cfg.(cfg_Kafka).(kc_CallTopic)
    (first_dispatch (new_call id i stamp) (c_RetryPolicy (toDomain r))
       (call_limit (co cfg).(co_calls) r) i stamp))) as Hd.
  { apply log_dispatch. intros w' [_ Hk]. split_and!; [done|auto|].
    intros [Hdef _]; apply (first_dispatch_wf _ _ (co cfg).(co_calls)); done. }
  effects; exact Hd.
Qed.

(** ** The workers pass on what they were given *)

Lemma status_of_fields d res err t :
  let s := status_of d res err t in
  s.(sm_CampaignID) = d.(dm_CampaignID) /\ s.(sm_PhoneNumber) = d.(dm_PhoneNumber) /\
  s.(sm_CallID) = d.(dm_CallID) /\ s.(sm_Attempt) = d.(dm_Attempt) /\
  (s.(sm_Retryable) = true -> d.(dm_Attempt) < d.(dm_MaxAttempts)).
Proof.
  unfold status_of. destruct err as [e|]; [case_bool_decide|]; simpl; split_and!; try done;
    rewrite ?andb_true_iff, ?Z.ltb_lt; intros; by destruct_and?.
Qed.

Lemma with_next_attempt_fields t s :
  let s' := with_next_attempt t s in
  s'.(sm_CampaignID) = s.(sm_CampaignID) /\ s'.(sm_PhoneNumber) = s.(sm_PhoneNumber) /\
  s'.(sm_CallID) = s.(sm_CallID) /\ s'.(sm_Attempt) = s.(sm_Attempt) /\ s'.(sm_Retryable) = s.(sm_Retryable).
Proof. by destruct s. Qed.

Lemma status_of_wf d res err t next :
  dispatch_wf d -> in_int64 res.(res_Duration) -> status_wf (with_next_attempt next (status_of d res err t)).
Proof.
  intros (?&?&?&?&?) Hdur.
  assert (in_int64 (if 0 <? res.(res_Duration) then Z.quot res.(res_Duration) Millisecond else 0)) as Hms.
  { destruct (0 <? _) eqn:?; zbool; [|done]. unfold in_int64, min_int64, max_int64, Millisecond in *.
    rewrite Z.quot_div_nonneg by lia. pose proof (Z.div_lt_upper_bound res.(res_Duration) 1000000 (2 ^ 63)).
    pose proof (Z.div_pos res.(res_Duration) 1000000). lia. }
  unfold status_of. destruct err as [e|]; [case_bool_decide|]; by split_and!.
Qed.

(** The status of an attempt is as good as its dispatch message. *)
Lemma status_of_ok w d res err t next :
  dispatch_ok w d -> dispatch_wf d -> (typed_inputs cfg -> in_int64 res.(res_Duration)) ->
  status_ok w (with_next_attempt next (status_of d res err t)).
Proof.
  intros (Hreg & Ha & _) Hwf Hdur. unfold status_ok.
  pose proof (status_of_wf d res err t next Hwf) as Hswf.
  destruct (with_next_attempt_fields next (status_of d res err t)) as (-> & -> & -> & -> & ->).
  destruct (status_of_fields d res err t) as (-> & -> & -> & -> & Hr).
  split_and!; [done| |auto]. destruct Ha as [->|[Ha Hm]]; [auto|]. right. split; [done|].
  destruct (sm_Retryable _); [|done]. specialize (Hr eq_refl). lia.
Qed.

Context (Hprovider : provider_outside).

Lemma call_worker_obeys fuel m w :
  (cfg.(cfg_Kafka).(kc_CallTopic), m) ∈ w.(w_log) -> messages_ok w ->
  obeys (processMessage fuel (co cfg).(co_callWorker) m) (fun _ _ _ => True) no_token w.
Proof using Htopics Hprovider.
  intros Hin [Hlog _]. destruct (proj1 (proj1 Hlog _ _ Hin) eq_refl) as (d & Hd & Hok).
  set (known := Some (d.(dm_CampaignID), d.(dm_PhoneNumber), Some d.(dm_CallID))).
  apply (obeys_tells known); [apply Hok|].
  assert (forall d' m', unmarshal_dispatch m.(km_Value) = Some d' ->
    stable (tells known) (place_and_report (co cfg).(co_callWorker) d' m')) as Hplace.
  { intros d' m' Hu. pose proof (unmarshal_dispatch_wf _ _ _ Hd Hu) as Hwf.
    apply (unmarshal_dispatch_wire _ _ _ Hd) in Hu as ->.
    assert (forall res err t next, (typed_inputs cfg -> in_int64 res.(res_Duration)) ->
      stable (tells known) (PublishStatus
      cfg.(cfg_Kafka).(kc_StatusTopic) (with_next_attempt next (status_of d res err t)))) as Hpub.
    { intros. apply log_publish. intros w' [_ Hr]. apply status_of_ok; [split_and!; [done|apply Hok..]|done|done]. }
    pose proof (Hprovider (tells known) _) as Hp.
    unfold place_and_report, computeNextAttempt.
    apply stable_bind_yields; [apply _|apply Hp|]. intros rc Hrc.
    effects; apply Hpub; intros [_ Hdur]; by eapply Hdur. }
  unfold processMessage, waitForSlot. effects; by apply Hplace.
Qed.

Lemma retry_of_wf s next : status_wf s -> retry_wf (retry_of s next).
Proof. intros (?&?&?&?&?&?). split; [|done]. split_and!; try done. apply wrap64_range. Qed.

Lemma status_worker_obeys m w :
  (cfg.(cfg_Kafka).(kc_StatusTopic), m) ∈ w.(w_log) -> messages_ok w ->
  obeys (handle_status (co cfg).(co_statusWorker) m) (fun _ _ _ => True) no_token w.
Proof using Htopics.
  intros Hin [Hlog _]. destruct (proj1 (proj2 (proj1 Hlog _ _ Hin)) eq_refl) as (s & Hs & Hreg0 & Hatt & _).
  set (known := Some (s.(sm_CampaignID), s.(sm_PhoneNumber), Some s.(sm_CallID))).
  apply (obeys_tells known); [exact Hreg0|].
  unfold handle_status, record_status, count_status, schedule_retry.
  destruct (unmarshal_status _) as [s'|] eqn:Hu; [|effects].
  pose proof (unmarshal_status_wf _ _ _ Hs Hu) as Hwf.
  apply (unmarshal_status_wire _ _ _ Hs) in Hu as ->.
  assert (forall n next, s.(sm_Retryable) = true -> stable (tells known)
    (ScheduleRetry cfg.(cfg_Kafka).(kc_RetryTopics) n (retry_of s next))) as Hsched.
  { intros n next Hr. apply log_schedule. intros w' [_ Hreg]. split_and!; [done| |by intros; apply retry_of_wf].
    simpl. destruct Hatt as [->|[_ Hf]]; [done|congruence]. }
  effects; by apply Hsched.
Qed.

Lemma retry_worker_obeys i idx topic m w :
  cfg.(cfg_Kafka).(kc_RetryTopics) !! idx = Some topic -> (topic, m) ∈ w.(w_log) -> messages_ok w ->
  obeys (handle_retry (co cfg).(co_retryWorker) i m) (fun _ _ _ => True) no_token w.
Proof using Htopics.
  intros Hidx Hin [Hlog _]. apply list_elem_of_lookup_2 in Hidx.
  destruct (proj2 (proj2 (proj1 Hlog _ _ Hin)) Hidx) as (r & Hr & Hreg & Ha & Hwf).
  set (known := let d := r.(rm_DispatchMessage) in Some (d.(dm_CampaignID), d.(dm_PhoneNumber), Some d.(dm_CallID))).
  apply (obeys_tells known); [exact Hreg|].
  assert (forall t, stable (tells known) (DispatchCall cfg.(cfg_Kafka).(kc_CallTopic)
    (set_dm_EnqueuedAt t (over_the_wire r).(rm_DispatchMessage)))) as Hdisp.
  { intros t. apply log_dispatch. intros w' [_ Hreg']. clear -Hreg' Ha Hwf.
    destruct r as [[] ??]. split_and!; simpl in *; auto.
    intros Ht. destruct (Hwf Ht) as [(?&?&?&?&?) _]. by split_and!. }
  unfold handle_retry, sleepUntil.
  destruct (unmarshal_retry _) as [r'|] eqn:Hu; [|effects].
  apply (unmarshal_retry_wire _ _ _ Hr) in Hu as ->. effects; by apply Hdisp.
Qed.

Lemma starts_obeys w p : messages_ok w -> starts cfg w p -> obeys p (fun _ _ _ => True) no_token w.
Proof using Htopics Hprovider.
  intros Hw Hstart. assert (forall A (m : M A), stable (tells None) m -> safe m) as Hwrites by (intros; by apply safe_tells).
  destruct Hstart as [e ctx| |fuel m Hin|m Hin|idx topic m Hidx Hin]; eapply obeys_ignore.
  - apply (eff_serve_given (tells None) (fun A => safe) Hwrites (api cfg) safe_trigger e ctx).
  - apply (eff_tick_given (tells None) (fun A => safe) Hwrites (co cfg).(co_calls) safe_trigger).
  - by apply call_worker_obeys.
  - by apply status_worker_obeys.
  - by eapply retry_worker_obeys.
Qed.

Lemma started_messages_ok {A} (m : M A) w : starts cfg w (ignore m) -> messages_ok w -> messages_ok (m w).1.
Proof using Htopics Hprovider.
  intros Hm Hw. pose proof (starts_obeys w _ Hw Hm) as Ho.
  apply (obeys_alone (H := messages)) in Ho; [|done..]. by rewrite run_ignore in Ho.
Qed.

Lemma reachable_log_ok w : reachable cfg w -> messages_ok w.
Proof using Htopics Hprovider.
  intros [ts Hr]. destruct (steps_supervised (H := messages) (starts cfg) starts_obeys _ _ Hr) as [[Hw _] _]; [|exact Hw].
  apply (idle_supervised (H := messages)). split; [|apply pg_ok_empty]. split; [|done]. simpl. set_solver.
Qed.
End Pipeline.

(** ** Properties of the pipeline *)

Section PipelineProperties.
Context `{Env} `{PgOrder} `{UuidText} `{Gocql} `{Fiber} `{Provider} (cfg : Config).

(** Claim C1: in every state the platform can reach, however the requests of the
    API, the scheduler and the workers interleave, under any crash, fault and
    redelivery, a
    message on the call topic asks for a number that is a registered target of
    the campaign it names. *)
Theorem only_registered_numbers_are_dialled (w : World) (m : KafkaMessage) (d : DispatchMessage) :
  topics_distinct cfg.(cfg_Kafka) -> provider_outside -> reachable cfg w ->
  (cfg.(cfg_Kafka).(kc_CallTopic), m) ∈ w.(w_log) ->
  unmarshal_dispatch m.(km_Value) = Some d ->
  registered w d.(dm_CampaignID) d.(dm_PhoneNumber).
Proof.
  intros Ht Hp Hr Hin Hu. destruct (reachable_log_ok cfg Ht Hp w Hr) as [[Hok _] _].
  destruct (proj1 (Hok _ _ Hin) eq_refl) as (d' & Hm & [Hd _] & _).
  by rewrite (unmarshal_dispatch_wire _ _ _ Hm Hu).
Qed.

(** Claim C2: no attempt of a call beyond the second is ever asked for, whatever
    max_attempts the campaign's retry policy says: a message on the call topic is a
    first attempt, or a second one whose MaxAttempts was lost on the retry topic, so
    that no report of it can be retryable and its failure is final. (A record that
    is delivered again is placed again, with the same number of attempt.) *)
Theorem at_most_two_attempts (w : World) (m : KafkaMessage) (d : DispatchMessage) :
  topics_distinct cfg.(cfg_Kafka) -> provider_outside -> reachable cfg w ->
  (cfg.(cfg_Kafka).(kc_CallTopic), m) ∈ w.(w_log) ->
  unmarshal_dispatch m.(km_Value) = Some d ->
  d.(dm_Attempt) = 1 \/
  (d.(dm_Attempt) = 2 /\ d.(dm_MaxAttempts) = 0 /\
   forall res err t, (status_of d res err t).(sm_Retryable) = false).
Proof.
  intros Ht Hp Hr Hin Hu. destruct (reachable_log_ok cfg Ht Hp w Hr) as [[Hok _] _].
  destruct (proj1 (Hok _ _ Hin) eq_refl) as (d' & Hm & _ & Ha & _).
  rewrite (unmarshal_dispatch_wire _ _ _ Hm Hu).
  destruct Ha as [Ha|[Ha Hmax]]; [auto|]. right. split_and!; [done..|]. intros res err t.
  destruct (status_of_fields d' res err t) as (_ & _ & _ & _ & Hre).
  destruct (sm_Retryable _); [|done]. specialize (Hre eq_refl). lia.
Qed.

(** Claim C12: every record on a topic of the platform is of the topic's type: in
    every reachable state the documents on the call, status and retry topics
    decode as dispatch, status and retry messages, so that no worker ever drops a
    record because it cannot read it. *)
Theorem every_message_decodes (w : World) (topic : string) (m : KafkaMessage) :
  typed_inputs cfg -> topics_distinct cfg.(cfg_Kafka) -> provider_outside -> reachable cfg w ->
  (topic, m) ∈ w.(w_log) ->
  (topic = cfg.(cfg_Kafka).(kc_CallTopic) -> is_Some (unmarshal_dispatch m.(km_Value))) /\
  (topic = cfg.(cfg_Kafka).(kc_StatusTopic) -> is_Some (unmarshal_status m.(km_Value))) /\
  (topic ∈ cfg.(cfg_Kafka).(kc_RetryTopics) -> is_Some (unmarshal_retry m.(km_Value))).
Proof.
  intros Hty Ht Hp Hr Hin. destruct (reachable_log_ok cfg Ht Hp w Hr) as [[Hok _] _].
  destruct (Hok _ _ Hin) as (Hd & Hs & Hy). split_and!; intros Hin'.
  - destruct (Hd Hin') as (d & Hm & _ & _ & Hwf). exists d. by apply unmarshal_marshal_dispatch; [apply Hwf|].
  - destruct (Hs Hin') as (s & Hm & _ & _ & Hwf). exists s. by apply unmarshal_marshal_status; [apply Hwf|].
  - destruct (Hy Hin') as (r & Hm & _ & _ & Hwf). eexists. by apply unmarshal_marshal_retry; [apply Hwf|].
Qed.

(** Claim C5: a call is stored before anyone speaks of it. In every reachable
    state the call a dispatch, status or retry message names has a row under the
    campaign of the message, so that no worker ever reports on a call that was
    never persisted. *)
Theorem every_message_speaks_of_a_stored_call (w : World) (topic : string) (m : KafkaMessage) :
  topics_distinct cfg.(cfg_Kafka) -> provider_outside -> reachable cfg w -> (topic, m) ∈ w.(w_log) ->
  (topic = cfg.(cfg_Kafka).(kc_CallTopic) ->
     forall d, unmarshal_dispatch m.(km_Value) = Some d -> stored_call w d.(dm_CampaignID) d.(dm_CallID)) /\
  (topic = cfg.(cfg_Kafka).(kc_StatusTopic) ->
     forall s, unmarshal_status m.(km_Value) = Some s -> stored_call w s.(sm_CampaignID) s.(sm_CallID)) /\
  (topic ∈ cfg.(cfg_Kafka).(kc_RetryTopics) ->
     forall r, unmarshal_retry m.(km_Value) = Some r ->
       stored_call w r.(rm_DispatchMessage).(dm_CampaignID) r.(rm_DispatchMessage).(dm_CallID)).
Proof.
  intros Ht Hp Hr Hin. destruct (reachable_log_ok cfg Ht Hp w Hr) as [[Hok _] _].
  destruct (Hok _ _ Hin) as (Hd & Hs & Hy). split_and!; intros Hin'.
  - destruct (Hd Hin') as (d' & Hm & [_ Hc] & _). intros d Hu. by rewrite (unmarshal_dispatch_wire _ _ _ Hm Hu).
  - destruct (Hs Hin') as (s' & Hm & [_ Hc] & _). intros s Hu. by rewrite (unmarshal_status_wire _ _ _ Hm Hu).
  - destruct (Hy Hin') as (r' & Hm & [_ Hc] & _). intros r Hu. rewrite (unmarshal_retry_wire _ _ _ Hm Hu).
    by destruct r' as [[] ??].
Qed.
End PipelineProperties.

(** ** A run, for examples: a campaign asking for five attempts, one target
    whose calls all fail, one scheduler tick, and each worker in turn. *)

#[local] Existing Instances failing_env bit_uuid stable_sort_order unary_pages json_bodies.
#[local] Instance run_provider : Provider := mock_PlaceCall.

Definition run_id : uuid := 2%N.

(** The last record of a topic. *)
Definition last_record (topic : string) (w : World) : KafkaMessage :=
  default (mkKafka 0 JNull 0) (last (topic_records topic w)).

Definition run_created : World :=
  (serve (api default_config) EStartCampaign (to_api (bit_uuid_text run_id) JNull) one_target_world).1.
Definition run_dispatched : World :=
  (tick (co default_config).(co_scheduler) (co default_config).(co_calls) run_created).1.
Definition run_called : World :=
  (processMessage 1 (co default_config).(co_callWorker)
     (last_record "campaign.calls.dispatch" run_dispatched) run_dispatched).1.
Definition run_reported : World :=
  (handle_status (co default_config).(co_statusWorker)
     (last_record "campaign.calls.status" run_called) run_called).1.
Definition run_retried : World :=
  (handle_retry (co default_config).(co_retryWorker) 1
     (last_record "campaign.calls.retry.1" run_reported) run_reported).1.

Lemma last_record_in topic (w : World) m :
  last (topic_records topic w) = Some m -> (topic, last_record topic w) ∈ w.(w_log).
Proof.
  intros Hl. unfold last_record. rewrite Hl. simpl. unfold topic_records in Hl.
  apply last_Some_elem_of, list_elem_of_fmap in Hl as ([t m'] & -> & Hin).
  apply list_elem_of_In, filter_In in Hin as [Hin Ht]. apply String.eqb_eq in Ht as ->.
  by apply list_elem_of_In.
Qed.

Lemma run_dispatched_reachable : reachable default_config run_dispatched.
Proof.
  apply reachable_run; [apply start_tick|]. apply reachable_run; [apply start_request|].
  apply one_target_reachable.
Qed.

Lemma run_reported_reachable : reachable default_config run_reported.
Proof.
  apply reachable_run; [apply start_status_worker; eapply last_record_in; vm_compute; reflexivity|].
  apply reachable_run; [apply start_call_worker; eapply last_record_in; vm_compute; reflexivity|].
  apply run_dispatched_reachable.
Qed.

Lemma run_retried_reachable : reachable default_config run_retried.
Proof.
  apply reachable_run; [|apply run_reported_reachable].
  apply (start_retry_worker _ _ 0 "campaign.calls.retry.1"); [reflexivity|].
  eapply last_record_in; vm_compute; reflexivity.
Qed.

Definition run_second : KafkaMessage := last_record "campaign.calls.dispatch" run_retried.

Lemma only_registered_witness :
  exists d, unmarshal_dispatch run_second.(km_Value) = Some d /\
    registered run_retried d.(dm_CampaignID) d.(dm_PhoneNumber).
Proof.
  eexists. split; [vm_compute; reflexivity|].
  apply (only_registered_numbers_are_dialled default_config run_retried run_second);
    [ apply default_topics_distinct | apply mock_outside | apply run_retried_reachable
    | eapply last_record_in; vm_compute; reflexivity | vm_compute; reflexivity ].
Defined.

Lemma at_most_two_attempts_witness :
  exists d, unmarshal_dispatch run_second.(km_Value) = Some d /\
    (d.(dm_Attempt) = 1 \/
     (d.(dm_Attempt) = 2 /\ d.(dm_MaxAttempts) = 0 /\
      forall res err t, (status_of d res err t).(sm_Retryable) = false)).
Proof.
  eexists. split; [vm_compute; reflexivity|].
  eapply (at_most_two_attempts default_config run_retried run_second);
    [ apply default_topics_distinct | apply mock_outside | apply run_retried_reachable
    | eapply last_record_in; vm_compute; reflexivity | vm_compute; reflexivity ].
Defined.

(** The oracle of the example draws 0, so that a call takes five seconds. *)
Lemma run_typed : typed_inputs default_config.
Proof.
  split; [vm_compute; split; discriminate|]. intros d [res err] Hrun. cbn [fst].
  assert (res.(res_Duration) = 5 * Second) as ->.
  { unfold PlaceCall, run_provider, mock_PlaceCall in Hrun. cbn in Hrun.
    destruct Hrun as (w1 & w2 & w3 & Hrun). by simplify_eq/=. }
  vm_compute; split; discriminate.
Qed.

Lemma every_message_decodes_witness : is_Some (unmarshal_dispatch run_second.(km_Value)).
Proof.
  apply (every_message_decodes default_config run_retried "campaign.calls.dispatch" run_second);
    [ apply run_typed | apply default_topics_distinct | apply mock_outside | apply run_retried_reachable
    | eapply last_record_in; vm_compute; reflexivity | reflexivity ].
Defined.

Lemma stored_call_witness :
  exists d, unmarshal_dispatch run_second.(km_Value) = Some d /\
    stored_call run_retried d.(dm_CampaignID) d.(dm_CallID).
Proof.
  eexists. split; [vm_compute; reflexivity|].
  refine (proj1 (every_message_speaks_of_a_stored_call default_config run_retried "campaign.calls.dispatch"
    run_second default_topics_distinct mock_outside run_retried_reachable _) eq_refl _ _).
  - eapply last_record_in; vm_compute; reflexivity.
  - vm_compute; reflexivity.
Defined.

(** The first retry, and the tick after it. *)
Lemma scheduler_blocked_witness :
  stores (tick (co default_config).(co_scheduler) (co default_config).(co_calls) run_reported).1
    = stores run_reported.
Proof.
  apply (scheduler_blocked_for_good default_config run_reported run_reported "campaign.calls.retry.1"
    (last_record "campaign.calls.retry.1" run_reported)).
  - intros n. reflexivity.
  - apply mock_outside.
  - left.
  - eapply last_record_in; vm_compute; reflexivity.
  - destruct run_reported_reachable as [ts Hr]. exists ts, ts. split; [exact Hr|apply rtc_refl].
Defined.
