(* ===== verification/Protocol.v ===== *)
(** The life of a call as a protocol that knows nothing of stores, faults or
    handlers: which message may follow which, field by field, and what follows for
    the history of a call. Life shows that the platform keeps to it. *)
From S2P Require Import Prelude GoTime Domain Messages World Queue.

(** ** The protocol *)

(** What is said about calls: an attempt is to be made, an attempt was made, a
    retry is asked for on the topic with the given index. *)
Inductive Signal :=
| Dispatched (d : DispatchMessage)
| Reported (s : StatusMessage)
| RetryAsked (i : nat) (r : RetryMessage).

Definition call_of (x : Signal) : uuid :=
  match x with
  | Dispatched d => d.(dm_CallID)
  | Reported s => s.(sm_CallID)
  | RetryAsked _ r => r.(rm_DispatchMessage).(dm_CallID)
  end.

(** The first attempts of a call. *)
Definition first_of (id : uuid) (x : Signal) : Prop :=
  match x with Dispatched d => d.(dm_CallID) = id /\ d.(dm_Attempt) = 1 | _ => False end.
#[export] Instance first_of_dec id x : Decision (first_of id x).
Proof. destruct x; apply _. Defined.
Definition firsts (id : uuid) (l : list Signal) : list Signal := filter (first_of id) l.

(** The report of an attempt: of the same call, with what a retry will need; it may
    be tried again only while attempts are left, and then, and only then, it says
    when. *)
Record reports (d : DispatchMessage) (s : StatusMessage) : Prop := {
  rp_call : s.(sm_CallID) = d.(dm_CallID);
  rp_campaign : s.(sm_CampaignID) = d.(dm_CampaignID);
  rp_phone : s.(sm_PhoneNumber) = d.(dm_PhoneNumber);
  rp_attempt : s.(sm_Attempt) = d.(dm_Attempt);
  rp_limit : s.(sm_MaxAttempts) = d.(dm_MaxAttempts);
  rp_policy : (s.(sm_RetryBaseMs), s.(sm_RetryMaxMs), s.(sm_RetryJitter)) =
    (d.(dm_RetryBaseMs), d.(dm_RetryMaxMs), d.(dm_RetryJitter));
  rp_rest : (s.(sm_ConcurrencyLimit), s.(sm_Metadata)) = (d.(dm_ConcurrencyLimit), d.(dm_Metadata));
  rp_more : s.(sm_Retryable) = true -> d.(dm_Attempt) < d.(dm_MaxAttempts);
  rp_next : is_Some s.(sm_NextAttempt) <-> s.(sm_Retryable) = true;
}.

(** The retry a report asks for: the next attempt, on the topic of the one that
    failed, no earlier than it says, and without the limit, which the wire loses. *)
Definition asks_retry (s : StatusMessage) (i : nat) (r : RetryMessage) : Prop :=
  s.(sm_Retryable) = true /\ s.(sm_Attempt) = Z.of_nat i + 1 /\ s.(sm_NextAttempt) = Some r.(rm_NextAttempt) /\
  r = mkRetry
    (mkDispatch s.(sm_CallID) s.(sm_CampaignID) s.(sm_PhoneNumber) (s.(sm_Attempt) + 1) 0
       s.(sm_RetryBaseMs) s.(sm_RetryMaxMs) s.(sm_RetryJitter) s.(sm_ConcurrencyLimit) s.(sm_Metadata)
       r.(rm_NextAttempt))
    s.(sm_MaxAttempts) r.(rm_NextAttempt).

(** What may be said after [l]: the first attempt of a call nothing was said of
    yet, or a copy of it, ten in all, for the writer repeats what was not
    acknowledged; the report of a dispatched attempt; the retry a report asks for;
    and the attempt a retry stands for, with the time it was dispatched. *)
Inductive allowed (l : list Signal) : Signal -> Prop :=
| allowed_first d :
    d.(dm_Attempt) = 1 -> (forall x, x ∈ l -> call_of x <> d.(dm_CallID)) -> allowed l (Dispatched d)
| allowed_copy d :
    d.(dm_Attempt) = 1 -> Dispatched d ∈ l -> (length (firsts d.(dm_CallID) l) < writer_attempts)%nat ->
    allowed l (Dispatched d)
| allowed_report d s : Dispatched d ∈ l -> reports d s -> allowed l (Reported s)
| allowed_retry s i r : Reported s ∈ l -> asks_retry s i r -> allowed l (RetryAsked i r)
| allowed_again i r t : RetryAsked i r ∈ l -> allowed l (Dispatched (set_dm_EnqueuedAt t r.(rm_DispatchMessage))).

Inductive life : relation (list Signal) :=
| life_says l x : allowed l x -> life l (l ++ [x]).

Lemma life_grows l l' x : rtc life l l' -> x ∈ l -> x ∈ l'.
Proof. induction 1 as [|? ? ? [] ? IH]; [done|]. intros. apply IH. set_solver. Qed.

(** ** What the protocol promises *)

(** Everything said was allowed after what was said before it. *)
Definition ordered (l : list Signal) : Prop := forall i x, l !! i = Some x -> allowed (take i l) x.

Lemma ordered_snoc l x : ordered l -> allowed l x -> ordered (l ++ [x]).
Proof.
  intros Hl Ha i y [Hy|[Hi Hy]]%lookup_app_Some.
  - rewrite take_app_le by (apply lookup_lt_Some in Hy; lia). by apply Hl.
  - apply list_lookup_singleton_Some in Hy as [Hi0 <-].
    assert (i = length l) as -> by lia. by rewrite take_app_length.
Qed.

Lemma ordered_prefix l x : ordered (l ++ [x]) -> ordered l /\ allowed l x.
Proof.
  intros Hl. split.
  - intros i y Hi. specialize (Hl i y). rewrite take_app_le in Hl by (apply lookup_lt_Some in Hi; lia).
    apply Hl. by apply lookup_app_l_Some.
  - specialize (Hl (length l) x). rewrite take_app_length in Hl. apply Hl. by apply list_lookup_middle.
Qed.

Lemma life_ordered l : rtc life [] l -> ordered l.
Proof.
  intros Hl. apply (@rtc_ind_r _ life ordered []); [done| |done]. intros l1 l2 _ [l' x Ha] IH.
  by apply ordered_snoc.
Qed.

(** Whom something is said of. *)
Definition subject (x : Signal) : uuid * uuid * string :=
  match x with
  | Dispatched d => (d.(dm_CallID), d.(dm_CampaignID), d.(dm_PhoneNumber))
  | Reported s => (s.(sm_CallID), s.(sm_CampaignID), s.(sm_PhoneNumber))
  | RetryAsked _ r => let d := r.(rm_DispatchMessage) in
                      (d.(dm_CallID), d.(dm_CampaignID), d.(dm_PhoneNumber))
  end.

Lemma call_subject x y : subject x = subject y -> call_of x = call_of y.
Proof. by destruct x, y; intros [= ? ? ?]. Qed.

Section Promises.
Context (l : list Signal) (Hl : ordered l).

(** What comes before, one step back. *)
Lemma report_cause i s :
  l !! i = Some (Reported s) ->
  exists k d, (k < i)%nat /\ l !! k = Some (Dispatched d) /\ subject (Dispatched d) = subject (Reported s) /\
    reports d s.
Proof using Hl.
  intros Hi. specialize (Hl i _ Hi). inversion Hl as [| |d s' Hd Hr Heq| |]; subst.
  apply elem_of_take in Hd as (k & Hk & Hlt). exists k, d. split_and!; [done..| |done].
  cbn. by rewrite (rp_call _ _ Hr), (rp_campaign _ _ Hr), (rp_phone _ _ Hr).
Qed.

Lemma retry_cause i n r :
  l !! i = Some (RetryAsked n r) ->
  exists k s, (k < i)%nat /\ l !! k = Some (Reported s) /\ subject (Reported s) = subject (RetryAsked n r) /\
    asks_retry s n r.
Proof using Hl.
  intros Hi. specialize (Hl i _ Hi). inversion Hl as [| | |s n' r' Hs Ha Heq|]; subst.
  apply elem_of_take in Hs as (k & Hk & Hlt). exists k, s. split_and!; [done..| |done].
  destruct Ha as (_ & _ & _ & ->). done.
Qed.

Lemma dispatch_cause i d :
  l !! i = Some (Dispatched d) ->
  (d.(dm_Attempt) = 1 /\ forall x, x ∈ take i l -> call_of x <> d.(dm_CallID)) \/
  (d.(dm_Attempt) = 1 /\ exists k, (k < i)%nat /\ l !! k = Some (Dispatched d)) \/
  exists k n r, (k < i)%nat /\ l !! k = Some (RetryAsked n r) /\
    subject (RetryAsked n r) = subject (Dispatched d) /\
    d.(dm_Attempt) = r.(rm_DispatchMessage).(dm_Attempt) /\
    d.(dm_MaxAttempts) = r.(rm_DispatchMessage).(dm_MaxAttempts).
Proof using Hl.
  intros Hi. specialize (Hl i _ Hi). inversion Hl as [d' Ha Hf|d' Ha Hd _| | |n r t Hr Heq]; subst; [by left|..]; right.
  - left. split; [done|]. apply elem_of_take in Hd as (k & Hk & Hlt). by exists k.
  - right. apply elem_of_take in Hr as (k & Hk & Hlt). exists k, n, r. split; [done|]. split; [done|].
    by destruct r as [[] ? ?].
Qed.

(** Only a first attempt may be tried again: the limit of a second is lost. *)
Lemma attempts i x :
  l !! i = Some x ->
  match x with
  | Dispatched d => d.(dm_Attempt) = 1 \/ (d.(dm_Attempt) = 2 /\ d.(dm_MaxAttempts) = 0)
  | Reported s => s.(sm_Attempt) = 1 \/ (s.(sm_Attempt) = 2 /\ s.(sm_Retryable) = false)
  | RetryAsked n r => n = 0%nat /\ r.(rm_DispatchMessage).(dm_Attempt) = 2 /\
                      r.(rm_DispatchMessage).(dm_MaxAttempts) = 0
  end.
Proof using Hl.
  revert x. induction (lt_wf i) as [i _ IH]. intros [d|s|n r] Hi.
  - destruct (dispatch_cause i d Hi) as [[? _]|[[? _]|(k & n & r & Hk & Hr & _ & Ha & Hm)]]; [by left..|].
    destruct (IH k Hk _ Hr) as (_ & ? & ?). right. split; congruence.
  - destruct (report_cause i s Hi) as (k & d & Hk & Hd & _ & Hr). pose proof (rp_attempt _ _ Hr).
    destruct (IH k Hk _ Hd) as [?|[? ?]]; [left; congruence|]. right. split; [congruence|].
    destruct (sm_Retryable s) eqn:E; [|done]. pose proof (rp_more _ _ Hr E). lia.
  - destruct (retry_cause i n r Hi) as (k & s & Hk & Hs & _ & Hre & Ha & _ & Heq).
    destruct (IH k Hk _ Hs) as [H1|[_ ?]]; [|congruence]. rewrite Heq. cbn. rewrite H1. split_and!; [lia|done|done].
Qed.

(** The first attempts of a call are copies of one. *)
Lemma first_unique n : forall i j d d',
  (i < n)%nat -> (j < n)%nat -> l !! i = Some (Dispatched d) -> l !! j = Some (Dispatched d') ->
  d.(dm_CallID) = d'.(dm_CallID) -> d.(dm_Attempt) = 1 -> d'.(dm_Attempt) = 1 -> d = d'.
Proof using Hl.
  induction n as [|n IH]; [lia|]. intros i j d d' Hin Hjn Hi Hj Hc Ha Ha'.
  assert (forall i j d d', (i < j)%nat -> (j < S n)%nat -> l !! i = Some (Dispatched d) ->
    l !! j = Some (Dispatched d') -> d.(dm_CallID) = d'.(dm_CallID) -> d.(dm_Attempt) = 1 ->
    d'.(dm_Attempt) = 1 -> d = d') as Hlt.
  { clear i j d d' Hin Hjn Hi Hj Hc Ha Ha'. intros i j d d' Hij Hjn Hi Hj Hc Ha Ha'.
    destruct (dispatch_cause j d' Hj) as [[_ Hf]|[(_ & k & Hk & Hd')|(k & m & r & _ & Hr & _ & Har & _)]].
    - exfalso. apply (Hf (Dispatched d)); [|done]. apply elem_of_take. eauto.
    - apply (IH i k); done || lia.
    - destruct (attempts k _ Hr) as (_ & ? & _). lia. }
  destruct (lt_eq_lt_dec i j) as [[?| ->]|?]; [by eapply (Hlt i j)| |symmetry; by eapply (Hlt j i)].
  congruence.
Qed.

(** Whatever is said of a call comes after its first attempt, and that is the first
    that was said of it. *)
Lemma origin j x :
  l !! j = Some x ->
  exists i d, (i <= j)%nat /\ l !! i = Some (Dispatched d) /\ subject (Dispatched d) = subject x /\
    d.(dm_Attempt) = 1 /\ forall y, y ∈ take i l -> call_of y <> d.(dm_CallID).
Proof using Hl.
  revert x. induction (lt_wf j) as [j _ IH].
  assert (forall k x y, (k < j)%nat -> l !! k = Some y -> subject y = subject x ->
    exists i d, (i <= j)%nat /\ l !! i = Some (Dispatched d) /\ subject (Dispatched d) = subject x /\
      d.(dm_Attempt) = 1 /\ forall y, y ∈ take i l -> call_of y <> d.(dm_CallID)) as Hback.
  { intros k x y Hk Hy Hs. destruct (IH k Hk y Hy) as (i & d & ? & ? & ? & ? & ?).
    exists i, d. split_and!; [lia|done|congruence|done|done]. }
  intros [d|s|n r] Hj.
  - destruct (dispatch_cause j d Hj) as [[Ha Hf]|[(_ & k & ? & ?)|(k & n & r & ? & ? & ? & _)]];
      [|by eapply Hback..]. by exists j, d.
  - destruct (report_cause j s Hj) as (k & d & ? & ? & ? & _). by eapply Hback.
  - destruct (retry_cause j n r Hj) as (k & s & ? & ? & ? & _). by eapply Hback.
Qed.

(** The whole past of a dispatch that is not the first. *)
Lemma second_chance i4 d :
  l !! i4 = Some (Dispatched d) -> d.(dm_Attempt) <> 1 ->
  exists i1 i2 i3 d1 s r, (i1 < i2 < i3)%nat /\ (i3 < i4)%nat /\
    l !! i1 = Some (Dispatched d1) /\ l !! i2 = Some (Reported s) /\ l !! i3 = Some (RetryAsked 0 r) /\
    subject (Dispatched d1) = subject (Dispatched d) /\ subject (Reported s) = subject (Dispatched d) /\
    subject (RetryAsked 0 r) = subject (Dispatched d) /\
    d1.(dm_Attempt) = 1 /\ 1 < d1.(dm_MaxAttempts) /\ s.(sm_Attempt) = 1 /\ s.(sm_Retryable) = true /\
    d.(dm_Attempt) = 2.
Proof using Hl.
  intros H4 Hne. destruct (dispatch_cause i4 d H4) as [[? _]|[[? _]|(i3 & n & r & Hlt3 & H3 & Hs3 & Ha3 & _)]]; [done..|].
  destruct (attempts i3 _ H3) as (-> & Ha & _).
  destruct (retry_cause i3 0 r H3) as (i2 & s & Hlt2 & H2 & Hs2 & Hr & Hsa & _).
  destruct (report_cause i2 s H2) as (i1 & d1 & Hlt1 & H1 & Hs1 & Hrep).
  pose proof (rp_attempt _ _ Hrep). pose proof (rp_more _ _ Hrep Hr).
  exists i1, i2, i3, d1, s, r. split_and!; try done; try lia; congruence.
Qed.
End Promises.

(** There are at most ten copies of a first attempt. *)
Lemma firsts_snoc id l x : firsts id (l ++ [x]) = firsts id l ++ (if decide (first_of id x) then [x] else []).
Proof. unfold firsts. rewrite filter_app. by f_equal. Qed.

Lemma firsts_nil id l : (forall x, x ∈ l -> call_of x <> id) -> firsts id l = [].
Proof.
  intros Hl. unfold firsts. induction l as [|x l IH]; [done|]. rewrite filter_cons_False.
  - apply IH. intros y Hy. apply Hl. by right.
  - intros Hx. apply (Hl x); [by left|]. destruct x; [apply Hx|done..].
Qed.

Lemma retry_not_first l i r t id :
  ordered l -> RetryAsked i r ∈ l -> ~ first_of id (Dispatched (set_dm_EnqueuedAt t r.(rm_DispatchMessage))).
Proof.
  intros Hl [k Hk]%list_elem_of_lookup. destruct (attempts l Hl k _ Hk) as (_ & Ha & _).
  destruct r as [[] ? ?]. cbn in *. lia.
Qed.

Lemma firsts_bound id l : ordered l -> (length (firsts id l) <= writer_attempts)%nat.
Proof.
  induction l as [|x l IH] using rev_ind; intros Hl; [unfold writer_attempts; cbn; lia|].
  apply ordered_prefix in Hl as [Hl Ha]. specialize (IH Hl). rewrite firsts_snoc, length_app.
  destruct (decide (first_of id x)) as [Hx|]; cbn [length]; [|lia].
  destruct Ha as [d _ Hf|d _ _ Hlt|d s _ _|s i r _ _|i r t Hr]; cbn in Hx; try done.
  - destruct Hx as [<- _]. rewrite firsts_nil by done. unfold writer_attempts. cbn. lia.
  - destruct Hx as [<- _]. lia.
  - by destruct (retry_not_first l i r t id Hl Hr).
Qed.
