(* ===== verification/Life.v ===== *)
(** What the platform says about its calls, read off the topics, and that it keeps
    to the protocol of Protocol.v. *)
From S2P Require Import Prelude Errors GoTime Json Domain Messages World Postgres PostgresInv.
From S2P Require Import PostgresSpec Scylla Queue Limiter CampaignService CallService CallLists.
From S2P Require Import Requests Handlers Scheduler CallWorker StatusWorker RetryWorker Effects WorkerProofs.
From S2P Require Import Interleaving Integrity Config Container System Pipeline Protocol.

(** ** What the platform says *)

Section Signals.
Context `{UuidText} (cfg : Config).

Definition signal_of (record : string * KafkaMessage) : option Signal :=
  let k := cfg.(cfg_Kafka) in
  let value := record.2.(km_Value) in
  if bool_decide (record.1 = k.(kc_CallTopic)) then Dispatched <$> unmarshal_dispatch value
  else if bool_decide (record.1 = k.(kc_StatusTopic)) then Reported <$> unmarshal_status value
  else '(i, _) ← list_find (eq record.1) k.(kc_RetryTopics); RetryAsked i <$> unmarshal_retry value.

(** The records of the three kinds of topics, in the order they were published. *)
Definition signals (w : World) : list Signal := omap signal_of w.(w_log).

Lemma signals_same w w' : w'.(w_log) = w.(w_log) -> signals w' = signals w.
Proof. unfold signals. by intros ->. Qed.

Lemma signals_publish r w :
  signals (set_log (w.(w_log) ++ [r]) w) = signals w ++ option_list (signal_of r).
Proof.
  unfold signals. destruct w. cbn. rewrite omap_app. cbn. by destruct (signal_of r).
Qed.

Lemma signal_in r x w : r ∈ w.(w_log) -> signal_of r = Some x -> x ∈ signals w.
Proof. intros. apply list_elem_of_omap. eauto. Qed.

Context (Htopics : topics_distinct cfg.(cfg_Kafka)).

Lemma signal_call m :
  signal_of (cfg.(cfg_Kafka).(kc_CallTopic), m) = Dispatched <$> unmarshal_dispatch m.(km_Value).
Proof. unfold signal_of. by rewrite bool_decide_true. Qed.

Lemma signal_status m :
  signal_of (cfg.(cfg_Kafka).(kc_StatusTopic), m) = Reported <$> unmarshal_status m.(km_Value).
Proof using Htopics.
  destruct (topics_differ cfg Htopics) as (Hcs & _). unfold signal_of. cbn.
  by rewrite bool_decide_false, bool_decide_true.
Qed.

Lemma signal_retry i topic m :
  cfg.(cfg_Kafka).(kc_RetryTopics) !! i = Some topic ->
  signal_of (topic, m) = RetryAsked i <$> unmarshal_retry m.(km_Value).
Proof using Htopics.
  intros Hi. pose proof (list_elem_of_lookup_2 _ _ _ Hi) as Hin.
  destruct (topics_differ cfg Htopics) as (_ & Hc & Hs). unfold signal_of. cbn.
  rewrite !bool_decide_false by (intros ->; done).
  assert (list_find (eq topic) cfg.(cfg_Kafka).(kc_RetryTopics) = Some (i, topic)) as ->; [|done].
  apply list_find_Some. split_and!; [done|done|]. intros j y Hj Hlt ->.
  apply NoDup_cons in Htopics as [_ Ht]. apply NoDup_cons in Ht as [_ Ht].
  pose proof (NoDup_lookup _ _ _ _ Ht Hi Hj). lia.
Qed.
End Signals.

(** ** What a handler may say *)

Section Refinement.
Context `{Env} `{PgOrder} `{UuidText} `{Gocql} `{Fiber} `{Provider} (cfg : Config).

Let said := signals cfg.

(** Every call that was spoken of has an identifier that was drawn. *)
Definition drawn (w : World) : Prop :=
  forall x, x ∈ said w -> exists n, (n < w.(w_tick))%nat /\ call_of x = env_uuid n.

(** A call that was spoken of. *)
Definition spoken (id : uuid) (w : World) : Prop := exists x, x ∈ said w /\ call_of x = id.

(** Nothing is said. *)
Definition silent : relation World := fun w w' => w'.(w_log) = w.(w_log) /\ later w w'.

(** *** The protocol

    The token of a handler that has drawn an identifier is the draw: it alone may
    be the first to speak of that call. Once it does, its token is the message it
    is writing, and how often it may still try. *)
Inductive grip := Drawn (n : nat) | Writing (d : DispatchMessage) (k : nat).

Definition grips (t : option grip) (id : uuid) : Prop :=
  match t with
  | Some (Drawn n) => id = env_uuid n
  | Some (Writing d _) => id = d.(dm_CallID)
  | None => False
  end.
#[local] Instance grips_dec t id : Decision (grips t id).
Proof. destruct t as [[]|]; unfold grips; apply _. Defined.

Definition holds (t : option grip) (w : World) : Prop :=
  match t with
  | Some (Drawn n) => (n < w.(w_tick))%nat /\ ~ spoken (env_uuid n) w
  | Some (Writing d k) => d.(dm_Attempt) = 1 /\ (exists n, (n < w.(w_tick))%nat /\ d.(dm_CallID) = env_uuid n) /\
      (spoken d.(dm_CallID) w -> Dispatched d ∈ said w) /\
      (length (firsts d.(dm_CallID) (said w)) + k <= writer_attempts)%nat
  | None => True
  end.

Definition speaks (t t' : option grip) : relation World := fun w w' =>
  later w w' /\ rtc life (said w) (said w') /\
  (forall id, ~ grips t id -> (spoken id w' -> spoken id w) /\ firsts id (said w') = firsts id (said w)) /\
  (holds t w -> holds t' w') /\
  (forall id, grips t' id -> grips t id \/ exists n, id = env_uuid n /\ (w.(w_tick) <= n < w'.(w_tick))%nat).

Definition conversation (w : World) : Prop := rtc life [] (said w) /\ drawn w.

Lemma spoken_drawn id w : drawn w -> spoken id w -> exists n, (n < w.(w_tick))%nat /\ id = env_uuid n.
Proof. intros Hd (x & Hx & <-). by apply Hd. Qed.

Lemma holds_drawn t w id : holds t w -> grips t id -> exists n, (n < w.(w_tick))%nat /\ id = env_uuid n.
Proof.
  destruct t as [[n|d k]|]; cbn; [|intros (_ & (n & ? & ?) & _) ->; by exists n|done].
  intros [? _] ->. by exists n.
Qed.

Lemma silent_said w w' : silent w w' -> said w' = said w.
Proof. intros [Hl _]. exact (signals_same cfg w w' Hl). Qed.

Lemma silent_holds t w w' : silent w w' -> holds t w -> holds t w'.
Proof.
  intros Hs. pose proof (silent_said _ _ Hs) as Hsaid. destruct Hs as [_ Ht]. unfold later in Ht.
  destruct t as [[n|d k]|]; cbn; unfold spoken; rewrite ?Hsaid; [|intros (? & (n & ? & ?) & ? & ?)|done].
  - intros []. split; [lia|done].
  - split_and!; try done. exists n. split; [lia|done].
Qed.

Lemma silent_speaks t w w' : silent w w' -> speaks t t w w'.
Proof.
  intros Hs. pose proof (silent_said _ _ Hs) as Hsaid. split_and!; [apply Hs|by rewrite Hsaid| | |by left].
  - intros id _. unfold spoken. by rewrite Hsaid.
  - by apply silent_holds.
Qed.

#[local] Instance silent_preorder : PreOrder silent.
Proof.
  split; unfold silent; [by intros w|]. intros w1 w2 w3 [Hl1 ?] [Hl2 ?].
  split; [congruence|by etrans].
Qed.

Lemma speaks_trans t w1 w2 w3 : speaks t t w1 w2 -> speaks t t w2 w3 -> speaks t t w1 w3.
Proof.
  intros (Ht1 & Hl1 & Hs1 & Hh1 & _) (Ht2 & Hl2 & Hs2 & Hh2 & _). split_and!; [by etrans..| |auto|by left].
  intros id Hid. destruct (Hs1 id Hid) as [? E1], (Hs2 id Hid) as [? E2]. split; [auto|congruence].
Qed.

(** A request after a moment of silence. *)
Lemma silent_then t t' w1 w2 w3 : silent w1 w2 -> speaks t t' w2 w3 -> speaks t t' w1 w3.
Proof.
  intros Hs (Ht & Hl & Hid & Hh & Hg). pose proof (silent_said _ _ Hs) as Hsaid.
  split_and!; [etrans; [apply Hs|done]|by rewrite <- Hsaid| | |].
  - intros id Hno. unfold spoken in *. rewrite <- Hsaid. by apply Hid.
  - intros Ho. by eapply Hh, silent_holds.
  - destruct Hs as [_ Hs]. unfold later in Hs. intros id [?|(n & ? & ?)]%Hg; [by left|right].
    exists n. split; [done|lia].
Qed.

Context (Hfresh : forall n m, env_uuid n = env_uuid m -> n = m).

Lemma speaks_keeps t t' w w' :
  conversation w -> holds t w -> speaks t t' w w' -> conversation w' /\ holds t' w'.
Proof.
  intros [Hc Hd] Ho (Ht & Hl & Hs & Hh & _). unfold later in Ht. split; [split; [by etrans|]|auto].
  intros x Hx. assert (exists n, (n < w.(w_tick))%nat /\ call_of x = env_uuid n) as (n & ? & ?).
  { destruct (decide (grips t (call_of x))) as [Hg|Hg]; [by eapply holds_drawn|].
    eapply spoken_drawn; [exact Hd|]. apply (Hs _ Hg). by exists x. }
  exists n. split; [lia|done].
Qed.

Lemma speaks_frame t t' u w w' :
  holds t w -> holds u w -> (forall id, grips t id -> grips u id -> False) -> speaks t t' w w' ->
  holds u w' /\ forall id, grips t' id -> grips u id -> False.
Proof using Hfresh.
  intros Ho Hu Ha (Ht & Hl & Hs & _ & Hg). unfold later in Ht. split.
  - assert (forall id, grips u id -> ~ grips t id) as Hno by (intros id ? ?; by eapply Ha).
    destruct u as [[n|d k]|]; cbn in *; [| |done].
    + destruct Hu as [? Hns]. destruct (Hs _ (Hno _ eq_refl)) as [Hsp _]. split; [lia|auto].
    + destruct Hu as (? & (n & ? & ?) & Hsaid & Hk). destruct (Hs _ (Hno _ eq_refl)) as [Hsp ->].
      split_and!; [done|exists n; split; [lia|done]| |done]. intros Hd. eapply life_grows; [exact Hl|auto].
  - intros id Hid Hgu. destruct (Hg id Hid) as [?|(n & -> & Hn)]; [by eapply Ha|].
    destruct (holds_drawn _ _ _ Hu Hgu) as (m & Hm & E). apply Hfresh in E. lia.
Qed.

#[local] Instance talk : Protocol (option grip).
Proof using H H1 Hfresh cfg said.
  refine {| no_token := None; invariant := conversation; owns := holds;
            apart := fun t u => forall id, grips t id -> grips u id -> False; permitted := speaks;
            extends := fun w w' => rtc life (said w) (said w') |}.
  - split; [by intros w|]. intros w1 w2 w3 H12 H23. by etrans.
  - intros t u Ha id ? ?. by eapply Ha.
  - by intros t id _ [].
  - done.
  - intros t w. by apply silent_speaks.
  - apply speaks_trans.
  - intros t w. apply silent_speaks. split; [by destruct w|]. unfold later. rewrite tick_bump. lia.
  - intros t t' w w' (Ht & Hl & Hs & Hh & Hg). split_and!; [done..| | |].
    + intros id _. exact (Hs id (fun Hf => Hf)).
    + intros _. by apply Hh.
    + intros id [[]|Hid]%Hg. by right.
  - intros t t' w w' _ _ (_ & Hl & _). done.
  - apply speaks_keeps.
  - intros t t' u w w' _. apply speaks_frame.
Defined.

(** What is said because of [cause], when it was said, by one who holds no token. *)
Definition follows (cause : option Signal) : relation World := fun w w' =>
  (forall x, cause = Some x -> x ∈ said w) -> rtc life [] (said w) -> speaks None None w w'.

#[local] Instance follows_preorder c : PreOrder (follows c).
Proof.
  split; [intros w _ _; by apply silent_speaks|]. intros w1 w2 w3 Hs1 Hs2 Hc Hr. specialize (Hs1 Hc Hr).
  eapply speaks_trans; [exact Hs1|]. destruct Hs1 as (_ & Hl & _). apply Hs2; [|by etrans].
  intros x Hx. eapply life_grows; eauto.
Qed.

Lemma silent_follows c w w' : silent w w' -> follows c w w'.
Proof. intros Hs _ _. by apply silent_speaks. Qed.

(** Both relations tolerate every write but that of a record. *)
Section Tolerates.
Context (R : relation World) `{!PreOrder R} (HR : forall w w', silent w w' -> R w w').

Let watched (w : World) := (w.(w_log), w.(w_tick)).
Let HR' w w' : watched w' = watched w -> R w w'.
Proof. intros [= Hl Ht]. apply HR. by split; [|apply later_same]. Qed.

Lemma tolerates_run : CanRun R.
Proof. split; [done|]. intros w. apply HR. split; [by destruct w|apply can_bump]. Qed.
Lemma tolerates_campaigns : CanWriteCampaigns R.
Proof. apply (watch_campaigns watched); [done..|unseen]. Qed.
Lemma tolerates_hours : CanWriteHours R.
Proof.
  intros c ws. eapply stable_combine; [apply (replace_hours_stores c ws)|apply (can_replace_hours (R := later))|].
  intros w w' Hs Hl. apply HR. split; [|exact Hl]. unfold keeps, other_stores in Hs. by simplify_eq.
Qed.
Lemma tolerates_insert_targets : CanInsertTargets R.
Proof. apply (watch_insert_targets watched); [done|unseen]. Qed.
Lemma tolerates_update_targets : CanUpdateTargets R.
Proof. apply (watch_update_targets watched); [done|unseen]. Qed.
Lemma tolerates_ensure : CanEnsureStats R.
Proof. apply (watch_ensure watched); [done..|unseen]. Qed.
Lemma tolerates_delta : CanApplyDelta R.
Proof. apply (watch_delta watched); [done..|unseen]. Qed.
Lemma tolerates_calls : CanWriteCalls R.
Proof. apply (watch_calls watched); [done|unseen..]. Qed.
Lemma tolerates_attempts : CanWriteAttempts R.
Proof. apply (watch_attempts watched); [done|unseen]. Qed.
Lemma tolerates_redis : CanWriteRedis R.
Proof. apply (watch_redis watched); [done|unseen]. Qed.
Lemma tolerates_commit : CanCommit R.
Proof. apply (watch_commit watched); [done|unseen]. Qed.
End Tolerates.

#[local] Instance follows_run c : CanRun (follows c) := tolerates_run _ (silent_follows c).
#[local] Instance follows_campaigns c : CanWriteCampaigns (follows c) := tolerates_campaigns _ (silent_follows c).
#[local] Instance follows_hours c : CanWriteHours (follows c) := tolerates_hours _ (silent_follows c).
#[local] Instance follows_targets c : CanInsertTargets (follows c) := tolerates_insert_targets _ (silent_follows c).
#[local] Instance follows_states c : CanUpdateTargets (follows c) := tolerates_update_targets _ (silent_follows c).
#[local] Instance follows_ensure c : CanEnsureStats (follows c) := tolerates_ensure _ (silent_follows c).
#[local] Instance follows_delta c : CanApplyDelta (follows c) := tolerates_delta _ (silent_follows c).
#[local] Instance follows_calls c : CanWriteCalls (follows c) := tolerates_calls _ (silent_follows c).
#[local] Instance follows_attempts c : CanWriteAttempts (follows c) := tolerates_attempts _ (silent_follows c).
#[local] Instance follows_redis c : CanWriteRedis (follows c) := tolerates_redis _ (silent_follows c).
#[local] Instance follows_commit c : CanCommit (follows c) := tolerates_commit _ (silent_follows c).
#[local] Instance silent_run : CanRun silent := tolerates_run silent (fun _ _ Hs => Hs).
#[local] Instance silent_delta : CanApplyDelta silent := tolerates_delta silent (fun _ _ Hs => Hs).
#[local] Instance silent_calls : CanWriteCalls silent := tolerates_calls silent (fun _ _ Hs => Hs).

(** Silence keeps a token. *)
Lemma obeys_silent {A} (m : M A) t w : stable silent m -> obeys m (fun _ t' _ => t' = t) t w.
Proof.
  intros Hm. eapply obeys_mono; [|apply (obeys_under (fun _ => True) m t w)]; try done; [by intros r t' w' []|].
  eapply stable_mono; [exact Hm|]. intros w1 w2 Hs _ _ _. by apply silent_speaks.
Qed.

(** What was said stays said. *)
Lemma obeys_follows {A} c (m : M A) w :
  (forall x, c = Some x -> x ∈ said w) -> stable (follows c) m -> obeys m (fun _ _ _ => True) no_token w.
Proof.
  intros Hc Hm. eapply obeys_mono; [|apply (obeys_under (fun w => forall x, c = Some x -> x ∈ said w) m no_token w)];
    try done.
  - intros w1 w2 Hl Hx x Heq. eapply life_grows; [exact Hl|by apply Hx].
  - eapply stable_mono; [exact Hm|]. intros w1 w2 Hf Hx [Hl _] _. by apply Hf.
Qed.

Context (Htopics : topics_distinct cfg.(cfg_Kafka)).

(** *** Publishing *)

Lemma says_publish t t' r w :
  (holds t w -> holds t' (set_log (w.(w_log) ++ [r]) w)) -> (forall id, grips t' id -> grips t id) ->
  (forall x, signal_of cfg r = Some x ->
     allowed (said w) x /\ (forall id, ~ grips t id -> call_of x = id -> spoken id w) /\
     (forall id, ~ grips t id -> ~ first_of id x)) ->
  speaks t t' w (set_log (w.(w_log) ++ [r]) w).
Proof.
  intros Hh Hg Hx. split; [apply later_same; by destruct w|]. unfold spoken, said in *. rewrite signals_publish.
  destruct (signal_of cfg r) as [x|]; cbn; [|rewrite app_nil_r; split_and!; [done|auto..]].
  destruct (Hx x eq_refl) as (Ha & Hid & Hf). split_and!; [by apply rtc_once| |done|auto].
  intros id Hno. rewrite firsts_snoc, decide_False, app_nil_r by auto. split; [|done].
  intros (y & [Hy| ->%list_elem_of_singleton]%elem_of_app & Heq); [by exists y|]. by apply Hid.
Qed.

Lemma follows_publish c topic m :
  (forall l x, ordered l -> signal_of cfg (topic, m) = Some x -> c ∈ l ->
     allowed l x /\ call_of x = call_of c /\ forall id, ~ first_of id x) ->
  stable (follows (Some c)) (WriteMessages topic m).
Proof.
  intros Hx. apply stable_write; [apply _|apply can_bump|].
  intros w Hc Hl. apply says_publish; [done|done|]. intros x Hs.
  destruct (Hx _ x (life_ordered _ Hl) Hs (Hc c eq_refl)) as (Ha & Heq & Hf). split_and!; [done| |auto].
  intros id _ <-. exists c. by split; [apply Hc|].
Qed.

Lemma follows_again i r t :
  stable (follows (Some (RetryAsked i r)))
    (DispatchCall cfg.(cfg_Kafka).(kc_CallTopic) (set_dm_EnqueuedAt t r.(rm_DispatchMessage))).
Proof.
  unfold DispatchCall, marshalled. destruct (marshal_dispatch _) eqn:Em; effects.
  apply follows_publish. intros l x Hl. rewrite signal_call. cbn.
  destruct (unmarshal_dispatch _) as [d|] eqn:Eu; [|done]. intros [= <-] Hin.
  rewrite (unmarshal_dispatch_wire _ _ _ Em Eu). split_and!; [by eapply allowed_again| |].
  - by destruct r as [[] ? ?].
  - intros id. by eapply retry_not_first.
Qed.

Lemma status_of_reports d res err t next :
  (is_Some next <-> (status_of d res err t).(sm_Retryable) = true) ->
  reports d (with_next_attempt next (status_of d res err t)).
Proof.
  change (with_next_attempt next (status_of d res err t)) with (report_of d (res, err) t next).
  intros Hn. assert (sm_Retryable (report_of d (res, err) t next) = (status_of d res err t).(sm_Retryable)) as E
    by (unfold report_of; by destruct (status_of _ _ _ _)).
  rewrite <- E in Hn. rewrite report_spelled in *. split; cbn in *; try done.
  rewrite andb_true_iff, Z.ltb_lt. by intros [].
Qed.

Lemma follows_report d res err t next :
  (is_Some next <-> (status_of d res err t).(sm_Retryable) = true) ->
  stable (follows (Some (Dispatched d)))
    (PublishStatus cfg.(cfg_Kafka).(kc_StatusTopic) (with_next_attempt next (status_of d res err t))).
Proof using Htopics.
  intros Hn. unfold PublishStatus, marshalled. destruct (marshal_status _) eqn:Em; effects.
  apply follows_publish. intros l x _. rewrite signal_status by done. cbn.
  destruct (unmarshal_status _) as [s|] eqn:Eu; [|done]. intros [= <-] Hin.
  rewrite (unmarshal_status_wire _ _ _ Em Eu). pose proof (status_of_reports d res err t next Hn) as Hrep.
  split_and!; [by eapply allowed_report|apply (rp_call _ _ Hrep)|by intros id []].
Qed.

Lemma follows_retry s next :
  s.(sm_Retryable) = true -> s.(sm_NextAttempt) = Some next ->
  stable (follows (Some (Reported s)))
    (ScheduleRetry cfg.(cfg_Kafka).(kc_RetryTopics) s.(sm_Attempt) (retry_of s next)).
Proof using Htopics.
  intros Hr Hn. unfold ScheduleRetry, marshalled. destruct (_ || _) eqn:Eb; [effects|].
  apply orb_false_iff in Eb as [Eb _]. apply Z.leb_gt in Eb.
  destruct (marshal_retry _) eqn:Em; effects. apply follows_publish. intros l x Hl.
  erewrite signal_retry by done. cbn.
  destruct (unmarshal_retry _) as [r|] eqn:Eu; [|done]. intros [= <-] Hin.
  rewrite (unmarshal_retry_wire _ _ _ Em Eu). split_and!; [|done|by intros id []].
  apply (allowed_retry _ s); [done|]. split_and!; [done|lia|done|].
  apply list_elem_of_lookup in Hin as [k Hk]. rewrite retry_of_next; [done|].
  destruct (attempts l Hl k _ Hk) as [Ha|[Ha _]]; rewrite Ha; by split.
Qed.

(** *** TriggerCall *)

(** One attempt to write a first attempt: it may be the first to speak of the call,
    and leaves one copy at most. *)
Lemma writing_publish d k v t w :
  marshal_dispatch d = Some v -> holds (Some (Writing d (S k))) w ->
  speaks (Some (Writing d (S k))) (Some (Writing d k)) w
    (append_record cfg.(cfg_Kafka).(kc_CallTopic) (mkKafka d.(dm_CallID) v t) w).
Proof.
  intros Em Ho. unfold append_record. set (r := (cfg.(cfg_Kafka).(kc_CallTopic), mkKafka d.(dm_CallID) v t)).
  assert (forall x, signal_of cfg r = Some x -> x = Dispatched d) as Hx.
  { intros x. unfold r. rewrite signal_call. cbn. destruct (unmarshal_dispatch v) as [d'|] eqn:Eu; [|done].
    intros [= <-]. by rewrite (unmarshal_dispatch_wire _ _ _ Em Eu). }
  destruct Ho as (Ha & (n & Hn & Hid) & Hs & Hk). apply says_publish; [|done|].
  - intros _. cbn. unfold spoken, said in *. rewrite signals_publish.
    destruct (signal_of cfg r) as [x|] eqn:Er; cbn.
    + rewrite (Hx x eq_refl), firsts_snoc, length_app. split_and!; [done|exists n; split; [by destruct w|done]| |].
      * intros _. apply elem_of_app. right. by apply list_elem_of_singleton.
      * case_decide; cbn; lia.
    + rewrite app_nil_r. split_and!; [done|exists n; split; [by destruct w|done]|done|lia].
  - intros x ->%Hx. split_and!.
    + destruct (decide (Exists (fun y => call_of y = d.(dm_CallID)) (said w))) as [(y & Hy & Hc)%Exists_exists|Hno].
      * apply allowed_copy; [done| |lia]. apply Hs. by exists y.
      * apply allowed_first; [done|]. intros y Hy Hc. apply Hno, Exists_exists. by exists y.
    + intros id Hno Hc. by destruct Hno.
    + intros id Hno [Hc _]. by destruct Hno.
Qed.

Lemma writing_less d k w w' :
  silent w w' -> speaks (Some (Writing d (S k))) (Some (Writing d k)) w w'.
Proof.
  intros Hs. destruct (silent_speaks (Some (Writing d (S k))) _ _ Hs) as (? & ? & ? & Hh & _).
  split_and!; [done..| |by left]. intros (? & ? & ? & ?)%Hh. split_and!; [done..|lia].
Qed.

(** However often the writer tries. *)
Lemma obeys_writing d v t k : forall w,
  marshal_dispatch d = Some v ->
  obeys (write_attempts k cfg.(cfg_Kafka).(kc_CallTopic) (mkKafka d.(dm_CallID) v t)) (fun _ _ _ => True)
    (Some (Writing d k)) w.
Proof.
  induction k as [|k IH]; intros w Em; [done|]. cbn [write_attempts].
  apply obeys_bind, obeys_map_result, obeys_atomic. intros w1 _ _ Ho. exists (Some (Writing d k)).
  assert (silent w1 (bump w1)) as Hb by apply can_bump.
  assert (speaks (Some (Writing d (S k))) (Some (Writing d k)) w1 (append_record cfg.(cfg_Kafka).(kc_CallTopic)
    (mkKafka d.(dm_CallID) v t) (bump w1))) as Hp.
  { eapply silent_then; [exact Hb|]. apply writing_publish; [done|]. by eapply silent_holds. }
  pose proof (writing_less d k _ _ Hb) as Hg.
  assert (forall err w2, obeys (temporary ← consult env_temporary;
    match temporary : bool, k with
    | true, S _ => write_attempts k cfg.(cfg_Kafka).(kc_CallTopic) (mkKafka d.(dm_CallID) v t)
    | _, _ => throw err
    end) (fun _ _ _ => True) (Some (Writing d k)) w2) as Hagain.
  { intros err w2. apply obeys_bind. eapply obeys_mono; [|apply obeys_silent; apply stable_consult, can_bump].
    intros [b|e] tok w3 ->; [|done]. destruct b, k; try done. by apply IH. }
  unfold execute. destruct (env_outcome _); (split; [done|]); [done|apply Hagain..].
Qed.

(** The first attempt of a call, by the one who drew its identifier. *)
Lemma obeys_dispatch d n w :
  d.(dm_Attempt) = 1 -> d.(dm_CallID) = env_uuid n ->
  obeys (DispatchCall cfg.(cfg_Kafka).(kc_CallTopic) d) (fun _ _ _ => True) (Some (Drawn n)) w.
Proof.
  intros Ha Hid. unfold DispatchCall, marshalled. destruct (marshal_dispatch d) as [v|] eqn:Em; [|done].
  rewrite ret_bind. apply obeys_bind, obeys_atomic. intros w1 _ _ _.
  exists (Some (Writing d writer_attempts)). cbn [fst snd]. split; [|by apply obeys_map_result, obeys_writing].
  destruct (silent_speaks (Some (Drawn n)) w1 (bump w1)) as (? & ? & ? & Hh & _); [apply can_bump|].
  split_and!; [done..| |]; cbn.
  - intros [Hlt Hns]%Hh. split_and!; [done|by exists n| |].
    + intros Hsp. destruct Hns. by rewrite <- Hid.
    + rewrite firsts_nil; [cbn; lia|]. intros x Hx Hc. apply Hns. exists x. split; [done|]. by rewrite Hc.
  - intros id ->. by left.
Qed.

Lemma safe_first_call i : safe (TriggerCall (co cfg).(co_calls) i).
Proof using All.
  intros w. unfold TriggerCall. case_bool_decide; [done|]. cbv zeta.
  apply obeys_bind. eapply obeys_mono; [|apply obeys_silent; effects]. intros [c|e] t w1 ->; [|done].
  apply obeys_bind. eapply obeys_mono; [|apply obeys_silent; effects]. intros [u|e] t w2 ->; [|done].
  apply obeys_bind. eapply obeys_mono; [|apply obeys_silent; effects]. intros [stamp|e] t w3 ->; [|done].
  apply obeys_bind, obeys_atomic. intros w4 _ [_ Hd] _. exists (Some (Drawn w4.(w_tick))). cbn [fst snd]. split.
  { assert (silent w4 (bump w4)) as Hb by apply can_bump.
    destruct (silent_speaks None w4 (bump w4) Hb) as (Hl & ? & Hs & _). split_and!; [done..| |].
    - intros _. cbn. rewrite tick_bump. split; [lia|]. intros Hsp. unfold spoken in Hsp.
      rewrite (silent_said _ _ Hb) in Hsp. destruct (spoken_drawn _ _ Hd Hsp) as (m & Hm & E).
      apply Hfresh in E. lia.
    - intros id ->. right. exists w4.(w_tick). split; [done|]. rewrite tick_bump. lia. }
  set (n := w4.(w_tick)).
  apply obeys_bind. eapply obeys_mono; [|apply obeys_silent; effects]. intros [u1|e] t w5 ->; [|done].
  apply obeys_bind. eapply obeys_mono; [|apply obeys_silent; effects]. intros [u2|e] t w6 ->; [|done].
  apply obeys_bind, obeys_map_result. eapply obeys_mono; [|by apply (obeys_dispatch _ n)].
  intros r t w7 _. cbn. eapply obeys_mono; [|apply obeys_silent; effects]. done.
Qed.

(** *** The workers *)

Context (Hprovider : provider_outside).

Lemma call_worker_follows fuel m w :
  (cfg.(cfg_Kafka).(kc_CallTopic), m) ∈ w.(w_log) ->
  obeys (processMessage fuel (co cfg).(co_callWorker) m) (fun _ _ _ => True) no_token w.
Proof using Htopics Hprovider.
  intros Hin. destruct (unmarshal_dispatch m.(km_Value)) as [d|] eqn:Eu.
  2:{ apply (obeys_follows None); [done|]. unfold processMessage. rewrite Eu. effects. }
  apply (obeys_follows (Some (Dispatched d))).
  { intros x [= <-]. eapply signal_in; [exact Hin|]. by rewrite signal_call, Eu. }
  enough (stable (follows (Some (Dispatched d))) (place_and_report (co cfg).(co_callWorker) d m)) as Hp.
  { unfold processMessage, waitForSlot. rewrite Eu. effects. }
  pose proof (Hprovider (follows (Some (Dispatched d))) _ d) as Hcall.
  unfold place_and_report, computeNextAttempt.
  apply stable_bind; [apply _|exact Hcall|]. intros rc. apply stable_bind; [apply _|effects|]. intros stamp. cbv zeta.
  apply stable_bind_yields; [apply _|effects|]. intros next Hnext.
  assert (is_Some next <-> (status_of d rc.1 rc.2 stamp).(sm_Retryable) = true) as Hn.
  { destruct (sm_Retryable _).
    - apply may_return_bind in Hnext as (t & _ & Hret). injection Hret as <-. split; [done|]. by eexists.
    - injection Hnext as <-. split; [by intros []|done]. }
  pose proof (follows_report d rc.1 rc.2 stamp next Hn). effects.
Qed.

Lemma status_worker_follows m w :
  (cfg.(cfg_Kafka).(kc_StatusTopic), m) ∈ w.(w_log) ->
  obeys (handle_status (co cfg).(co_statusWorker) m) (fun _ _ _ => True) no_token w.
Proof using Htopics.
  intros Hin. destruct (unmarshal_status m.(km_Value)) as [s|] eqn:Eu.
  2:{ apply (obeys_follows None); [done|]. unfold handle_status. rewrite Eu. effects. }
  apply (obeys_follows (Some (Reported s))).
  { intros x [= <-]. eapply signal_in; [exact Hin|]. by rewrite signal_status, Eu. }
  unfold handle_status, record_status, count_status, schedule_retry. rewrite Eu.
  destruct (sm_Retryable s) eqn:Er; effects; by apply follows_retry.
Qed.

Lemma retry_worker_follows i idx topic m w :
  cfg.(cfg_Kafka).(kc_RetryTopics) !! idx = Some topic -> (topic, m) ∈ w.(w_log) ->
  obeys (handle_retry (co cfg).(co_retryWorker) i m) (fun _ _ _ => True) no_token w.
Proof using Htopics.
  intros Hidx Hin. destruct (unmarshal_retry m.(km_Value)) as [r|] eqn:Eu.
  2:{ apply (obeys_follows None); [done|]. unfold handle_retry. rewrite Eu. effects. }
  apply (obeys_follows (Some (RetryAsked idx r))).
  { intros x [= <-]. eapply signal_in; [exact Hin|]. by erewrite signal_retry, Eu by done. }
  unfold handle_retry, sleepUntil. rewrite Eu. effects; apply follows_again.
Qed.

Lemma starts_follow w p : starts cfg w p -> obeys p (fun _ _ _ => True) no_token w.
Proof using Htopics Hprovider.
  assert (forall A (m : M A), stable (follows None) m -> safe m) as Hwrites
    by (intros A m Hm w'; by apply (obeys_follows None)).
  intros Hstart. destruct Hstart as [e ctx| |fuel m Hin|m Hin|idx topic m Hidx Hin]; eapply obeys_ignore.
  - apply (eff_serve_given (follows None) (fun A => safe) Hwrites (api cfg) safe_first_call e ctx).
  - apply (eff_tick_given (follows None) (fun A => safe) Hwrites (co cfg).(co_calls) safe_first_call).
  - by apply call_worker_follows.
  - by apply status_worker_follows.
  - by eapply retry_worker_follows.
Qed.

Lemma reachable_conversation w : reachable cfg w -> conversation w.
Proof using Htopics Hprovider Hfresh.
  intros [ts Hr].
  destruct (steps_supervised (H := talk) (starts cfg) (fun w p _ => starts_follow w p) _ _ Hr) as [[Hw _] _];
    [|exact Hw].
  apply (idle_supervised (H := talk)). split; [done|]. intros x Hx. by apply elem_of_nil in Hx.
Qed.
End Refinement.

(** ** Properties *)

Section LifeProperties.
Context `{Env} `{PgOrder} `{UuidText} `{Gocql} `{Fiber} `{Provider} (cfg : Config).

(** Claim C3: the platform refines the protocol of a call: under any faults,
    redeliveries and interleaving of requests, ticks and workers, and however often
    the writers repeat a record, the records on its topics, in the order they were
    published, are a conversation the protocol allows. *)
Theorem platform_refines_life (w : World) :
  topics_distinct cfg.(cfg_Kafka) -> provider_outside -> (forall n m, env_uuid n = env_uuid m -> n = m) ->
  reachable cfg w -> rtc life [] (signals cfg w).
Proof. intros Ht Hp Hf Hr. by apply (reachable_conversation cfg Hf Ht Hp). Qed.

(** Claim C4: the history of a call can be read off the topics: the first that is
    said of a call is its first attempt, to the same number of the same campaign as
    all that follows; any other record of a first attempt of that call is a copy of
    it, of which there are ten at most, one for each time its writer tried; and any
    other attempt comes after that first attempt, the report that it failed and may
    be tried again, and the retry that was asked for, in this order. *)
Theorem call_history (w : World) :
  topics_distinct cfg.(cfg_Kafka) -> provider_outside -> (forall n m, env_uuid n = env_uuid m -> n = m) ->
  reachable cfg w ->
  let l := signals cfg w in
  (forall j x, l !! j = Some x ->
     exists i d, (i <= j)%nat /\ l !! i = Some (Dispatched d) /\ subject (Dispatched d) = subject x /\
       d.(dm_Attempt) = 1 /\
       (forall k y, (k < i)%nat -> l !! k = Some y -> call_of y <> call_of x) /\
       (forall k d', l !! k = Some (Dispatched d') -> d'.(dm_CallID) = call_of x ->
         d'.(dm_Attempt) = 1 -> d' = d) /\
       (length (firsts (call_of x) l) <= 10)%nat) /\
  (forall i4 d, l !! i4 = Some (Dispatched d) -> d.(dm_Attempt) <> 1 ->
     exists i1 i2 i3 d1 s r, (i1 < i2 < i3)%nat /\ (i3 < i4)%nat /\
       l !! i1 = Some (Dispatched d1) /\ l !! i2 = Some (Reported s) /\ l !! i3 = Some (RetryAsked 0 r) /\
       subject (Dispatched d1) = subject (Dispatched d) /\ subject (Reported s) = subject (Dispatched d) /\
       subject (RetryAsked 0 r) = subject (Dispatched d) /\
       d1.(dm_Attempt) = 1 /\ 1 < d1.(dm_MaxAttempts) /\ s.(sm_Attempt) = 1 /\ s.(sm_Retryable) = true /\
       d.(dm_Attempt) = 2).
Proof.
  intros Ht Hp Hf Hr l.
  assert (ordered l) as Hl by (apply life_ordered, (reachable_conversation cfg Hf Ht Hp), Hr).
  split; [|by apply second_chance].
  intros j x Hj. destruct (origin l Hl j x Hj) as (i & d & Hi & Hd & Hs & Ha & Hfirst).
  pose proof (call_subject _ _ Hs) as Hc. cbn in Hc. exists i, d. split_and!; [done..| | |by apply firsts_bound].
  - intros k y Hk Hy. rewrite <- Hc. apply Hfirst, elem_of_take. eauto.
  - intros k d' Hd' Hid Ha'. symmetry.
    apply (first_unique l Hl (S (i + k)) i k); [lia|lia|done|done|by rewrite Hc|done|done].
Qed.
End LifeProperties.

(** ** Examples: the run of [run_retried], which dispatches a call twice *)

#[local] Existing Instances failing_env bit_uuid stable_sort_order unary_pages json_bodies run_provider.

Lemma run_fresh (n m : nat) : env_uuid n = env_uuid m -> n = m.
Proof. intros [= Hn]. lia. Qed.

Lemma platform_refines_life_witness :
  length (signals default_config run_retried) = 4%nat /\
  rtc life [] (signals default_config run_retried).
Proof.
  split; [vm_compute; reflexivity|].
  apply (platform_refines_life default_config run_retried);
    [apply default_topics_distinct | apply mock_outside | apply run_fresh | apply run_retried_reachable].
Defined.

Lemma call_history_witness :
  exists d i1 i2 i3 d1 s r,
    signals default_config run_retried !! 3%nat = Some (Dispatched d) /\ (i1 < i2 < i3)%nat /\ (i3 < 3)%nat /\
    signals default_config run_retried !! i1 = Some (Dispatched d1) /\
    signals default_config run_retried !! i2 = Some (Reported s) /\
    signals default_config run_retried !! i3 = Some (RetryAsked 0 r) /\ d.(dm_Attempt) = 2.
Proof.
  assert (match signals default_config run_retried !! 3%nat with
          | Some (Dispatched d) => d.(dm_Attempt) | _ => 0 end = 2) as Ha by (vm_compute; reflexivity).
  destruct (signals default_config run_retried !! 3%nat) as [[d| |]|] eqn:E; try discriminate Ha.
  destruct (proj2 (call_history default_config run_retried default_topics_distinct mock_outside run_fresh
    run_retried_reachable) 3%nat d E) as (i1 & i2 & i3 & d1 & s & r & [? ?] & ? & ? & ? & ? & ? & ? & ? & ? & ? & ? & ? & ?);
    [rewrite Ha; discriminate|].
  exists d, i1, i2, i3, d1, s, r. split_and!; first [assumption | exact Ha | exact E | exact eq_refl].
Defined.
