(* ===== verification/Races.v ===== *)
(** What goes wrong when handlers run at the same time: nothing keeps two
    schedulers from taking the same targets, nor a change of a campaign from being
    undone by another that had read it before. *)
From S2P Require Import Prelude Errors GoTime Json Domain Messages World Interleaving Postgres.
From S2P Require Import PostgresSpec CampaignService CallService CallLists Requests Handlers Scheduler.
From S2P Require Import CallWorker StatusWorker RetryWorker Effects Config Container System Pipeline.
From S2P Require Import Protocol Life.

#[local] Existing Instances quiet_env bit_uuid stable_sort_order unary_pages json_bodies.
#[local] Instance race_provider : Provider := mock_PlaceCall.

(** One campaign, with one target, that was started. *)
Definition race_started : World :=
  (serve (api default_config) EStartCampaign (to_api (bit_uuid_text run_id) JNull) one_target_world).1.

Lemma race_started_reachable : reachable default_config race_started.
Proof. apply reachable_run; [apply start_request|]. apply one_target_reachable. Qed.

(** ** A change that is undone *)

Section Undone.
Context `{Env} `{PgOrder}.

(** The one request of a read, and what is left of it. *)
Lemma read_campaign id w r :
  reliable -> w.(w_campaigns) !! id = Some r ->
  advance 1 (CampaignRepository_Get id) w = (bump w, mret (toDomain r)).
Proof.
  intros Hr Hl. unfold CampaignRepository_Get, on_err. rewrite advance_bind, advance_map_result by done.
  change (advance 1 (external ?f) w) with ((execute f w).1, Return (execute f w).2 : M (option campaignRecord)).
  unfold execute. rewrite Hr. replace (w_campaigns (bump w)) with w.(w_campaigns) by (by destruct w). by rewrite Hl.
Qed.

(** Claim C39: a change of a campaign can be undone by a PUT that had read it before:
    whatever happened to the campaign between the read and the write of the PUT (it
    was paused, completed, renamed, given another limit), every column but the
    creation time is written back as it was read, changed as the PUT asks. *)
Theorem update_writes_back_what_it_read (d : int) (u : UpdateCampaignInput) (w w1 w2 w3 : World)
    (r r' : campaignRecord) (rest : M Campaign) (c : Campaign) :
  reliable -> w.(w_campaigns) !! u.(ui_ID) = Some r -> r.(cr_ID) = u.(ui_ID) ->
  advance 1 (Update d u) w = (w1, rest) ->
  w2.(w_campaigns) !! u.(ui_ID) = Some r' -> run rest w2 = (w3, Ok c) ->
  exists t stamp r3, w3.(w_campaigns) !! u.(ui_ID) = Some r3 /\
    r3 = update_row (apply_update d u t (toDomain r)) stamp r' /\
    r3.(cr_Status) = r.(cr_Status) /\ r3.(cr_TimeZone) = r.(cr_TimeZone) /\
    (u.(ui_Name) = None -> r3.(cr_Name) = r.(cr_Name)) /\
    (u.(ui_MaxConcurrentCalls) = None -> r3.(cr_MaxConcurrentCalls) = r.(cr_MaxConcurrentCalls)).
Proof.
  intros Hr Hl Hid Hadv Hl' Hrun.
  assert (rest = (mret (toDomain r) ≫= fun campaign => stamp ← now;
    let campaign := apply_update d u stamp campaign in
    CampaignRepository_Update campaign ≫= fun _ =>
    match u.(ui_BusinessHours) with
    | None => mret ()
    | Some hours => on_err (wrapf "campaign service: update business hours")
        (BusinessHourRepository_Replace campaign.(c_ID) (toDomainBusinessHours hours))
    end ≫= fun _ => mret campaign)) as ->.
  { revert Hadv. unfold Update. rewrite advance_bind by done. rewrite (read_campaign _ _ r) by done.
    cbn [fst snd]. by intros [= _ <-]. }
  rewrite ret_bind, (bind_step now _ _ _ _ eq_refl) in Hrun. cbv zeta in Hrun.
  set (t := env_now _) in Hrun. set (c' := apply_update _ _ _ _) in Hrun.
  apply bind_Ok in Hrun as (x & w4 & Hu & Hrun). apply bind_Ok in Hrun as (y & w5 & Hh & Hrun).
  injection Hrun as <- <-.
  assert (w4.(w_campaigns) !! u.(ui_ID) = Some (update_row c' (env_now (S (S w2.(w_tick)))) r')) as H4.
  { revert Hu. unfold CampaignRepository_Update. rewrite run_bind, run_on_err, external_reliable by done.
    rewrite !tick_bump. unfold update_campaign. change (c_ID c') with r.(cr_ID). rewrite Hid.
    replace (w_campaigns (bump (bump w2))) with w2.(w_campaigns) by (by destruct w2). rewrite Hl'.
    destruct (campaign_row_ok _ _); [|done]. cbn. intros [= <- _].
    destruct w2. cbn. apply lookup_insert_eq. }
  assert (w5.(w_campaigns) = w4.(w_campaigns)) as H5.
  { destruct u.(ui_BusinessHours) as [hs|]; [|by injection Hh as <- _]. apply on_err_Ok in Hh.
    pose proof (stable_ran _ _ _ _ _ (replace_hours_tables _ _) Hh) as Hk. unfold keeps, other_tables in Hk. by injection Hk. }
  exists t, (env_now (S (S w2.(w_tick)))), (update_row c' (env_now (S (S w2.(w_tick)))) r').
  rewrite H5. split_and!; [done..| |]; intros Hn; subst c'; unfold update_row, apply_update; cbn; by rewrite Hn.
Qed.
End Undone.

(** A PUT that renames the campaign; it is paused when the PUT has read it. *)
Definition race_input : UpdateCampaignInput := mkUpdateInput run_id (Some "summer") None None None None.
Definition race_paused : World := (Pause run_id (advance 1 (Update 10 race_input) race_started).1).1.

Definition stored_status (w : World) : option CampaignStatus := cr_Status <$> w.(w_campaigns) !! run_id.

Definition stored_row (w : World) : campaignRecord := default sample_row (w.(w_campaigns) !! run_id).

Lemma stored_row_there w : stored_status w <> None -> w.(w_campaigns) !! run_id = Some (stored_row w).
Proof. unfold stored_status, stored_row. by destruct (w_campaigns w !! run_id). Qed.

Lemma update_writes_back_witness :
  let rest := (advance 1 (Update 10 race_input) race_started).2 in
  stored_status race_paused = Some CampaignStatusPaused /\
  stored_status (run rest race_paused).1 = Some CampaignStatusInProgress.
Proof.
  intros rest. split; [vm_compute; reflexivity|].
  assert (is_ok (run rest race_paused).2 = true) as Hok by (vm_compute; reflexivity).
  assert (cr_Status (stored_row race_started) = CampaignStatusInProgress) as Hst by (vm_compute; reflexivity).
  destruct (run rest race_paused) as [w3 [c|e]] eqn:Hrun; [|discriminate Hok].
  destruct (update_writes_back_what_it_read 10 race_input race_started
    (advance 1 (Update 10 race_input) race_started).1 race_paused w3 (stored_row race_started)
    (stored_row race_paused) rest c) as (t & stamp & r3 & Hl3 & _ & Hs & _).
  - exact quiet_reliable.
  - apply stored_row_there. vm_compute; discriminate.
  - vm_compute; reflexivity.
  - apply surjective_pairing.
  - apply stored_row_there. vm_compute; discriminate.
  - exact Hrun.
  - unfold stored_status. cbn [fst]. change (ui_ID race_input) with run_id in Hl3. rewrite Hl3. cbn.
    by rewrite Hs, Hst.
Defined.
