(* ===== verification/Listing.v ===== *)
(** Reading all campaigns page by page (List of the campaign service, behind
    GET /campaigns): a client that asks for the campaigns after the last one of the
    page before sees them all, while others create campaigns. *)
From stdpp Require Import sorting.
From S2P Require Import Prelude Errors GoTime Json Domain Messages World Interleaving Postgres.
From S2P Require Import PostgresInv PostgresSpec CampaignService CallService CallLists Requests.
From S2P Require Import Handlers Scheduler CallWorker StatusWorker RetryWorker Effects Integrity.
From S2P Require Import Config Container System.

(** The campaigns of a listing that goes on after [after]. *)
Definition comes_after (after : option uuid) (id : uuid) : Prop :=
  match after with Some a => (a < id)%N | None => True end.

Notation ascending := (StronglySorted N.lt).

(** ** One page *)

Section Page.
Context `{Env} `{PgOrder}.

(** The rows a listing has not shown yet, in its order. *)
Definition rows_after (after : option uuid) (w : World) : list campaignRecord :=
  pg_order (fun r => Z.of_N r.(cr_ID))
    match after with
    | Some a => List.filter (fun r => N.ltb a r.(cr_ID)) (table_rows w.(w_campaigns)).*2
    | None => (table_rows w.(w_campaigns)).*2
    end.

Definition page_size (limit : int) : nat := Z.to_nat (if limit <=? 0 then 50 else limit).

Lemma filter_sublist {A} (f : A -> bool) l : List.filter f l `sublist_of` l.
Proof. induction l as [|x l IH]; cbn; [done|]. destruct (f x); by constructor. Qed.

Lemma table_ids (w : World) : pg_ok w -> cr_ID <$> (table_rows w.(w_campaigns)).*2 = (table_rows w.(w_campaigns)).*1.
Proof.
  intros Hw. rewrite <- list_fmap_compose. apply list_fmap_ext. intros i [id r] Hl.
  apply list_elem_of_lookup_2, elem_of_map_to_list in Hl. apply (ok_campaign w Hw _ _ Hl).
Qed.

Lemma rows_after_elem after w r :
  pg_ok w -> r ∈ rows_after after w <-> w.(w_campaigns) !! r.(cr_ID) = Some r /\ comes_after after r.(cr_ID).
Proof.
  intros Hw. unfold rows_after. rewrite pg_order_perm.
  assert (r ∈ (table_rows w.(w_campaigns)).*2 <-> w.(w_campaigns) !! r.(cr_ID) = Some r) as Hin.
  { unfold table_rows. rewrite list_elem_of_fmap. split.
    - intros ([id r'] & -> & Hl%elem_of_map_to_list). cbn. by rewrite (proj1 (ok_campaign w Hw _ _ Hl)).
    - intros Hl. exists (r.(cr_ID), r). split; [done|]. by apply elem_of_map_to_list. }
  destruct after as [a|]; cbn; [|tauto].
  rewrite list_elem_of_In, filter_In, <- list_elem_of_In, N.ltb_lt, Hin. tauto.
Qed.

Lemma ascending_of_sorted (l : list campaignRecord) :
  Sorted (fun r s => Z.of_N r.(cr_ID) <= Z.of_N s.(cr_ID)) l -> NoDup (cr_ID <$> l) -> ascending (cr_ID <$> l).
Proof.
  intros Hs%Sorted_StronglySorted; [|intros ???; lia].
  induction Hs as [|r l _ IH Hr]; cbn; intros Hd; [constructor|]. apply NoDup_cons in Hd as [Hn Hd].
  constructor; [by apply IH|]. apply Forall_fmap, Forall_forall. intros s Hin.
  rewrite Forall_forall in Hr. specialize (Hr s Hin). cbn.
  assert (r.(cr_ID) <> s.(cr_ID)) by (intros Heq; apply Hn; rewrite Heq; by apply list_elem_of_fmap_2). lia.
Qed.

Lemma rows_after_ascending after w : pg_ok w -> ascending (cr_ID <$> rows_after after w).
Proof.
  intros Hw. apply ascending_of_sorted; [apply pg_order_sorted|]. unfold rows_after. rewrite pg_order_perm.
  assert (NoDup (cr_ID <$> (table_rows w.(w_campaigns)).*2)) as Hd.
  { rewrite (table_ids w Hw). apply NoDup_fst_map_to_list. }
  destruct after; [|done]. eapply sublist_NoDup; [exact Hd|]. apply fmap_sublist, filter_sublist.
Qed.

(** A page is the beginning of what was not shown yet. *)
Lemma list_run after limit w :
  (exists e, List_ after limit w = (bump w, Err e)) \/
  List_ after limit w = (bump w, Ok (toDomain <$> take (page_size limit) (rows_after after w))).
Proof.
  unfold List_, CampaignRepository_List. rewrite run_on_err, run_external. unfold execute.
  destruct (env_outcome _); cbn [fst snd map_err]; [right|left; by eexists..].
  by destruct w.
Qed.

Lemma page_size_pos limit : exists n, page_size limit = S n.
Proof. exists (pred (page_size limit)). unfold page_size. destruct (limit <=? 0) eqn:?; zbool; lia. Qed.
End Page.

Section PageSpec.
Context `{Env} `{PgOrder}.

Lemma ids_of_page (l : list campaignRecord) : c_ID <$> (toDomain <$> l) = cr_ID <$> l.
Proof. by rewrite <- list_fmap_compose. Qed.

(** What is on a page that is not empty, and what is still to come. *)
Lemma page_spec after limit w c :
  let page := toDomain <$> take (page_size limit) (rows_after after w) in
  pg_ok w -> last page = Some c ->
  ascending (c_ID <$> page) /\
  (forall id, id ∈ (c_ID <$> page) -> comes_after after id /\ (id <= c.(c_ID))%N) /\
  (forall id, is_Some (w.(w_campaigns) !! id) -> comes_after after id ->
     id ∈ (c_ID <$> page) \/ (c.(c_ID) < id)%N).
Proof.
  intros page Hw Hlast. pose proof (rows_after_ascending after w Hw) as Hasc.
  rewrite <- (take_drop (page_size limit) (rows_after after w)), fmap_app in Hasc.
  apply StronglySorted_app in Hasc as (Hcross & Hasc & _).
  rewrite <- ids_of_page in Hcross, Hasc. fold page in Hcross, Hasc.
  assert (c.(c_ID) ∈ (c_ID <$> page)) as Hc by (by apply list_elem_of_fmap_2, last_Some_elem_of).
  split_and!; [exact Hasc| |].
  - intros id Hid. split.
    + apply list_elem_of_fmap in Hid as (d & -> & Hd). apply list_elem_of_fmap in Hd as (r & -> & Hr).
      apply (rows_after_elem after w r Hw). by eapply subseteq_take.
    + apply last_Some in Hlast as [l' Hl]. rewrite Hl, fmap_app in Hid, Hasc.
      apply elem_of_app in Hid as [Hid|Hid%list_elem_of_singleton]; [|subst; cbn; lia].
      apply N.lt_le_incl. eapply StronglySorted_app_1_elem_of; [exact Hasc|done|by left].
  - intros id [r Hr] Ha. pose proof (ok_campaign w Hw _ _ Hr) as [Hid _].
    assert (r ∈ rows_after after w) as Hin by (apply rows_after_elem; [done|by rewrite Hid]).
    rewrite <- (take_drop (page_size limit) (rows_after after w)) in Hin. rewrite <- Hid.
    apply elem_of_app in Hin as [Hin|Hin].
    + left. unfold page. rewrite ids_of_page. by apply list_elem_of_fmap_2.
    + right. apply Hcross; [done|]. by apply list_elem_of_fmap_2.
Qed.

Lemma page_empty after limit w :
  pg_ok w -> toDomain <$> take (page_size limit) (rows_after after w) = [] ->
  forall id, is_Some (w.(w_campaigns) !! id) -> comes_after after id -> False.
Proof.
  intros Hw He id [r Hr] Ha. pose proof (ok_campaign w Hw _ _ Hr) as [Hid _].
  assert (r ∈ rows_after after w) as Hin by (apply rows_after_elem; [done|by rewrite Hid]).
  destruct (page_size_pos limit) as [n Hn]. rewrite Hn in He.
  destruct (rows_after after w); [by apply not_elem_of_nil in Hin|done].
Qed.
End PageSpec.

(** ** Every page, while others are at work *)

(** No campaign is ever deleted. *)
Definition campaigns_stay : relation World := fun w w' =>
  forall id, is_Some (w.(w_campaigns) !! id) -> is_Some (w'.(w_campaigns) !! id).

Section Stay.
Context `{Env}.

Lemma stay_same w w' : w'.(w_campaigns) = w.(w_campaigns) -> campaigns_stay w w'.
Proof. unfold campaigns_stay. by intros ->. Qed.
#[local] Instance stay_preorder : PreOrder campaigns_stay.
Proof. split; unfold campaigns_stay; [by intros w id|]. intros x y z Hxy Hyz id Hx. by apply Hyz, Hxy. Qed.
#[export] Instance stay_run : CanRun campaigns_stay.
Proof. apply (watch_run w_campaigns); [apply stay_same|apply _|unseen]. Qed.
#[export] Instance stay_campaigns : CanWriteCampaigns campaigns_stay.
Proof.
  split.
  - intros r w w' a Hi id Hid. unfold insert_campaign in Hi. case_match; simplify_eq. destruct w; cbn in *.
    rewrite lookup_insert_is_Some'. by right.
  - intros id f w w' n _ Hu id' Hid. unfold update_campaign in Hu. repeat case_match; simplify_eq; [|done].
    destruct w; cbn in *. rewrite lookup_insert_is_Some'. by right.
Qed.
#[export] Instance stay_hours : CanWriteHours campaigns_stay.
Proof. apply watch_hours. intros w w' Ht _. unfold other_tables in Ht. simplify_eq. by apply stay_same. Qed.
#[export] Instance stay_insert_targets : CanInsertTargets campaigns_stay.
Proof. apply (watch_insert_targets w_campaigns); [apply stay_same|unseen]. Qed.
#[export] Instance stay_update_targets : CanUpdateTargets campaigns_stay.
Proof. apply (watch_update_targets w_campaigns); [apply stay_same|unseen]. Qed.
#[export] Instance stay_ensure : CanEnsureStats campaigns_stay.
Proof. apply (watch_ensure w_campaigns); [apply stay_same|apply _|unseen]. Qed.
#[export] Instance stay_delta : CanApplyDelta campaigns_stay.
Proof. apply (watch_delta w_campaigns); [apply stay_same|apply _|unseen]. Qed.
#[export] Instance stay_calls : CanWriteCalls campaigns_stay.
Proof. apply (watch_calls w_campaigns); [apply stay_same|unseen..]. Qed.
#[export] Instance stay_attempts : CanWriteAttempts campaigns_stay.
Proof. apply (watch_attempts w_campaigns); [apply stay_same|unseen]. Qed.
#[export] Instance stay_redis : CanWriteRedis campaigns_stay.
Proof. apply (watch_redis w_campaigns); [apply stay_same|unseen]. Qed.
#[export] Instance stay_publish : CanPublish campaigns_stay.
Proof. apply (watch_publish w_campaigns); [apply stay_same|unseen]. Qed.
#[export] Instance stay_commit : CanCommit campaigns_stay.
Proof. apply (watch_commit w_campaigns); [apply stay_same|unseen]. Qed.
End Stay.

Section Pages.
Context `{Env} `{PgOrder} `{UuidText} `{Gocql} `{Fiber} `{Provider} (cfg : Config) (limit : int).

(** What a client reads that follows the pages to the end: before each of its
    requests the platform has run on. *)
Inductive pages : option uuid -> World -> list Campaign -> Prop :=
| pages_end after w w1 w2 :
    leads cfg w w1 -> List_ after limit w1 = (w2, Ok []) -> pages after w []
| pages_next after w w1 w2 page c rest :
    leads cfg w w1 -> List_ after limit w1 = (w2, Ok page) -> last page = Some c ->
    pages (Some c.(c_ID)) w2 rest -> pages after w (page ++ rest).

Lemma leads_reachable w w' : leads cfg w w' -> reachable cfg w'.
Proof. intros (ts & ts' & Hr & Hr'). exists ts'. by etrans. Qed.

Lemma pages_spec after w cs :
  provider_outside -> pages after w cs ->
  ascending (c_ID <$> cs) /\
  (forall id, id ∈ (c_ID <$> cs) -> comes_after after id) /\
  (forall id, is_Some (w.(w_campaigns) !! id) -> comes_after after id -> id ∈ (c_ID <$> cs)).
Proof.
  intros Hp. assert (forall w w', leads cfg w w' -> campaigns_stay w w') as Hstay.
  { intros. apply (leads_respects cfg); [apply _| |done]. intros w1 p. by apply starts_respects; try apply _. }
  assert (forall w w', leads cfg w w' -> pg_ok w') as Hok.
  { intros w1 w2 Hl. apply (integrity_reachable cfg); [done|by eapply leads_reachable]. }
  induction 1 as [after w w1 w2 Hl Hrun|after w w1 w2 page c rest Hl Hrun Hlast _ IH].
  - split_and!; [constructor|set_solver|]. intros id Hid Ha. exfalso.
    destruct (list_run after limit w1) as [[e He]|He]; rewrite He in Hrun; simplify_eq.
    match goal with H : _ = [] |- _ => by apply (page_empty after limit w1 (Hok _ _ Hl) H id (Hstay _ _ Hl id Hid)) end.
  - destruct (list_run after limit w1) as [[e He]|He]; rewrite He in Hrun; simplify_eq.
    destruct (page_spec after limit w1 c (Hok _ _ Hl) Hlast) as (Hasc & Hfrom & Hto).
    destruct IH as (Hasc' & Hfrom' & Hto'). rewrite fmap_app. cbn [comes_after] in *. split_and!.
    + apply StronglySorted_app_2; [|done..]. intros i j Hi Hj.
      specialize (Hfrom i Hi). specialize (Hfrom' j Hj). lia.
    + intros id [Hid|Hid]%elem_of_app; [by apply Hfrom|]. specialize (Hfrom' id Hid).
      assert (c.(c_ID) ∈ (c_ID <$> (toDomain <$> take (page_size limit) (rows_after after w1)))) as Hc
        by (by apply list_elem_of_fmap_2, last_Some_elem_of).
      destruct (Hfrom _ Hc) as [Ha _]. destruct after; cbn in *; [lia|done].
    + intros id Hid Ha. apply elem_of_app. destruct (Hto id (Hstay _ _ Hl id Hid) Ha) as [|Hgt]; [by left|].
      right. apply Hto'; [|done]. destruct w1. by apply (Hstay _ _ Hl).
Qed.

(** Claim C33: a client that follows the pages of the campaign list misses no
    campaign that was there when it began and is shown none twice, although
    between its requests the rest of the platform goes on creating and changing
    campaigns: it reads ascending identifiers, among them those of every campaign
    of the state it started in, whatever the page size it asks for. *)
Theorem pages_miss_no_campaign (w : World) (cs : list Campaign) :
  provider_outside -> pages None w cs ->
  ascending (c_ID <$> cs) /\
  forall id, is_Some (w.(w_campaigns) !! id) -> id ∈ (c_ID <$> cs).
Proof.
  intros Hp Hpages. destruct (pages_spec None w cs Hp Hpages) as (Hasc & _ & Hall).
  split; [exact Hasc|]. intros id Hid. by apply Hall.
Qed.
End Pages.

(** ** All pages, when nobody else is at work *)

Section Alone.
Context `{Env} `{PgOrder} (limit : int).

(** A client that reads on until a page is empty, for at most [fuel] pages. *)
Fixpoint list_all (fuel : nat) (after : option uuid) : M (list Campaign) :=
  match fuel with
  | O => throw (New "too many pages")
  | S fuel =>
      page ← List_ after limit;
      match last page with
      | None => mret []
      | Some c => rest ← list_all fuel (Some c.(c_ID)); mret (page ++ rest)
      end
  end.

Lemma ascending_rows (l : list campaignRecord) :
  ascending (cr_ID <$> l) -> StronglySorted (fun r s => (r.(cr_ID) < s.(cr_ID))%N) l.
Proof.
  induction l as [|r l IH]; cbn; intros Hs; [constructor|]. apply StronglySorted_cons in Hs as [Hr Hs].
  constructor; [by apply IH|]. rewrite Forall_fmap in Hr. exact Hr.
Qed.

(** What comes after the last row of a page is what the page left out. *)
Lemma rows_after_next after n w r :
  pg_ok w -> last (take n (rows_after after w)) = Some r ->
  rows_after (Some r.(cr_ID)) w = drop n (rows_after after w).
Proof.
  intros Hw Hlast. pose proof (ascending_rows _ (rows_after_ascending after w Hw)) as Hs.
  pose proof (ascending_rows _ (rows_after_ascending (Some r.(cr_ID)) w Hw)) as Hs'.
  assert (forall (l : list campaignRecord), StronglySorted (fun r s => (r.(cr_ID) < s.(cr_ID))%N) l -> NoDup l) as Hnd.
  { induction 1 as [|x l _ IH Hx]; constructor; [|done]. rewrite Forall_forall in Hx. intros Hin.
    specialize (Hx x Hin). cbn in Hx. lia. }
  rewrite <- (take_drop n (rows_after after w)) in Hs. pose proof Hs as (Hcross & Hs1 & Hs2)%StronglySorted_app.
  apply (StronglySorted_unique_strong (fun r s => (r.(cr_ID) < s.(cr_ID))%N)); [intros; lia|done..|].
  apply NoDup_Permutation; [by apply Hnd..|]. intros s. rewrite (rows_after_elem _ _ _ Hw). cbn.
  pose proof (last_Some_elem_of _ _ Hlast) as Hr. split.
  - intros [Hl Hlt]. assert (s ∈ rows_after after w) as Hin.
    { apply rows_after_elem; [done|]. split; [done|].
      assert (comes_after after r.(cr_ID)) as Ha by (apply (rows_after_elem after w r Hw); by eapply subseteq_take).
      destruct after; cbn in *; [lia|done]. }
    rewrite <- (take_drop n (rows_after after w)) in Hin. apply elem_of_app in Hin as [Hin|]; [|done]. exfalso.
    apply last_Some in Hlast as [l' Hl']. rewrite Hl' in Hin, Hs1.
    apply elem_of_app in Hin as [Hin|Hin%list_elem_of_singleton]; [|subst; lia].
    pose proof (StronglySorted_app_1_elem_of _ _ _ s r Hs1 Hin) as Hlt'.
    specialize (Hlt' ltac:(by left)). cbn in Hlt'. lia.
  - intros Hin. split; [|by apply Hcross]. apply (rows_after_elem after w s Hw). by eapply subseteq_drop.
Qed.

Lemma rows_after_bump after w : rows_after after (bump w) = rows_after after w.
Proof. by destruct w. Qed.

Lemma list_all_run n : forall after w,
  reliable -> pg_ok w -> (length (rows_after after w) <= n * page_size limit)%nat ->
  exists w', list_all (S n) after w = (w', Ok (toDomain <$> rows_after after w)) /\ stores w' = stores w.
Proof.
  induction n as [|n IH]; intros after w Hr Hw Hn; cbn [list_all];
    (destruct (list_run after limit w) as [[e He]|He];
      [exfalso; unfold List_, CampaignRepository_List in He; rewrite run_on_err, external_reliable in He by done; done|]);
    rewrite (bind_step _ _ _ _ _ He), fmap_last.
  - destruct (rows_after after w); [|cbn in Hn; lia]. rewrite take_nil. eexists. split; [done|apply stores_bump].
  - destruct (last (take _ _)) as [r|] eqn:Hlast; cbn [fmap option_fmap option_map].
    + change (c_ID (toDomain r)) with r.(cr_ID).
      destruct (IH (Some r.(cr_ID)) (bump w)) as (w' & Hrun & Hst); [done|by apply pg_ok_bump| |].
      { rewrite rows_after_bump, (rows_after_next _ _ _ _ Hw Hlast), length_drop. lia. }
      rewrite (bind_step _ _ _ _ _ Hrun). exists w'. split; [|by rewrite Hst, stores_bump].
      rewrite rows_after_bump, (rows_after_next _ _ _ _ Hw Hlast). cbn.
      by rewrite <- fmap_app, take_drop.
    + apply last_None in Hlast. destruct (page_size_pos limit) as [k Hk]. rewrite Hk in Hlast.
      destruct (rows_after after w); [|done]. eexists. split; [done|apply stores_bump].
Qed.

(** Following the pages ends, and yields the whole list: while nothing
    fails and nobody writes, a client is done one page after the last campaign, and
    the pages put together are all campaigns in the order of their identifiers,
    each once, whatever page size it asks for. *)
Theorem pages_are_the_list (n : nat) (w : World) :
  reliable -> pg_ok w -> (size w.(w_campaigns) <= n * page_size limit)%nat ->
  exists w' rows, list_all (S n) None w = (w', Ok (toDomain <$> rows)) /\ stores w' = stores w /\
    rows ≡ₚ (map_to_list w.(w_campaigns)).*2 /\ ascending (cr_ID <$> rows).
Proof.
  intros Hr Hw Hn. pose proof (pg_order_perm (fun r => Z.of_N r.(cr_ID)) (table_rows w.(w_campaigns)).*2) as Hperm.
  destruct (list_all_run n None w Hr Hw) as (w' & Hrun & Hst).
  { unfold rows_after. rewrite Hperm, length_fmap. unfold table_rows. by rewrite length_map_to_list. }
  exists w', (rows_after None w). split_and!; [done..|exact Hperm|by apply rows_after_ascending].
Qed.
End Alone.

(** ** A client that reads a campaign per page, while another is created *)

#[local] Existing Instances quiet_env bit_uuid stable_sort_order unary_pages json_bodies.
#[local] Instance listing_provider : Provider := mock_PlaceCall.

Definition other_body : json := JObj [("name", JString "autumn"); ("time_zone", JString "UTC")].

Definition listing_begun : World := one_target_world.
Definition listing_grown : World :=
  (serve (api default_config) ECreateCampaign (to_api EmptyString other_body) (bump listing_begun)).1.

Lemma leads_refl w : reachable default_config w -> leads default_config w w.
Proof. intros [ts Hr]. exists ts, ts. by split. Qed.

Lemma leads_serve e ctx w :
  reachable default_config w -> leads default_config w (serve (api default_config) e ctx w).1.
Proof.
  intros [ts Hr]. exists ts, ts. split; [exact Hr|].
  pose proof (machine_runs (starts default_config) _ w ts (start_request _ _ e ctx)) as Hs.
  by rewrite run_ignore in Hs.
Qed.

Lemma reachable_bump w : reachable default_config w -> reachable default_config (bump w).
Proof. intros [ts Hr]. exists ts. eapply rtc_r; [exact Hr|apply machine_idle]. Qed.

Lemma pages_witness :
  exists c1 c2, pages default_config 1 None listing_begun [c1; c2] /\
    ascending (c_ID <$> [c1; c2]) /\
    forall id, is_Some (listing_begun.(w_campaigns) !! id) -> id ∈ (c_ID <$> [c1; c2]).
Proof.
  assert (reachable default_config listing_begun) as H0 by apply one_target_reachable.
  assert (exists c1 c2, pages default_config 1 None listing_begun [c1; c2]) as (c1 & c2 & Hp).
  { eexists _, _. eapply (pages_next _ _ None _ listing_begun (bump listing_begun) [_] _ [_]);
      [by apply leads_refl|vm_compute; reflexivity|reflexivity|].
    eapply (pages_next _ _ _ _ listing_grown (bump listing_grown) [_] _ []);
      [apply leads_serve, reachable_bump, H0|vm_compute; reflexivity|reflexivity|].
    eapply (pages_end _ _ _ _ (bump listing_grown) (bump (bump listing_grown)));
      [apply leads_refl, reachable_bump|vm_compute; reflexivity].
    eapply leads_reachable, leads_serve, reachable_bump, H0. }
  exists c1, c2. split; [exact Hp|].
  apply (pages_miss_no_campaign default_config 1 listing_begun [c1; c2]); [apply mock_outside|exact Hp].
Defined.

Lemma pages_are_the_list_witness :
  exists w' rows, list_all 1 3 None listing_grown = (w', Ok (toDomain <$> rows)) /\
    stores w' = stores listing_grown /\
    rows ≡ₚ (map_to_list listing_grown.(w_campaigns)).*2 /\ ascending (cr_ID <$> rows).
Proof.
  apply (pages_are_the_list 1 2 listing_grown);
    [exact quiet_reliable| |vm_compute; lia].
  apply (integrity_reachable default_config); [apply mock_outside|].
  eapply leads_reachable, leads_serve, reachable_bump, one_target_reachable.
Defined.
