(* ===== verification/Dialout.v ===== *)
(** Every target of a running campaign is called: what the ticks of a scheduler add
    up to, when requests are answered and the other processes are idle. *)
From stdpp Require Import sorting.
From S2P Require Import Prelude Errors GoTime Json Domain Messages World Interleaving Postgres.
From S2P Require Import PostgresInv PostgresSpec Scylla Queue CampaignService CallService CallLists.
From S2P Require Import Requests Handlers Scheduler CallWorker StatusWorker RetryWorker Effects.
From S2P Require Import Integrity ApiEcho Config Container System SchedulerProofs Listing.

(** ** The targets of a campaign *)

Section Ids.
Context `{PgOrder}.

(** The targets a query for a campaign's targets finds. *)
Definition ids (c : uuid) (p : targetRow -> bool) (w : World) : gset uuid :=
  list_to_set (target_rows c p w).*1.

Definition pending (c : uuid) (w : World) : gset uuid := ids c (state_is "pending") w.

Lemma elem_of_ids c p w id :
  id ∈ ids c p w <-> exists tr, w.(w_targets) !! id = Some tr /\ tr.(tr_campaign_id) = c /\ p tr = true.
Proof.
  unfold ids. rewrite elem_of_list_to_set, list_elem_of_fmap. split.
  - intros ([i tr] & -> & Hin%elem_of_target_rows). by exists tr.
  - intros (tr & Htr). exists (id, tr). split; [done|]. by apply elem_of_target_rows.
Qed.

Lemma elem_of_pending c w id :
  id ∈ pending c w <->
  exists tr, w.(w_targets) !! id = Some tr /\ tr.(tr_campaign_id) = c /\ tr.(tr_state) = "pending".
Proof. unfold pending. rewrite elem_of_ids. unfold state_is. by setoid_rewrite bool_decide_eq_true. Qed.

Lemma length_target_rows c p w : length (target_rows c p w) = size (ids c p w).
Proof. unfold ids. by rewrite size_list_to_set, length_fmap by apply NoDup_target_rows. Qed.
End Ids.

(** ** When a call goes through *)

Section Trigger.
Context `{Env} `{PgOrder} `{UuidText} (s : CallService).

(** The clock can be written to JSON. *)
Definition sane_clock : Prop := forall n, year_ok (env_now n) = true.

(** A campaign whose numbers can be called: a call looks its number up among the
    first ten thousand of the campaign. *)
Record callable (c : uuid) (r : campaignRecord) (w : World) : Prop := {
  ca_row : w.(w_campaigns) !! c = Some r;
  ca_jitter : is_Some (enc_float r.(cr_RetryJitter));
  ca_listed : Z.of_nat (size (ids c (fun _ => true) w)) <= 10000;
  ca_phones : forall id tr, w.(w_targets) !! id = Some tr -> tr.(tr_campaign_id) = c ->
    tr.(tr_phone_number) <> EmptyString;
}.

(** There is room for [k] more calls in the counters of a campaign. *)
Definition room (c : uuid) (k : Z) (w : World) : Prop :=
  forall st, w.(w_stats) !! c = Some st -> stats_in_range st = true /\
    st.(st_TotalCalls) + k <= max_int64 /\ st.(st_PendingCalls) + k <= max_int64.

Lemma queued_in_range st :
  stats_in_range st = true -> st.(st_TotalCalls) + 1 <= max_int64 -> st.(st_PendingCalls) + 1 <= max_int64 ->
  stats_in_range (add_delta st queued_delta) = true.
Proof.
  unfold stats_in_range, add_delta, queued_delta. cbn. rewrite !andb_true_iff, !bool_decide_eq_true.
  unfold in_int64. intuition lia.
Qed.

(** The counters of a campaign, [k] more calls queued. *)
Definition queued_calls (c : uuid) (k : Z) : relation World := fun w w' =>
  w'.(w_stats) !! c = (fun st => add_delta st (mkDelta k 0 0 0 k 0)) <$> w.(w_stats) !! c.

Lemma queued_none c w w' : w'.(w_stats) !! c = w.(w_stats) !! c -> queued_calls c 0 w w'.
Proof.
  unfold queued_calls. intros ->. destruct (w.(w_stats) !! c) as [[]|]; [|done]. cbn.
  unfold add_delta. cbn. by rewrite !Z.add_0_r.
Qed.

Lemma queued_trans c j k w1 w2 w3 :
  queued_calls c j w1 w2 -> queued_calls c k w2 w3 -> queued_calls c (j + k) w1 w3.
Proof.
  unfold queued_calls. intros H12 ->. rewrite H12. destruct (w1.(w_stats) !! c); [|done]. cbn.
  unfold add_delta. cbn. by rewrite !Z.add_0_r, !Z.add_assoc.
Qed.

Lemma queued_same c k w1 w1' w2 w2' :
  w1'.(w_stats) !! c = w1.(w_stats) !! c -> w2'.(w_stats) !! c = w2.(w_stats) !! c ->
  queued_calls c k w1 w2 -> queued_calls c k w1' w2'.
Proof. unfold queued_calls. by intros -> ->. Qed.

Lemma room_called c j k w w' :
  0 <= j -> 0 <= k -> queued_calls c j w w' -> room c (j + k) w -> room c k w'.
Proof.
  intros Hj Hk He Hroom st Hst. rewrite He in Hst. apply fmap_Some in Hst as (st0 & Hst0 & ->).
  destruct (Hroom st0 Hst0) as (Hr & Ht & Hp). split; [|cbn; lia].
  revert Hr. unfold stats_in_range, add_delta, in_int64. cbn. rewrite !andb_true_iff, !bool_decide_eq_true.
  intuition lia.
Qed.

Lemma dispatch_answered topic d w v :
  reliable -> marshal_dispatch d = Some v -> exists w', DispatchCall topic d w = (w', Ok ()).
Proof.
  intros Hr Hv. unfold DispatchCall, marshalled. rewrite Hv. run_monad.
  rewrite write_done by apply Hr. by eexists.
Qed.

Lemma validate_registered c r phone w :
  reliable -> callable c r w -> registered w c phone ->
  validatePhoneInCampaignTargets c phone w = (bump w, Ok ()).
Proof.
  intros Hr Hc (id & tr & Hl & Htc & Hp). unfold validatePhoneInCampaignTargets, CampaignTargetRepository_ListByCampaign.
  rewrite run_bind, !run_on_err, external_reliable by done. cbn [map_err fst snd].
  rewrite (bool_decide_true (EmptyString = EmptyString)) by done. change (10000 <=? 0) with false. cbv iota.
  set (ts := select_targets _ _ _ _).
  assert (toModel c id tr ∈ ts) as Hin.
  { unfold ts, select_targets, limit_rows. apply list_elem_of_fmap. exists (id, tr). split; [done|].
    fold (target_rows c (fun _ => true) (bump w)).
    replace (target_rows c (fun _ => true) (bump w)) with (target_rows c (fun _ => true) w) by (by destruct w).
    rewrite take_ge; [|rewrite pg_order_perm; pose proof (ca_listed c r w Hc); rewrite length_target_rows; lia].
    rewrite pg_order_perm. by apply elem_of_target_rows. }
  destruct ts as [|x ts'] eqn:Ets; [by apply not_elem_of_nil in Hin|].
  replace (existsb _ _) with true; [done|]. symmetry. apply existsb_exists. exists (toModel c id tr).
  split; [by apply list_elem_of_In|]. by apply bool_decide_eq_true_2.
Qed.

Lemma trigger_succeeds c r phone payload w :
  reliable -> sane_clock -> callable c r w -> room c 1 w -> registered w c phone -> phone <> EmptyString ->
  exists w' call, TriggerCall s (mkTriggerInput c phone payload) w = (w', Ok call).
Proof.
  intros Hr Hclock Hc Hroom Hreg Hphone. unfold TriggerCall. cbn [tc_PhoneNumber tc_CampaignID].
  rewrite bool_decide_false by done. cbv zeta.
  assert (forall w0, registered w0 c phone -> registered (bump w0) c phone) as Hb by (by intros []).
  assert (callable c r (bump w)) as Hc1 by (destruct Hc; destruct w; by split).
  rewrite (bind_step _ _ w (bump w) (toDomain r)).
  2:{ rewrite run_on_err, campaign_get_reliable by done. by rewrite (ca_row c r w Hc). }
  rewrite (bind_step _ _ _ _ _ (validate_registered c r phone (bump w) Hr Hc1 (Hb _ Hreg))).
  rewrite (bind_step now _ _ _ _ eq_refl), (bind_step uuid_New _ _ _ _ eq_refl).
  set (call := new_call _ _ _). set (w4 := bump (bump (bump (bump w)))).
  destruct (create_call_done call w4) as (w5 & Hcreate & _); [apply Hr..|done|].
  assert (w5.(w_stats) = w.(w_stats)) as Hst5.
  { apply create_call_Ok in Hcreate as (_ & _ & Ht & _). unfold tables in Ht. injection Ht as _ _ _ ->. by destruct w. }
  rewrite (bind_step _ _ w4 w5 ()) by (by rewrite run_on_err, Hcreate).
  assert (exists w6, on_err (wrapf "call service: update stats")
    (CampaignStatisticsRepository_ApplyDelta c queued_delta) w5 = (w6, Ok ())) as [w6 Hdelta].
  { unfold CampaignStatisticsRepository_ApplyDelta. rewrite !run_on_err, external_reliable by done.
    unfold apply_delta. replace (w_stats (bump w5)) with w.(w_stats) by (by rewrite <- Hst5; destruct w5).
    destruct (w_stats w !! c) as [st|] eqn:Hst; [|by eexists]. destruct (Hroom st Hst) as (? & ? & ?).
    rewrite queued_in_range by done. by eexists. }
  rewrite (bind_step _ _ _ _ _ Hdelta).
  set (d := first_dispatch _ _ _ _ _).
  destruct (marshal_dispatch_total d) as [v Hv]; [apply (ca_jitter c r w Hc)|apply Hclock|].
  destruct (dispatch_answered s.(cs_dispatchTopic) d w6 v Hr Hv) as [w7 Hd].
  rewrite (bind_step _ _ w6 w7 (Ok ())) by (by rewrite run_attempt, Hd). by do 2 eexists.
Qed.
End Trigger.

Section Tick.
Context `{Env} `{PgOrder} `{UuidText} (cfg : SchedulerSettings) (s : CallService).

(** *** A batch whose calls all go through *)

Definition listed (w : World) := (w.(w_campaigns), w.(w_targets)).

#[local] Instance listed_run : CanRun (keeps listed).
Proof. apply (watch_run listed); [done|apply _|unseen]. Qed.
#[local] Instance listed_delta : CanApplyDelta (keeps listed).
Proof. apply (watch_delta listed); [done|apply _|unseen]. Qed.
#[local] Instance listed_calls : CanWriteCalls (keeps listed).
Proof. apply (watch_calls listed); [done|unseen..]. Qed.
#[local] Instance listed_publish : CanPublish (keeps listed).
Proof. apply (watch_publish listed); [done|unseen]. Qed.

Lemma callable_same c r w w' : listed w' = listed w -> callable c r w -> callable c r w'.
Proof.
  unfold listed. intros [= Hc Ht] []. split; [congruence|done| |by rewrite Ht].
  unfold ids, target_rows in *. by rewrite Ht.
Qed.

Lemma trigger_targets_all c r ts : forall w w' failed,
  reliable -> sane_clock -> callable c r w -> room c (Z.of_nat (length ts)) w ->
  (forall t, t ∈ ts -> registered w c t.(t_PhoneNumber)) ->
  trigger_targets s c ts w = (w', Ok failed) ->
  failed = [] /\ listed w' = listed w /\ queued_calls c (Z.of_nat (length ts)) w w'.
Proof.
  induction ts as [|t ts IH]; intros w w' failed Hr Hclock Hc Hroom Hts Hrun.
  { injection Hrun as <- <-. split_and!; [done|done|by apply queued_none]. }
  cbn [trigger_targets] in Hrun. pose proof (Hts t ltac:(by left)) as Hreg.
  assert (t.(t_PhoneNumber) <> EmptyString) as Hne.
  { destruct Hreg as (id & tr & Hl & Htc & <-). by eapply (ca_phones c r w Hc). }
  destruct (trigger_succeeds s c r t.(t_PhoneNumber) t.(t_Payload) w) as (w1 & call & Hcall); [done..| |done|done|].
  { intros st Hst. destruct (Hroom st Hst) as (? & ? & ?). split; [done|cbn [length] in *; lia]. }
  rewrite (bind_step _ _ w w1 (Ok call)) in Hrun by (by rewrite run_attempt, Hcall).
  assert (listed w1 = listed w) as Hl1
    by exact (stable_ran _ _ _ _ _ (eff_TriggerCall (keeps listed) s _) Hcall).
  apply trigger_call_Ok in Hcall as (r' & m & k & _ & _ & _ & _ & _ & Hst & _).
  apply bind_Ok in Hrun as (failed' & w2 & Hrest & Hrun). injection Hrun as <- <-.
  replace (Z.of_nat (length (t :: ts))) with (1 + Z.of_nat (length ts)) in * by (cbn [length]; lia).
  destruct (IH w1 w2 failed') as (-> & Hl2 & Hq); [done|done|by eapply callable_same| | |done|].
  - by apply (room_called _ 1 _ w); [lia|lia|exact Hst|].
  - intros t' Ht'. unfold listed in Hl1. injection Hl1 as _ Htg. eapply registered_same; [exact Htg|]. apply Hts. by right.
  - split_and!; [done|congruence|]. by eapply queued_trans; [exact Hst|].
Qed.

(** *** What the calls of other campaigns leave alone *)

(** The messages published between two states, first attempts all of them. *)
Definition announced (d : DispatchMessage) (x : string * KafkaMessage) : Prop :=
  written s d x /\ d.(dm_Attempt) = 1.
Definition says (ds : list DispatchMessage) : relation World := fun w w' =>
  exists recs, w'.(w_log) = w.(w_log) ++ recs /\ Forall2 announced ds recs.

Lemma says_nil w w' : w'.(w_log) = w.(w_log) -> says [] w w'.
Proof. intros Hl. exists []. by rewrite app_nil_r. Qed.

Lemma says_app ds ds' w1 w2 w3 : says ds w1 w2 -> says ds' w2 w3 -> says (ds ++ ds') w1 w3.
Proof.
  intros (l & Hl & Hd) (l' & Hl' & Hd'). exists (l ++ l'). split; [by rewrite Hl', Hl, app_assoc|].
  by apply Forall2_app.
Qed.

Record elsewhere (c : uuid) (w w' : World) : Prop := {
  el_campaigns : w'.(w_campaigns) = w.(w_campaigns);
  el_hours : w'.(w_hours) = w.(w_hours);
  el_targets id r : r.(tr_campaign_id) = c -> w'.(w_targets) !! id = Some r <-> w.(w_targets) !! id = Some r;
  el_stats : w'.(w_stats) !! c = w.(w_stats) !! c;
  el_log : exists ds, says ds w w' /\ Forall (fun d => d.(dm_CampaignID) <> c) ds;
}.

Section Elsewhere.
Context (c : uuid).

Lemma elsewhere_same w w' :
  (w'.(w_campaigns), w'.(w_hours), w'.(w_targets), w'.(w_stats), w'.(w_log)) =
  (w.(w_campaigns), w.(w_hours), w.(w_targets), w.(w_stats), w.(w_log)) -> elsewhere c w w'.
Proof.
  intros [= Hc Hh Ht Hs Hl]. split; [done|done|intros; by rewrite Ht|by rewrite Hs|].
  exists []. split; [by apply says_nil|constructor].
Qed.

#[export] Instance elsewhere_preorder : PreOrder (elsewhere c).
Proof.
  split; [intros w; by apply elsewhere_same|]. intros w1 w2 w3 [] [].
  split; try congruence.
  - intros id r Hr. by rewrite el_targets1, el_targets0.
  - destruct el_log0 as (ds & Hd & Ha), el_log1 as (ds' & Hd' & Ha').
    exists (ds ++ ds'). split; [by eapply says_app|by apply Forall_app].
Qed.
#[local] Instance elsewhere_run : CanRun (elsewhere c).
Proof. apply (watch_run _ _ elsewhere_same); [apply _|unseen]. Qed.
#[local] Instance elsewhere_calls : CanWriteCalls (elsewhere c).
Proof. apply (watch_calls _ _ elsewhere_same); unseen. Qed.

Context (c' : uuid) (Hne : c' <> c).

Lemma elsewhere_delta d : stable (elsewhere c) (CampaignStatisticsRepository_ApplyDelta c' d).
Proof using Hne.
  unfold CampaignStatisticsRepository_ApplyDelta. apply stable_on_err, stable_external; [apply _|apply can_bump|].
  intros w w' a Ha. unfold apply_delta in Ha. repeat case_match; simplify_eq; [|done].
  destruct w; split; try done; cbn.
  - by rewrite lookup_insert_ne.
  - exists []. split; [by apply says_nil|constructor].
Qed.

Lemma elsewhere_update ids f w :
  (forall r, (f r).(tr_campaign_id) = r.(tr_campaign_id)) -> elsewhere c w (update_targets c' ids f w).
Proof using Hne.
  intros Hf. split; try by destruct w.
  - intros id r Hc. rewrite update_targets_lookup. split.
    + intros (r0 & Hl & Hr)%fmap_Some. destruct (bool_decide (r0.(tr_campaign_id) = c')) eqn:E.
      * apply bool_decide_eq_true_1 in E. exfalso. apply Hne. rewrite <- E, <- Hc, Hr.
        by destruct (bool_decide (id ∈ ids)); cbn; rewrite ?Hf.
      * cbn in Hr. by rewrite Hr.
    + intros ->. cbn. rewrite bool_decide_false by congruence. done.
  - exists []. split; [apply says_nil; by destruct w|constructor].
Qed.

Lemma elsewhere_dispatch d :
  d.(dm_CampaignID) = c' -> d.(dm_Attempt) = 1 -> stable (elsewhere c) (DispatchCall s.(cs_dispatchTopic) d).
Proof using Hne.
  intros Hd Ha. unfold DispatchCall, marshalled. destruct (marshal_dispatch d) as [v|] eqn:Hv; effects.
  apply stable_write; [apply _|apply can_bump|]. intros w. unfold append_record.
  destruct w; split; try done. exists [d]. split; [|by constructor; [congruence|]].
  eexists. split; [reflexivity|]. by repeat constructor.
Qed.

Lemma elsewhere_trigger phone payload : stable (elsewhere c) (TriggerCall s (mkTriggerInput c' phone payload)).
Proof using Hne.
  pose proof elsewhere_delta. unfold TriggerCall. effects; by apply elsewhere_dispatch.
Qed.

Lemma elsewhere_campaign t x : x.(c_ID) = c' -> stable (elsewhere c) (schedule_campaign cfg s t x).
Proof using Hne.
  intros Hx. assert (forall ts, stable (elsewhere c) (trigger_targets s c' ts)) as Htrig.
  { induction ts; cbn [trigger_targets]; effects. apply elsewhere_trigger. }
  assert (forall ids f, (forall r, (f r).(tr_campaign_id) = r.(tr_campaign_id)) ->
    stable (elsewhere c) (external (fun w => Ok (update_targets c' ids f w, ())))) as Hup.
  { intros. apply stable_external; [apply _|apply can_bump|]. intros w w' u [= <- <-]. by apply elsewhere_update. }
  assert (forall ids t, stable (elsewhere c) (CampaignTargetRepository_MarkScheduled c' ids t)) as Hmark.
  { intros [|i ids] t0; cbn [CampaignTargetRepository_MarkScheduled]; effects; by apply Hup. }
  assert (forall ids st, stable (elsewhere c) (CampaignTargetRepository_SetState c' ids st)) as Hset.
  { intros [|i ids] st; cbn [CampaignTargetRepository_SetState]; effects; by apply Hup. }
  unfold schedule_campaign, call_batch. rewrite Hx. effects.
Qed.
End Elsewhere.
End Tick.

(** ** One campaign in one tick *)

Section Drive.
Context `{Env} `{PgOrder} `{UuidText} (cfg : SchedulerSettings) (s : CallService) (c : uuid) (r : campaignRecord).

(** The numbers of the campaign, which no tick changes. *)
Definition number (w : World) (id : uuid) (phone : string) : Prop :=
  exists tr, w.(w_targets) !! id = Some tr /\ tr.(tr_campaign_id) = c /\ tr.(tr_phone_number) = phone.

Definition same_numbers : relation World := fun w w' => forall id p, number w' id p <-> number w id p.

#[export] Instance same_numbers_equivalence : Equivalence same_numbers.
Proof.
  split; [by intros w id p|intros w w' Hw id p; by symmetry|].
  intros w1 w2 w3 H12 H23 id p. by rewrite (H23 id p), (H12 id p).
Qed.

Lemma elsewhere_numbers w w' : elsewhere s c w w' -> same_numbers w w'.
Proof. intros [] id p. split; intros (tr & Hl & Hc & Hp); exists tr; by apply el_targets0 in Hl. Qed.

Lemma elsewhere_pending w w' : elsewhere s c w w' -> pending c w' = pending c w.
Proof.
  intros [_ _ Ht _ _]. apply set_eq. intros id. rewrite !elem_of_pending.
  split; intros (tr & Hl & Hc & Hp); exists tr; by apply Ht in Hl.
Qed.

Lemma numbers_callable w w' :
  w'.(w_campaigns) = w.(w_campaigns) -> same_numbers w w' -> callable c r w -> callable c r w'.
Proof.
  intros Hc Hn []. split; [congruence|done| |].
  - replace (ids c (fun _ => true) w') with (ids c (fun _ => true) w); [done|].
    apply set_eq. intros id. rewrite !elem_of_ids.
    split; intros (tr & Hl & Htc & _); destruct (proj2 (Hn id tr.(tr_phone_number)) ltac:(by exists tr)) ||
      destruct (proj1 (Hn id tr.(tr_phone_number)) ltac:(by exists tr)); naive_solver.
  - intros id tr Hl Htc. destruct (proj1 (Hn id tr.(tr_phone_number)) ltac:(by exists tr)) as (tr0 & Hl0 & Hc0 & <-).
    by eapply ca_phones0.
Qed.

(** What is published for the campaign: a first call to each of these targets. *)
Definition calls_to (w : World) (called : list uuid) (ds : list DispatchMessage) : Prop :=
  NoDup called /\ Forall2 (fun id d => exists phone, number w id phone /\ first_call c phone d) called ds.

Definition tables_kept (w : World) := (w.(w_campaigns), w.(w_hours)).
#[local] Instance tables_run : CanRun (keeps tables_kept).
Proof. apply (watch_run tables_kept); [done|apply _|unseen]. Qed.
#[local] Instance tables_targets : CanUpdateTargets (keeps tables_kept).
Proof. apply (watch_update_targets tables_kept); [done|unseen]. Qed.
#[local] Instance tables_delta : CanApplyDelta (keeps tables_kept).
Proof. apply (watch_delta tables_kept); [done|apply _|unseen]. Qed.
#[local] Instance tables_calls : CanWriteCalls (keeps tables_kept).
Proof. apply (watch_calls tables_kept); [done|unseen..]. Qed.
#[local] Instance tables_publish : CanPublish (keeps tables_kept).
Proof. apply (watch_publish tables_kept); [done|unseen]. Qed.
Lemma campaign_keeps_tables t x w w' u : schedule_campaign cfg s t x w = (w', u) -> tables_kept w' = tables_kept w.
Proof.
  apply (stable_ran (keeps tables_kept)).
  apply (eff_schedule_campaign (keeps tables_kept) (fun A => stable (keeps tables_kept))); try apply _; [done|].
  intros i. effects.
Qed.

Lemma pending_called w w' called :
  (forall id tr, w.(w_targets) !! id = Some tr -> exists tr', w'.(w_targets) !! id = Some tr' /\
     tr'.(tr_campaign_id) = tr.(tr_campaign_id) /\ tr'.(tr_phone_number) = tr.(tr_phone_number) /\
     tr'.(tr_state) = if bool_decide (id ∈ called) then "queued" else tr.(tr_state)) ->
  (forall id, w.(w_targets) !! id = None -> w'.(w_targets) !! id = None) ->
  same_numbers w w' /\ pending c w' = pending c w ∖ list_to_set called.
Proof.
  intros Hsome Hnone.
  assert (forall id tr', w'.(w_targets) !! id = Some tr' -> exists tr, w.(w_targets) !! id = Some tr /\
    tr'.(tr_campaign_id) = tr.(tr_campaign_id) /\ tr'.(tr_phone_number) = tr.(tr_phone_number) /\
    tr'.(tr_state) = if bool_decide (id ∈ called) then "queued" else tr.(tr_state)) as Hback.
  { intros id tr' Hl'. destruct (w.(w_targets) !! id) as [tr|] eqn:Hl; [|rewrite Hnone in Hl'; done].
    exists tr. split; [done|]. destruct (Hsome id tr Hl) as (tr0 & Hl0 & Hrest). by simplify_eq. }
  split.
  - intros id p. split.
    + intros (tr' & Hl' & Hc & Hp). destruct (Hback id tr' Hl') as (tr & ? & ? & ? & _). exists tr. split_and!; congruence.
    + intros (tr & Hl & Hc & Hp). destruct (Hsome id tr Hl) as (tr' & ? & ? & ? & _). exists tr'. split_and!; congruence.
  - apply set_eq. intros id. rewrite elem_of_difference, elem_of_list_to_set, !elem_of_pending. split.
    + intros (tr' & Hl' & Hc & Hp). destruct (Hback id tr' Hl') as (tr & ? & ? & _ & Hst). rewrite Hp in Hst.
      case_bool_decide; [done|]. split; [|done]. exists tr. split_and!; congruence.
    + intros [(tr & Hl & Hc & Hp) Hno]. destruct (Hsome id tr Hl) as (tr' & ? & ? & _ & Hst).
      rewrite bool_decide_false in Hst by done. exists tr'. split_and!; congruence.
Qed.

Lemma update_numbers c' w l f :
  (forall tr, (f tr).(tr_campaign_id) = tr.(tr_campaign_id)) ->
  (forall tr, (f tr).(tr_phone_number) = tr.(tr_phone_number)) ->
  same_numbers w (update_targets c' l f w).
Proof.
  intros Hc Hp id p. unfold number. setoid_rewrite update_targets_lookup. split.
  - intros (tr' & (tr & Hl & ->)%fmap_Some & Htc & Htp). exists tr. destruct (_ && _); by rewrite ?Hc, ?Hp in *.
  - intros (tr & Hl & Htc & Htp). eexists. rewrite Hl. split; [done|]. destruct (_ && _); by rewrite ?Hc, ?Hp.
Qed.

(** With room for them all, every call of a batch goes through. *)
Lemma batch_all at_ ts w w4 failed :
  reliable -> sane_clock -> callable c r w -> room c (Z.of_nat (length ts)) w ->
  (forall t, t ∈ ts -> registered w c t.(t_PhoneNumber)) ->
  trigger_targets s c ts (update_targets c (t_ID <$> ts) (with_schedule at_) (bump (bump (bump w)))) = (w4, Ok failed) ->
  failed = [] /\ queued_calls c (Z.of_nat (length ts)) w w4.
Proof.
  intros Hr Hclock Hcall Hroom Hreg Hrun. set (w3 := update_targets _ _ _ _) in Hrun.
  assert (same_numbers w w3) as Hnum.
  { unfold w3. etrans; [|by apply update_numbers]. intros id p. by destruct w. }
  assert (w_stats w3 = w_stats w) as Hst3 by (by destruct w).
  destruct (trigger_targets_all s c r ts w3 w4 failed) as (-> & _ & Hq);
    [done|done| | | |exact Hrun|split; [done|]; by eapply queued_same; [| |exact Hq]; rewrite ?Hst3].
  - eapply numbers_callable; [|exact Hnum|done]. by destruct w.
  - intros st Hst. apply Hroom. by rewrite <- Hst3.
  - intros t Ht. destruct (Hreg t Ht) as (id & tr & Hl & Hc & Hp).
    exists id. apply (Hnum id). by exists tr.
Qed.

(** The campaign's own turn: it takes a full batch, or all that is pending. *)
Lemma schedule_own t x w :
  reliable -> sane_clock -> x.(c_ID) = c -> isWithinBusinessHours t x = true -> callable c r w ->
  room c (Z.of_nat (size (pending c w))) w ->
  exists w' called ds, schedule_campaign cfg s t x w = (w', Ok ()) /\ tables_kept w' = tables_kept w /\
    says s ds w w' /\ calls_to w called ds /\ same_numbers w w' /\
    (forall id, id ∈ called -> id ∈ pending c w) /\ pending c w' = pending c w ∖ list_to_set called /\
    (pending c w' = ∅ \/ Z.of_nat (length called) = batch_size cfg) /\
    queued_calls c (Z.of_nat (length called)) w w'.
Proof.
  intros Hr Hclock Hx Hopen Hcall Hroom.
  destruct (schedule_campaign_run cfg s t x w Hr Hopen)
    as (ts & called & failed & ds & recs & w' & Hnext & Hrun & Hsub & Hperm & Hsome & Hnone & Hlog & Hw & Hf & Htrig & Hidle).
  destruct (next_batch_reliable cfg x.(c_ID) w Hr) as (ts' & Hnext' & Hnd & Hlen & Hb & Hall).
  rewrite Hnext' in Hnext. simplify_eq. rewrite Hx in *.
  destruct (pending_called w w' (t_ID <$> called) Hsome Hnone) as [Hnum Hpend].
  assert (forall t, t ∈ ts -> t.(t_ID) ∈ pending c w /\ number w t.(t_ID) t.(t_PhoneNumber)) as Hin.
  { intros t0 Ht0. destruct (Hb t0 Ht0) as (tr & ? & Ht & ? & ?). split; [apply elem_of_pending; by exists tr|].
    exists tr. split_and!; [done..|]. by rewrite Ht. }
  assert (list_to_set (t_ID <$> ts) ⊆ pending c w) as Hts.
  { intros id Hid. rewrite elem_of_list_to_set in Hid. apply list_elem_of_fmap in Hid as (t0 & -> & Ht0). by apply Hin. }
  assert (length ts <= size (pending c w))%nat as Hle.
  { apply subseteq_size in Hts. by rewrite size_list_to_set, length_fmap in Hts. }
  assert (failed = [] /\ queued_calls c (Z.of_nat (length ts)) w w') as [-> Hq].
  { destruct (decide (ts = [])) as [->|Hne].
    - apply Permutation_length in Hperm. rewrite length_app in Hperm. split; [by destruct failed; cbn in *; [|lia]|].
      apply queued_none. by rewrite (Hidle eq_refl).
    - destruct (Htrig Hne) as (at_ & w4 & Ht & Hst). apply batch_all in Ht as [-> Hq]; try done.
      + split; [done|]. by eapply queued_same; [done| |exact Hq]; rewrite Hst.
      + intros st Hst0. destruct (Hroom st Hst0) as (? & ? & ?). split; [done|lia].
      + intros t0 Ht0. destruct (Hin t0 Ht0) as [_ Hn]. by exists t0.(t_ID). }
  rewrite app_nil_r in Hperm.
  assert (list_to_set (t_ID <$> called) =@{gset uuid} list_to_set (t_ID <$> ts)) as Heq.
  { apply set_eq. intros id. by rewrite !elem_of_list_to_set, Hperm. }
  exists w', (t_ID <$> called), ds. split_and!; try done.
  - by eapply campaign_keeps_tables.
  - exists recs. split; [done|]. eapply Forall2_same_length_lookup_2; [by eapply Forall2_length|].
    intros i d record Hd Hx'. split; [exact (Forall2_lookup_lr _ _ _ _ _ _ Hw Hd Hx')|].
    by destruct (Forall2_lookup_r _ _ _ _ _ Hf Hd) as (y & _ & _ & _ & Ha).
  - split; [by rewrite Hperm|]. apply Forall2_fmap_l. eapply Forall2_same_length_lookup_2; [by eapply Forall2_length|].
    intros i y d Hy Hd. apply list_elem_of_lookup_2 in Hy as Hy'. exists y.(t_PhoneNumber).
    split; [apply Hin, (sublist_subseteq _ _ Hsub _ Hy')|]. exact (Forall2_lookup_lr _ _ _ _ _ _ Hf Hy Hd).
  - intros id Hid. rewrite Hperm in Hid. apply Hts. by rewrite elem_of_list_to_set.
  - rewrite length_fmap, <- (length_fmap t_ID called), Hperm, length_fmap, Hpend, Heq.
    destruct (decide (Z.of_nat (length ts) = batch_size cfg)) as [|Hnot]; [by right|left].
    apply set_eq. intros id. rewrite elem_of_difference, elem_of_list_to_set. split; [|set_solver].
    intros [(tr & Hl & Hc & Hp)%elem_of_pending Hno]. by destruct (Hall id tr Hl Hc Hp).
  - by rewrite length_fmap, <- (length_fmap t_ID called), Hperm, length_fmap.
Qed.

(** *** The whole tick *)

(** The campaigns a tick takes up, and how many it can. *)
Definition running (w : World) : list campaignRecord :=
  List.filter (fun r => bool_decide (r.(cr_Status) = CampaignStatusInProgress)) (table_rows w.(w_campaigns)).*2.
Definition fetch_size : int := if campaignFetchLimit cfg <=? 0 then 100 else campaignFetchLimit cfg.

Lemma fill_hours_total cs : forall w, reliable -> exists w' cs', fill_hours cs w = (w', Ok cs').
Proof.
  induction cs as [|x cs IH]; intros w Hr; [by do 2 eexists|]. cbn [fill_hours].
  erewrite (bind_step _ _ w (bump w)).
  2:{ unfold BusinessHourRepository_List. rewrite !run_on_err, external_reliable by done. reflexivity. }
  destruct (IH (bump w) Hr) as (w' & cs' & Hrun). rewrite (bind_step _ _ _ _ _ Hrun). by do 2 eexists.
Qed.

Lemma list_running w :
  reliable -> pg_ok w -> Z.of_nat (length (running w)) <= fetch_size ->
  w.(w_campaigns) !! c = Some r -> r.(cr_Status) = CampaignStatusInProgress ->
  exists w' l1 l2, ListByStatus CampaignStatusInProgress (campaignFetchLimit cfg) w = (w', Ok (l1 ++ as_read c w r :: l2)) /\
    stores w' = stores w /\ forall x, x ∈ l1 ++ l2 -> x.(c_ID) <> c.
Proof.
  intros Hr Hok Hlen Hrow Hst. set (rows := pg_order (fun r => default zero_time r.(cr_UpdatedAt)) (running w)).
  assert (CampaignRepository_ListByStatus CampaignStatusInProgress (campaignFetchLimit cfg) w =
    (bump w, Ok (toDomain <$> rows))) as Hlist.
  { unfold CampaignRepository_ListByStatus. rewrite run_on_err, external_reliable by done. cbn [map_err fst snd].
    fold fetch_size. unfold limit_rows. replace (List.filter _ _) with (running w) by (by destruct w). fold rows.
    rewrite take_ge; [done|]. unfold rows. rewrite pg_order_perm. lia. }
  destruct (fill_hours_total (toDomain <$> rows) (bump w) Hr) as (w' & cs & Hfill).
  unfold ListByStatus. rewrite (bind_step _ _ _ _ _ Hlist), Hfill.
  apply fill_hours_Ok in Hfill as [Hs ->]. rewrite stores_bump in Hs.
  assert (r ∈ rows) as Hin.
  { unfold rows. rewrite pg_order_perm. apply list_elem_of_In, filter_In. split; [|by apply bool_decide_eq_true_2].
    apply list_elem_of_In, list_elem_of_fmap. exists (c, r). split; [done|]. by apply elem_of_map_to_list. }
  assert (NoDup (cr_ID <$> rows)) as Hnd.
  { unfold rows. rewrite pg_order_perm. eapply sublist_NoDup; [|apply fmap_sublist, filter_sublist].
    rewrite (table_ids w Hok). apply NoDup_fst_map_to_list. }
  pose proof (proj1 (ok_campaign w Hok _ _ Hrow)) as Hid.
  apply list_elem_of_split in Hin as (r1 & r2 & Hrows). rewrite Hrows in *. rewrite !fmap_app, !fmap_cons.
  change (c_ID (toDomain r)) with r.(cr_ID). rewrite Hid.
  replace (hours_of c (bump w)) with (hours_of c w) by (by destruct w).
  do 3 eexists. split; [reflexivity|]. split; [done|]. intros x Hx Hxc.
  assert (exists r0, r0 ∈ r1 ++ r2 /\ r0.(cr_ID) = c) as (r0 & Hr0 & Hid0).
  { rewrite <- !list_fmap_compose, <- fmap_app in Hx. apply list_elem_of_fmap in Hx as (r0 & -> & Hr0). by exists r0. }
  rewrite fmap_app, fmap_cons, Hid in Hnd. assert (NoDup (c :: (cr_ID <$> (r1 ++ r2)))) as Hnd'.
  { rewrite fmap_app. by rewrite Permutation_middle. }
  apply NoDup_cons in Hnd' as [Hni _]. apply Hni. rewrite <- Hid0. by apply list_elem_of_fmap_2.
Qed.

Lemma campaign_ends t x w : reliable -> exists w', schedule_campaign cfg s t x w = (w', Ok ()).
Proof.
  intros Hr. destruct (isWithinBusinessHours t x) eqn:Ho.
  - destruct (schedule_campaign_run cfg s t x w Hr Ho) as (? & ? & ? & ? & ? & w' & _ & Hrun & _). by exists w'.
  - exists w. unfold schedule_campaign. by rewrite Ho.
Qed.

Lemma others_elsewhere t l : forall w,
  reliable -> (forall x, x ∈ l -> x.(c_ID) <> c) ->
  exists w', for_each l (schedule_campaign cfg s t) w = (w', Ok ()) /\ elsewhere s c w w'.
Proof.
  induction l as [|x l IH]; intros w Hr Hl; cbn [for_each].
  { exists w. split; [done|]. by apply elsewhere_same. }
  destruct (campaign_ends t x w Hr) as [w1 Hx]. rewrite (bind_step _ _ _ _ _ Hx).
  destruct (IH w1 Hr) as (w2 & Hrest & He); [set_solver|]. exists w2. split; [exact Hrest|].
  etrans; [|exact He]. eapply (stable_ran (elsewhere s c)); [|exact Hx].
  apply (elsewhere_campaign cfg s c x.(c_ID)); [apply Hl; by left|done].
Qed.

Lemma for_each_app {A} (l1 l2 : list A) f w w1 :
  for_each l1 f w = (w1, Ok ()) -> for_each (l1 ++ l2) f w = for_each l2 f w1.
Proof.
  revert w. induction l1 as [|x l1 IH]; intros w; cbn [for_each app]; [by intros [= ->]|].
  intros Hrun. apply bind_Ok in Hrun as ([] & w2 & Hx & Hrest). rewrite (bind_step _ _ _ _ _ Hx). by apply IH.
Qed.

(** A campaign that is in progress, always open, within reach of a tick, with calls
    that go through, while no retry stops the scheduler. *)
Record dialling (w : World) : Prop := {
  di_ok : pg_ok w;
  di_callable : callable c r w;
  di_status : r.(cr_Status) = CampaignStatusInProgress;
  di_open : forall n, isWithinBusinessHours (env_now n) (as_read c w r) = true;
  di_reached : Z.of_nat (length (running w)) <= fetch_size;
  di_room : room c (Z.of_nat (size (pending c w))) w;
  di_quiet : forall topic, topic ∈ cfg.(sc_RetryTopics) -> topic_records topic w = [];
}.

Definition mine (ds : list DispatchMessage) : list DispatchMessage :=
  filter (fun d => d.(dm_CampaignID) = c) ds.

Lemma mine_others ds : Forall (fun d => d.(dm_CampaignID) <> c) ds -> mine ds = [].
Proof. intros Hds. unfold mine. induction Hds; [done|]. by rewrite filter_cons_False. Qed.

Lemma mine_own w called ds : calls_to w called ds -> mine ds = ds.
Proof.
  intros [_ Hf]. unfold mine. induction Hf as [|id d l ds (p & _ & Hd & _) _ IH]; [done|].
  rewrite filter_cons_True by done. by rewrite IH.
Qed.

Lemma calls_to_same w w' called ds : same_numbers w w' -> calls_to w' called ds -> calls_to w called ds.
Proof.
  intros Hn [Hnd Hf]. split; [done|]. eapply Forall2_impl; [exact Hf|]. cbn.
  intros id d (p & Hp & Hd). exists p. split; [by apply Hn|done].
Qed.

Context (Htopic : s.(cs_dispatchTopic) ∉ cfg.(sc_RetryTopics)).

Lemma says_quiet ds w w' topic :
  topic ∈ cfg.(sc_RetryTopics) -> says s ds w w' -> topic_records topic w = [] -> topic_records topic w' = [].
Proof using Htopic.
  intros Ht (recs & Hl & Hw). unfold topic_records. rewrite Hl, List.filter_app, fmap_app. intros ->. cbn. clear Hl.
  induction Hw as [|d [t m] ds recs [[Hd _] _] _ IH]; [done|]. cbn in *.
  destruct (String.eqb_spec t topic) as [->|]; [by subst|]. apply IH.
Qed.

Lemma dialling_same w w' : stores w' = stores w -> dialling w -> dialling w'.
Proof.
  unfold stores. intros [= Hc Hh Ht Hs _ _ _ _ Hl _] [].
  assert (pending c w' = pending c w) as Hp by (unfold pending, ids, target_rows; by rewrite Ht).
  split.
  - by eapply pg_ok_same.
  - eapply callable_same; [|done]. unfold listed. by rewrite Hc, Ht.
  - done.
  - unfold as_read, stored_windows, hours_of in *. by rewrite Hh.
  - unfold running in *. by rewrite Hc.
  - rewrite Hp. unfold room in *. by rewrite Hs.
  - unfold topic_records in *. by rewrite Hl.
Qed.

(** The loop over the campaigns of a tick: those before, the campaign, those after. *)
Lemma loop_progress t l1 x l2 w :
  reliable -> sane_clock -> dialling w -> x = as_read c w r -> isWithinBusinessHours t x = true ->
  (forall y, y ∈ l1 ++ l2 -> y.(c_ID) <> c) ->
  exists w' called ds, for_each (l1 ++ x :: l2) (schedule_campaign cfg s t) w = (w', Ok ()) /\
    tables_kept w' = tables_kept w /\ says s ds w w' /\ same_numbers w w' /\
    calls_to w called (mine ds) /\ (forall id, id ∈ called -> id ∈ pending c w) /\
    pending c w' = pending c w ∖ list_to_set called /\
    (pending c w' = ∅ \/ Z.of_nat (length called) = batch_size cfg) /\
    queued_calls c (Z.of_nat (length called)) w w'.
Proof.
  intros Hr Hclock Hd -> Hopen Hne.
  destruct (others_elsewhere t l1 w Hr) as (w1 & Hl1 & He1); [intros; apply Hne; set_solver|].
  pose proof (elsewhere_numbers _ _ He1) as Hn1. pose proof (elsewhere_pending _ _ He1) as Hp1.
  destruct (schedule_own t (as_read c w r) w1) as (w2 & called & ds & Hown & Ht2 & Hsay & Hcalls & Hn2 & Hin & Hp2 & Hfull & Hq);
    [done|done| |done| | |].
  { apply (ok_campaign w (di_ok w Hd) _ _ (ca_row _ _ _ (di_callable w Hd))). }
  { eapply numbers_callable; [apply He1|exact Hn1|apply Hd]. }
  { rewrite Hp1. intros st. rewrite (el_stats _ _ _ _ He1). apply Hd. }
  destruct (others_elsewhere t l2 w2 Hr) as (w3 & Hl2 & He2); [intros; apply Hne; set_solver|].
  pose proof (elsewhere_numbers _ _ He2) as Hn3. pose proof (elsewhere_pending _ _ He2) as Hp3.
  destruct (el_log _ _ _ _ He1) as (ds1 & Hsay1 & Hds1), (el_log _ _ _ _ He2) as (ds2 & Hsay2 & Hds2).
  exists w3, called, (ds1 ++ ds ++ ds2). rewrite Hp3, Hp2, Hp1 in *.
  split_and!; try done.
  - rewrite (for_each_app _ _ _ _ _ Hl1). cbn [for_each]. by rewrite (bind_step _ _ _ _ _ Hown).
  - unfold tables_kept in *. by rewrite (el_campaigns _ _ _ _ He2), (el_hours _ _ _ _ He2), Ht2,
      (el_campaigns _ _ _ _ He1), (el_hours _ _ _ _ He1).
  - eapply says_app; [exact Hsay1|]. by eapply says_app.
  - etrans; [exact Hn1|]. by etrans.
  - unfold mine. rewrite !filter_app. fold (mine ds1) (mine ds) (mine ds2).
    rewrite (mine_others ds1), (mine_others ds2), (mine_own _ _ _ Hcalls), app_nil_r by done. by eapply calls_to_same.
  - eapply queued_same; [|apply (el_stats _ _ _ _ He2)|exact Hq]. by rewrite (el_stats _ _ _ _ He1).
Qed.

Lemma called_size w w' called :
  NoDup called -> (forall id, id ∈ called -> id ∈ pending c w) ->
  pending c w' = pending c w ∖ list_to_set called ->
  (size (pending c w') + length called = size (pending c w))%nat.
Proof.
  intros Hnd Hin ->. assert (list_to_set called ⊆ pending c w) as Hsub
    by (intros id; rewrite elem_of_list_to_set; apply Hin).
  rewrite size_difference, size_list_to_set by done. apply subseteq_size in Hsub.
  rewrite size_list_to_set in Hsub by done. lia.
Qed.

Lemma stores_stats w w' : stores w' = stores w -> w'.(w_stats) = w.(w_stats).
Proof. unfold stores. by intros [= ?????????]. Qed.

(** One tick: the campaign gets its batch, and is as ready for the next. *)
Lemma tick_progress w :
  reliable -> sane_clock -> dialling w ->
  exists w' called ds, tick cfg s w = (w', Ok ()) /\ dialling w' /\ says s ds w w' /\ same_numbers w w' /\
    calls_to w called (mine ds) /\ (forall id, id ∈ called -> id ∈ pending c w) /\
    pending c w' = pending c w ∖ list_to_set called /\
    (pending c w' = ∅ \/ Z.of_nat (length called) = batch_size cfg) /\
    queued_calls c (Z.of_nat (length called)) w w'.
Proof using Htopic.
  intros Hr Hclock Hd.
  destruct (has_pending_reliable cfg.(sc_RetryTopics) w Hr) as [w1 Hpend].
  assert (existsb (has_record w) cfg.(sc_RetryTopics) = false) as Hno.
  { apply not_true_is_false. intros (topic & Hin & Hrec)%existsb_exists.
    apply has_record_spec in Hrec. apply Hrec, (di_quiet w Hd). by apply list_elem_of_In. }
  pose proof (pending_retries_stores cfg.(sc_RetryTopics) w) as Hs1. rewrite Hpend in Hs1. cbn [fst] in Hs1.
  assert (dialling (bump w1)) as Hd1 by (apply (dialling_same w); [by rewrite stores_bump|done]).
  destruct (list_running (bump w1)) as (w2 & l1 & l2 & Hlist & Hs2 & Hothers);
    [done|apply Hd1|apply Hd1|apply (di_callable _ Hd1)|apply Hd1|].
  assert (stores w2 = stores w) as Hs by (by rewrite Hs2, stores_bump).
  assert (dialling w2) as Hd2 by (by apply (dialling_same w)).
  assert (as_read c (bump w1) r = as_read c w2 r) as Hread.
  { apply stores_fields in Hs2 as (_ & _ & Hh & _). unfold as_read, stored_windows, hours_of. by rewrite Hh. }
  destruct (loop_progress (env_now w1.(w_tick)) l1 (as_read c (bump w1) r) l2 w2)
    as (w' & called & ds & Hloop & Htab & Hsay & Hnum & Hcalls & Hin & Hp & Hfull & Hq);
    [done..|rewrite Hread; apply Hd2|done|].
  assert (tick cfg s w = (w', Ok ())) as Htick.
  { unfold tick. rewrite (bind_step _ _ _ _ _ Hpend), Hno.
    rewrite (bind_step now _ w1 (bump w1) _ eq_refl). by rewrite (bind_step _ _ _ _ _ Hlist). }
  pose proof (stores_fields _ _ Hs) as (Hl & Hc & Hh & Ht).
  assert (pending c w2 = pending c w) as Hpw by (unfold pending, ids, target_rows; by rewrite Ht).
  assert (same_numbers w w2) as Hnw by (intros id p; unfold number; by rewrite Ht).
  unfold tables_kept in Htab. injection Htab as Hc' Hh'. rewrite Hpw in *.
  assert (size (pending c w') + length called = size (pending c w))%nat as Hsize by (by apply called_size; [apply Hcalls|..]).
  exists w', called, ds. split_and!; [exact Htick| | | | |exact Hin|exact Hp|exact Hfull|].
  - split; [|by eapply numbers_callable; [|exact Hnum|apply Hd2]|apply Hd| | | |].
    + apply (stable_ran _ _ _ _ _ (eff_tick (inv pg_ok) cfg s) Htick), Hd.
    + unfold as_read, stored_windows, hours_of in *. rewrite Hh'. apply Hd2.
    + unfold running. rewrite Hc'. apply Hd2.
    + eapply room_called; [| |exact Hq|]; [lia..|]. rewrite <- Nat2Z.inj_add, Nat.add_comm, Hsize, <- Hpw. apply Hd2.
    + intros topic Hin'. eapply says_quiet; [done|exact Hsay|]. by apply Hd2.
  - destruct Hsay as (recs & Hlog & Hw). exists recs. by rewrite Hlog, Hl.
  - by etrans.
  - by eapply calls_to_same.
  - eapply queued_same; [|done|exact Hq]. by rewrite (stores_stats _ _ Hs).
Qed.

(** *** Tick after tick *)

Lemma calls_to_app w l l' ds ds' :
  (forall id, id ∈ l -> id ∉ l') -> calls_to w l ds -> calls_to w l' ds' -> calls_to w (l ++ l') (ds ++ ds').
Proof. intros Hdis [] []. split; [by apply NoDup_app|by apply Forall2_app]. Qed.

Lemma Run_progress n : forall w,
  reliable -> sane_clock -> (forall k, env_ctx_done k = false) -> dialling w ->
  Z.of_nat (size (pending c w)) <= Z.of_nat n * batch_size cfg ->
  exists w' called ds, Run n cfg s w = (w', Ok StillRunning) /\ says s ds w w' /\ pending c w' = ∅ /\
    (forall id, id ∈ called <-> id ∈ pending c w) /\ calls_to w called (mine ds) /\
    queued_calls c (Z.of_nat (length called)) w w'.
Proof using Htopic.
  induction n as [|n IH]; intros w Hr Hclock Hdone Hd Hn; cbn [Run].
  { assert (pending c w = ∅) as Hp by (apply leibniz_equiv, size_empty_inv; lia). exists w, [], []. rewrite Hp.
    split_and!; [done|by apply says_nil|done|set_solver|split; constructor|by apply queued_none]. }
  destruct (tick_progress w Hr Hclock Hd) as (w1 & called & ds & Htick & Hd1 & Hsay & Hnum & Hcalls & Hin & Hp & Hfull & Hq).
  rewrite (bind_step _ _ w w1 ()) by (by rewrite run_ignore, Htick).
  rewrite (bind_step ctx_done _ w1 (bump w1) _ eq_refl), Hdone.
  assert (stores (bump w1) = stores w1) as Hst by apply stores_bump.
  assert (pending c (bump w1) = pending c w1) as Hpb by (by destruct w1).
  assert (Z.of_nat (size (pending c (bump w1))) <= Z.of_nat n * batch_size cfg) as Hn1.
  { rewrite Hpb. destruct Hfull as [->|Hfull].
    - rewrite size_empty. assert (0 < batch_size cfg) by (unfold batch_size; destruct (_ <=? 0) eqn:?; zbool; lia). lia.
    - pose proof (called_size w w1 called ltac:(apply Hcalls) Hin Hp). lia. }
  destruct (IH (bump w1) Hr Hclock Hdone (dialling_same _ _ Hst Hd1) Hn1)
    as (w2 & called' & ds' & Hrun & Hsay' & Hempty & Hin' & Hcalls' & Hq').
  rewrite Hpb in Hin'.
  exists w2, (called ++ called'), (ds ++ ds'). split_and!; [done| |done| | |].
  - eapply says_app; [exact Hsay|]. destruct Hsay' as (recs & Hl & Hw). exists recs. split; [|done]. rewrite Hl. by destruct w1.
  - intros id. rewrite elem_of_app, Hin', Hp, elem_of_difference, elem_of_list_to_set.
    destruct (decide (id ∈ called)); naive_solver.
  - unfold mine. rewrite filter_app. apply calls_to_app; [|exact Hcalls|].
    + intros id Hid. rewrite Hin', Hp, elem_of_difference, elem_of_list_to_set. naive_solver.
    + eapply calls_to_same; [|exact Hcalls']. etrans; [exact Hnum|]. intros id p. by destruct w1.
  - rewrite length_app, Nat2Z.inj_add. eapply queued_trans; [exact Hq|].
    eapply queued_same; [|done|exact Hq']. by destruct w1.
Qed.

Lemma length_called w called :
  NoDup called -> (forall id, id ∈ called <-> id ∈ pending c w) -> length called = size (pending c w).
Proof.
  intros Hnd Hin. rewrite <- (size_list_to_set (C := gset uuid) called) by done. f_equal.
  apply set_eq. intros id. by rewrite elem_of_list_to_set.
Qed.

(** Claim C7: every target of a campaign that is [dialling] is called, exactly once.
    The campaign is in progress, open at every moment and one of no more campaigns
    in progress than a tick takes up; its calls can go through (it has at most ten
    thousand targets, none without a number); and no retry topic holds a record.
    When requests are answered and the scheduler runs alone, then after as many ticks
    as its pending targets fill batches none is pending any more, for each of them
    exactly one message was published, a first attempt to its number, whatever is
    published for the other campaigns, and its counters, if it has any, have as many
    calls more, all of them pending. *)
Theorem every_target_is_called (n : nat) (w : World) :
  reliable -> sane_clock -> (forall k, env_ctx_done k = false) -> dialling w ->
  Z.of_nat (size (pending c w)) <= Z.of_nat n * batch_size cfg ->
  exists w' called ds, Run n cfg s w = (w', Ok StillRunning) /\ says s ds w w' /\ pending c w' = ∅ /\
    (forall id, id ∈ called <-> id ∈ pending c w) /\ NoDup called /\
    Forall2 (fun id d => exists tr, w.(w_targets) !! id = Some tr /\ d.(dm_CampaignID) = c /\
      d.(dm_PhoneNumber) = tr.(tr_phone_number) /\ d.(dm_Attempt) = 1)
      called (filter (fun d => d.(dm_CampaignID) = c) ds) /\
    queued_calls c (Z.of_nat (size (pending c w))) w w'.
Proof using Htopic.
  intros Hr Hclock Hdone Hd Hn.
  destruct (Run_progress n w Hr Hclock Hdone Hd Hn) as (w' & called & ds & Hrun & Hsay & Hp & Hin & [Hnd Hf] & Hq).
  exists w', called, ds. rewrite (length_called w called) in Hq by done. split_and!; [done..| |done]. eapply Forall2_impl; [exact Hf|].
  intros id d (p & (tr & Hl & _ & <-) & Hdc & Hdp & Ha). by exists tr.
Qed.

(** *** Campaigns that no tick takes up *)

Definition updated (r : campaignRecord) : Time := default zero_time r.(cr_UpdatedAt).
Definition before (w : World) : list campaignRecord :=
  List.filter (fun r' => updated r' <? updated r) (running w).

Lemma running_NoDup w : pg_ok w -> NoDup (running w).
Proof.
  intros Hok. eapply sublist_NoDup; [|apply filter_sublist]. apply (NoDup_fmap_1 cr_ID).
  rewrite (table_ids w Hok). apply NoDup_fst_map_to_list.
Qed.

Lemma late_not_taken w :
  pg_ok w -> fetch_size <= Z.of_nat (length (before w)) ->
  r ∉ take (Z.to_nat fetch_size) (pg_order updated (running w)).
Proof.
  intros Hok Hlate Hin. set (n := Z.to_nat fetch_size) in *. set (l := pg_order updated (running w)) in *.
  assert (forall y, y ∈ before w -> y ∈ take n l /\ y <> r) as Hbefore.
  { intros y Hy. apply list_elem_of_In, filter_In in Hy as [Hy Hlt]. apply Z.ltb_lt in Hlt.
    split; [|intros ->; lia]. assert (y ∈ l) as Hyl by (unfold l; rewrite pg_order_perm; by apply list_elem_of_In).
    assert (StronglySorted (fun a b => updated a <= updated b) l) as Hs
      by (apply Sorted_StronglySorted; [intros ???; lia|apply pg_order_sorted]).
    rewrite <- (take_drop n l) in Hyl, Hs. apply elem_of_app in Hyl as [|Hyl]; [done|exfalso].
    pose proof (StronglySorted_app_1_elem_of _ _ _ _ _ Hs Hin Hyl). cbn in *. lia. }
  assert (length (r :: before w) <= length (take n l))%nat as Hlen.
  { apply NoDup_incl_length.
    - apply NoDup_ListNoDup. constructor; [intros Hr; by apply Hbefore in Hr as []|].
      eapply sublist_NoDup; [by apply running_NoDup|apply filter_sublist].
    - intros y [<-|Hy]; [by apply list_elem_of_In|]. apply list_elem_of_In, Hbefore. by apply list_elem_of_In. }
  rewrite length_take in Hlen. cbn in Hlen. unfold n in *. lia.
Qed.

Lemma listed_taken w w' cs x :
  ListByStatus CampaignStatusInProgress (campaignFetchLimit cfg) w = (w', Ok cs) -> x ∈ cs ->
  exists r0, r0 ∈ take (Z.to_nat fetch_size) (pg_order updated (running w)) /\ x.(c_ID) = r0.(cr_ID).
Proof.
  unfold ListByStatus, CampaignRepository_ListByStatus. intros Hrun Hx.
  apply bind_Ok in Hrun as (cs0 & w1 & Hl & Hrun). apply on_err_Ok, external_Ok in Hl.
  injection Hl as <- Hcs. apply fill_hours_Ok in Hrun as [_ ->].
  apply list_elem_of_fmap in Hx as (x0 & -> & Hx0). rewrite <- Hcs in Hx0.
  apply list_elem_of_fmap in Hx0 as (r0 & -> & Hr0). exists r0. split; [|done].
  fold fetch_size in Hr0. replace (List.filter _ _) with (running w) in Hr0 by (by destruct w). exact Hr0.
Qed.

(** A tick leaves the campaign alone, whatever fails. *)
Lemma tick_elsewhere w :
  pg_ok w -> w.(w_campaigns) !! c = Some r -> fetch_size <= Z.of_nat (length (before w)) ->
  elsewhere s c w (tick cfg s w).1.
Proof.
  intros Hok Hrow Hlate. pose proof (pending_retries_stores cfg.(sc_RetryTopics) w) as Hs1.
  assert (forall w', stores w' = stores w -> elsewhere s c w w') as Hsame.
  { unfold stores. intros w' [= ?????????]. apply elsewhere_same. congruence. }
  unfold tick. rewrite run_bind. destruct (hasPendingRetries _ w) as [w1 [p|e]]; cbn [fst] in *; [|by apply Hsame].
  destruct p; [by apply Hsame|]. rewrite (bind_step now _ w1 (bump w1) _ eq_refl), run_bind.
  pose proof (list_by_status_stores CampaignStatusInProgress (campaignFetchLimit cfg) (bump w1)) as Hs2.
  destruct (ListByStatus _ _ (bump w1)) as [w2 [cs|e]] eqn:Hlist; cbn [fst] in *; rewrite stores_bump, Hs1 in Hs2;
    [|by apply Hsame].
  etrans; [by apply Hsame|]. apply (stable_run (elsewhere s c)).
  assert (w_campaigns (bump w1) = w.(w_campaigns)) as Hc1.
  { apply stores_fields in Hs1 as (_ & <- & _). by destruct w1. }
  assert (forall x, x ∈ cs -> x.(c_ID) <> c) as Hcs.
  { intros x Hx Hxc. destruct (listed_taken _ _ _ _ Hlist Hx) as (r0 & Hr0 & Hid).
    replace (running (bump w1)) with (running w) in Hr0 by (unfold running; by rewrite Hc1).
    assert (r0 = r) as ->; [|by apply (late_not_taken w Hok Hlate)].
    apply subseteq_take in Hr0. rewrite pg_order_perm in Hr0. apply list_elem_of_In, filter_In in Hr0 as [Hr0 _].
    apply list_elem_of_In, list_elem_of_fmap in Hr0 as ([i r1] & -> & Hl%elem_of_map_to_list). cbn in *.
    pose proof (proj1 (ok_campaign w Hok _ _ Hl)). congruence. }
  clear -Hcs. induction cs as [|x cs IH]; cbn [for_each]; [apply stable_ret; apply _|].
  apply stable_bind; [apply _| |intros _; apply IH; intros; apply Hcs; by right].
  apply (elsewhere_campaign cfg s c x.(c_ID)); [apply Hcs; by left|done].
Qed.

Lemma Run_elsewhere n : forall w,
  pg_ok w -> w.(w_campaigns) !! c = Some r -> fetch_size <= Z.of_nat (length (before w)) ->
  elsewhere s c w (Run n cfg s w).1.
Proof.
  induction n as [|n IH]; intros w Hok Hrow Hlate; cbn [Run]; [by apply elsewhere_same|].
  pose proof (tick_elsewhere w Hok Hrow Hlate) as He.
  pose proof (stable_run _ _ (eff_tick (inv pg_ok) cfg s) w Hok) as Hok1.
  rewrite run_bind, run_ignore. destruct (tick cfg s w) as [w1 res]. cbn [fst snd] in *.
  rewrite (bind_step ctx_done _ w1 (bump w1) _ eq_refl).
  assert (elsewhere s c w (bump w1)) as He1 by (etrans; [exact He|]; apply elsewhere_same; by destruct w1).
  destruct (env_ctx_done _).
  { etrans; [exact He1|]. apply (stable_run (elsewhere s c)), stable_bind; [apply _| |done].
    apply stable_ctx_err. intros w2. apply elsewhere_same. by destruct w2. }
  etrans; [exact He1|]. apply IH.
  - by apply pg_ok_bump.
  - by rewrite (el_campaigns _ _ _ _ He1).
  - unfold before, running in *. by rewrite (el_campaigns _ _ _ _ He1).
Qed.

(** Claim C37: campaigns starve. A tick takes up the campaigns in progress that were
    changed longest ago, as many as its limit, and nothing the scheduler does
    changes a campaign: so if that many were changed before this one, it is not
    called for as long as they are in progress, even when all their targets have
    been, under any faults: its pending targets stay pending and no message is
    published for it. *)
Theorem late_campaign_starves (n : nat) (w : World) :
  pg_ok w -> w.(w_campaigns) !! c = Some r -> fetch_size <= Z.of_nat (length (before w)) ->
  let w' := (Run n cfg s w).1 in
  pending c w' = pending c w /\
  exists ds, says s ds w w' /\ Forall (fun d => d.(dm_CampaignID) <> c) ds.
Proof.
  intros Hok Hrow Hlate w'. pose proof (Run_elsewhere n w Hok Hrow Hlate) as He.
  split; [by apply elsewhere_pending|apply (el_log _ _ _ _ He)].
Qed.
End Drive.

(** With other settings, that reach the campaign too. *)
Lemma dialling_settings `{Env} `{PgOrder} s1 s2 c r w :
  s2.(sc_RetryTopics) = s1.(sc_RetryTopics) -> Z.of_nat (length (running w)) <= fetch_size s2 ->
  dialling s1 c r w -> dialling s2 c r w.
Proof. intros Ht Hlen []. split; try done. by rewrite Ht. Qed.

(** ** A campaign with three targets, called in batches of two *)

#[local] Existing Instances still_env bit_uuid stable_sort_order unary_pages json_bodies.
#[local] Instance dialout_provider : Provider := mock_PlaceCall.

Definition three_targets_body : json :=
  JObj [("name", JString "winter"); ("time_zone", JString "UTC");
        ("targets", JArr [JObj [("phone_number", JString "+1551")]; JObj [("phone_number", JString "+1552")];
                          JObj [("phone_number", JString "+1553")]])].

Definition dialout_id : uuid := 2%N.
Definition dialout_start : World :=
  (serve (api default_config) EStartCampaign (to_api (bit_uuid_text dialout_id) JNull)
     (serve (api default_config) ECreateCampaign (to_api EmptyString three_targets_body) empty_world).1).1.
Definition dialout_row : campaignRecord := default sample_row (dialout_start.(w_campaigns) !! dialout_id).
Definition dialout_settings : SchedulerSettings :=
  mkSchedulerSettings 4 2 default_config.(cfg_Kafka).(kc_RetryTopics).
Definition dialout_calls : CallService := (co default_config).(co_calls).

Lemma dialout_reachable : reachable default_config dialout_start.
Proof.
  apply reachable_run; [apply start_request|]. apply reachable_run; [apply start_request|].
  exists ∅. apply rtc_refl.
Qed.

Definition has_number (x : uuid * targetRow) : bool := negb (String.eqb x.2.(tr_phone_number) EmptyString).
Definition has_room (st : CampaignStats) : bool :=
  stats_in_range st && (st.(st_TotalCalls) + 3 <=? max_int64) && (st.(st_PendingCalls) + 3 <=? max_int64).

Lemma dialout_dialling : dialling dialout_settings dialout_id dialout_row dialout_start.
Proof.
  split.
  - apply (integrity_reachable default_config); [apply mock_outside|apply dialout_reachable].
  - split; [vm_compute; reflexivity|vm_compute; by eexists|vm_compute; discriminate|].
    intros id tr Hl _ He. assert (forallb has_number (map_to_list dialout_start.(w_targets)) = true) as Hall
      by (vm_compute; reflexivity).
    rewrite forallb_forall in Hall. specialize (Hall (id, tr)). unfold has_number in Hall. cbn in Hall. rewrite He in Hall.
    by discriminate Hall; apply list_elem_of_In, elem_of_map_to_list.
  - vm_compute; reflexivity.
  - intros n. vm_compute. reflexivity.
  - vm_compute; discriminate.
  - intros st Hst. assert (size (pending dialout_id dialout_start) = 3%nat) as -> by (vm_compute; reflexivity).
    assert (has_room (default zero_stats (dialout_start.(w_stats) !! dialout_id)) = true) as Hroom by (vm_compute; reflexivity).
    rewrite Hst in Hroom. cbn [default from_option id] in Hroom. unfold has_room in Hroom.
    rewrite !andb_true_iff, !Z.leb_le in Hroom. destruct Hroom as [[Hr Ht] Hp]. exact (conj Hr (conj Ht Hp)).
  - intros topic Hin. unfold dialout_settings in Hin. cbn [sc_RetryTopics] in Hin. unfold topic_records.
    assert (dialout_start.(w_log) = []) as -> by (vm_compute; reflexivity). done.
Qed.

Lemma dialout_witness :
  exists w' (called : list uuid) ds, Run 2 dialout_settings dialout_calls dialout_start = (w', Ok StillRunning) /\
    says dialout_calls ds dialout_start w' /\ pending dialout_id w' = ∅ /\ length called = 3%nat.
Proof.
  destruct (every_target_is_called dialout_settings dialout_calls dialout_id dialout_row) with (n := 2%nat) (w := dialout_start)
    as (w' & called & ds & Hrun & Hsay & Hp & Hin & Hnd & _).
  - apply (bool_decide_eq_true_1 (cs_dispatchTopic dialout_calls ∉ sc_RetryTopics dialout_settings)).
    vm_compute. reflexivity.
  - intros n. reflexivity.
  - intros n. vm_compute. reflexivity.
  - intros n. reflexivity.
  - apply dialout_dialling.
  - vm_compute. discriminate.
  - exists w', called, ds. split; [exact Hrun|]. split; [exact Hsay|]. split; [exact Hp|].
    assert (list_to_set called = pending dialout_id dialout_start) as Heq.
    { apply set_eq. intros id. rewrite elem_of_list_to_set. apply Hin. }
    rewrite <- (size_list_to_set (C := gset uuid) called Hnd), Heq. vm_compute. reflexivity.
Defined.

(** ** Twenty campaigns in progress, and one that was changed after them *)

#[local] Existing Instance quiet_env.

Definition crowd_body (name : string) : json :=
  JObj [("name", JString name); ("time_zone", JString "UTC");
        ("targets", JArr [JObj [("phone_number", JString "+1551")]])].

(** The campaign that was created last. *)
Definition newest (w : World) : uuid := foldr N.max 0%N (map_to_list w.(w_campaigns)).*1.

Fixpoint crowd (names : list string) (w : World) : World :=
  match names with
  | [] => w
  | name :: names =>
      let w1 := (serve (api default_config) ECreateCampaign (to_api EmptyString (crowd_body name)) w).1 in
      crowd names (serve (api default_config) EStartCampaign (to_api (bit_uuid_text (newest w1)) JNull) w1).1
  end.

Lemma crowd_reachable names : forall w, reachable default_config w -> reachable default_config (crowd names w).
Proof.
  induction names as [|name names IH]; intros w Hw; cbn [crowd]; [done|].
  apply IH. apply reachable_run; [apply start_request|]. apply reachable_run; [apply start_request|done].
Qed.

Definition crowded : World :=
  crowd ["a"; "b"; "c"; "d"; "e"; "f"; "g"; "h"; "i"; "j"; "k"; "l"; "m"; "n"; "o"; "p"; "q"; "r"; "s"; "t"; "z"]
    empty_world.
Definition late_id : uuid := newest crowded.
Definition late_row : campaignRecord := default sample_row (crowded.(w_campaigns) !! late_id).
Definition lone_worker : SchedulerSettings := mkSchedulerSettings 1 50 default_config.(cfg_Kafka).(kc_RetryTopics).

Lemma starves_witness :
  size (pending late_id crowded) = 1%nat /\
  forall n, pending late_id (Run n lone_worker dialout_calls crowded).1 = pending late_id crowded.
Proof.
  split; [vm_compute; reflexivity|]. intros n.
  apply (late_campaign_starves lone_worker dialout_calls late_id late_row n crowded).
  - apply (integrity_reachable default_config); [apply mock_outside|].
    apply crowd_reachable. exists ∅. apply rtc_refl.
  - vm_compute; reflexivity.
  - vm_compute; discriminate.
Defined.
