(* ===== verification/Replicas.v ===== *)
(** Two schedulers at once: nothing keeps them from taking the same targets. *)
From S2P Require Import Prelude Errors GoTime Json Domain Messages World Interleaving Postgres.
From S2P Require Import PostgresInv PostgresSpec Scylla Queue CampaignService CallService CallLists.
From S2P Require Import Requests Handlers Scheduler CallWorker StatusWorker RetryWorker Effects.
From S2P Require Import Integrity ApiEcho Config Container System SchedulerProofs Pipeline Listing Dialout.

Section Overlap.
Context `{Env} `{PgOrder} `{UuidText} (cfg : SchedulerSettings) (s : CallService) (c : uuid) (r : campaignRecord).
Context (Htopic : s.(cs_dispatchTopic) ∉ cfg.(sc_RetryTopics)).
Context (Hreliable : reliable) (Hclock : sane_clock).

Notation dialling := (dialling cfg c r).
Notation callable := (callable c r).
Notation number := (number c).
Notation same_numbers := (same_numbers c).

(** ** A batch that was taken *)

Lemma sublist_same_length {A} (l k : list A) : l `sublist_of` k -> length l = length k -> l = k.
Proof.
  induction 1 as [|x l k Hs IH|x l k Hs IH]; cbn; intros Hlen; [done|by rewrite IH by lia|].
  apply sublist_length in Hs. lia.
Qed.

(** The targets of a batch are called, whatever their state is by then. *)
Lemma call_batch_all ts w :
  callable w -> room c (Z.of_nat (length ts)) w -> NoDup (t_ID <$> ts) ->
  (forall t, t ∈ ts -> number w t.(t_ID) t.(t_PhoneNumber)) ->
  exists w' ds, call_batch s c ts w = (w', Ok ()) /\ says s ds w w' /\ calls_to c w (t_ID <$> ts) ds /\
    queued_calls c (Z.of_nat (length ts)) w w'.
Proof using Hreliable Hclock.
  intros Hcall Hroom Hnd Hts. unfold call_batch. destruct ts as [|t0 ts0] eqn:E.
  { exists w, []. split_and!; [done|by apply says_nil|by split; constructor|by apply queued_none]. }
  rewrite <- E in *. assert (t_ID <$> ts <> []) as Hne by (by rewrite E). clear E t0 ts0. cbv zeta.
  rewrite (bind_step now _ _ _ _ eq_refl).
  erewrite bind_step; [|rewrite run_attempt, mark_scheduled_reliable by done; reflexivity]. cbn [fst snd].
  set (at_ := env_now _). set (w1 := update_targets c (t_ID <$> ts) (with_schedule at_) (bump (bump w))).
  assert (same_numbers w w1) as Hnum.
  { unfold w1. etrans; [|by apply update_numbers]. intros id p. by destruct w. }
  destruct (trigger_targets_run s c ts w1 Hreliable)
    as (w2 & called & failed & ds & recs & Hrun & _ & Hl & Hw & Hf & Hsub & Hperm).
  assert (w_stats w1 = w_stats w) as Hst by (by destruct w).
  destruct (trigger_targets_all s c r ts w1 w2 failed) as (-> & _ & Hq); [done|done| | | |done|].
  { eapply numbers_callable; [|exact Hnum|done]. by destruct w. }
  { intros st. rewrite Hst. apply Hroom. }
  { intros t Ht. exists t.(t_ID). apply (Hnum t.(t_ID)). by apply Hts. }
  assert (called = ts) as ->.
  { apply sublist_same_length; [done|]. apply Permutation_length in Hperm. by rewrite app_nil_r, !length_fmap in Hperm. }
  exists w2, ds. rewrite (bind_step _ _ _ _ _ Hrun). split_and!; [done| | |].
  - exists recs. split; [rewrite Hl; by destruct w|]. apply Forall2_same_length_lookup_2; [by eapply Forall2_length|].
    intros i d x Hd Hx. split; [exact (Forall2_lookup_lr _ _ _ _ _ _ Hw Hd Hx)|].
    by destruct (Forall2_lookup_r _ _ _ _ _ Hf Hd) as (y & _ & _ & _ & Ha).
  - split; [done|]. apply Forall2_fmap_l. apply Forall2_same_length_lookup_2; [by eapply Forall2_length|].
    intros i t d Ht Hd. exists t.(t_PhoneNumber). split; [by apply Hts, (list_elem_of_lookup_2 _ i)|].
    exact (Forall2_lookup_lr _ _ _ _ _ _ Hf Ht Hd).
  - eapply queued_same; [| |exact Hq]; [by rewrite Hst|done].
Qed.

(** ** A tick that is stopped when it has its batch *)

Lemma dialling_elsewhere w w' : pg_ok w' -> elsewhere s c w w' -> dialling w -> dialling w'.
Proof using Htopic.
  intros Hok He []. split; [done| |done| | | |].
  - eapply numbers_callable; [apply He|by eapply elsewhere_numbers|done].
  - unfold as_read, stored_windows, hours_of in *. by rewrite (el_hours _ _ _ _ He).
  - unfold running in *. by rewrite (el_campaigns _ _ _ _ He).
  - rewrite (elsewhere_pending _ _ _ _ He). unfold room in *. by rewrite (el_stats _ _ _ _ He).
  - destruct (el_log _ _ _ _ He) as (ds & Hsay & _). intros topic Hin. by eapply says_quiet; [..|apply di_quiet].
Qed.

Lemma paused_loop t l1 x l2 w w1 ts w2 :
  for_each l1 (schedule_campaign cfg s t) w = (w1, Ok ()) -> isWithinBusinessHours t x = true ->
  CampaignTargetRepository_NextBatchForScheduling x.(c_ID) cfg.(sc_MaxBatchSize) w1 = (w2, Ok ts) ->
  paused (for_each (l1 ++ x :: l2) (schedule_campaign cfg s t)) w
    (call_batch s x.(c_ID) ts ≫= fun _ => for_each l2 (schedule_campaign cfg s t)) w2.
Proof.
  intros Hl1 Hopen Hts. eapply paused_trans; [by apply paused_for_each|]. cbn [for_each]. apply paused_bind.
  unfold schedule_campaign. rewrite Hopen. cbn [negb]. eapply paused_trans.
  - apply paused_past. by rewrite run_attempt, Hts.
  - apply paused_here.
Qed.

(** It has read whom to call; what is left is to call them, and the campaigns that
    come after. *)
Lemma tick_paused w :
  dialling w ->
  exists w1 ts l2 t, paused (tick cfg s) w
      (call_batch s c ts ≫= fun _ => for_each l2 (schedule_campaign cfg s t)) w1 /\
    elsewhere s c w w1 /\ dialling w1 /\ (forall x, x ∈ l2 -> x.(c_ID) <> c) /\ NoDup (t_ID <$> ts) /\
    (forall x, x ∈ ts -> x.(t_ID) ∈ pending c w1 /\ number w1 x.(t_ID) x.(t_PhoneNumber)) /\
    (forall id, id ∈ pending c w1 -> id ∈ (t_ID <$> ts) \/ Z.of_nat (length ts) = batch_size cfg).
Proof using Htopic Hreliable Hclock.
  intros Hd. destruct (has_pending_reliable cfg.(sc_RetryTopics) w Hreliable) as [w1 Hpend].
  assert (existsb (has_record w) cfg.(sc_RetryTopics) = false) as Hno.
  { apply not_true_is_false. intros (topic & Hin & Hrec)%existsb_exists.
    apply has_record_spec in Hrec. apply Hrec, (di_quiet _ _ _ w Hd). by apply list_elem_of_In. }
  pose proof (pending_retries_stores cfg.(sc_RetryTopics) w) as Hs1. rewrite Hpend in Hs1. cbn [fst] in Hs1.
  assert (stores (bump w1) = stores w) as Hs1' by (by rewrite stores_bump).
  assert (dialling (bump w1)) as Hd1 by (by apply (dialling_same cfg c r w)).
  destruct (list_running cfg c r (bump w1)) as (w2 & l1 & l2 & Hlist & Hs2 & Hothers);
    [done|apply Hd1|apply Hd1|apply (ca_row _ _ _ (di_callable _ _ _ _ Hd1))|apply Hd1|].
  destruct (others_elsewhere cfg s c (env_now w1.(w_tick)) l1 w2 Hreliable) as (w3 & Hl1 & He);
    [intros; apply Hothers; set_solver|].
  assert (stores w2 = stores w) as Hs by congruence.
  assert (elsewhere s c w w2) as He0.
  { apply elsewhere_same. unfold stores in Hs. by injection Hs as -> -> -> -> _ _ _ _ -> _. }
  assert (pg_ok w3) as Hok3.
  { pose proof (di_ok _ _ _ _ (dialling_same cfg c r w w2 Hs Hd)) as Hok2.
    refine (stable_ran (inv pg_ok) _ _ _ _ _ Hl1 Hok2). clear. induction l1 as [|x l IH]; cbn [for_each]; [apply stable_ret, _|].
    apply stable_bind; [apply _| |intros _; exact IH]. apply (eff_schedule_campaign (inv pg_ok) (fun A => stable (inv pg_ok))); try apply _; [done|].
    intros i. effects. }
  set (x := as_read c (bump w1) r) in *.
  assert (x.(c_ID) = c) as Hx by (apply (ok_campaign w (di_ok _ _ _ w Hd) _ _ (ca_row _ _ _ (di_callable _ _ _ w Hd)))).
  assert (elsewhere s c w w3) as He3 by (by etrans).
  pose proof (dialling_elsewhere _ _ Hok3 He3 Hd) as Hd3.
  destruct (next_batch_reliable cfg c w3 Hreliable) as (ts & Hnext & Hnd & _ & Hb & Hall).
  exists (bump w3), ts, l2, (env_now w1.(w_tick)). split_and!.
  - unfold tick. eapply paused_trans; [by apply paused_past|]. rewrite Hno. cbv iota.
    eapply paused_trans; [by apply (paused_past now _ w1 (bump w1))|].
    eapply paused_trans; [by apply paused_past|]. rewrite <- Hx at 1.
    eapply paused_loop; [exact Hl1|apply Hd1|by rewrite Hx].
  - etrans; [exact He3|]. apply elsewhere_same. by destruct w3.
  - by apply (dialling_same cfg c r w3); [apply stores_bump|].
  - intros y Hy. apply Hothers. set_solver.
  - done.
  - intros y Hy. destruct (Hb y Hy) as (tr & Hl & Ht & Hc & Hp). split.
    + apply elem_of_pending. exists tr. by destruct w3.
    + exists tr. split_and!; [by destruct w3|done|by rewrite Ht].
  - intros id (tr & Hl & Hc & Hp)%elem_of_pending. apply (Hall id tr); by destruct w3.
Qed.
(** ** Both call the same targets *)

(** From [w] to [w'] every target of the campaign that was pending in [w0] is
    called, exactly once: the messages published for it are a first attempt each. *)
Definition calls_each (w0 w w' : World) : Prop :=
  exists called ds, says s ds w w' /\ (forall id, id ∈ called <-> id ∈ pending c w0) /\
    calls_to c w0 called (mine c ds).

Lemma batch_of_all (l : list uuid) w :
  NoDup l -> (forall id, id ∈ l -> id ∈ pending c w) -> Z.of_nat (size (pending c w)) <= batch_size cfg ->
  (forall id, id ∈ pending c w -> id ∈ l \/ Z.of_nat (length l) = batch_size cfg) ->
  (forall id, id ∈ l <-> id ∈ pending c w) /\ length l = size (pending c w).
Proof.
  intros Hnd Hin Hle Hall.
  assert (list_to_set l ⊆ pending c w) as Hsub by (intros id; rewrite elem_of_list_to_set; apply Hin).
  assert (forall id, id ∈ l <-> id ∈ pending c w) as Hiff; [|split; [done|by apply length_called]].
  intros id. split; [apply Hin|]. intros Hid. destruct (Hall id Hid) as [|Hlen]; [done|].
  assert (list_to_set l ≡ pending c w) as Heq
    by (apply set_subseteq_size_equiv; [done|]; rewrite size_list_to_set by done; lia).
  apply (elem_of_list_to_set (C := gset uuid)). by apply Heq.
Qed.

Lemma overlap w :
  dialling w -> Z.of_nat (size (pending c w)) <= batch_size cfg ->
  room c (2 * Z.of_nat (size (pending c w))) w ->
  exists w1 rest w2 w3, paused (tick cfg s) w rest w1 /\ elsewhere s c w w1 /\ dialling w1 /\
    tick cfg s w1 = (w2, Ok ()) /\ calls_each w w1 w2 /\
    run rest w2 = (w3, Ok ()) /\ calls_each w w2 w3 /\
    queued_calls c (2 * Z.of_nat (size (pending c w))) w w3.
Proof using Htopic Hreliable Hclock.
  intros Hd Hle Hroom. set (k := Z.of_nat (size (pending c w))) in *.
  destruct (tick_paused w Hd) as (w1 & ts & l2 & t & Hpaused & He1 & Hd1 & Hl2 & Hnd & Hts & Hall).
  pose proof (elsewhere_pending _ _ _ _ He1) as Hp1. pose proof (elsewhere_numbers _ _ _ _ He1) as Hn1.
  rewrite Hp1 in *.
  destruct (tick_progress cfg s c r Htopic w1 Hreliable Hclock Hd1)
    as (w2 & called & ds & Htick & Hd2 & Hsay2 & Hn2 & Hcalls2 & Hin2 & Hp2 & Hfull & Hq2).
  rewrite Hp1 in *.
  destruct (batch_of_all (t_ID <$> ts) w Hnd) as [Hts_all Hlen_ts];
    [by intros id (x & -> & Hx)%list_elem_of_fmap; apply Hts|done|by rewrite length_fmap|]. rewrite length_fmap in Hlen_ts.
  destruct (batch_of_all called w (proj1 Hcalls2) Hin2 Hle) as [Hcalled Hlen].
  { intros id Hid. destruct Hfull as [Hnone|]; [left|by right]. rewrite Hnone in Hp2.
    apply dec_stable. intros Hni. apply (not_elem_of_empty (C := gset uuid) id). rewrite Hp2.
    by rewrite elem_of_difference, elem_of_list_to_set. }
  assert (room c k w2) as Hroom2.
  { eapply (room_called c k k w1); [lia..| |]; [by rewrite Hlen in Hq2|].
    intros st. rewrite (el_stats _ _ _ _ He1). replace (k + k) with (2 * k) by lia. apply Hroom. }
  destruct (call_batch_all ts w2) as (w3 & ds' & Hbatch & Hsay3 & Hcalls3 & Hq3); [apply Hd2| |done| |].
  { by rewrite Hlen_ts. }
  { intros x Hx. apply (Hn2 x.(t_ID)). by apply Hts. }
  destruct (others_elsewhere cfg s c t l2 w3 Hreliable Hl2) as (w4 & Hrest & He4).
  destruct (el_log _ _ _ _ He4) as (ds4 & Hsay4 & Hds4).
  exists w1, (call_batch s c ts ≫= fun _ => for_each l2 (schedule_campaign cfg s t)), w2, w4.
  split_and!; [done..| | | |].
  - exists called, ds. split_and!; [done..|by eapply calls_to_same].
  - by rewrite (bind_step _ _ _ _ _ Hbatch).
  - exists (t_ID <$> ts), (ds' ++ ds4). split; [by eapply says_app|]. split; [done|].
    unfold mine. rewrite filter_app. fold (mine c ds') (mine c ds4).
    rewrite (mine_own _ _ _ _ Hcalls3), (mine_others _ _ Hds4), app_nil_r.
    eapply calls_to_same; [|exact Hcalls3]. by etrans.
  - replace (2 * k) with (k + k) by lia. rewrite Hlen in Hq2. rewrite Hlen_ts in Hq3.
    eapply queued_same; [symmetry; apply (el_stats _ _ _ _ He1)|apply (el_stats _ _ _ _ He4)|].
    by eapply queued_trans.
Qed.
End Overlap.

(** ** Two schedulers of the platform *)

Section Replicas.
Context `{Env} `{PgOrder} `{UuidText} `{Gocql} `{Fiber} `{Provider} (cfg : Config).

Let scheduler := (co cfg).(co_scheduler).
Let calls := (co cfg).(co_calls).

(** Claim C18: two schedulers that overlap, as those of a fleet of replicas do, call
    every target of a campaign twice. Let a campaign be [dialling], with no more
    targets pending than a batch holds. A tick can be stopped, when it has read its
    batch and marked none of it, and another tick take its whole turn: the second
    calls every pending target, and the first, when it goes on, calls them all
    again, for nothing locks them in between, nor does anything else keep the two
    apart. The counters then have two calls for each target, and this is a state
    the platform can reach, if it has reached the first. *)
Theorem two_schedulers_dial_twice (c : uuid) (r : campaignRecord) (w : World) :
  reliable -> sane_clock -> topics_distinct cfg.(cfg_Kafka) -> dialling scheduler c r w ->
  Z.of_nat (size (pending c w)) <= batch_size scheduler ->
  room c (2 * Z.of_nat (size (pending c w))) w ->
  exists n w1 rest w2 w3, advance n (tick scheduler calls) w = (w1, rest) /\ pending c w1 = pending c w /\
    tick scheduler calls w1 = (w2, Ok ()) /\ calls_each calls c w w1 w2 /\
    run rest w2 = (w3, Ok ()) /\ calls_each calls c w w2 w3 /\
    queued_calls c (2 * Z.of_nat (size (pending c w))) w w3 /\
    (reachable cfg w -> reachable cfg w3).
Proof.
  intros Hr Hclock Htopics Hd Hle Hroom.
  assert (calls.(cs_dispatchTopic) ∉ scheduler.(sc_RetryTopics)) as Hquiet by apply (topics_differ cfg Htopics).
  destruct (overlap scheduler calls c r Hquiet Hr Hclock w Hd Hle Hroom)
    as (w1 & rest & w2 & w3 & [n Hn] & He & _ & Htick & Hfirst & Hrest & Hsecond & Hq).
  exists n, w1, rest, w2, w3. split_and!; try done; [by eapply elsewhere_pending|]. intros Hreach.
  pose proof (reachable_overtaken cfg n (ignore (tick scheduler calls)) (ignore (tick scheduler calls)) w
    (start_tick _ _) (start_tick _ _) Hreach) as Hover.
  unfold ignore in Hover. rewrite advance_map_result, Hn in Hover. cbn [fst snd] in Hover.
  rewrite !run_map_result in Hover. cbn [fst] in Hover. rewrite Htick in Hover. cbn [fst] in Hover.
  by rewrite Hrest in Hover.
Qed.
End Replicas.

(** ** Three targets, six calls *)

#[local] Existing Instances still_env bit_uuid stable_sort_order unary_pages json_bodies dialout_provider.

Lemma two_schedulers_witness :
  size (pending dialout_id dialout_start) = 3%nat /\
  exists w3, reachable default_config w3 /\ w3.(w_stats) !! dialout_id = Some (mkStats 6 0 0 0 6 0).
Proof.
  assert (size (pending dialout_id dialout_start) = 3%nat) as Hsize by (vm_compute; reflexivity).
  assert (dialout_start.(w_stats) !! dialout_id = Some (mkStats 0 0 0 0 0 0)) as Hst by (vm_compute; reflexivity).
  split; [exact Hsize|].
  destruct (two_schedulers_dial_twice default_config dialout_id dialout_row dialout_start)
    as (n & w1 & rest & w2 & w3 & _ & _ & _ & _ & _ & _ & Hq & Hreach).
  - intros n. reflexivity.
  - intros n. vm_compute. reflexivity.
  - apply default_topics_distinct.
  - apply (dialling_settings dialout_settings); [reflexivity|vm_compute; discriminate|apply dialout_dialling].
  - rewrite Hsize. vm_compute. discriminate.
  - rewrite Hsize. intros st Hl. rewrite Hst in Hl. injection Hl as <-. split; [reflexivity|].
    split; vm_compute; discriminate.
  - exists w3. split; [apply Hreach, dialout_reachable|]. unfold queued_calls in Hq. by rewrite Hq, Hst, Hsize.
Defined.
