(* ===== verification/Processes.v ===== *)
(** The endless loops around the handlers: Run of the three workers and of the
    scheduler, the processes of a deployment, and what they do together. *)
From S2P Require Import Prelude Errors GoTime Json Domain Messages World Postgres PostgresInv.
From S2P Require Import PostgresSpec Scylla Queue Limiter CampaignService CallService CallLists.
From S2P Require Import Requests Handlers Scheduler CallWorker StatusWorker RetryWorker Effects.
From S2P Require Import Raises Interleaving Config Container System.

(** ** The loops *)

(** What reader.FetchMessage returns; until then it blocks. A context that is
    cancelled is reported as an error. *)
Inductive Fetch :=
| Fetched (m : KafkaMessage)
| FetchError.

Section Loops.
Context `{Env} `{PgOrder} `{UuidText} `{Provider}.

(** One turn of a consumer's loop; [false] when the handler itself still waits. *)
Definition consumer_turn (handler : KafkaMessage -> M bool) (f : Fetch) : M bool :=
  match f with
  | Fetched m => handler m
  | FetchError =>
      stop ← ctx_done;
      if (stop : bool) then (err ← ctx_err; throw err) else mret true
  end.

(** The loop over the results its reader gets, in order. It returns with an error
    only; [Ok] means that it is still blocked when they are used up. *)
Fixpoint consume (handler : KafkaMessage -> M bool) (fetches : list Fetch) : M () :=
  match fetches with
  | [] => mret ()
  | f :: fs =>
      on ← consumer_turn handler f;
      if (on : bool) then consume handler fs else mret ()
  end.

(** An error of processMessage is logged and the loop goes on. *)
Definition call_handler (fuel : nat) (cw : CallWorker) (m : KafkaMessage) : M bool :=
  r ← attempt (processMessage fuel cw m);
  mret (match r with Ok Waiting => false | _ => true end).
Definition CallWorker_Run (fuel : nat) (cw : CallWorker) : list Fetch -> M () :=
  consume (call_handler fuel cw).

Definition status_handler (sw : StatusWorker) (m : KafkaMessage) : M bool :=
  handle_status sw m ≫= fun _ => mret true.
Definition StatusWorker_Run (sw : StatusWorker) : list Fetch -> M () := consume (status_handler sw).

Definition retry_handler (rw : RetryWorker) (attemptIndex : int) (m : KafkaMessage) : M bool :=
  handle_retry rw attemptIndex m ≫= fun _ => mret true.
Definition consumeTopic (rw : RetryWorker) (attemptIndex : int) : list Fetch -> M () :=
  consume (retry_handler rw attemptIndex).

(** RetryWorker.Run: a consumer for each retry topic, all of them concurrent; one
    that fails does not stop the others, and Run itself returns only when its
    context is done. *)
Definition RetryWorker_Run (rw : RetryWorker) (topics : list string)
    : list (string * (list Fetch -> M ())) :=
  imap (fun idx topic => (topic, consumeTopic rw (Z.of_nat idx + 1))) topics.
End Loops.

(** ** The processes *)

(** What cmd starts: the API server, the scheduler, the two workers with a loop
    of their own, and the retry worker's consumers. *)
Inductive Process :=
| ProcAPI
| ProcScheduler
| ProcCallWorker
| ProcStatusWorker
| ProcRetryConsumer (idx : nat).

(** What makes a process take a turn: a request, the ticker, or a fetch. *)
Inductive Event :=
| OnRequest (e : Endpoint) (ctx : Ctx)
| OnTick
| OnFetch (f : Fetch).

Section Processes.
Context `{Env} `{PgOrder} `{UuidText} `{Gocql} `{Fiber} `{Provider} (cfg : Config).

Let components := initComponents cfg.

(** The topic a process reads. *)
Definition subscription (p : Process) : option string :=
  match p with
  | ProcCallWorker => Some cfg.(cfg_Kafka).(kc_CallTopic)
  | ProcStatusWorker => Some cfg.(cfg_Kafka).(kc_StatusTopic)
  | ProcRetryConsumer idx => cfg.(cfg_Kafka).(kc_RetryTopics) !! idx
  | ProcAPI | ProcScheduler => None
  end.

(** One turn. An error ends the process: of the loops, only cancellation. *)
Definition turn (fuel : nat) (p : Process) (ev : Event) : M () :=
  match p, ev with
  | ProcAPI, OnRequest e ctx => serve (NewHandlerSet components) e ctx ≫= fun _ => mret ()
  | ProcScheduler, OnTick =>
      ignore (tick components.(co_scheduler) components.(co_calls)) ≫= fun _ =>
      stop ← ctx_done;
      if (stop : bool) then (err ← ctx_err; throw err) else mret ()
  | ProcCallWorker, OnFetch f =>
      consumer_turn (call_handler fuel components.(co_callWorker)) f ≫= fun _ => mret ()
  | ProcStatusWorker, OnFetch f =>
      consumer_turn (status_handler components.(co_statusWorker)) f ≫= fun _ => mret ()
  | ProcRetryConsumer idx, OnFetch f =>
      consumer_turn (retry_handler components.(co_retryWorker) (Z.of_nat idx + 1)) f ≫= fun _ => mret ()
  | _, _ => mret ()
  end.

(** A record that is fetched is a record of the topic. *)
Definition deliverable (p : Process) (ev : Event) (w : World) : Prop :=
  forall m, ev = OnFetch (Fetched m) -> exists topic, subscription p = Some topic /\ (topic, m) ∈ w.(w_log).

(** A deployment: the stores, the processes that run, and their turns, each in
    what is left of it. The number of a process is not used again. *)
Record Platform := mkPlatform {
  pf_world : World;
  pf_running : gmap nat Process;
  pf_turns : gmap (nat * nat) (M ());
}.

(** The API answers requests while others are being answered; the others take one
    turn after the other. *)
Definition may_begin (i : nat) (p : Process) (turns : gmap (nat * nat) (M ())) : Prop :=
  p = ProcAPI \/ forall j q, turns !! (i, j) = Some q -> q = Return (Ok ()).

(** Processes are started, take turns request by request, return when a turn ends
    with an error, and are killed at any time, any number of each. *)
Inductive platform_step : relation Platform :=
| platform_idle w ps ts : platform_step (mkPlatform w ps ts) (mkPlatform (bump w) ps ts)
| platform_start i p w ps ts :
    ps !! i = None -> (forall j, ts !! (i, j) = None) ->
    platform_step (mkPlatform w ps ts) (mkPlatform w (<[i := p]> ps) ts)
| platform_killed i w ps ts : platform_step (mkPlatform w ps ts) (mkPlatform w (delete i ps) ts)
| platform_turn i j fuel p ev w ps ts :
    ps !! i = Some p -> may_begin i p ts -> ts !! (i, j) = None -> deliverable p ev w ->
    platform_step (mkPlatform w ps ts) (mkPlatform w ps (<[(i, j) := turn fuel p ev]> ts))
| platform_request i j p {X} (op : World -> World * X) k w ps ts :
    ps !! i = Some p -> ts !! (i, j) = Some (Request op k) ->
    platform_step (mkPlatform w ps ts) (mkPlatform (op w).1 ps (<[(i, j) := k (op w).2]> ts))
| platform_return i j e w ps ts :
    ts !! (i, j) = Some (Return (Err e)) ->
    platform_step (mkPlatform w ps ts) (mkPlatform w (delete i ps) ts).

(** A turn that is let run to its end. *)
Lemma turn_finishes i j p q : forall w ps ts,
  ps !! i = Some p ->
  rtc platform_step (mkPlatform w ps (<[(i, j) := q]> ts))
    (mkPlatform (run q w).1 ps (<[(i, j) := Return (run q w).2]> ts)).
Proof.
  induction q as [r|X op k IH]; intros w ps ts Hp; [apply rtc_refl|].
  eapply rtc_l; [by apply (platform_request i j p op k); [|rewrite lookup_insert_eq]|].
  rewrite insert_insert_eq. specialize (IH (op w).2 (op w).1 ps ts Hp). cbn. by destruct (op w).
Qed.

(** *** A turn does what its handler does, and consults the oracle *)

(** Every request only lets time pass. *)
Fixpoint idle {A} (q : M A) : Prop :=
  match q with
  | Return _ => True
  | Request op k => forall w, (op w).1 = bump w /\ idle (k (op w).2)
  end.

(** Each request of [q] is one of [t], in order, or only lets time pass. *)
Fixpoint shadows {A B} (q : M A) (t : M B) : Prop :=
  match q with
  | Return _ => True
  | Request op k =>
      (forall w, (op w).1 = bump w /\ shadows (k (op w).2) t) \/
      exists X (op' : World -> World * X) k', t = Request op' k' /\
        forall w, (op' w).1 = (op w).1 /\ shadows (k (op w).2) (k' (op' w).2)
  end.

Lemma idle_shadows {A B} (q : M A) (t : M B) : idle q -> shadows q t.
Proof.
  induction q as [r|X op k IH]; [done|]. intros Hi. left. intros w. destruct (Hi w). split; [done|by apply IH].
Qed.

Lemma idle_bind {A B} (q : M A) (k : A -> M B) : idle q -> (forall a, idle (k a)) -> idle (q ≫= k).
Proof.
  induction q as [[a|e]|X op k' IH]; intros Hq Hk; [apply Hk|done|]. intros w. destruct (Hq w).
  split; [done|by apply IH].
Qed.

Lemma shadows_refl {A} (m : M A) : shadows m m.
Proof.
  induction m as [r|X op k IH]; [done|]. right. exists X, op, k. split; [done|]. intros w. split; [done|apply IH].
Qed.

Lemma shadows_map_l {A B C} (g : result error A -> result error C) (q : M A) : forall t : M B,
  shadows q t -> shadows (map_result g q) t.
Proof.
  induction q as [r|X op k IH]; intros t; [done|]. intros [Hi|(Y & op' & k' & -> & Hs)].
  - left. intros w. destruct (Hi w). split; [done|by apply IH].
  - right. exists Y, op', k'. split; [done|]. intros w. destruct (Hs w). split; [done|by apply IH].
Qed.

Lemma shadows_map_r {A B C} (g : result error B -> result error C) (q : M A) : forall t : M B,
  shadows q t -> shadows q (map_result g t).
Proof.
  induction q as [r|X op k IH]; intros t; [done|]. intros [Hi|(Y & op' & k' & -> & Hs)].
  - left. intros w. destruct (Hi w). split; [done|by apply IH].
  - right. exists Y, op', (fun y => map_result g (k' y)). split; [done|]. intros w. destruct (Hs w).
    split; [done|by apply IH].
Qed.

Lemma shadows_bind {A B C} (q : M A) (k : A -> M C) : forall t : M B,
  shadows q t -> (forall a, idle (k a)) -> shadows (q ≫= k) t.
Proof.
  induction q as [[a|e]|X op k0 IH]; intros t Hq Hk; [apply idle_shadows, Hk|done|].
  destruct Hq as [Hi|(Y & op' & k' & -> & Hs)].
  - left. intros w. destruct (Hi w). split; [done|by apply IH].
  - right. exists Y, op', k'. split; [done|]. intros w. destruct (Hs w). split; [done|by apply IH].
Qed.

Lemma idle_ctx_done {A} (k : bool -> M A) : (forall b, idle (k b)) -> idle (ctx_done ≫= k).
Proof. intros Hk w. split; [done|]. apply Hk. Qed.

(** What a turn is made of, if it is more than the passing of time. *)
Definition turn_start (w : World) (q : M ()) : Prop :=
  idle q \/ exists t, starts cfg w t /\ shadows q t.

Lemma fetch_start w (handler : KafkaMessage -> M bool) (body : KafkaMessage -> M ()) f :
  (forall m, shadows (handler m) (body m)) -> (forall m, f = Fetched m -> starts cfg w (body m)) ->
  turn_start w (consumer_turn handler f ≫= fun _ => mret ()).
Proof.
  intros Hh Hs. destruct f as [m|]; cbn [consumer_turn].
  - right. exists (body m). split; [by apply Hs|]. apply shadows_bind; [apply Hh|done].
  - left. apply idle_bind; [|done]. apply idle_ctx_done. by intros [].
Qed.

Lemma turn_starts fuel p ev w : deliverable p ev w -> turn_start w (turn fuel p ev).
Proof.
  intros Hd. destruct p as [| | | |idx], ev as [e ctx| |f]; cbn [turn]; try by left.
  - right. eexists. split; [apply start_request|]. apply shadows_bind; [|done].
    apply shadows_map_r, shadows_refl.
  - right. eexists. split; [apply start_tick|]. apply shadows_bind; [apply shadows_refl|].
    intros []. apply idle_ctx_done. by intros [].
  - apply (fetch_start w _ (fun m => ignore (processMessage fuel components.(co_callWorker) m))).
    + intros m. apply shadows_bind; [|done]. apply shadows_map_l, shadows_map_r, shadows_refl.
    + intros m ->. destruct (Hd m eq_refl) as (t & [= <-] & Hin). by apply start_call_worker.
  - apply (fetch_start w _ (fun m => ignore (handle_status components.(co_statusWorker) m))).
    + intros m. apply shadows_bind; [|done]. apply shadows_map_r, shadows_refl.
    + intros m ->. destruct (Hd m eq_refl) as (t & [= <-] & Hin). by apply start_status_worker.
  - apply (fetch_start w _ (fun m => ignore (handle_retry components.(co_retryWorker) (Z.of_nat idx + 1) m))).
    + intros m. apply shadows_bind; [|done]. apply shadows_map_r, shadows_refl.
    + intros m ->. destruct (Hd m eq_refl) as (t & Ht & Hin). by eapply start_retry_worker.
Qed.

(** *** The simulation: every turn has its thread *)

Definition thread_of (ij : nat * nat) : nat := encode_nat ij.

Definition simulated (ts : gmap nat (M ())) (turns : gmap (nat * nat) (M ())) : Prop :=
  forall ij, match turns !! ij, ts !! thread_of ij with
             | None, t => t = None
             | Some q, None => idle q
             | Some q, Some t => shadows q t
             end.

Lemma simulated_insert ts turns ij q t :
  simulated ts turns -> shadows q t -> simulated (<[thread_of ij := t]> ts) (<[ij := q]> turns).
Proof.
  intros Hs Hq ij'. destruct (decide (ij = ij')) as [<-|Hne]; [by rewrite !lookup_insert_eq|].
  rewrite !lookup_insert_ne; [apply Hs|by intros ?%(inj encode_nat)|done].
Qed.

Lemma simulated_idle ts turns ij q :
  simulated ts turns -> match ts !! thread_of ij with None => idle q | Some t => shadows q t end ->
  simulated ts (<[ij := q]> turns).
Proof.
  intros Hs Hq ij'. destruct (decide (ij = ij')) as [<-|Hne]; [by rewrite !lookup_insert_eq|].
  rewrite !lookup_insert_ne by done. apply Hs.
Qed.

Lemma simulated_step s s' ts :
  platform_step s s' -> simulated ts s.(pf_turns) ->
  exists ts', rtc (step cfg) (mkMachine s.(pf_world) ts) (mkMachine s'.(pf_world) ts') /\
    simulated ts' s'.(pf_turns).
Proof.
  intros Hstep Hs.
  destruct Hstep as [w ps turns|i p w ps turns _ _|i w ps turns|i j fuel p ev w ps turns _ _ Hf Hd
    |i j p X op k w ps turns _ Ht|i j e w ps turns _]; cbn in *; try by (exists ts; split; [apply rtc_refl|]).
  - exists ts. split; [apply rtc_once, machine_idle|done].
  - pose proof (Hs (i, j)) as Hij. rewrite Hf in Hij.
    destruct (turn_starts fuel p ev w Hd) as [Hidle|(t & Hst & Hsh)].
    + exists ts. split; [apply rtc_refl|]. apply simulated_idle; [done|]. by rewrite Hij.
    + exists (<[thread_of (i, j) := t]> ts). split; [by apply rtc_once, machine_start|].
      by apply simulated_insert.
  - pose proof (Hs (i, j)) as Hij. rewrite Ht in Hij.
    destruct (ts !! thread_of (i, j)) as [t|] eqn:Et.
    + destruct Hij as [Hidle|(Y & op' & k' & -> & Hsh)].
      * destruct (Hidle w) as [-> Hk]. exists ts. split; [apply rtc_once, machine_idle|].
        apply simulated_idle; [done|]. by rewrite Et.
      * destruct (Hsh w) as [<- Hk]. eexists. split; [by eapply rtc_once, machine_request|].
        by apply simulated_insert.
    + destruct (Hij w) as [-> Hk]. exists ts. split; [apply rtc_once, machine_idle|].
      apply simulated_idle; [done|]. by rewrite Et.
Qed.

(** A deployment refines the system: whatever processes are started, take
    turns request by request, return and are killed, in any order, at the same time
    and any number of each, from empty stores the stores only ever go through states
    the system can reach. *)
Lemma platform_refines_system (s : Platform) :
  rtc platform_step (mkPlatform empty_world ∅ ∅) s -> reachable cfg s.(pf_world).
Proof.
  intros Hs.
  enough (exists ts, rtc (step cfg) initial (mkMachine s.(pf_world) ts) /\ simulated ts s.(pf_turns))
    as (ts & Hr & _) by (by exists ts).
  revert s Hs. apply (rtc_ind_r (R := platform_step)).
  - exists ∅. split; [apply rtc_refl|]. intros ij. cbn. by rewrite !lookup_empty.
  - intros s1 s2 _ Hstep (ts & Hr & Hts). destruct (simulated_step _ _ _ Hstep Hts) as (ts' & Hr' & Hts').
    exists ts'. split; [by etrans|done].
Qed.
End Processes.

(** ** Cancellation *)

Section Cancellation.
Context `{Env} `{PgOrder} `{UuidText} `{Provider}.

(** From the operation [n0] on, the process's context is cancelled. *)
Context (n0 : nat) (Hdone : forall n, (n0 <= n)%nat -> env_ctx_done n = true).

Lemma acquire_stops fuel cw c l w :
  (n0 <= w.(w_tick))%nat -> (acquire_loop (S fuel) cw c l w).2 <> Ok Waiting.
Proof using Hdone.
  intros Hn. cbn [acquire_loop]. rewrite run_bind, run_attempt.
  pose proof (stable_run later _ (eff_acquire later cw.(cw_limiter) c l) w) as Hl.
  destruct (Acquire _ _ _ w) as [w1 [[]|e]]; [done|..]; unfold later in Hl; cbn [fst snd] in *;
    rewrite (bind_step ctx_done _ _ _ _ eq_refl), Hdone by lia; done.
Qed.

(** A handler that, once the context is cancelled, comes to its end. *)
Definition finishes (handler : KafkaMessage -> M bool) : Prop :=
  forall m w, (n0 <= w.(w_tick))%nat -> exists w', handler m w = (w', Ok true) /\ (n0 <= w'.(w_tick))%nat.

Lemma finishes_intro (handler : KafkaMessage -> M bool) :
  (forall m, stable later (handler m)) ->
  (forall m w, (n0 <= w.(w_tick))%nat -> (handler m w).2 = Ok true) -> finishes handler.
Proof.
  intros Hs Hok m w Hn. pose proof (stable_run _ _ (Hs m) w) as Hl. specialize (Hok m w Hn). unfold later in Hl.
  destruct (handler m w) as [w' r]. simpl in *. subst. exists w'. split; [done|lia].
Qed.

Lemma call_handler_finishes fuel cw : provider_outside -> finishes (call_handler (S fuel) cw).
Proof using Hdone.
  intros Hp. apply finishes_intro.
  - intros m. unfold call_handler. apply stable_bind; [apply _| |intros a; apply stable_ret, _].
    apply stable_attempt, eff_processMessage; try apply _. intros d. apply Hp, _.
  - intros m w Hn. unfold call_handler. rewrite run_bind, run_attempt.
    assert ((processMessage (S fuel) cw m w).2 <> Ok Waiting) as Hne.
    { unfold processMessage. destruct (unmarshal_dispatch _) as [d|].
      2:{ by run_monad. }
      unfold waitForSlot. destruct (slot_limit cw d) as [n|].
      - pose proof (acquire_stops fuel cw d.(dm_CampaignID) n w Hn) as Ha.
        rewrite run_bind. destruct (acquire_loop _ _ _ _ w) as [w1 [[]|e]]; try done.
        + rewrite run_bind. destruct (place_and_report _ _ _ w1) as [? [?|?]]; done.
        + run_monad. by destruct ((place_and_report cw d m w1).2).
      - rewrite ret_bind, run_bind. destruct (place_and_report _ _ _ w) as [? [?|?]]; done. }
    destruct (processMessage (S fuel) cw m w) as [w1 [[]|e]]; done.
Qed.

Lemma never_fails (m : M ()) w : raises (fun _ => False) m -> ((m ≫= fun _ => mret true) w).2 = Ok true.
Proof.
  intros Hm. rewrite run_bind. destruct (m w) as [w1 [u|e]] eqn:E; [done|]. by apply Hm in E.
Qed.

Lemma handle_status_never_fails sw m : raises (fun _ => False) (handle_status sw m).
Proof. unfold handle_status, record_status, count_status, schedule_retry. raise_steps. Qed.
Lemma handle_retry_never_fails rw i m : raises (fun _ => False) (handle_retry rw i m).
Proof.
  unfold handle_retry. destruct (unmarshal_retry _) as [r|]; [|apply raises_ignore].
  apply raises_bind; [apply raises_attempt|intros [u|e]]; [|apply raises_ignore].
  apply raises_bind; [apply raises_consult|intros t].
  apply raises_bind; [apply raises_attempt|intros [v|e]]; [apply raises_ignore|apply raises_ret].
Qed.

(** What a loop that is cancelled returns: the error of its context. *)
Definition ends_cancelled {A} (loop : M A) (w : World) : Prop :=
  exists w' e, loop w = (w', Err e) /\ (e = context_canceled \/ e = deadline_exceeded).

Lemma ctx_err_ends {A} w : ends_cancelled (err ← ctx_err; throw err : M A) w.
Proof. do 2 eexists. split; [reflexivity|]. destruct (env_deadline _); auto. Qed.

(** The records in hand are finished, and the failed fetch that follows ends the
    loop, whatever else the reader would have got. *)
Lemma consume_stops handler ms fs : forall w,
  finishes handler -> (n0 <= w.(w_tick))%nat ->
  ends_cancelled (consume handler ((Fetched <$> ms) ++ FetchError :: fs)) w.
Proof using Hdone.
  intros w Hf. revert w. induction ms as [|m ms IH]; intros w Hn; cbn [fmap list_fmap app consume].
  - unfold ends_cancelled. cbn [consumer_turn]. rewrite run_bind, (bind_step ctx_done _ w _ _ eq_refl), Hdone by done.
    destruct (ctx_err_ends (A := bool) (bump w)) as (w' & e & -> & He). by exists w', e.
  - cbn [consumer_turn]. destruct (Hf m w Hn) as (w1 & Hrun & Hn1).
    unfold ends_cancelled. rewrite (bind_step _ _ _ _ _ Hrun). by apply IH.
Qed.

(** Claim C14: every loop ends when its context is cancelled: a worker finishes
    the records it has in hand (a wait for a slot ends at its next poll, so one
    unit of fuel is enough; a wait for a retry's time ends at once), returns at
    the failed fetch that follows, whatever else there is to fetch; the scheduler
    ends after the tick it is in; and each returns the error of its context. *)
Theorem cancelled_loops_end (fuel : nat) (cw : CallWorker) (sw : StatusWorker) (rw : RetryWorker) (i : int)
    (cfg : SchedulerSettings) (s : CallService) (ms : list KafkaMessage) (fs : list Fetch) (w : World) :
  provider_outside -> (n0 <= w.(w_tick))%nat ->
  let fetches := (Fetched <$> ms) ++ FetchError :: fs in
  ends_cancelled (CallWorker_Run (S fuel) cw fetches) w /\ ends_cancelled (StatusWorker_Run sw fetches) w /\
  ends_cancelled (consumeTopic rw i fetches) w /\ ends_cancelled (Run (S fuel) cfg s) w.
Proof using Hdone.
  intros Hp Hn fetches. split_and!.
  - apply consume_stops; [by apply call_handler_finishes|done].
  - apply consume_stops; [|done]. apply finishes_intro.
    + intros m. unfold status_handler. apply stable_bind; [apply _| |intros; apply stable_ret, _].
      apply eff_handle_status; apply _.
    + intros m w' _. apply never_fails, handle_status_never_fails.
  - apply consume_stops; [|done]. apply finishes_intro.
    + intros m. unfold retry_handler. apply stable_bind; [apply _| |intros; apply stable_ret, _].
      apply eff_handle_retry; apply _.
    + intros m w' _. apply never_fails, handle_retry_never_fails.
  - cbn [Run]. pose proof (stable_run later _ (eff_tick later cfg s) w) as Ht. unfold later in Ht.
    unfold ends_cancelled. rewrite (bind_step _ _ w (tick cfg s w).1 ()) by (by rewrite run_ignore).
    rewrite (bind_step ctx_done _ _ _ _ eq_refl), Hdone by lia. apply ctx_err_ends.
Qed.
End Cancellation.

(** ** Examples *)

Lemma platform_witness :
  let _ := quiet_env in let _ := bit_uuid in let _ := stable_sort_order in
  let _ := mock_PlaceCall in let _ := unary_pages in let _ := json_bodies in
  exists s, rtc (platform_step default_config) (mkPlatform empty_world ∅ ∅) s /\
    s.(pf_world) = one_target_world /\ reachable default_config one_target_world.
Proof.
  intros E U O P G F. set (q := turn default_config 0 ProcAPI
    (OnRequest ECreateCampaign (to_api EmptyString one_target_body))).
  pose (s := mkPlatform (run q empty_world).1 {[ 0%nat := ProcAPI ]}
    (<[(0, 0)%nat := Return (run q empty_world).2]> ∅)).
  assert (rtc (platform_step default_config) (mkPlatform empty_world ∅ ∅) s) as Hrun.
  { eapply rtc_l; [by apply (platform_start _ 0 ProcAPI)|].
    eapply rtc_l; [by apply (platform_turn default_config 0 0 0 ProcAPI
      (OnRequest ECreateCampaign (to_api EmptyString one_target_body))); [|left|..]|].
    by apply (turn_finishes default_config 0 0 ProcAPI q). }
  assert (s.(pf_world) = one_target_world) as Hw by (vm_compute; reflexivity).
  exists s. split; [exact Hrun|]. split; [exact Hw|]. rewrite <- Hw.
  exact (platform_refines_system default_config s Hrun).
Defined.

(** No faults; the context is cancelled at the second operation. *)
Definition stopping_env : Env :=
  {| env_outcome := fun _ => Done; env_now := fun n => (1700000000 + Z.of_nat n) * Second;
     env_uuid := fun n => N.of_nat (S n); env_rand := fun _ => f64_zero; env_intn := fun _ _ => 0;
     env_ctx_done := fun n => Nat.leb 2 n; env_deadline := fun _ => false; env_temporary := fun _ => false;
     env_tzdb := fun _ => None; env_tzdb_error := fun name => String.append "unknown time zone " name;
     env_local := UTC;
     env_f64_overflow := fun _ => min_int64; env_pg_lower := lower |}.

Lemma cancelled_witness :
  let _ := stopping_env in let _ := bit_uuid in let _ := stable_sort_order in
  let _ := mock_PlaceCall in
  let co := initComponents default_config in
  let m := mkKafka 7 (default JNull (marshal_dispatch
    (mkDispatch 7 2 "+15555550001" 1 5 2000 120000 f64_zero 10 None 0))) 0 in
  ends_cancelled (CallWorker_Run 1 co.(co_callWorker) [Fetched m; Fetched m; FetchError; Fetched m])
    (set_tick 2 empty_world).
Proof.
  intros E U O P co m.
  assert (forall n, (2 <= n)%nat -> env_ctx_done n = true) as Hdone
    by (intros n Hn; exact (proj2 (Nat.leb_le 2 n) Hn)).
  destruct (cancelled_loops_end 2 Hdone 0 co.(co_callWorker)
    co.(co_statusWorker) co.(co_retryWorker) 1 co.(co_scheduler) co.(co_calls) [m; m] [Fetched m]
    (set_tick 2 empty_world)) as [Hrun _].
  - apply mock_outside.
  - apply le_n.
  - exact Hrun.
Defined.
