(* ===== verification/Settle.v ===== *)
(** Every dispatched call is settled: what the workers do, between them, with the
    records that are waiting on the topics, when requests are answered and the
    provider's verdicts are final. The records are taken in any order. *)
From S2P Require Import Prelude Errors GoTime Json Domain Messages World Postgres PostgresInv.
From S2P Require Import Scylla Queue Limiter CampaignService CallService CallLists Requests.
From S2P Require Import Handlers Scheduler CallWorker StatusWorker RetryWorker Effects WorkerProofs.
From S2P Require Import Interleaving Config Container System Pipeline Processes.

(** A provider comes to a verdict, in a time that fits its type; what may be tried
    again has failed. *)
Definition definite `{Env} `{Provider} : Prop :=
  forall d, provider_answers d /\ forall rc, may_return (PlaceCall d) rc ->
    in_int64 rc.1.(res_Duration) /\
    (rc.1.(res_Status) = CallStatusCompleted \/ rc.1.(res_Status) = CallStatusFailed) /\
    (rc.1.(res_Retryable) = true -> rc.1.(res_Status) = CallStatusFailed).

(** The clock is centuries away from the years that cannot be written. *)
Definition distant_years `{Env} : Prop :=
  forall n delay, in_int64 delay -> year_ok (env_now n + delay) = true.

(** ** The handlers, on a world whose slots are all free *)

Section Turns.
Context `{Env} `{PgOrder} `{UuidText} `{Gocql} `{Fiber} `{Provider} (cfg : Config).

Definition slots_free (w : World) : Prop := unused w.(w_redis).

#[local] Instance redis_run : CanRun (keeps w_redis).
Proof. apply (watch_run w_redis); [done|apply _|by intros v []]. Qed.
#[local] Instance redis_delta : CanApplyDelta (keeps w_redis).
Proof. apply (watch_delta w_redis); [done|apply _|by intros v []]. Qed.
#[local] Instance redis_calls : CanWriteCalls (keeps w_redis).
Proof. apply (watch_calls w_redis); [done|by intros v []..]. Qed.
#[local] Instance redis_attempts : CanWriteAttempts (keeps w_redis).
Proof. apply (watch_attempts w_redis); [done|by intros v []]. Qed.
#[local] Instance redis_publish : CanPublish (keeps w_redis).
Proof. apply (watch_publish w_redis); [done|by intros v []]. Qed.
#[local] Instance redis_commit : CanCommit (keeps w_redis).
Proof. apply (watch_commit w_redis); [done|by intros v []]. Qed.

#[local] Instance stats_run : CanRun (keeps w_stats).
Proof. apply (watch_run w_stats); [done|apply _|by intros v []]. Qed.
#[local] Instance stats_publish : CanPublish (keeps w_stats).
Proof. apply (watch_publish w_stats); [done|by intros v []]. Qed.
#[local] Instance stats_commit : CanCommit (keeps w_stats).
Proof. apply (watch_commit w_stats); [done|by intros v []]. Qed.

Lemma release_frees l c w :
  reliable -> c <> uuid_Nil -> counters_at_most (one_slot (limiter_key c)) w.(w_redis) ->
  exists w', Release l c w = (w', Ok ()) /\ slots_free w' /\ w'.(w_stats) = w.(w_stats) /\
    w'.(w_log) = w.(w_log).
Proof.
  intros Hr Hc Hone. unfold Release. rewrite bool_decide_false by done.
  rewrite run_bind, run_on_err, external_reliable by done.
  replace (w_redis (bump w)) with w.(w_redis) by (by destruct w).
  pose proof (release_unused (env_now (bump w).(w_tick)) _ _ Hone) as Hrel.
  destruct (release_script _ _ _) as [rm res]. eexists. split; [reflexivity|]. by destruct w.
Qed.

(** A call is placed and reported; its slot is free again. *)
Lemma call_settles fuel cw m d w :
  reliable -> provider_answers d -> unmarshal_dispatch m.(km_Value) = Some d -> slots_free w ->
  exists w' held rc n next t, processMessage (S fuel) cw m w = (w', Ok held) /\ held <> Waiting /\
    slots_free w' /\ w'.(w_stats) = w.(w_stats) /\ may_return (PlaceCall d) rc /\
    (forall t, next = Some t -> within_reach t) /\
    let sm := report_of d rc (env_now n) next in
    (is_Some next <-> sm.(sm_Retryable) = true) /\
    w'.(w_log) = w.(w_log) ++ published cw.(cw_StatusTopic) d.(dm_CallID) (marshal_status sm) t.
Proof.
  intros Hr Hp Hu Hfree. unfold processMessage. rewrite Hu. unfold waitForSlot.
  destruct (slot_limit cw d) as [limit|] eqn:El.
  - destruct (slot_limit_effective _ _ _ El) as (Hnil & Hpos & Heff). cbn [acquire_loop].
    destruct (acquire_run cw.(cw_limiter) d.(dm_CampaignID) limit w Hr Heff) as (w1 & rm & g & Hacq & -> & Hscr).
    destruct (acquire_unused (env_now (S w.(w_tick))) (limiter_key d.(dm_CampaignID)) limit
      (Milliseconds cw.(cw_limiter).(lim_ttl)) w.(w_redis) Hfree Hpos) as (rm' & Hscr' & Hone).
    rewrite Hscr' in Hscr. destruct g; [|done]. injection Hscr as <-.
    set (w1 := set_redis rm' (bump w)) in *.
    erewrite bind_step by (by rewrite run_bind, run_attempt, Hacq).
    destruct (place_and_report_run cw d m w1 Hr Hp) as (w2 & wp & rc & next & t & Hcall & Hrun & Hiff & Hred & Hl & _ & Hs & Hw).
    pose proof (run_may_return _ _ _ _ Hcall) as Hm.
    rewrite (bind_step _ _ w1 w2 (Ok ())) by (by rewrite run_attempt, Hrun).
    destruct (release_frees cw.(cw_limiter) d.(dm_CampaignID) w2 Hr Hnil) as (w3 & Hrel & Hfree3 & Hs3 & Hl3).
    { rewrite Hred. by destruct w. }
    rewrite (bind_step _ _ w2 w3 ()) by (by rewrite run_ignore, Hrel).
    exists w3, HeldSlot, rc, wp.(w_tick), next, t. split_and!; try done.
    + rewrite Hs3, Hs. by destruct w.
    + intros t0 Ht0. by apply Hw.
    + rewrite Hl3, Hl. by destruct w.
  - rewrite ret_bind.
    destruct (place_and_report_run cw d m w Hr Hp) as (w2 & wp & rc & next & t & Hcall & Hrun & Hiff & Hred & Hl & _ & Hs & Hw).
    pose proof (run_may_return _ _ _ _ Hcall) as Hm.
    rewrite (bind_step _ _ _ _ _ Hrun). exists w2, NoSlot, rc, wp.(w_tick), next, t.
    split_and!; try done; [unfold slots_free; by rewrite Hred|intros t0 Ht0; by apply Hw].
Qed.

(** Status and retry messages take no slot, retry messages count nothing. *)
Lemma status_keeps_redis sw m w : (handle_status sw m w).1.(w_redis) = w.(w_redis).
Proof. apply (stable_run (keeps w_redis)), eff_handle_status; apply _. Qed.
Lemma retry_keeps_redis rw i m w : (handle_retry rw i m w).1.(w_redis) = w.(w_redis).
Proof. apply (stable_run (keeps w_redis)), eff_handle_retry; apply _. Qed.
Lemma retry_keeps_stats rw i m w : (handle_retry rw i m w).1.(w_stats) = w.(w_stats).
Proof. apply (stable_run (keeps w_stats)), eff_handle_retry; apply _. Qed.
End Turns.

(** ** How far a call has come *)

(** The kinds of record, by what is still to happen to the call they speak of. *)
Inductive stage := FirstCall | FirstFailure | RetryDue | SecondCall | Verdict.

(** The records to be handled until it is settled, this one included, at most. *)
Definition steps_left (s : stage) : nat :=
  match s with FirstCall => 5 | FirstFailure => 4 | RetryDue => 3 | SecondCall => 2 | Verdict => 1 end.

Definition settled_status (s : CallStatus) : Prop := s = CallStatusCompleted \/ s = CallStatusFailed.

Section Stages.
Context `{Env} `{PgOrder} `{UuidText} `{Gocql} `{Fiber} `{Provider} (cfg : Config).

Definition dispatch_at (c : uuid) (d : DispatchMessage) : Prop :=
  dispatch_wf d /\ d.(dm_CampaignID) = c /\ is_Some (enc_float d.(dm_RetryJitter)).
Definition status_at (c : uuid) (s : StatusMessage) : Prop :=
  status_wf s /\ s.(sm_CampaignID) = c /\ is_Some (enc_float s.(sm_RetryJitter)).

(** A record of the given stage of a call of campaign [c]. *)
Definition at_stage (s : stage) (c : uuid) (topic : string) (m : KafkaMessage) : Prop :=
  match s with
  | FirstCall => topic = cfg.(cfg_Kafka).(kc_CallTopic) /\
      exists d, marshal_dispatch d = Some m.(km_Value) /\ dispatch_at c d /\ d.(dm_Attempt) = 1
  | FirstFailure => topic = cfg.(cfg_Kafka).(kc_StatusTopic) /\
      exists sm next, marshal_status sm = Some m.(km_Value) /\ status_at c sm /\ sm.(sm_Attempt) = 1 /\
        call_status_of sm.(sm_Status) = CallStatusFailed /\ sm.(sm_Retryable) = true /\
        sm.(sm_NextAttempt) = Some next /\ year_ok next = true
  | RetryDue => cfg.(cfg_Kafka).(kc_RetryTopics) !! 0%nat = Some topic /\
      exists r, marshal_retry r = Some m.(km_Value) /\ retry_wf r /\
        dispatch_at c r.(rm_DispatchMessage) /\ r.(rm_DispatchMessage).(dm_Attempt) = 2
  | SecondCall => topic = cfg.(cfg_Kafka).(kc_CallTopic) /\
      exists d, marshal_dispatch d = Some m.(km_Value) /\ dispatch_at c d /\ d.(dm_Attempt) = 2 /\
        d.(dm_MaxAttempts) = 0
  | Verdict => topic = cfg.(cfg_Kafka).(kc_StatusTopic) /\
      exists sm, marshal_status sm = Some m.(km_Value) /\ status_at c sm /\ 1 <= sm.(sm_Attempt) <= 2 /\
        settled_status (call_status_of sm.(sm_Status)) /\ sm.(sm_Retryable) = false
  end.

(** The process that reads the records of a stage. *)
Definition reader (s : stage) : Process :=
  match s with
  | FirstCall | SecondCall => ProcCallWorker
  | FirstFailure | Verdict => ProcStatusWorker
  | RetryDue => ProcRetryConsumer 0
  end.

Lemma reader_subscribed s c topic m : at_stage s c topic m -> subscription cfg (reader s) = Some topic.
Proof. destruct s; intros [Ht _]; cbn; by rewrite Ht. Qed.

(** *** What a report says *)

Lemma report_fields d rc n next :
  let sm := report_of d rc (env_now n) next in
  sm.(sm_CallID) = d.(dm_CallID) /\ sm.(sm_CampaignID) = d.(dm_CampaignID) /\
  sm.(sm_Attempt) = d.(dm_Attempt) /\ sm.(sm_RetryJitter) = d.(dm_RetryJitter) /\
  sm.(sm_OccurredAt) = env_now n /\ sm.(sm_NextAttempt) = next /\
  (sm.(sm_Retryable) = true -> d.(dm_Attempt) < d.(dm_MaxAttempts)).
Proof.
  cbv zeta. unfold report_of, status_of.
  destruct rc.2; [case_bool_decide|]; cbn; split_and!; try done;
    rewrite ?andb_true_iff, ?Z.ltb_lt; intros; by destruct_and?.
Qed.

Lemma report_verdict d rc n next :
  definite -> may_return (PlaceCall d) rc ->
  let sm := report_of d rc (env_now n) next in
  settled_status (call_status_of sm.(sm_Status)) /\
  (sm.(sm_Retryable) = true -> call_status_of sm.(sm_Status) = CallStatusFailed).
Proof.
  intros Hdef Hm. destruct (Hdef d) as [_ Hv]. destruct (Hv rc Hm) as (_ & Hs & Hf). cbv zeta.
  unfold report_of, status_of, settled_status.
  destruct rc.2; [case_bool_decide|]; cbn; (split; [by auto || by destruct Hs as [-> | ->]; auto|]);
    try done; rewrite andb_true_iff; intros [Hre _]; by rewrite (Hf Hre).
Qed.

Lemma report_at c d rc n next :
  definite -> distant_years -> may_return (PlaceCall d) rc -> dispatch_at c d ->
  (forall t, next = Some t -> within_reach t) ->
  let sm := report_of d rc (env_now n) next in status_at c sm /\ is_Some (marshal_status sm).
Proof.
  intros Hdef Hy Hm (Hwf & Hc & Hj) Hnext. cbv zeta.
  destruct (report_fields d rc n next) as (_ & Hc' & _ & Hj' & Ho & Hn & _).
  assert (status_wf (report_of d rc (env_now n) next)) as Hswf
    by (apply status_of_wf; [done|by apply (proj2 (Hdef d) rc Hm)]).
  split; [split_and!; [done|by rewrite Hc'|by rewrite Hj']|].
  apply marshal_status_total; [by rewrite Hj'| |].
  - rewrite Ho, <- (Z.add_0_r (env_now n)). by apply Hy.
  - rewrite Hn. destruct next as [t|]; [|by eexists]. destruct (Hnext t eq_refl) as (k & delay & -> & Hd).
    simpl. unfold enc_time. rewrite Hy by done. by eexists.
Qed.

(** *** The counters *)

(** Room for [k] more calls to end, in the counters of a campaign. *)
Definition spare (k : Z) (st : CampaignStats) : Prop :=
  in_int64 st.(st_TotalCalls) /\ in_int64 st.(st_InProgressCalls) /\
  Forall (fun v => min_int64 + k <= v <= max_int64 - k)
    [st.(st_CompletedCalls); st.(st_FailedCalls); st.(st_PendingCalls); st.(st_RetriesAttempted)].

(** [n] pending calls have ended, and nothing else has happened. *)
Definition ended (n : Z) (st st' : CampaignStats) : Prop :=
  st'.(st_TotalCalls) = st.(st_TotalCalls) /\ st'.(st_InProgressCalls) = st.(st_InProgressCalls) /\
  st'.(st_CompletedCalls) + st'.(st_FailedCalls) = st.(st_CompletedCalls) + st.(st_FailedCalls) + n /\
  st'.(st_PendingCalls) = st.(st_PendingCalls) - n /\
  st.(st_CompletedCalls) <= st'.(st_CompletedCalls) /\ st.(st_FailedCalls) <= st'.(st_FailedCalls) /\
  st.(st_RetriesAttempted) <= st'.(st_RetriesAttempted) <= st.(st_RetriesAttempted) + n.

Lemma ended_refl st : ended 0 st st.
Proof. unfold ended. lia. Qed.

Lemma ended_trans m n st1 st2 st3 : ended m st1 st2 -> ended n st2 st3 -> ended (m + n) st1 st3.
Proof. unfold ended. lia. Qed.

Lemma spare_ended m n st st' : 0 <= n -> ended n st st' -> spare (m + n) st -> spare m st'.
Proof.
  intros Hn (Et & Ei & Hsum & Hp & Hc & Hf & Hr) (Ht & Hi & Hall). split; [by rewrite Et|]. split; [by rewrite Ei|].
  rewrite !Forall_cons in *. destruct Hall as (? & ? & ? & ? & _). split_and!; (done || lia).
Qed.

Lemma spare_le m n st : m <= n -> spare n st -> spare m st.
Proof.
  intros Hmn (? & ? & Hall). split_and!; [done..|]. eapply Forall_impl; [exact Hall|]. simpl. lia.
Qed.

Lemma spare_in_range st : spare 0 st -> stats_in_range st = true.
Proof.
  intros (? & ? & Hall). rewrite !Forall_cons in Hall. destruct Hall as (? & ? & ? & ? & _).
  unfold stats_in_range. rewrite !andb_true_iff, !bool_decide_eq_true. unfold in_int64 in *. lia.
Qed.

Lemma verdict_ends sm st :
  settled_status (call_status_of sm.(sm_Status)) -> sm.(sm_Retryable) = false ->
  ended 1 st (add_delta st (status_delta sm)).
Proof.
  intros Hs Hre. unfold status_delta. rewrite Hre. unfold ended.
  destruct Hs as [-> | ->]; cbn; destruct (1 <? sm_Attempt sm); lia.
Qed.

Lemma first_failure_counts_nothing sm st :
  call_status_of sm.(sm_Status) = CallStatusFailed -> sm.(sm_Retryable) = true -> sm.(sm_Attempt) = 1 ->
  add_delta st (status_delta sm) = st.
Proof.
  intros Hs Hre Ha. unfold status_delta. rewrite Hs, Hre, Ha. destruct st. unfold add_delta. cbn. f_equal; lia.
Qed.

(** Of every campaign with room for it [o] calls have ended. *)
Definition counted_by (o : uuid -> Z) : relation World := fun w w' =>
  forall c st, c <> uuid_Nil -> w.(w_stats) !! c = Some st -> spare (o c) st ->
  exists st', w'.(w_stats) !! c = Some st' /\ ended (o c) st st'.

Lemma counted_none w w' : w'.(w_stats) = w.(w_stats) -> counted_by (fun _ => 0) w w'.
Proof. intros Hs c st _ Hst _. exists st. rewrite Hs. split; [done|]. apply ended_refl. Qed.

Lemma counted_trans o1 o2 w1 w2 w3 :
  (forall c, 0 <= o1 c) -> (forall c, 0 <= o2 c) -> counted_by o1 w1 w2 -> counted_by o2 w2 w3 ->
  counted_by (fun c => o1 c + o2 c) w1 w3.
Proof.
  intros H1' H2' H12 H23 c st Hc Hst Hsp. specialize (H1' c). specialize (H2' c). cbn in *.
  destruct (H12 c st Hc Hst) as (st2 & Hst2 & He2); [eapply spare_le; [|exact Hsp]; lia|].
  destruct (H23 c st2 Hc Hst2) as (st3 & Hst3 & He3).
  { eapply spare_ended; [|exact He2|]; [done|]. by rewrite Z.add_comm. }
  exists st3. split; [done|]. by eapply ended_trans.
Qed.

Lemma counted_ext o o' w w' : (forall c, o c = o' c) -> counted_by o w w' -> counted_by o' w w'.
Proof. intros Ho Hw c st. rewrite <- Ho. apply Hw. Qed.

Definition one_of (c c' : uuid) : Z := if decide (c = c') then 1 else 0.

(** What a status message counts: a verdict one call, a first failure none. *)
Lemma verdict_counted sm w w' :
  settled_status (call_status_of sm.(sm_Status)) -> sm.(sm_Retryable) = false ->
  w'.(w_stats) = counters_after sm w.(w_stats) -> counted_by (one_of sm.(sm_CampaignID)) w w'.
Proof.
  intros Hs Hre Hw c st Hc Hst Hsp. unfold one_of in *. rewrite Hw.
  destruct (decide (sm.(sm_CampaignID) = c)) as [Hid|Hne].
  - pose proof (verdict_ends sm st Hs Hre) as He. rewrite (counters_after_done sm st); [|by rewrite Hid..|].
    + rewrite Hid, lookup_insert_eq. by eexists.
    + apply spare_in_range. by apply (spare_ended 0 1 st); [lia|..].
  - exists st. split; [|apply ended_refl]. unfold counters_after. case_bool_decide; [done|].
    destruct (w_stats w !! sm_CampaignID sm) as [st0|]; [|done]. destruct (stats_in_range _); [|done].
    by rewrite lookup_insert_ne.
Qed.

Lemma first_failure_counted sm w w' :
  call_status_of sm.(sm_Status) = CallStatusFailed -> sm.(sm_Retryable) = true -> sm.(sm_Attempt) = 1 ->
  w'.(w_stats) = counters_after sm w.(w_stats) -> w'.(w_stats) = w.(w_stats).
Proof.
  intros Hf Hre Ha ->. unfold counters_after. case_bool_decide; [done|].
  destruct (w_stats w !! sm_CampaignID sm) as [st|] eqn:Hst; [|done].
  rewrite first_failure_counts_nothing by done. destruct (stats_in_range st); [|done]. by apply insert_id.
Qed.

(** *** A turn for a record of each stage *)

(** What a turn leaves: the call has ended, or one record of a later stage. *)
Definition advanced (s : stage) (c : uuid) (w w' : World) : Prop :=
  slots_free w' /\
  (w'.(w_log) = w.(w_log) /\ counted_by (one_of c) w w' \/
   exists s' topic m, at_stage s' c topic m /\ (steps_left s' < steps_left s)%nat /\
     w'.(w_log) = w.(w_log) ++ [(topic, m)] /\ w'.(w_stats) = w.(w_stats)).

Context (Hr : reliable) (Hdef : definite) (Hyears : distant_years).
Context (Hgoing : forall n, env_ctx_done n = false).

Lemma call_turn fuel s c m d w :
  (s = FirstCall /\ d.(dm_Attempt) = 1 \/ s = SecondCall /\ d.(dm_Attempt) = 2 /\ d.(dm_MaxAttempts) = 0) ->
  marshal_dispatch d = Some m.(km_Value) -> dispatch_at c d -> slots_free w ->
  exists w', turn cfg (S fuel) ProcCallWorker (OnFetch (Fetched m)) w = (w', Ok ()) /\ advanced s c w w'.
Proof using Hr Hdef Hyears.
  intros Hs Hd Hat Hfree. pose proof Hat as (Hwf & _).
  destruct (call_settles fuel (initComponents cfg).(co_callWorker) m d w Hr (proj1 (Hdef d))
    (unmarshal_marshal_dispatch d _ Hwf Hd) Hfree)
    as (w' & held & rc & n & next & t & Hrun & Hheld & Hfree' & Hst & Hm & Hnext & Hiff & Hlog).
  exists w'. split.
  { cbn [turn consumer_turn]. unfold call_handler. by rewrite !run_bind, run_attempt, Hrun. }
  destruct (report_at c d rc n next Hdef Hyears Hm Hat Hnext) as [Hsat [v Hv]].
  destruct (report_fields d rc n next) as (_ & _ & Ha & _ & _ & Hn & Hmore).
  destruct (report_verdict d rc n next Hdef Hm) as [Hset Hfail]. cbv zeta in *.
  set (sm := report_of d rc (env_now n) next) in *.
  split; [done|]. right. rewrite Hv in Hlog. cbn [published] in Hlog.
  destruct (sm.(sm_Retryable)) eqn:Ere.
  - destruct (proj2 Hiff eq_refl) as [tn Htn]. specialize (Hmore eq_refl).
    destruct Hs as [[-> Ha1]|(_ & Ha2 & Hmax)]; [|lia].
    eexists FirstFailure, _, _. split_and!; [|cbn; lia|exact Hlog|done]. split; [done|]. exists sm, tn.
    destruct (Hnext tn Htn) as (k & delay & -> & Hdel).
    split_and!; [done|apply Hsat..|by rewrite Ha|by apply Hfail|done|by rewrite Hn|by apply Hyears].
  - eexists Verdict, _, _. split_and!; [|destruct Hs as [[-> _]|[-> _]]; cbn; lia|exact Hlog|done].
    split; [done|]. exists sm. split_and!; [done|apply Hsat..|rewrite Ha; lia|rewrite Ha; lia|done|done].
Qed.

(** A status message, counted; the retry it asks for, if any. *)
Lemma status_turn fuel c m sm w :
  marshal_status sm = Some m.(km_Value) -> status_at c sm -> 1 <= sm.(sm_Attempt) <= 2 -> slots_free w ->
  exists w' stamp, turn cfg fuel ProcStatusWorker (OnFetch (Fetched m)) w = (w', Ok ()) /\ slots_free w' /\
    w'.(w_stats) = counters_after sm w.(w_stats) /\
    w'.(w_log) = w.(w_log) ++ match sm.(sm_Retryable), sm.(sm_NextAttempt) with
      | true, Some next => retry_records cfg.(cfg_Kafka).(kc_RetryTopics) sm.(sm_Attempt) (retry_of sm next) stamp
      | _, _ => []
      end.
Proof using Hr.
  intros Hm (Hwf & _) Ha Hfree.
  destruct (handle_status_run (initComponents cfg).(co_statusWorker) m sm w Hr) as (w' & stamp & Hrun & Hs & _ & _ & Hl);
    [by apply unmarshal_marshal_status|unfold in_int32; lia|].
  exists w', stamp. split_and!; [|unfold slots_free|done|done].
  - cbn [turn consumer_turn]. unfold status_handler. by rewrite !run_bind, Hrun.
  - pose proof (status_keeps_redis (initComponents cfg).(co_statusWorker) m w) as Hk.
    rewrite Hrun in Hk. cbn in Hk. by rewrite Hk.
Qed.

Lemma verdict_turn fuel c m sm w :
  marshal_status sm = Some m.(km_Value) -> status_at c sm -> 1 <= sm.(sm_Attempt) <= 2 ->
  settled_status (call_status_of sm.(sm_Status)) -> sm.(sm_Retryable) = false -> slots_free w ->
  exists w', turn cfg fuel ProcStatusWorker (OnFetch (Fetched m)) w = (w', Ok ()) /\ advanced Verdict c w w'.
Proof using Hr.
  intros Hm Hat Ha Hset Hre Hfree. destruct (status_turn fuel c m sm w) as (w' & stamp & Hrun & Hfree' & Hs & Hl); try done.
  rewrite Hre, app_nil_r in Hl. exists w'. split; [done|]. split; [done|]. left. split; [done|].
  destruct Hat as (_ & <- & _). by apply verdict_counted.
Qed.

Lemma first_failure_turn fuel c m sm next w :
  is_Some (cfg.(cfg_Kafka).(kc_RetryTopics) !! 0%nat) ->
  marshal_status sm = Some m.(km_Value) -> status_at c sm -> sm.(sm_Attempt) = 1 ->
  call_status_of sm.(sm_Status) = CallStatusFailed -> sm.(sm_Retryable) = true ->
  sm.(sm_NextAttempt) = Some next -> year_ok next = true -> slots_free w ->
  exists w', turn cfg fuel ProcStatusWorker (OnFetch (Fetched m)) w = (w', Ok ()) /\ advanced FirstFailure c w w'.
Proof using Hr.
  intros [topic Htopic] Hm Hat Ha Hf Hre Hn Hy Hfree.
  destruct (status_turn fuel c m sm w) as (w' & stamp & Hrun & Hfree' & Hs & Hl); try done; [lia|].
  apply (first_failure_counted sm w w') in Hs; [|done..]. rewrite Hre, Hn, Ha in Hl.
  pose proof (lookup_lt_Some _ _ _ Htopic) as Hlt. unfold retry_records in Hl.
  destruct (1 <=? Z.of_nat _) eqn:?; zbool; [|lia]. cbn [Z.leb Z.compare andb] in Hl.
  change (Z.to_nat (1 - 1)) with 0%nat in Hl. rewrite Htopic in Hl.
  destruct Hat as (Hwf & Hc & Hj).
  destruct (marshal_retry_total (retry_of sm next)) as [v Hv]; [done|done|done|].
  rewrite Hv in Hl. exists w'. split; [done|]. split; [done|]. right.
  eexists RetryDue, _, _. split_and!; [|cbn; lia|exact Hl|done].
  split; [done|]. exists (retry_of sm next). pose proof (retry_of_wf sm next Hwf) as Hrwf.
  split; [done|]. split; [done|]. split; [by split; [apply Hrwf|]|]. rewrite retry_of_next by (rewrite Ha; unfold in_int32; lia).
  cbn. lia.
Qed.

Lemma retry_turn fuel c topic m w :
  at_stage RetryDue c topic m -> slots_free w ->
  exists w', turn cfg fuel (ProcRetryConsumer 0) (OnFetch (Fetched m)) w = (w', Ok ()) /\
    advanced RetryDue c w w'.
Proof using Hr Hyears Hgoing.
  intros (_ & r & Hm & [Hdwf Hmax] & (_ & Hc & Hj) & Ha) Hfree.
  set (rw := (initComponents cfg).(co_retryWorker)).
  set (d := (over_the_wire r).(rm_DispatchMessage)).
  set (stamp := env_now ((if decide ((over_the_wire r).(rm_NextAttempt) <= env_now w.(w_tick)) then 1 else 2) + w.(w_tick))).
  assert (dispatch_at c (set_dm_EnqueuedAt stamp d) /\ dm_Attempt (set_dm_EnqueuedAt stamp d) = 2 /\
    dm_MaxAttempts (set_dm_EnqueuedAt stamp d) = 0 /\ dm_EnqueuedAt (set_dm_EnqueuedAt stamp d) = stamp)
    as (Hat & Ha2 & Hm0 & Hstamp).
  { unfold dispatch_at, d, over_the_wire, set_rm_DispatchMessage. destruct r as [[] ? ?]. cbn in *.
    destruct Hdwf as (?&?&?&?&?). by split_and!. }
  destruct (marshal_dispatch_total (set_dm_EnqueuedAt stamp d)) as [v Hv]; [apply Hat| |].
  { rewrite Hstamp. unfold stamp. rewrite <- (Z.add_0_r (env_now _)). by apply Hyears. }
  destruct (retry_dispatched rw 1 m (over_the_wire r) v w) as (w' & t & Hrun & Hl & _);
    [done|by apply unmarshal_marshal_retry|right; apply Hgoing|done|].
  pose proof (retry_keeps_redis rw 1 m w) as Hk. pose proof (retry_keeps_stats rw 1 m w) as Hs.
  rewrite Hrun in Hk, Hs. cbn in Hk, Hs. exists w'. split.
  { cbn [turn consumer_turn]. unfold retry_handler. change (Z.of_nat 0 + 1) with 1. fold rw. by rewrite !run_bind, Hrun. }
  split; [unfold slots_free; by rewrite Hk|]. right.
  eexists SecondCall, _, _. split_and!; [|cbn; lia|exact Hl|done].
  split; [done|]. by exists (set_dm_EnqueuedAt stamp d).
Qed.

Lemma stage_turn fuel s c topic m w :
  is_Some (cfg.(cfg_Kafka).(kc_RetryTopics) !! 0%nat) -> at_stage s c topic m -> slots_free w ->
  exists w', turn cfg (S fuel) (reader s) (OnFetch (Fetched m)) w = (w', Ok ()) /\ advanced s c w w'.
Proof using All.
  intros Ht Hat Hfree. destruct s; cbn [reader].
  - destruct Hat as (_ & d & ? & ? & ?). apply (call_turn fuel FirstCall c m d); auto.
  - destruct Hat as (_ & sm & next & ? & ? & ? & ? & ? & ? & ?). by apply (first_failure_turn _ c m sm next).
  - by apply (retry_turn _ c topic m).
  - destruct Hat as (_ & d & ? & ? & ? & ?). apply (call_turn fuel SecondCall c m d); auto.
  - destruct Hat as (_ & sm & ? & ? & ? & ? & ?). by apply (verdict_turn _ c m sm).
Qed.
End Stages.

(** ** Deliveries *)

Section Deliveries.
Context `{Env} `{PgOrder} `{UuidText} `{Gocql} `{Fiber} `{Provider} (cfg : Config) (fuel : nat).

(** The records that wait to be handled; any of them may be next, a process that
    subscribes to its topic handles it, and what it publishes waits in turn. *)
Inductive delivery : relation (World * list (string * KafkaMessage)) :=
| deliver p topic m before after w w' new :
    subscription cfg p = Some topic ->
    turn cfg fuel p (OnFetch (Fetched m)) w = (w', Ok ()) -> w'.(w_log) = w.(w_log) ++ new ->
    delivery (w, before ++ (topic, m) :: after) (w', before ++ after ++ new).

Lemma subscription_inj p q topic :
  topics_distinct cfg.(cfg_Kafka) -> subscription cfg p = Some topic -> subscription cfg q = Some topic -> p = q.
Proof.
  unfold topics_distinct. rewrite !NoDup_cons. intros (Hcall & Hstatus & Hretry).
  assert (forall i, cfg.(cfg_Kafka).(kc_RetryTopics) !! i = Some topic -> topic ∈ cfg.(cfg_Kafka).(kc_RetryTopics))
    as Hin by (intros i; apply list_elem_of_lookup_2).
  rewrite elem_of_cons in Hcall.
  destruct p, q; cbn; intros Hp Hq; try done; try (f_equal; by eapply NoDup_lookup); exfalso;
    repeat match goal with Hl : _ !! _ = Some _ |- _ => apply Hin in Hl end; simplify_eq; intuition congruence.
Qed.

(** The calls of a campaign among those under way, and the records still to come. *)
Definition owed (c : uuid) (calls : list (stage * uuid)) : Z :=
  Z.of_nat (length (filter (fun sc => sc.2 = c) calls)).
Definition work (calls : list (stage * uuid)) : nat := sum_list_with (fun sc => steps_left sc.1) calls.

Lemma owed_app c xs ys : owed c (xs ++ ys) = owed c xs + owed c ys.
Proof. unfold owed. rewrite filter_app, length_app. lia. Qed.
Lemma owed_cons c s c' xs : owed c ((s, c') :: xs) = (if decide (c' = c) then 1 else 0) + owed c xs.
Proof.
  unfold owed. rewrite filter_cons. cbn [snd]. destruct (decide (c' = c)); cbn [length]; lia.
Qed.
Lemma owed_nonneg c xs : 0 <= owed c xs.
Proof. unfold owed. lia. Qed.

(** Every record that waits is of a call under way. *)
Definition underway (calls : list (stage * uuid)) (w : World) (inbox : list (string * KafkaMessage)) : Prop :=
  slots_free w /\ Forall2 (fun sc tm => at_stage cfg sc.1 sc.2 tm.1 tm.2) calls inbox.

(** The change of the counters that is due to the calls that are no longer under way. *)
Definition accounted (calls calls' : list (stage * uuid)) (w w' : World) : Prop :=
  (forall c, owed c calls' <= owed c calls) /\ counted_by (fun c => owed c calls - owed c calls') w w'.

Lemma accounted_refl calls w : accounted calls calls w w.
Proof. split; [done|]. apply (counted_ext (fun _ => 0)); [intros; lia|by apply counted_none]. Qed.

Lemma accounted_trans calls1 calls2 calls3 w1 w2 w3 :
  accounted calls1 calls2 w1 w2 -> accounted calls2 calls3 w2 w3 -> accounted calls1 calls3 w1 w3.
Proof.
  intros [Hle12 H12] [Hle23 H23]. split; [intros c; etrans; [apply Hle23|apply Hle12]|].
  eapply counted_ext; [|eapply counted_trans; [| |exact H12|exact H23]]; intros c;
    specialize (Hle12 c); specialize (Hle23 c); cbn; lia.
Qed.

Lemma work_app xs ys : work (xs ++ ys) = (work xs + work ys)%nat.
Proof. apply sum_list_with_app. Qed.

Lemma underway_turn before s c after w before' tm after' w' :
  length before = length before' -> advanced cfg s c w w' ->
  underway (before ++ (s, c) :: after) w (before' ++ tm :: after') ->
  exists calls' new, w'.(w_log) = w.(w_log) ++ new /\ underway calls' w' (before' ++ after' ++ new) /\
    (work calls' < work (before ++ (s, c) :: after))%nat /\
    accounted (before ++ (s, c) :: after) calls' w w'.
Proof.
  intros Hlen [Hfree Hadv] [_ Hst]. apply Forall2_app_inv in Hst as [Hb Ha]; [|done].
  inversion_clear Ha as [|? ? ? ? _ Ha'].
  destruct Hadv as [[Hl Hc]|(s' & topic' & m' & Hat & Hlt & Hl & Hs)].
  - exists (before ++ after), []. rewrite !app_nil_r, !work_app. split_and!; [done| |destruct s; simpl; lia|].
    + split; [done|]. by apply Forall2_app.
    + split; [intros c0; rewrite !owed_app, owed_cons; case_decide; lia|].
      eapply counted_ext; [|exact Hc]. intros c0. rewrite !owed_app, owed_cons. unfold one_of. case_decide; lia.
  - exists (before ++ after ++ [(s', c)]), [(topic', m')]. rewrite !work_app. split_and!; [done| |simpl; lia|].
    + split; [done|]. by repeat apply Forall2_app; [..|constructor].
    + assert (forall c0, owed c0 (before ++ after ++ [(s', c)]) = owed c0 (before ++ (s, c) :: after)) as Howed
        by (intros c0; rewrite !owed_app, !owed_cons; unfold owed at 3; simpl; lia).
      split; [intros c0; by rewrite Howed|]. eapply counted_ext; [|by apply counted_none].
      intros c0. cbn. rewrite Howed. lia.
Qed.
End Deliveries.

(** ** Every call is settled *)

Section Settled.
Context `{Env} `{PgOrder} `{UuidText} `{Gocql} `{Fiber} `{Provider} (cfg : Config) (fuel : nat).
Context (Hr : reliable) (Hgoing : forall n, env_ctx_done n = false).
Context (Hyears : distant_years) (Hdef : definite).
Context (Htopics : topics_distinct cfg.(cfg_Kafka)) (Hretry : cfg.(cfg_Kafka).(kc_RetryTopics) <> []).

(** Whoever handles a record that waits, takes the call it speaks of further. *)
Lemma record_turn calls w before topic m after :
  underway cfg calls w (before ++ (topic, m) :: after) ->
  exists p w', subscription cfg p = Some topic /\
    turn cfg (S fuel) p (OnFetch (Fetched m)) w = (w', Ok ()) /\
    exists calls' new, w'.(w_log) = w.(w_log) ++ new /\ underway cfg calls' w' (before ++ after ++ new) /\
      (work calls' < work calls)%nat /\ accounted calls calls' w w'.
Proof using Hr Hgoing Hyears Hdef Hretry.
  intros Huw. pose proof Huw as [Hfree Hst].
  apply Forall2_app_inv_r in Hst as (cb & ca' & Hb & Ha & ->). inversion Ha as [|[s c] ? ca ? Hat Ha' E1 E2]. subst ca'.
  destruct (stage_turn cfg Hr Hdef Hyears Hgoing fuel s c topic m w) as (w' & Hrun & Hadv); [|done..|].
  { destruct (kc_RetryTopics _); [done|by eexists]. }
  exists (reader s), w'. split; [by eapply reader_subscribed|]. split; [done|].
  eapply underway_turn; [by eapply Forall2_length|exact Hadv|exact Huw].
Qed.

Lemma delivery_underway calls s s' :
  underway cfg calls s.1 s.2 -> delivery cfg (S fuel) s s' ->
  exists calls', underway cfg calls' s'.1 s'.2 /\ (work calls' < work calls)%nat /\
    accounted calls calls' s.1 s'.1.
Proof using All.
  intros Huw Hstep. destruct Hstep as [p topic m before after w w' new Hsub Hrun Hl]. cbn in *.
  destruct (record_turn _ _ _ _ _ _ Huw) as (q & w1 & Hsub' & Hrun' & calls' & new' & Hl' & Huw' & ? & ?).
  pose proof (subscription_inj cfg p q topic Htopics Hsub Hsub') as <-. rewrite Hrun in Hrun'. simplify_eq.
  rewrite Hl in Hl'. apply app_inv_head in Hl' as <-. by exists calls'.
Qed.

Lemma deliveries_underway n : forall calls s s',
  underway cfg calls s.1 s.2 -> nsteps (delivery cfg (S fuel)) n s s' ->
  exists calls', underway cfg calls' s'.1 s'.2 /\ (n + work calls' <= work calls)%nat /\
    accounted calls calls' s.1 s'.1.
Proof using All.
  induction n as [|n IH]; intros calls s s' Huw Hsteps; inversion Hsteps as [|? ? s1 ? Hstep Hrest]; subst.
  - exists calls. split; [done|]. split; [lia|]. apply accounted_refl.
  - destruct (delivery_underway _ _ _ Huw Hstep) as (calls1 & Huw1 & ? & Hacc1).
    destruct (IH _ _ _ Huw1 Hrest) as (calls2 & Huw2 & ? & Hacc2). exists calls2.
    split; [done|]. split; [lia|]. by eapply accounted_trans.
Qed.

(** As long as a record waits one can be handled, until none does. *)
Lemma deliveries_end k : forall calls w inbox,
  (work calls <= k)%nat -> underway cfg calls w inbox ->
  exists n w', nsteps (delivery cfg (S fuel)) n (w, inbox) (w', []).
Proof using Hr Hgoing Hyears Hdef Hretry.
  induction k as [|k IH]; intros calls w [|[topic m] inbox] Hk Huw;
    try (exists 0%nat, w; constructor);
    destruct (record_turn _ _ [] _ _ _ Huw) as (p & w1 & Hsub & Hrun & calls1 & new & Hl & Huw1 & Hlt & _); [lia|].
  destruct (IH calls1 w1 (inbox ++ new)) as (n & w' & Hsteps); [lia|exact Huw1|].
  exists (S n), w'. eapply nsteps_l; [|exact Hsteps].
  by apply (deliver cfg (S fuel) p topic m [] inbox w w1 new).
Qed.

(** The first attempts that wait, by campaign. *)
Definition awaited (c : uuid) (ds : list DispatchMessage) : Z :=
  Z.of_nat (length (filter (fun d => d.(dm_CampaignID) = c) ds)).

Lemma dispatched_underway (ds : list DispatchMessage) (w : World) inbox :
  Forall2 (fun d tm => tm.1 = cfg.(cfg_Kafka).(kc_CallTopic) /\ marshal_dispatch d = Some tm.2.(km_Value)) ds inbox ->
  Forall (fun d => dispatch_wf d /\ d.(dm_Attempt) = 1) ds -> slots_free w ->
  let calls := (fun d => (FirstCall, d.(dm_CampaignID))) <$> ds in
  underway cfg calls w inbox /\ work calls = (5 * length ds)%nat /\ forall c, owed c calls = awaited c ds.
Proof.
  intros Hin Hds Hfree calls. split; [split; [done|]|split].
  - unfold calls. revert Hds. induction Hin as [|d [topic m] ds inbox [Ht Hm] Hin IH]; intros Hds; [constructor|].
    cbn in Ht, Hm. subst topic. inversion_clear Hds as [|? ? (Hwf & Ha) Hds']. constructor; [|by apply IH].
    split; [done|]. exists d. split_and!; [done|by split; [|split; [|by eapply marshal_dispatch_some]]|done].
  - unfold work, calls. clear. induction ds as [|d ds IH]; [done|].
    rewrite fmap_cons. cbn [sum_list_with steps_left fst length]. lia.
  - intros c. unfold owed, awaited, calls. clear. induction ds as [|d ds IH]; [done|].
    rewrite fmap_cons, !filter_cons. cbn. case_decide; cbn [length]; lia.
Qed.

(** Until nothing waits: a bounded number of records, and the counters move. *)
Lemma dispatched_settle (ds : list DispatchMessage) (w : World) (inbox : list (string * KafkaMessage)) :
  Forall2 (fun d tm => tm.1 = cfg.(cfg_Kafka).(kc_CallTopic) /\ marshal_dispatch d = Some tm.2.(km_Value)) ds inbox ->
  Forall (fun d => dispatch_wf d /\ d.(dm_Attempt) = 1) ds -> slots_free w ->
  forall n w' inbox', nsteps (delivery cfg (S fuel)) n (w, inbox) (w', inbox') ->
    (n <= 5 * length ds)%nat /\
    (exists k w'', nsteps (delivery cfg (S fuel)) k (w', inbox') (w'', [])) /\
    (inbox' = [] -> counted_by (fun c => awaited c ds) w w').
Proof using All.
  intros Hin Hds Hfree n w' inbox' Hsteps.
  destruct (dispatched_underway ds w inbox Hin Hds Hfree) as (Huw & Hwork & Howed).
  destruct (deliveries_underway n _ (w, inbox) (w', inbox') Huw Hsteps) as (calls' & Huw' & Hn & _ & Hacc).
  cbn in Huw', Hacc. split_and!; [lia|by eapply deliveries_end|].
  intros ->. destruct Huw' as [_ Hnil]. apply Forall2_nil_inv_r in Hnil as ->.
  eapply counted_ext; [|exact Hacc]. intros c. cbn. rewrite Howed. apply Z.sub_0_r.
Qed.

(** Claim C8: a call that was dispatched is settled, in whatever order the records that wait
    are handled, and wherever the provider's verdicts lead: when requests are
    answered and the workers go on, [k] first attempts give at most [5 * k] records
    to handle, what is left at any time can be handled to the end, and then the
    counters of every campaign that has some, with room for it, have moved by
    exactly its calls: as many pending calls fewer, as many completed or failed
    more, at most as many retries. *)
Theorem every_dispatched_call_is_settled (ds : list DispatchMessage) (w : World)
    (inbox : list (string * KafkaMessage)) :
  Forall2 (fun d tm => tm.1 = cfg.(cfg_Kafka).(kc_CallTopic) /\ marshal_dispatch d = Some tm.2.(km_Value)) ds inbox ->
  Forall (fun d => dispatch_wf d /\ d.(dm_Attempt) = 1) ds -> slots_free w ->
  forall n w' inbox', nsteps (delivery cfg (S fuel)) n (w, inbox) (w', inbox') ->
    (n <= 5 * length ds)%nat /\
    (exists k w'', nsteps (delivery cfg (S fuel)) k (w', inbox') (w'', [])) /\
    (inbox' = [] -> forall c st, c <> uuid_Nil -> w.(w_stats) !! c = Some st -> spare (awaited c ds) st ->
       exists st', w'.(w_stats) !! c = Some st' /\
         st'.(st_TotalCalls) = st.(st_TotalCalls) /\ st'.(st_InProgressCalls) = st.(st_InProgressCalls) /\
         st'.(st_PendingCalls) = st.(st_PendingCalls) - awaited c ds /\
         st'.(st_CompletedCalls) + st'.(st_FailedCalls) =
           st.(st_CompletedCalls) + st.(st_FailedCalls) + awaited c ds /\
         st.(st_CompletedCalls) <= st'.(st_CompletedCalls) /\ st.(st_FailedCalls) <= st'.(st_FailedCalls) /\
         st.(st_RetriesAttempted) <= st'.(st_RetriesAttempted) <= st.(st_RetriesAttempted) + awaited c ds).
Proof using All.
  intros Hin Hds Hfree n w' inbox' Hsteps.
  destruct (dispatched_settle ds w inbox Hin Hds Hfree n w' inbox' Hsteps) as (Hn & Hend & Hacc).
  split_and!; [done|done|]. intros Hnil c st Hc Hst Hsp.
  destruct (Hacc Hnil c st Hc Hst Hsp) as (st' & Hst' & He). exists st'. split; [done|].
  unfold ended in He. destruct_and! He. split_and!; (done || lia).
Qed.
End Settled.

(** ** Two calls that fail at every attempt *)

(** The clock stands still, and every simulated call fails. *)
Definition hopeless_env : Env :=
  {| env_outcome := fun _ => Done; env_now := fun _ => 1700000000 * Second;
     env_uuid := fun n => N.of_nat (S n); env_rand := fun _ => S754_finite false 3 (-2);
     env_intn := fun _ _ => 0; env_ctx_done := fun _ => false; env_deadline := fun _ => false; env_temporary := fun _ => false;
     env_tzdb := fun _ => None; env_tzdb_error := fun name => String.append "unknown time zone " name;
     env_local := UTC;
     env_f64_overflow := fun _ => min_int64; env_pg_lower := lower |}.

#[local] Existing Instances hopeless_env bit_uuid stable_sort_order mock_PlaceCall unary_pages json_bodies.

Lemma hopeless_definite : definite.
Proof.
  intros d. split.
  - intros w. unfold PlaceCall, mock_PlaceCall, Float64, Intn, ctx_done. run_monad. cbn. do 2 eexists.
    split; [reflexivity|]. by rewrite !stores_bump.
  - intros [res err] Hrun. unfold PlaceCall, mock_PlaceCall in Hrun. cbn in Hrun.
    destruct Hrun as (w1 & w2 & w3 & Hrun). simplify_eq/=. split; [vm_compute; split; discriminate|]. by split; [right|].
Qed.

Lemma hopeless_years : distant_years.
Proof.
  intros n delay Hd. unfold year_ok, in_int64, min_int64, max_int64 in *. cbn [env_now hopeless_env].
  rewrite andb_true_iff, Z.leb_le, Z.ltb_lt. unfold Second, Millisecond. lia.
Qed.

Definition two_calls : list DispatchMessage :=
  (fun id => mkDispatch id 3 "+15555550001" 1 4 2000 30000 f64_zero 10 None 0) <$> [7%N; 8%N].
Definition two_records : list (string * KafkaMessage) :=
  (fun d => ("campaign.calls.dispatch", mkKafka d.(dm_CallID) (default JNull (marshal_dispatch d)) 0)) <$> two_calls.
Definition two_pending : World := set_stats {[ 3%N := mkStats 2 0 0 0 2 0 ]} empty_world.

Lemma two_calls_dispatched :
  Forall2 (fun d tm => tm.1 = default_config.(cfg_Kafka).(kc_CallTopic) /\
    marshal_dispatch d = Some tm.2.(km_Value)) two_calls two_records /\
  Forall (fun d => dispatch_wf d /\ d.(dm_Attempt) = 1) two_calls /\ slots_free two_pending.
Proof.
  split; [repeat constructor|]. split; [|by intros key e Hl].
  unfold two_calls. cbn. repeat constructor; discriminate.
Qed.

Lemma every_call_settled_witness :
  exists n w' st', nsteps (delivery default_config 1) n (two_pending, two_records) (w', []) /\ (n <= 10)%nat /\
    w'.(w_stats) !! 3%N = Some st' /\ st'.(st_PendingCalls) = 0 /\
    st'.(st_CompletedCalls) + st'.(st_FailedCalls) = 2.
Proof.
  destruct two_calls_dispatched as (Hin & Hds & Hfree).
  assert (forall n w' inbox', nsteps (delivery default_config 1) n (two_pending, two_records) (w', inbox') -> _)
    as Hall by (intros n w' inbox'; exact (every_dispatched_call_is_settled default_config 0 (fun _ => eq_refl)
      (fun _ => eq_refl) hopeless_years hopeless_definite default_topics_distinct ltac:(discriminate)
      two_calls two_pending two_records Hin Hds Hfree n w' inbox')).
  destruct (Hall 0%nat two_pending two_records (nsteps_O _ _)) as (_ & (n & w' & Hsteps) & _).
  destruct (Hall n w' [] Hsteps) as (Hn & _ & Hend).
  destruct (Hend eq_refl 3%N (mkStats 2 0 0 0 2 0)) as (st' & Hst' & _ & _ & Hp & Hs & _);
    [discriminate|reflexivity|split; [split; discriminate|]; split; [split; discriminate|]; repeat constructor; discriminate|].
  exists n, w', st'. split; [exact Hsteps|]. split; [exact Hn|]. split; [exact Hst'|]. split; [exact Hp|exact Hs].
Defined.
