(* ===== verification/Outcome.v ===== *)
(** A running campaign is worked off: the ticks of the scheduler and the turns of
    the workers together, from the targets that are pending to the counters of the
    calls that have ended. *)
From S2P Require Import Prelude Errors GoTime Json Domain Messages World Postgres PostgresInv.
From S2P Require Import Scylla Queue Limiter CampaignService CallService CallLists Requests.
From S2P Require Import Handlers Scheduler CallWorker StatusWorker RetryWorker Effects ApiEcho WorkerProofs.
From S2P Require Import Interleaving Config Container System SchedulerProofs Pipeline Dialout Processes Settle.

Section Outcome.
Context `{Env} `{PgOrder} `{UuidText} `{Gocql} `{Fiber} `{Provider} (cfg : Config).
Context (Hr : reliable) (Hgoing : forall n, env_ctx_done n = false).
Context (Htopics : topics_distinct cfg.(cfg_Kafka)) (Hprovider : provider_outside).

Definition dialer : SchedulerSettings := (co cfg).(co_scheduler).
Definition caller : CallService := (co cfg).(co_calls).

(** ** What the ticks leave behind *)

Lemma dialer_quiet : caller.(cs_dispatchTopic) ∉ dialer.(sc_RetryTopics).
Proof using Htopics. apply (topics_differ cfg Htopics). Qed.

Lemma run_messages_ok n : forall w, messages_ok cfg w -> messages_ok cfg (Run n dialer caller w).1.
Proof using All.
  induction n as [|n IH]; intros w Hw; cbn [Run]; [done|].
  pose proof (started_messages_ok cfg Htopics Hprovider _ w (start_tick cfg w) Hw) as Hw1.
  rewrite run_bind, run_ignore. destruct (tick _ _ w) as [w1 res]. cbn [fst] in Hw1.
  rewrite (bind_step ctx_done _ w1 (bump w1) _ eq_refl), Hgoing. by apply IH, messages_ok_bump.
Qed.

#[local] Existing Instances redis_run redis_delta redis_calls redis_publish.
#[local] Instance redis_targets : CanUpdateTargets (keeps w_redis).
Proof. apply (watch_update_targets w_redis); [done|unseen]. Qed.

Lemma run_keeps_slots n : forall w, slots_free w -> slots_free (Run n dialer caller w).1.
Proof using Hgoing.
  induction n as [|n IH]; intros w Hw; cbn [Run]; [done|].
  pose proof (stable_run (keeps w_redis) _ (eff_tick (keeps w_redis) dialer caller) w) as Hk.
  rewrite run_bind, run_ignore. destruct (tick _ _ w) as [w1 res]. cbn [fst] in Hk.
  rewrite (bind_step ctx_done _ w1 (bump w1) _ eq_refl), Hgoing. apply IH.
  unfold slots_free, keeps in *. by destruct w1; cbn in *; rewrite Hk.
Qed.

(** The records of the ticks are first attempts that their worker can read. *)
Lemma said_dispatches ds recs w w' :
  typed_inputs cfg -> messages_ok cfg w' -> w'.(w_log) = w.(w_log) ++ recs ->
  Forall2 (announced caller) ds recs ->
  Forall2 (fun d tm => tm.1 = cfg.(cfg_Kafka).(kc_CallTopic) /\ marshal_dispatch d = Some tm.2.(km_Value)) ds recs /\
  Forall (fun d => dispatch_wf d /\ d.(dm_Attempt) = 1) ds.
Proof using Htopics.
  intros Hty [[Hok _] _] Hl Hds. split; [eapply Forall2_impl; [exact Hds|by intros d tm []]|].
  apply Forall_forall. intros d Hd. apply list_elem_of_lookup in Hd as [i Hd].
  destruct (Forall2_lookup_l _ _ _ _ _ Hds Hd) as ([topic m] & Hm & [Ht Hv] & Ha). cbn in Ht, Hv. split; [|done].
  apply list_elem_of_lookup_2 in Hm. destruct (Hok topic m) as [Hcall _]; [rewrite Hl; apply elem_of_app; by right|].
  destruct (Hcall Ht) as (d' & Hv' & _ & _ & Hwf). specialize (Hwf Hty).
  by eapply unmarshal_dispatch_wf, unmarshal_marshal_dispatch.
Qed.

(** ** From pending to ended *)

(** Counters far from the ends of their type. *)
Definition modest (k : Z) (st : CampaignStats) : Prop :=
  Forall (fun v => 0 <= v <= max_int64 - 2 * k)
    [st.(st_TotalCalls); st.(st_CompletedCalls); st.(st_FailedCalls); st.(st_InProgressCalls);
     st.(st_PendingCalls); st.(st_RetriesAttempted)].

Lemma modest_spare k st :
  0 <= k -> modest k st -> spare k (add_delta st (mkDelta k 0 0 0 k 0)).
Proof.
  unfold modest, spare, add_delta, in_int64. rewrite !Forall_cons. cbn. intros Hk (?&?&?&?&?&?&_).
  unfold min_int64, max_int64 in *. rewrite !Z.add_0_r. split_and!; try lia. repeat constructor; lia.
Qed.

Context (Hyears : distant_years) (Hdef : definite) (Hretry : cfg.(cfg_Kafka).(kc_RetryTopics) <> []).
Context (Htyped : typed_inputs cfg) (fuel : nat).

(** Claim C6: a running campaign is worked off, when nothing stands in its way: in a
    state the platform can reach, the campaign is [dialling] (in progress, open at
    every moment, one of no more campaigns in progress than a tick takes up, its
    calls go through, and no retry topic holds a record), no slot is taken, requests
    are answered and the provider's verdicts are final. After as many ticks as its
    pending targets fill batches, with no worker running yet, none is pending and
    exactly one first attempt was published for each. When the scheduler then stops
    and these records are handled, with those that handling them brings, in whatever
    order, at most five are handled for a call, and in the end the campaign has as
    many calls more as it had pending targets, as many more have completed or
    failed, and no more are pending or in progress than before. *)
Theorem running_campaign_is_worked_off (c : uuid) (r : campaignRecord) (st : CampaignStats) (n : nat) (w : World) :
  reachable cfg w -> slots_free w -> dialling dialer c r w -> c <> uuid_Nil ->
  let k := Z.of_nat (size (pending c w)) in
  k <= Z.of_nat n * batch_size dialer -> w.(w_stats) !! c = Some st -> modest k st ->
  exists w1 inbox called ds, Run n dialer caller w = (w1, Ok StillRunning) /\ pending c w1 = ∅ /\
    w1.(w_log) = w.(w_log) ++ inbox /\ Forall2 (announced caller) ds inbox /\
    (forall id, id ∈ called <-> id ∈ pending c w) /\ calls_to c w called (mine c ds) /\
    forall turns w2 rest, nsteps (delivery cfg (S fuel)) turns (w1, inbox) (w2, rest) ->
      (turns <= 5 * length inbox)%nat /\
      (exists more w3, nsteps (delivery cfg (S fuel)) more (w2, rest) (w3, [])) /\
      (rest = [] -> exists st', w2.(w_stats) !! c = Some st' /\
         st'.(st_TotalCalls) = st.(st_TotalCalls) + k /\ st'.(st_PendingCalls) = st.(st_PendingCalls) /\
         st'.(st_InProgressCalls) = st.(st_InProgressCalls) /\
         st'.(st_CompletedCalls) + st'.(st_FailedCalls) = st.(st_CompletedCalls) + st.(st_FailedCalls) + k /\
         st.(st_CompletedCalls) <= st'.(st_CompletedCalls) /\ st.(st_FailedCalls) <= st'.(st_FailedCalls) /\
         st.(st_RetriesAttempted) <= st'.(st_RetriesAttempted) <= st.(st_RetriesAttempted) + k).
Proof using All.
  intros Hreach Hfree Hd Hc k Hn Hst Hmod.
  assert (sane_clock) as Hclock by (intros i; rewrite <- (Z.add_0_r (env_now i)); by apply Hyears).
  destruct (Run_progress dialer caller c r dialer_quiet n w Hr Hclock Hgoing Hd Hn)
    as (w1 & called & ds & Hrun & (inbox & Hl & Hds) & Hp & Hin & Hto & Hq).
  pose proof Hto as [Hnd Hcalls].
  pose proof (run_messages_ok n w (reachable_log_ok cfg Htopics Hprovider w Hreach)) as Hok.
  pose proof (run_keeps_slots n w Hfree) as Hfree1. rewrite Hrun in Hok, Hfree1. cbn in Hok, Hfree1.
  destruct (said_dispatches ds inbox w w1 Htyped Hok Hl Hds) as [Hinbox Hwf].
  rewrite (length_called c w called) in Hq by done. fold k in Hq.
  exists w1, inbox, called, ds. split_and!; [done..|]. intros turns w2 rest Hsteps.
  destruct (dispatched_settle cfg fuel Hr Hgoing Hyears Hdef Htopics Hretry ds w1 inbox Hinbox Hwf Hfree1
    turns w2 rest Hsteps) as (Hturns & Hend & Hcount).
  rewrite (Forall2_length _ _ _ Hinbox) in Hturns. split_and!; [done|done|]. intros ->.
  assert (awaited c ds = k) as Hk.
  { unfold awaited, k. f_equal. change (length (mine c ds) = size (pending c w)).
    by rewrite <- (length_called c w called), (Forall2_length _ _ _ Hcalls). }
  unfold queued_calls in Hq. rewrite Hst in Hq. cbn in Hq.
  destruct (Hcount eq_refl c _ Hc Hq) as (st' & Hst' & He); cbn in *; rewrite Hk in *; [by apply modest_spare; [lia|]|].
  exists st'. split; [done|]. unfold ended, add_delta in He. cbn in He. destruct_and! He. split_and!; (done || lia).
Qed.
End Outcome.

(** ** A campaign with three targets, worked off *)

#[local] Existing Instances still_env bit_uuid stable_sort_order unary_pages json_bodies dialout_provider.

(** The clock stands still, and every simulated call succeeds. *)
Lemma still_calls d w : exists w', stores w' = stores w /\
  PlaceCall d w = (w', Ok (mkResult CallStatusCompleted (5 * Second) false EmptyString, None)).
Proof.
  unfold PlaceCall, dialout_provider, mock_PlaceCall, Float64, Intn, ctx_done. run_monad. cbn. eexists.
  split; [|reflexivity]. by rewrite !stores_bump.
Qed.

Lemma still_return d rc :
  may_return (PlaceCall d) rc -> rc = (mkResult CallStatusCompleted (5 * Second) false EmptyString, None).
Proof.
  destruct rc as [res err]. unfold PlaceCall, dialout_provider, mock_PlaceCall. cbn.
  intros (w1 & w2 & w3 & Hrun). by simplify_eq/=.
Qed.

Lemma still_definite : definite.
Proof.
  intros d. split.
  - intros w. destruct (still_calls d w) as (w' & Hs & Hrun). by do 2 eexists.
  - intros rc ->%still_return. cbn. split_and!; [vm_compute; split; discriminate|by left|done].
Qed.

Lemma still_typed : typed_inputs default_config.
Proof.
  split; [vm_compute; split; discriminate|]. intros d rc ->%still_return. vm_compute; split; discriminate.
Qed.

Lemma still_years : distant_years.
Proof.
  intros n delay Hd. unfold year_ok, in_int64, min_int64, max_int64 in *. cbn [env_now still_env].
  rewrite andb_true_iff, Z.leb_le, Z.ltb_lt. unfold Second, Millisecond. lia.
Qed.

Lemma dialout_dialer : dialling (dialer default_config) dialout_id dialout_row dialout_start.
Proof.
  apply (dialling_settings dialout_settings); [reflexivity|vm_compute; discriminate|apply dialout_dialling].
Qed.

Lemma dialout_slots : slots_free dialout_start.
Proof. intros key e Hl. assert (dialout_start.(w_redis) = ∅) as Hnone by (vm_compute; reflexivity). by rewrite Hnone in Hl. Qed.

Lemma three_pending : Z.of_nat (size (pending dialout_id dialout_start)) = 3.
Proof. vm_compute. reflexivity. Qed.

Lemma worked_off_witness :
  exists w1 inbox w2 st', Run 1 (dialer default_config) (caller default_config) dialout_start = (w1, Ok StillRunning) /\
    (exists turns, nsteps (delivery default_config 1) turns (w1, inbox) (w2, [])) /\
    w2.(w_stats) !! dialout_id = Some st' /\ st'.(st_CompletedCalls) + st'.(st_FailedCalls) = 3.
Proof.
  assert (reliable /\ forall n, env_ctx_done n = false) as [Hreliable Hgoing] by (by split).
  destruct (running_campaign_is_worked_off default_config Hreliable Hgoing
    default_topics_distinct mock_outside still_years still_definite ltac:(discriminate) still_typed 0
    dialout_id dialout_row (mkStats 0 0 0 0 0 0) 1 dialout_start dialout_reachable dialout_slots dialout_dialer)
    as (w1 & inbox & called & ds & Hrun & _ & _ & _ & _ & _ & Hall).
  - discriminate.
  - rewrite three_pending. discriminate.
  - vm_compute. reflexivity.
  - rewrite three_pending. repeat constructor; discriminate.
  - destruct (Hall 0%nat w1 inbox (nsteps_O _ _)) as (_ & (turns & w2 & Hsteps) & _).
    destruct (Hall turns w2 [] Hsteps) as (_ & _ & Hend).
    destruct (Hend eq_refl) as (st' & Hst' & _ & _ & _ & Hsum & _).
    rewrite three_pending in Hsum. exists w1, inbox, w2, st'. split; [exact Hrun|]. split; [by exists turns|]. by split.
Defined.
