(* ===== verification/Progress.v ===== *)
(** That work gets done, and when it does not: slots never stay taken for good, a
    call that waits for one gets it, and a retry that could not be dispatched is
    overtaken by the next. *)
From S2P Require Import Prelude Errors GoTime Json Domain Messages World Postgres PostgresInv.
From S2P Require Import PostgresSpec Scylla Queue Limiter CampaignService CallService CallLists.
From S2P Require Import Requests Handlers Scheduler CallWorker StatusWorker RetryWorker Effects.
From S2P Require Import WorkerProofs Interleaving Config Container System Pipeline Processes.

(** ** Every counter has a time to live *)

Definition expires (m : gmap string redisEntry) : Prop :=
  forall k e, m !! k = Some e -> is_Some e.(re_expire_at).

Definition slots_expire (w : World) : Prop := expires w.(w_redis).

Lemma expires_insert m k v x : expires m -> expires (<[k := mkEntry v (Some x)]> m).
Proof.
  intros Hm k' e Hl. apply lookup_insert_Some in Hl as [[_ <-]|[_ Hl]]; [by eexists|by eapply Hm].
Qed.

Lemma expires_delete m k : expires m -> expires (delete k m).
Proof. intros Hm k' e Hl. apply lookup_delete_Some in Hl as [_ Hl]. by eapply Hm. Qed.

Lemma redis_GET_Some t k m e : redis_GET t k m = Some e -> m !! k = Some e.
Proof. unfold redis_GET. repeat case_match; intros; by simplify_eq. Qed.

Lemma acquire_script_expires t k limit ttl m m' r :
  0 < ttl -> acquire_script t k limit ttl m = (m', r) -> expires m -> expires m'.
Proof.
  intros Httl Hs Hm. unfold acquire_script in Hs.
  destruct (_ <? limit); [|by simplify_eq].
  destruct (0 <? ttl) eqn:?; zbool; [|lia]. injection Hs as <- _.
  unfold redis_PEXPIRE, redis_ADD. destruct (redis_GET t k m) as [e|];
    rewrite lookup_insert_eq, insert_insert_eq; by apply expires_insert.
Qed.

Lemma release_script_expires t k m m' r :
  release_script t k m = (m', r) -> expires m -> expires m'.
Proof.
  unfold release_script. intros Hs Hm. destruct (redis_current t k m <=? 0) eqn:Hc; zbool;
    injection Hs as <- _; [by apply expires_delete|].
  unfold redis_current in Hc. unfold redis_ADD. destruct (redis_GET t k m) as [e|] eqn:Hg; [|lia].
  destruct (Hm _ _ (redis_GET_Some _ _ _ _ Hg)) as [x ->]. by apply expires_insert.
Qed.

Section Expiry.
Context `{Env} `{PgOrder} `{UuidText} `{Gocql} `{Fiber} `{Provider} (cfg : Config).

Lemma slots_same w w' : w'.(w_redis) = w.(w_redis) -> inv slots_expire w w'.
Proof. unfold inv, slots_expire. by intros ->. Qed.

#[local] Instance slots_run : CanRun (inv slots_expire).
Proof. apply (watch_run w_redis); [apply slots_same|apply _|unseen]. Qed.
#[local] Instance slots_campaigns : CanWriteCampaigns (inv slots_expire).
Proof. apply (watch_campaigns w_redis); [apply slots_same|apply _|unseen]. Qed.
#[local] Instance slots_hours : CanWriteHours (inv slots_expire).
Proof. apply watch_hours. intros w w' _ Hs. unfold other_stores in Hs. simplify_eq. by apply slots_same. Qed.
#[local] Instance slots_insert_targets : CanInsertTargets (inv slots_expire).
Proof. apply (watch_insert_targets w_redis); [apply slots_same|unseen]. Qed.
#[local] Instance slots_update_targets : CanUpdateTargets (inv slots_expire).
Proof. apply (watch_update_targets w_redis); [apply slots_same|unseen]. Qed.
#[local] Instance slots_ensure : CanEnsureStats (inv slots_expire).
Proof. apply (watch_ensure w_redis); [apply slots_same|apply _|unseen]. Qed.
#[local] Instance slots_delta : CanApplyDelta (inv slots_expire).
Proof. apply (watch_delta w_redis); [apply slots_same|apply _|unseen]. Qed.
#[local] Instance slots_calls : CanWriteCalls (inv slots_expire).
Proof. apply (watch_calls w_redis); [apply slots_same|unseen..]. Qed.
#[local] Instance slots_attempts : CanWriteAttempts (inv slots_expire).
Proof. apply (watch_attempts w_redis); [apply slots_same|unseen]. Qed.
#[local] Instance slots_publish : CanPublish (inv slots_expire).
Proof. apply (watch_publish w_redis); [apply slots_same|unseen]. Qed.
#[local] Instance slots_commit : CanCommit (inv slots_expire).
Proof. apply (watch_commit w_redis); [apply slots_same|unseen]. Qed.

(** Only the limiter writes the counters. *)
Lemma slots_script (f : Time -> gmap string redisEntry -> gmap string redisEntry * Z) :
  (forall t m m' r, f t m = (m', r) -> expires m -> expires m') ->
  stable (inv slots_expire) (external (fun w =>
    let '(m, res) := f (env_now w.(w_tick)) w.(w_redis) in Ok (set_redis m w, res))).
Proof.
  intros Hf. apply stable_external; [apply _|apply can_bump|]. intros w w' r Hrun.
  destruct (f _ _) as [m res] eqn:E. injection Hrun as <- _. intros Hw. unfold slots_expire.
  replace (w_redis (set_redis m w)) with m by (by destruct w). by eapply Hf.
Qed.

Lemma slots_acquire l c n : 0 < Milliseconds l.(lim_ttl) -> stable (inv slots_expire) (Acquire l c n).
Proof.
  intros Httl. unfold Acquire. destruct (effective_limit l c n) as [limit|]; [|effects].
  apply stable_bind; [apply _| |intros; effects]. apply stable_on_err.
  apply (slots_script (fun t m => acquire_script t (limiter_key c) limit (Milliseconds l.(lim_ttl)) m)).
  intros t m m' r. by apply acquire_script_expires.
Qed.

Lemma slots_release l c : stable (inv slots_expire) (Release l c).
Proof.
  unfold Release. case_bool_decide; [effects|]. apply stable_bind; [apply _| |intros; effects].
  apply stable_on_err.
  apply (slots_script (fun t m => release_script t (limiter_key c) m)).
  intros t m m' r. by apply release_script_expires.
Qed.

Lemma slots_call_worker fuel cw m :
  0 < Milliseconds cw.(cw_limiter).(lim_ttl) -> provider_outside ->
  stable (inv slots_expire) (processMessage fuel cw m).
Proof.
  intros Httl Hp. pose proof (fun c n => slots_acquire cw.(cw_limiter) c n Httl) as Ha.
  pose proof (slots_release cw.(cw_limiter)) as Hrel.
  assert (forall d, stable (inv slots_expire) (place_and_report cw d m)) as Hplace
    by (intros d; apply eff_place_and_report; [apply _..|]; intros d'; apply Hp, _).
  assert (forall c n, stable (inv slots_expire) (acquire_loop fuel cw c n)) as Hloop.
  { intros c n. induction fuel as [|fuel' IH]; cbn [acquire_loop]; effects; try apply Ha. }
  unfold processMessage, waitForSlot. effects; first [apply Hloop|apply Hplace|apply Hrel].
Qed.

Lemma starts_slots_expire w p :
  0 < Milliseconds (co cfg).(co_callWorker).(cw_limiter).(lim_ttl) -> provider_outside ->
  starts cfg w p -> stable (inv slots_expire) p.
Proof.
  intros Httl Hp Hstart. destruct Hstart; apply stable_ignore;
    first [ by apply slots_call_worker | apply eff_serve | apply eff_tick
          | apply eff_handle_status | apply eff_handle_retry ]; typeclasses eauto.
Qed.

Lemma reachable_slots_expire w :
  0 < Milliseconds (co cfg).(co_callWorker).(cw_limiter).(lim_ttl) -> provider_outside ->
  reachable cfg w -> slots_expire w.
Proof.
  intros Httl Hp Hr. apply (reachable_inv cfg slots_expire); [|apply _|by intros; eapply starts_slots_expire|done].
  intros k e Hl. by vm_compute in Hl.
Qed.
End Expiry.

(** ** Waiting for a slot *)

Section Waiting.
Context `{Env} `{UuidText}.

(** From the operation [n0] on requests are answered, the worker is not stopped,
    and its clock passes every instant. *)
Definition goes_on (n0 : nat) : Prop :=
  (forall n, (n0 <= n)%nat -> env_outcome n = Done /\ env_ctx_done n = false) /\
  (forall t, exists n1, forall n, (n1 <= n)%nat -> t <= env_now n).

(** What others may do while a call of campaign [c] waits: anything, but take a slot
    of that campaign, which would renew the time to live of its counter. *)
Definition leaves_slots (c : uuid) : relation World := fun w w' =>
  later w w' /\ forall e', w'.(w_redis) !! limiter_key c = Some e' ->
    exists e, w.(w_redis) !! limiter_key c = Some e /\ e.(re_expire_at) = e'.(re_expire_at).

Lemma acquire_answered others l c n limit w :
  env_outcome (others w).(w_tick) = Done -> effective_limit l c n = Some limit ->
  run_among others (Acquire l c n) w =
    let '(m, res) := acquire_script (env_now (S (others w).(w_tick))) (limiter_key c) limit
                       (Milliseconds l.(lim_ttl)) (others w).(w_redis) in
    (set_redis m (bump (others w)), Ok (bool_decide (res = 1))).
Proof.
  intros Hd He. unfold Acquire, on_err. rewrite He, among_bind, among_map_result.
  unfold external. rewrite among_atomic. unfold execute. rewrite Hd, tick_bump.
  replace (w_redis (bump (others w))) with (others w).(w_redis) by (by destruct (others w)).
  by destruct (acquire_script _ _ _ _ _) as [m res].
Qed.

(** A counter whose time is over does not count. *)
Lemma expired_current t k m :
  (forall e, m !! k = Some e -> exists x, e.(re_expire_at) = Some x /\ x <= t) -> redis_current t k m = 0.
Proof.
  intros Hm. unfold redis_current, redis_GET. destruct (m !! k) as [e|]; [|done].
  destruct (Hm e eq_refl) as (x & -> & Hx). destruct (x <=? t) eqn:?; zbool; [done|lia].
Qed.

Lemma acquire_loop_progress others cw c n n1 k : forall w,
  (forall w, leaves_slots c w (others w)) ->
  (forall i, (w.(w_tick) <= i)%nat -> env_outcome i = Done /\ env_ctx_done i = false) ->
  effective_limit cw.(cw_limiter) c n = Some n -> 0 < n ->
  (forall i, (n1 <= i)%nat -> forall e, w.(w_redis) !! limiter_key c = Some e ->
     exists x, e.(re_expire_at) = Some x /\ x <= env_now i) ->
  (n1 <= w.(w_tick) + k)%nat ->
  exists fuel w', run_among others (acquire_loop fuel cw c n) w = (w', Ok HeldSlot).
Proof.
  induction k as [|k IH]; intros w Ho Hon He Hn Hx Hk; destruct (Ho w) as [Ht Hkey]; unfold later in Ht;
    pose proof (acquire_answered others _ _ _ _ w (proj1 (Hon _ Ht)) He) as Hacq.
  - exists 1%nat. cbn [acquire_loop]. unfold attempt. rewrite among_bind, among_map_result, Hacq. unfold acquire_script.
    rewrite expired_current; [destruct (0 <? n) eqn:?; zbool; [by eexists|lia]|].
    intros e Hl. destruct (Hkey e Hl) as (e0 & Hl0 & <-). apply (Hx (S (others w).(w_tick))); [lia|done].
  - destruct (acquire_script _ _ _ _ _) as [m res] eqn:Es.
    destruct (acquire_script_cases _ _ _ _ _ _ _ Es) as [[_ ->]|(_ & -> & ->)].
    + exists 1%nat. cbn [acquire_loop]. unfold attempt. rewrite among_bind, among_map_result, Hacq. by eexists.
    + assert (set_redis (others w).(w_redis) (bump (others w)) = bump (others w)) as Hsame by (by destruct (others w)).
      rewrite Hsame in Hacq. set (w1 := bump (others w)) in *. destruct (Ho w1) as [Ht1 Hkey1]. unfold later in Ht1.
      assert ((others w).(w_tick) < w1.(w_tick))%nat as Hlt by (unfold w1; rewrite tick_bump; lia).
      destruct (IH (bump (others w1)) Ho) as (fuel & w' & Hrun); try done.
      * intros i Hi. apply Hon. rewrite tick_bump in Hi. lia.
      * intros i Hi e Hl. replace (w_redis (bump (others w1))) with (others w1).(w_redis) in Hl by (by destruct (others w1)).
        destruct (Hkey1 e Hl) as (e1 & Hl1 & <-). replace (w_redis w1) with (others w).(w_redis) in Hl1
          by (unfold w1; by destruct (others w)).
        destruct (Hkey e1 Hl1) as (e0 & Hl0 & <-). by apply (Hx i).
      * rewrite tick_bump. lia.
      * exists (S fuel), w'. cbn [acquire_loop]. unfold attempt. rewrite among_bind, among_map_result, Hacq.
        cbn [fst snd]. rewrite bool_decide_false by done. rewrite among_bind. unfold ctx_done, consult.
        rewrite among_atomic. cbv beta iota. rewrite (proj2 (Hon (others w1).(w_tick) ltac:(lia))). exact Hrun.
Qed.
End Waiting.

Section Liveness.
Context `{Env} `{PgOrder} `{UuidText} `{Gocql} `{Fiber} `{Provider} (cfg : Config).

(** Claim C13: slots that were lost come back: in every state the platform can reach,
    however many slots of a campaign were taken, lost in crashes or forgotten
    before, a call that waits for one gets it after enough turns of its loop, if
    from then on requests are answered, the worker is not stopped and time goes on,
    and whatever the others do between its requests, but for taking a slot of the
    same campaign: every counter has a time to live, and the waiting loop does not
    renew that of a full one. *)
Theorem waiting_call_gets_slot (others : World -> World) (w : World) (d : DispatchMessage) (n : Z) :
  0 < Milliseconds (co cfg).(co_callWorker).(cw_limiter).(lim_ttl) -> provider_outside ->
  reachable cfg w -> goes_on w.(w_tick) -> slot_limit (co cfg).(co_callWorker) d = Some n ->
  (forall w, leaves_slots d.(dm_CampaignID) w (others w)) ->
  exists fuel w', run_among others (waitForSlot fuel (co cfg).(co_callWorker) d) w = (w', Ok HeldSlot).
Proof.
  intros Httl Hp Hr [Hon Hclock] Hl Ho.
  pose proof (reachable_slots_expire cfg w Httl Hp Hr) as Hexp.
  destruct (slot_limit_effective _ _ _ Hl) as (_ & Hn & He). unfold waitForSlot. rewrite Hl.
  set (key := limiter_key d.(dm_CampaignID)).
  assert (exists n1, forall i, (n1 <= i)%nat -> forall e, w.(w_redis) !! key = Some e ->
    exists x, e.(re_expire_at) = Some x /\ x <= env_now i) as [n1 Hn1].
  { destruct (w.(w_redis) !! key) as [e|] eqn:Ek; [|by exists 0%nat].
    destruct (Hexp _ _ Ek) as [x Hx]. destruct (Hclock x) as [n1 Hn1]. exists n1.
    intros i Hi e' [= <-]. exists x. split; [done|by apply Hn1]. }
  apply (acquire_loop_progress others _ _ _ n1 n1 w); [done..|lia].
Qed.
End Liveness.

(** ** A retry that could not be dispatched *)

Section Overtaken.
Context `{Env} `{PgOrder} `{UuidText} `{Provider}.

(** github.com/segmentio/kafka-go documents that committing a record commits the
    earlier records of its partition with it. *)
Definition settled (group : string) (partition : list KafkaMessage) (i : nat) (w : World) : Prop :=
  exists j m, (i <= j)%nat /\ partition !! j = Some m /\ (group, m) ∈ w.(w_commits).

(** The message a retry record that is due is dispatched as. *)
Definition redispatch (r : RetryMessage) (w : World) : DispatchMessage :=
  set_dm_EnqueuedAt (env_now (S w.(w_tick))) r.(rm_DispatchMessage).

(** A due record up to the answer of the topic it is dispatched to. *)
Lemma handle_retry_due rw i m r v w :
  unmarshal_retry m.(km_Value) = Some r -> r.(rm_NextAttempt) <= env_now w.(w_tick) ->
  marshal_dispatch (redispatch r w) = Some v ->
  handle_retry rw i m w =
    (sent ← attempt (on_err (wrapf "call dispatcher: write message") (WriteMessages rw.(rw_CallTopic)
       (mkKafka r.(rm_DispatchMessage).(dm_CallID) v (env_now (S (S w.(w_tick)))))));
     match sent with
     | Err _ => mret ()
     | Ok _ => ignore (CommitMessages (retry_group rw i) m)
     end) (bump (bump (bump w))).
Proof.
  intros Hu Hdue Hv. unfold handle_retry. rewrite Hu.
  rewrite (bind_step _ _ w (bump w) (Ok ())).
  2:{ rewrite run_attempt. unfold sleepUntil. rewrite (bind_step now _ _ _ _ eq_refl).
      destruct (_ <=? 0) eqn:?; zbool; [done|lia]. }
  rewrite (bind_step now _ _ _ _ eq_refl). rewrite tick_bump. cbv zeta.
  fold (redispatch r w). rewrite !run_bind, !run_attempt. unfold DispatchCall, marshalled.
  rewrite Hv. rewrite ret_bind, (bind_step now _ _ _ _ eq_refl).
  rewrite !tick_bump. by destruct r as [[] ? ?].
Qed.

(** Claim C30: a retry that cannot be dispatched, for an error that its writer does
    not take for a temporary one, is left uncommitted, to be read
    again; but its consumer goes on, and the next record of the partition that it
    dispatches and commits settles it too: the call is then never tried again,
    although nothing was published for it. *)
Theorem undispatched_retry_is_overtaken (rw : RetryWorker) (i : int) (m1 m2 : KafkaMessage)
    (r1 r2 : RetryMessage) (v1 v2 : json) (before after : list KafkaMessage) (w : World) :
  let w1 := bump (bump (bump (bump (bump w)))) in
  let partition := before ++ m1 :: m2 :: after in
  unmarshal_retry m1.(km_Value) = Some r1 -> unmarshal_retry m2.(km_Value) = Some r2 ->
  r1.(rm_NextAttempt) <= env_now w.(w_tick) -> r2.(rm_NextAttempt) <= env_now w1.(w_tick) ->
  marshal_dispatch (redispatch r1 w) = Some v1 -> marshal_dispatch (redispatch r2 w1) = Some v2 ->
  env_outcome (3 + w.(w_tick)) = Refused -> env_temporary (4 + w.(w_tick)) = false ->
  (forall n, (3 + w.(w_tick) < n)%nat -> env_outcome n = Done) ->
  exists w' t, consumeTopic rw i [Fetched m1; Fetched m2] w = (w', Ok ()) /\
    w'.(w_log) = w.(w_log) ++
      [(rw.(rw_CallTopic), mkKafka r2.(rm_DispatchMessage).(dm_CallID) v2 t)] /\
    w'.(w_commits) = w.(w_commits) ++ [(retry_group rw i, m2)] /\
    settled (retry_group rw i) partition (length before) w'.
Proof.
  intros w1 partition Hu1 Hu2 Hd1 Hd2 Hv1 Hv2 Hf Htemp Hon.
  assert (handle_retry rw i m1 w = (w1, Ok ())) as Hrun1.
  { rewrite (handle_retry_due _ _ _ _ _ _ Hu1 Hd1 Hv1). rewrite run_bind, run_attempt, run_on_err.
    by rewrite write_given_up by (by rewrite !tick_bump). }
  assert (retry_handler rw i m1 w = (w1, Ok true)) as Hturn1
    by (unfold retry_handler; by rewrite (bind_step _ _ _ _ _ Hrun1)).
  unfold consumeTopic. cbn [consume consumer_turn]. rewrite (bind_step _ _ _ _ _ Hturn1). cbv iota.
  unfold retry_handler. rewrite !run_bind.
  rewrite (handle_retry_due _ _ _ _ _ _ Hu2 Hd2 Hv2).
  rewrite run_bind, run_attempt, run_on_err.
  rewrite write_done by (apply Hon; unfold w1; rewrite !tick_bump; lia).
  cbn [map_err fst snd]. rewrite run_ignore. unfold CommitMessages. rewrite external_done.
  2:{ apply Hon. unfold w1. destruct w; simpl; lia. }
  eexists _, (env_now (S (S w1.(w_tick)))). split; [reflexivity|].
  split; [by destruct w|]. split; [by destruct w|].
  exists (S (length before)), m2. split; [lia|]. split.
  - unfold partition. rewrite lookup_app_r by lia. by replace (S (length before) - length before)%nat with 1%nat by lia.
  - destruct w. cbn. apply elem_of_app. right. by left.
Qed.
End Overtaken.

(** ** An example: a slot that was never given back *)

(** The request with the given number does not get through. *)
Definition leak_env (k : nat) : Env := faulty_env (fun n => if Nat.eqb n k then Refused else Done).

Section Leak.
Context (k : nat).
#[local] Instance leak_env' : Env := leak_env k.
#[local] Existing Instances bit_uuid stable_sort_order unary_pages json_bodies.
#[local] Instance leak_provider : Provider := mock_PlaceCall.

Definition leak_trigger : json :=
  JObj [("campaign_id", JString (bit_uuid_text 2)); ("phone_number", JString "+15555550001")].
Definition leak_started : World :=
  (serve (api default_config) EStartCampaign (to_api (bit_uuid_text 2) JNull) one_target_world).1.
Definition leak_triggered : World :=
  (serve (api default_config) ETriggerCall (to_api EmptyString leak_trigger) leak_started).1.
Definition leaked : World :=
  (processMessage 1 (co default_config).(co_callWorker)
     (last_record "campaign.calls.dispatch" leak_triggered) leak_triggered).1.

Lemma leaked_reachable :
  last (topic_records "campaign.calls.dispatch" leak_triggered) <> None ->
  reachable default_config leaked.
Proof.
  intros Hm. destruct (last _) as [m|] eqn:E in Hm; [|done]. clear Hm.
  apply reachable_run; [apply start_call_worker; by eapply last_record_in|].
  do 2 (apply reachable_run; [apply start_request|]). apply one_target_reachable.
Qed.
End Leak.

(** The release of the call's slot is the request that is lost. *)
Definition lost_release : nat := 31.
Definition second_call : DispatchMessage :=
  mkDispatch 99 2 "+15555550001" 1 5 2000 120000 f64_zero 1 None 0.

Lemma clock_unbounded k t : exists n1, forall n, (n1 <= n)%nat -> t <= @env_now (leak_env k) n.
Proof.
  exists (Z.to_nat (t / Second + 1)). intros n Hn. simpl.
  pose proof (Z.mul_succ_div_gt t Second ltac:(done)). unfold Second, Millisecond in *. lia.
Qed.

Lemma waiting_witness :
  let _ := leak_env lost_release in let _ := bit_uuid in
  let worker := (co default_config).(co_callWorker) in
  (acquire_loop 1 worker 2%N 1 (leaked lost_release)).2 = Ok Waiting /\
  exists fuel w', run_among bump (waitForSlot fuel worker second_call) (leaked lost_release) = (w', Ok HeldSlot).
Proof.
  intros E U worker. split; [vm_compute; reflexivity|].
  apply (@waiting_call_gets_slot E stable_sort_order U unary_pages json_bodies (leak_provider lost_release)
    default_config bump (leaked lost_release) second_call 1).
  - vm_compute; reflexivity.
  - apply mock_outside.
  - apply leaked_reachable. vm_compute; discriminate.
  - split; [|apply clock_unbounded]. intros n Hn.
    assert (lost_release < n)%nat as Hlt.
    { eapply Nat.lt_le_trans; [|exact Hn]. apply Nat.ltb_lt. vm_compute. reflexivity. }
    split; [|reflexivity]. cbn. assert (Nat.eqb n lost_release = false) as -> by (apply Nat.eqb_neq; lia).
    reflexivity.
  - vm_compute; reflexivity.
  - intros w. split; [unfold later; rewrite tick_bump; lia|]. intros e Hl. exists e. split; [by destruct w|done].
Defined.

(** Two due retries of one partition; the write for the first is lost. *)
Definition due_retry (call : uuid) : RetryMessage :=
  mkRetry (mkDispatch call 2 "+15555550001" 2 0 2000 120000 f64_zero 10 None 0) 5 0.
Definition due_record (call : uuid) : KafkaMessage :=
  mkKafka call (default JNull (@marshal_retry bit_uuid (due_retry call))) 0.
Definition due_worker : RetryWorker := mkRetryWorker "calls" "retries" "campaign.calls.dispatch".

Lemma overtaken_witness :
  let _ := leak_env 3 in let _ := bit_uuid in
  exists w', consumeTopic due_worker 1 [Fetched (due_record 7); Fetched (due_record 8)] empty_world = (w', Ok ()) /\
    w'.(w_commits) = [("retries-1", due_record 8)] /\
    settled "retries-1" [due_record 7; due_record 8] 0 w'.
Proof.
  intros E U.
  destruct (undispatched_retry_is_overtaken due_worker 1 (due_record 7) (due_record 8) (due_retry 7)
    (due_retry 8)
    (default JNull (marshal_dispatch (redispatch (due_retry 7) empty_world)))
    (default JNull (marshal_dispatch (redispatch (due_retry 8) (bump (bump (bump (bump (bump empty_world))))))))
    [] [] empty_world) as (w' & t & Hrun & _ & Hc & Hs).
  - vm_compute; reflexivity.
  - vm_compute; reflexivity.
  - vm_compute; discriminate.
  - vm_compute; discriminate.
  - vm_compute; reflexivity.
  - vm_compute; reflexivity.
  - reflexivity.
  - reflexivity.
  - intros n Hn. cbn. assert (Nat.eqb n 3 = false) as -> by (apply Nat.eqb_neq; simpl in Hn; lia).
    reflexivity.
  - exists w'. split; [exact Hrun|]. split; [exact Hc|exact Hs].
Defined.
