(* ===== verification/Bootstrap.v ===== *)
(** Starting and stopping a process: internal/infra, internal/queue/kafka.go,
    Build, Close and EnsureTopics of internal/app/container.go, Setup of
    internal/telemetry, pkg/logger, internal/api/server.go and the mains of cmd. *)
From S2P Require Import Prelude Errors GoTime Domain Config Handlers.

(** ** What a process opens and closes *)

Inductive Resource :=
| RPool                     (* pgxpool.Pool *)
| RDB                       (* sqlx.DB over the pool *)
| RSession                  (* gocql.Session *)
| RClient                   (* redis.Client *)
| RWriter (topic : string)  (* kafka.Writer *)
| RTracer.                  (* trace.TracerProvider *)

Inductive BootEvent :=
| Opened (r : Resource)
| Closed (r : Resource)
| TopicCreated (topic : string) (partitions replication : int).

#[export] Instance Resource_eq_dec : EqDecision Resource.
Proof. solve_decision. Defined.

(** The trace of a process so far, and errors. *)
Definition Boot (A : Type) : Type := list BootEvent -> list BootEvent * result error A.

#[export] Instance Boot_ret : MRet Boot := fun A a tr => (tr, Ok a).
#[export] Instance Boot_bind : MBind Boot := fun A B k m tr =>
  match m tr with (tr', Ok a) => k a tr' | (tr', Err e) => (tr', Err e) end.

Definition event (e : BootEvent) : Boot () := fun tr => (tr ++ [e], Ok ()).
Definition answer {A} (r : result error A) : Boot A := fun tr => (tr, r).
Definition within {A} (context : string) (m : Boot A) : Boot A := fun tr =>
  let '(tr', r) := m tr in (tr', map_err (wrapf context) r).
Definition wrapping {A} (context : string) (r : result error A) : Boot A := within context (answer r).

(** The libraries that connect to the outside: how they answer. *)
Class Infra := {
  zap_Build : string -> bool -> result error ();
  pgxpool_ParseConfig : string -> result error ();
  pgxpool_NewWithConfig : PostgresConfig -> result error ();
  db_Ping : result error ();
  gocql_CreateSession : ScyllaConfig -> string -> result error ();
  redis_Ping : result error ();
  kafka_Dial : string -> result error ();
  kafka_ReadPartitions : result error (list string);
  kafka_CreateTopic : string -> result error ();
  resource_Close : Resource -> result error ();
  otlp_New : string -> result error ();
  resource_New : result error ();
  fiber_Listen : string -> result error ();   (* until the server is shut down *)
  os_Getenv : string -> string;
}.

Section Bootstrap.
Context `{Infra}.

(** ** pkg/logger *)

Record Logger := mkLogger { lg_Production : bool; lg_DisableStacktrace : bool }.

Definition logger_New (env : string) : result error Logger :=
  let production := bool_decide (env = "production") in
  match zap_Build (if production then "production" else "development") production with
  | Err err => Err (wrapf "logger: build failed" err)
  | Ok _ => Ok (mkLogger production production)
  end.

(** ** internal/infra/db *)

Definition postgres_dsn (cfg : PostgresConfig) : string :=
  String.append "postgres://" (String.append cfg.(pc_User) (String.append ":"
    (String.append cfg.(pc_Password) (String.append "@" (String.append cfg.(pc_Host)
    (String.append ":" (String.append (pretty cfg.(pc_Port)) (String.append "/"
    (String.append cfg.(pc_Database) (String.append "?sslmode=" cfg.(pc_SSLMode))))))))))).

(** A failed ping closes the pool, not the sqlx.DB over it. *)
Definition NewPostgres (cfg : PostgresConfig) : Boot () :=
  wrapping "postgres: parse config" (pgxpool_ParseConfig (postgres_dsn cfg)) ≫= fun _ =>
  wrapping "postgres: new pool" (pgxpool_NewWithConfig cfg) ≫= fun _ =>
  event (Opened RPool) ≫= fun _ =>
  event (Opened RDB) ≫= fun _ =>
  match db_Ping with
  | Err err => event (Closed RPool) ≫= fun _ => answer (Err (wrapf "postgres: ping" err))
  | Ok _ => mret ()
  end.

Definition parseConsistency (level : string) : string :=
  if bool_decide (level = "one") then "ONE"
  else if bool_decide (level = "local_quorum") then "LOCAL_QUORUM"
  else if bool_decide (level = "local_one") then "LOCAL_ONE"
  else if bool_decide (level = "each_quorum") then "EACH_QUORUM"
  else "QUORUM".

Definition NewScylla (cfg : ScyllaConfig) : Boot () :=
  wrapping "scylla: create session" (gocql_CreateSession cfg (parseConsistency cfg.(yc_Consistency)))
    ≫= fun _ => event (Opened RSession).

(** internal/infra/redis: a client that cannot ping is dropped, not closed. *)
Definition NewClient (cfg : RedisConfig) : Boot () :=
  event (Opened RClient) ≫= fun _ => wrapping "redis: ping" redis_Ping.

(** ** internal/queue/kafka.go *)

Definition NewKafka (cfg : KafkaConfig) : result error KafkaConfig :=
  match cfg.(kc_Brokers) with
  | [] => Err (New "kafka: no brokers configured")
  | _ => Ok cfg
  end.

(** The loop over the topics; [exists_] is the map of those there at the start. *)
Fixpoint create_topics (exists_ : list string) (topics : list string) (partitions replication : int)
    : Boot () :=
  match topics with
  | [] => mret ()
  | topic :: rest =>
      (if bool_decide (topic ∈ exists_) then mret ()
       else
         wrapping (String.append "kafka: create topic " topic) (kafka_CreateTopic topic) ≫= fun _ =>
         event (TopicCreated topic partitions replication)) ≫= fun _ =>
      create_topics exists_ rest partitions replication
  end.

(** What ReadPartitions sees: the topics there at first and those created since. *)
Definition created_topics (tr : list BootEvent) : list string :=
  omap (fun e => match e with TopicCreated t _ _ => Some t | _ => None end) tr.
Definition read_topics : Boot (list string) := fun tr =>
  (tr, match kafka_ReadPartitions with Ok ts => Ok (ts ++ created_topics tr) | Err e => Err e end).

(** EnsureTopics of the helper, whose brokers NewKafka has found to be some: the
    index of the first cannot be out of range. *)
Definition Kafka_EnsureTopics (k : KafkaConfig) (topics : list string) (partitions replication : int)
    : Boot () :=
  wrapping "kafka: dial" (match k.(kc_Brokers) with
                          | [] => Err (New "index out of range")
                          | broker :: _ => kafka_Dial broker
                          end) ≫= fun _ =>
  within "kafka: read partitions" read_topics ≫= fun existing =>
  create_topics existing topics partitions replication.

(** ** internal/app/container.go *)

(** The container, with whether its components have been initialised. *)
Record Container := mkContainer {
  ct_Config : Config;
  ct_Logger : Logger;
  ct_initialised : bool;
}.

Context `{Viper}.

Definition Build (configPath : string) : Boot Container :=
  cfg ← answer (Load configPath);
  lg ← answer (logger_New cfg.(cfg_App).(ac_Env));
  within "bootstrap postgres" (NewPostgres cfg.(cfg_Postgres)) ≫= fun _ =>
  within "bootstrap scylla" (NewScylla cfg.(cfg_Scylla)) ≫= fun _ =>
  within "bootstrap redis" (NewClient cfg.(cfg_Redis)) ≫= fun _ =>
  wrapping "bootstrap kafka" (NewKafka cfg.(cfg_Kafka)) ≫= fun _ =>
  mret (mkContainer cfg lg false).

(** The writers of the dispatchers, in the order they are made. *)
Definition writers (k : KafkaConfig) : list Resource :=
  RWriter k.(kc_CallTopic) :: RWriter k.(kc_StatusTopic) :: (RWriter <$> k.(kc_RetryTopics)).

Fixpoint open_all (rs : list Resource) : Boot () :=
  match rs with [] => mret () | r :: rs => event (Opened r) ≫= fun _ => open_all rs end.

(** initComponents, once; Repositories, Services and the like only call it. *)
Definition init_once (c : Container) : Boot Container :=
  if c.(ct_initialised) then mret c
  else
    open_all (writers c.(ct_Config).(cfg_Kafka)) ≫= fun _ =>
    mret (mkContainer c.(ct_Config) c.(ct_Logger) true).

(** Closing a resource, whatever comes of it. *)
Definition closing (context : string) (r : Resource) : Boot (list error) :=
  event (Closed r) ≫= fun _ =>
  mret (match resource_Close r with Ok _ => [] | Err err => [wrapf context err] end).

(** RetryScheduler.Close closes every writer and keeps the first error. *)
Fixpoint close_writers (topics : list string) : Boot (option error) :=
  match topics with
  | [] => mret None
  | t :: ts =>
      event (Closed (RWriter t)) ≫= fun _ =>
      rest ← close_writers ts;
      mret (match resource_Close (RWriter t) with Ok _ => rest | Err err => Some err end)
  end.

Definition Close (c : Container) : Boot () :=
  let k := c.(ct_Config).(cfg_Kafka) in
  e1 ← (if c.(ct_initialised) then
          d ← closing "dispatcher close" (RWriter k.(kc_CallTopic));
          s ← closing "status publisher close" (RWriter k.(kc_StatusTopic));
          r ← close_writers k.(kc_RetryTopics);
          mret (d ++ s ++ match r with None => [] | Some err => [wrapf "retry scheduler close" err] end)
        else mret []);
  e2 ← closing "redis close" RClient;
  event (Closed RSession) ≫= fun _ =>
  event (Closed RPool) ≫= fun _ =>
  e3 ← closing "postgres close" RDB;
  match e1 ++ e2 ++ e3 with
  | [] => mret ()
  | errs => answer (Err (New (String.append "close errors: ["
              (String.append (String.concat " " (error_text <$> errs)) "]"))))
  end.

Definition EnsureTopics (c : Container) : Boot Container :=
  c ← init_once c;
  let k := c.(ct_Config).(cfg_Kafka) in
  Kafka_EnsureTopics k [k.(kc_CallTopic); k.(kc_StatusTopic)] 48 1 ≫= fun _ =>
  (match k.(kc_RetryTopics) with
   | [] => mret ()
   | topics => Kafka_EnsureTopics k topics 48 1
   end) ≫= fun _ =>
  (if bool_decide (k.(kc_DeadLetterTopic) = EmptyString) then mret ()
   else Kafka_EnsureTopics k [k.(kc_DeadLetterTopic)] 12 1) ≫= fun _ =>
  mret c.

(** ** internal/telemetry *)

Record Tracer := mkTracer { tr_ratio : float64; tr_service_name : string; tr_service_version : string }.

(** Setup; [None] when tracing is off. *)
Definition Setup (cfg : TelemetryConfig) (serviceName : string) : Boot (option Tracer) :=
  if negb cfg.(tc_TracingEnabled) then mret None
  else
    let ratio := if SFleb cfg.(tc_SampleRatio) f64_zero then f64_of_Z 1 else cfg.(tc_SampleRatio) in
    wrapping "otel exporter" (otlp_New cfg.(tc_Endpoint)) ≫= fun _ =>
    wrapping "otel resource" resource_New ≫= fun _ =>
    event (Opened RTracer) ≫= fun _ =>
    mret (Some (mkTracer ratio serviceName cfg.(tc_ServiceName))).

(** ** internal/api/server.go *)

Record Server := mkServer {
  sv_ReadTimeout : Duration;
  sv_WriteTimeout : Duration;
  sv_IdleTimeout : Duration;
  sv_routes : list (string * string * Endpoint);
  sv_deps : Container;
}.

Definition NewServer (deps : Container) : Server :=
  let http := deps.(ct_Config).(cfg_HTTP) in
  mkServer http.(hc_ReadTimeout) http.(hc_WriteTimeout) http.(hc_IdleTimeout) Register deps.

(** Start serves until the context is done; Listen then returns nil. *)
Definition Server_Start (s : Server) : result error () :=
  fiber_Listen (String.append ":" (pretty s.(sv_deps).(ct_Config).(cfg_HTTP).(hc_Port))).

(** ** cmd *)

Definition getEnv (key fallback : string) : string :=
  let v := os_Getenv key in
  if bool_decide (v = EmptyString) then fallback else v.

(** The path of the configuration, when no flag gives another. *)
Definition default_path : string := getEnv "CONFIG_FILE" "configs/config.yaml".

(** log.Fatalf on an error: the process exits with status 1, and no deferred call
    runs. The result of a main is the exit status. *)
Definition or_fatal {A} (m : Boot A) (k : A -> Boot Z) : Boot Z := fun tr =>
  match m tr with
  | (tr', Ok a) => k a tr'
  | (tr', Err _) => (tr', Ok 1)
  end.

(** Deferred calls, their results dropped. *)
Definition deferred (m : Boot ()) : Boot () := fun tr => ((m tr).1, Ok ()).

(** The mains of the workers and the scheduler differ in the name they trace under
    and in whose Run they call: [run] is what it returns. *)
Definition main_worker (configPath name : string) (run : result error ()) : Boot Z :=
  or_fatal (Build configPath) (fun container =>
  or_fatal (Setup container.(ct_Config).(cfg_Telemetry)
              (String.append container.(ct_Config).(cfg_App).(ac_Name) name)) (fun tracer =>
  or_fatal (EnsureTopics container) (fun container =>
  or_fatal (answer run) (fun _ =>
    deferred (match tracer with None => mret () | Some _ => event (Closed RTracer) end) ≫= fun _ =>
    deferred (Close container) ≫= fun _ =>
    mret 0)))).

Definition main_callworker (run : result error ()) : Boot Z := main_worker default_path "-call-worker" run.
Definition main_statusworker (run : result error ()) : Boot Z := main_worker default_path "-status-worker" run.
Definition main_retryworker (run : result error ()) : Boot Z := main_worker default_path "-retry-worker" run.
Definition main_scheduler (run : result error ()) : Boot Z := main_worker default_path "-scheduler" run.

(** cmd/api; making the handler set initialises the components. *)
Definition main_api : Boot Z :=
  or_fatal (Build default_path) (fun container =>
  container ← init_once container;
  or_fatal (answer (Server_Start (NewServer container))) (fun _ =>
    deferred (Close container) ≫= fun _ => mret 0)).
End Bootstrap.

(** ** The trace *)

Definition opened (tr : list BootEvent) : list Resource :=
  omap (fun e => match e with Opened r => Some r | _ => None end) tr.
Definition closed (tr : list BootEvent) : list Resource :=
  omap (fun e => match e with Closed r => Some r | _ => None end) tr.

Lemma opened_app a b : opened (a ++ b) = opened a ++ opened b.
Proof. apply omap_app. Qed.
Lemma closed_app a b : closed (a ++ b) = closed a ++ closed b.
Proof. apply omap_app. Qed.
Lemma created_app a b : created_topics (a ++ b) = created_topics a ++ created_topics b.
Proof. apply omap_app. Qed.

Section Traces.
Context `{Infra} `{Viper}.

(** ** Build and Close *)

Definition connections : list Resource := [RPool; RDB; RSession; RClient].

Lemma Build_Ok path tr tr' c :
  Build path tr = (tr', Ok c) ->
  tr' = tr ++ (Opened <$> connections) /\ c.(ct_initialised) = false /\
  c.(ct_Config).(cfg_Kafka).(kc_Brokers) <> [].
Proof.
  unfold Build, NewPostgres, NewScylla, NewClient, NewKafka, wrapping, within, answer, event, mbind,
    Boot_bind, mret, Boot_ret.
  destruct (Load path) as [cfg|]; [|done]. destruct (logger_New _) as [lg|]; [|done].
  destruct (pgxpool_ParseConfig _) as [[]|]; [|done]. destruct (pgxpool_NewWithConfig _) as [[]|]; [|done].
  destruct db_Ping as [[]|]; [|done]. destruct (gocql_CreateSession _ _) as [[]|]; [|done].
  destruct redis_Ping as [[]|]; [|done]. cbn [map_err].
  destruct cfg.(cfg_Kafka).(kc_Brokers) as [|b bs] eqn:Eb; [done|]. cbn [map_err].
  intros [= <- <-]. split_and!; [|done|cbn; by rewrite Eb].
  by rewrite <- !app_assoc.
Qed.

Lemma Build_Err path tr tr' e :
  Build path tr = (tr', Err e) ->
  exists evs, tr' = tr ++ evs /\ (evs = [] \/ (RDB ∈ opened evs /\ RDB ∉ closed evs)).
Proof.
  unfold Build, NewPostgres, NewScylla, NewClient, NewKafka, wrapping, within, answer, event, mbind,
    Boot_bind, mret, Boot_ret.
  assert (forall evs, evs = [] \/ (RDB ∈ opened evs /\ RDB ∉ closed evs) ->
    tr' = tr ++ evs -> exists evs, tr' = tr ++ evs /\ (evs = [] \/ (RDB ∈ opened evs /\ RDB ∉ closed evs)))
    as Hend by (intros evs; exists evs; by split).
  assert (tr' = tr -> exists evs, tr' = tr ++ evs /\ (evs = [] \/ (RDB ∈ opened evs /\ RDB ∉ closed evs)))
    as Hnil by (intros ->; exists []; by rewrite app_nil_r; auto).
  destruct (Load path) as [cfg|]; [|intros [= <- _]; auto].
  destruct (logger_New _) as [lg|]; [|intros [= <- _]; auto].
  destruct (pgxpool_ParseConfig _) as [[]|]; [|intros [= <- _]; auto].
  destruct (pgxpool_NewWithConfig _) as [[]|]; [|intros [= <- _]; auto].
  destruct db_Ping as [[]|]; [|intros [= <- _]; apply (Hend [Opened RPool; Opened RDB; Closed RPool]);
    [right; simpl; set_solver|by rewrite <- !app_assoc]].
  destruct (gocql_CreateSession _ _) as [[]|]; [|intros [= <- _]; apply (Hend [Opened RPool; Opened RDB]);
    [right; simpl; set_solver|by rewrite <- !app_assoc]].
  destruct redis_Ping as [[]|]; [|intros [= <- _]; apply (Hend (Opened <$> connections));
    [right; simpl; set_solver|by rewrite <- !app_assoc]].
  cbn [map_err]. destruct cfg.(cfg_Kafka).(kc_Brokers); [|done]. cbn [map_err].
  intros [= <- _]. apply (Hend (Opened <$> connections)); [right; simpl; set_solver|by rewrite <- !app_assoc].
Qed.

(** A start that fails after a connection was opened leaves something
    open: whatever fails, the database handle is never closed again, and Build
    itself closes nothing of what it had built before. *)
Theorem failed_build_leaks (path : string) (tr : list BootEvent) (e : error) :
  Build path [] = (tr, Err e) -> opened tr <> [] -> RDB ∈ opened tr /\ RDB ∉ closed tr.
Proof.
  intros Hb Ho. apply Build_Err in Hb as (evs & -> & [->|Hdb]); [done|]. exact Hdb.
Qed.

(** A step of the trace that cannot fail. *)
Lemma boot_step {A B} (m : Boot A) (k : A -> Boot B) tr tr' a :
  m tr = (tr', Ok a) -> (m ≫= k) tr = k a tr'.
Proof. unfold mbind, Boot_bind. by intros ->. Qed.

Lemma open_all_run rs : forall tr, open_all rs tr = (tr ++ (Opened <$> rs), Ok ()).
Proof.
  induction rs as [|r rs IH]; intros tr; cbn [open_all fmap list_fmap]; [by rewrite app_nil_r|].
  rewrite (boot_step _ _ tr (tr ++ [Opened r]) () eq_refl), IH. by rewrite <- app_assoc.
Qed.

Lemma init_once_run c tr :
  c.(ct_initialised) = false ->
  init_once c tr = (tr ++ (Opened <$> writers c.(ct_Config).(cfg_Kafka)),
                    Ok (mkContainer c.(ct_Config) c.(ct_Logger) true)).
Proof. intros Hc. unfold init_once. rewrite Hc. by rewrite (boot_step _ _ _ _ _ (open_all_run _ _)). Qed.

Definition close_errors (rs : list Resource) : list error :=
  omap (fun r => match resource_Close r with Err e => Some e | Ok _ => None end) rs.

Lemma close_writers_run ts : forall tr,
  close_writers ts tr = (tr ++ (Closed <$> (RWriter <$> ts)), Ok (head (close_errors (RWriter <$> ts)))).
Proof.
  induction ts as [|t ts IH]; intros tr; cbn [close_writers fmap list_fmap]; [by rewrite app_nil_r|].
  rewrite (boot_step _ _ tr (tr ++ [Closed (RWriter t)]) () eq_refl).
  rewrite (boot_step _ _ _ _ _ (IH _)). rewrite <- app_assoc. cbn.
  by destruct (resource_Close (RWriter t)).
Qed.

Lemma closing_run context r tr :
  closing context r tr = (tr ++ [Closed r],
    Ok (match resource_Close r with Ok _ => [] | Err err => [wrapf context err] end)).
Proof. reflexivity. Qed.

Lemma closed_fmap rs : closed (Closed <$> rs) = rs.
Proof. induction rs as [|r rs IH]; [done|]. exact (f_equal (cons r) IH). Qed.
Lemma opened_fmap rs : opened (Opened <$> rs) = rs.
Proof. induction rs as [|r rs IH]; [done|]. exact (f_equal (cons r) IH). Qed.
Lemma closed_opened rs : closed (Opened <$> rs) = [].
Proof. induction rs as [|r rs IH]; [done|]. exact IH. Qed.
Lemma opened_closed rs : opened (Closed <$> rs) = [].
Proof. induction rs as [|r rs IH]; [done|]. exact IH. Qed.

(** The resources Close closes, in its order; those of [closable] may fail. *)
Definition close_order (k : KafkaConfig) : list Resource :=
  writers k ++ [RClient; RSession; RPool; RDB].
Definition closable (k : KafkaConfig) : list Resource := writers k ++ [RClient; RDB].

Lemma Close_run c tr :
  c.(ct_initialised) = true ->
  let k := c.(ct_Config).(cfg_Kafka) in
  exists r, Close c tr = (tr ++ (Closed <$> close_order k), r) /\
    (r = Ok () <-> close_errors (closable k) = []).
Proof.
  intros Hc k. unfold Close. rewrite Hc. fold k.
  set (errs := match resource_Close (RWriter k.(kc_CallTopic)) with
               | Ok _ => [] | Err err => [wrapf "dispatcher close" err] end).
  set (errs' := match resource_Close (RWriter k.(kc_StatusTopic)) with
                | Ok _ => [] | Err err => [wrapf "status publisher close" err] end).
  set (first := head (close_errors (RWriter <$> k.(kc_RetryTopics)))).
  set (e1 := errs ++ errs' ++ match first with None => [] | Some err => [wrapf "retry scheduler close" err] end).
  rewrite (boot_step _ _ tr (tr ++ (Closed <$> writers k)) e1).
  2:{ rewrite (boot_step _ _ _ _ _ (closing_run _ _ _)), (boot_step _ _ _ _ _ (closing_run _ _ _)).
      rewrite (boot_step _ _ _ _ _ (close_writers_run _ _)). by rewrite <- !app_assoc. }
  rewrite (boot_step _ _ _ _ _ (closing_run _ _ _)).
  do 2 rewrite (boot_step (event _) _ _ _ () eq_refl). rewrite (boot_step _ _ _ _ _ (closing_run _ _ _)).
  rewrite <- !app_assoc. set (e2 := match resource_Close RClient with Ok _ => _ | Err _ => _ end).
  set (e3 := match resource_Close RDB with Ok _ => _ | Err _ => _ end).
  exists (match e1 ++ e2 ++ e3 with [] => Ok () | errs =>
    Err (New (String.append "close errors: [" (String.append (String.concat " " (error_text <$> errs)) "]"))) end).
  split.
  - unfold close_order. rewrite fmap_app. by destruct (e1 ++ e2 ++ e3).
  - assert (e1 ++ e2 ++ e3 = [] <-> close_errors (closable k) = []) as Hiff.
    { unfold closable, close_errors, writers. rewrite omap_app. cbn [app omap list_omap]. fold (close_errors (RWriter <$> k.(kc_RetryTopics))).
      unfold e1, errs, errs', e2, e3, first.
      destruct (resource_Close (RWriter k.(kc_CallTopic))); [|done].
      destruct (resource_Close (RWriter k.(kc_StatusTopic))); [|done].
      destruct (close_errors (RWriter <$> _)); [|done]. simpl.
      by destruct (resource_Close RClient), (resource_Close RDB). }
    rewrite <- Hiff. by destruct (e1 ++ e2 ++ e3).
Qed.

(** Starting and stopping. *)
Lemma build_init_close path c tr :
  Build path [] = (tr, Ok c) ->
  let k := c.(ct_Config).(cfg_Kafka) in
  exists c1 tr1 tr2 r, init_once c tr = (tr1, Ok c1) /\ Close c1 tr1 = (tr2, r) /\
    closed tr2 = close_order k /\ closed tr2 ≡ₚ opened tr2 /\ (r = Ok () <-> close_errors (closable k) = []).
Proof.
  intros Hb k. apply Build_Ok in Hb as (-> & Hc & _).
  pose proof (init_once_run c ([] ++ (Opened <$> connections)) Hc) as Hinit.
  destruct (Close_run (mkContainer c.(ct_Config) c.(ct_Logger) true)
    (([] ++ (Opened <$> connections)) ++ (Opened <$> writers k)) eq_refl) as (r & Hclose & Hr).
  do 4 eexists. split; [exact Hinit|]. split; [exact Hclose|]. cbn [ct_Config]. fold k.
  rewrite !closed_app, !opened_app, !closed_opened, !closed_fmap, !opened_fmap, opened_closed. cbn [app].
  rewrite app_nil_r. split_and!; [done| |done]. unfold close_order, connections. solve_Permutation.
Qed.

(** Close undoes Build and initComponents: whatever closing a resource
    answers, every resource that was opened is closed exactly once, the writers
    first and the database last, and the errors are reported if and only if there
    are any. *)
Theorem close_closes_everything (path : string) (c : Container) (tr tr' : list BootEvent) (r : result error ()) :
  Build path [] = (tr, Ok c) -> (init_once c ≫= Close) tr = (tr', r) ->
  closed tr' = close_order c.(ct_Config).(cfg_Kafka) /\ closed tr' ≡ₚ opened tr' /\
  (r = Ok () <-> close_errors (closable c.(ct_Config).(cfg_Kafka)) = []).
Proof.
  intros Hb Hrun. destruct (build_init_close path c tr Hb) as (c1 & tr1 & tr2 & r2 & Hi & Hc & Hspec).
  rewrite (boot_step _ _ _ _ _ Hi), Hc in Hrun. by simplify_eq.
Qed.

(** ** EnsureTopics *)

Definition creations (partitions replication : int) (ts : list string) : list BootEvent :=
  (fun t => TopicCreated t partitions replication) <$> ts.

Lemma created_creations p n ts : created_topics (creations p n ts) = ts.
Proof. induction ts as [|t ts IH]; [done|]. exact (f_equal (cons t) IH). Qed.

Lemma boot_Ok {A B} (m : Boot A) (k : A -> Boot B) tr tr' b :
  (m ≫= k) tr = (tr', Ok b) -> exists a tr1, m tr = (tr1, Ok a) /\ k a tr1 = (tr', Ok b).
Proof. unfold mbind, Boot_bind. destruct (m tr) as [tr1 [a|e]]; intros; simplify_eq. eauto. Qed.

Lemma create_topics_Ok ex ts p n : forall tr tr',
  create_topics ex ts p n tr = (tr', Ok ()) ->
  tr' = tr ++ creations p n (filter (fun t => t ∉ ex) ts).
Proof.
  induction ts as [|t ts IH]; intros tr tr' Hrun; cbn [create_topics] in Hrun.
  - injection Hrun as <-. by rewrite app_nil_r.
  - apply boot_Ok in Hrun as ([] & tr1 & Ht & Hrun). apply IH in Hrun as ->.
    rewrite filter_cons. destruct (decide (t ∉ ex)) as [Hn|Hin].
    + rewrite bool_decide_false in Ht by done. apply boot_Ok in Ht as ([] & tr2 & Hc & Hev).
      unfold wrapping, within, answer in Hc. destruct (kafka_CreateTopic t); [|done].
      injection Hc as <- . injection Hev as <-. by rewrite <- app_assoc.
    + rewrite bool_decide_true in Ht by (by destruct (decide (t ∈ ex))). by injection Ht as <-.
Qed.

Lemma create_topics_none ex ts p n tr :
  (forall t, t ∈ ts -> t ∈ ex) -> create_topics ex ts p n tr = (tr, Ok ()).
Proof.
  induction ts as [|t ts IH]; intros Hin; [done|]. cbn [create_topics].
  rewrite bool_decide_true by (apply Hin; by left).
  rewrite (boot_step _ _ tr tr () eq_refl). apply IH. intros t' Ht. apply Hin. by right.
Qed.

(** The topics there at [tr]. *)
Definition known (existing : list string) (tr : list BootEvent) : list string :=
  existing ++ created_topics tr.

Lemma Kafka_EnsureTopics_Ok k ts p n tr tr' :
  Kafka_EnsureTopics k ts p n tr = (tr', Ok ()) ->
  exists existing, kafka_ReadPartitions = Ok existing /\
    tr' = tr ++ creations p n (filter (fun t => t ∉ known existing tr) ts) /\
    forall ts' p' n' tr2, (forall t, t ∈ ts' -> t ∈ known existing tr2) ->
      Kafka_EnsureTopics k ts' p' n' tr2 = (tr2, Ok ()).
Proof.
  unfold Kafka_EnsureTopics. intros Hrun. apply boot_Ok in Hrun as ([] & tr1 & Hd & Hrun).
  apply boot_Ok in Hrun as (ex & tr2 & Hr & Hrun).
  unfold wrapping, within, answer in Hd. unfold within, read_topics in Hr.
  destruct kafka_ReadPartitions as [existing|] eqn:Ep; [|done].
  set (dial := match k.(kc_Brokers) with [] => _ | _ => _ end) in *.
  destruct dial as [[]|] eqn:Edial; [|done]. injection Hd as <-. injection Hr as <- <-.
  exists existing. split; [done|]. split; [by apply create_topics_Ok in Hrun|].
  intros ts' p' n' tr2 Hin. unfold wrapping, within, answer, read_topics, mbind, Boot_bind. rewrite Ep.
  cbn [map_err]. by apply create_topics_none.
Qed.

Definition required_topics (k : KafkaConfig) : list string :=
  k.(kc_CallTopic) :: k.(kc_StatusTopic) :: k.(kc_RetryTopics) ++
  (if bool_decide (k.(kc_DeadLetterTopic) = EmptyString) then [] else [k.(kc_DeadLetterTopic)]).

Lemma known_grows ex tr tr' t : t ∈ known ex tr -> t ∈ known ex (tr ++ tr').
Proof. unfold known. rewrite created_app. set_solver. Qed.

Lemma known_created ex tr p n ts t :
  t ∈ ts -> t ∈ known ex (tr ++ creations p n (filter (fun t => t ∉ known ex tr) ts)).
Proof.
  intros Hin. destruct (decide (t ∈ known ex tr)) as [|Hn]; [by apply known_grows|].
  unfold known. rewrite created_app, created_creations, !elem_of_app, list_elem_of_filter. auto.
Qed.

Lemma init_once_any c tr :
  exists evs c1, init_once c tr = (tr ++ evs, Ok c1) /\ c1.(ct_Config) = c.(ct_Config) /\
    created_topics evs = [] /\ forall tr2, init_once c1 tr2 = (tr2, Ok c1).
Proof.
  destruct c.(ct_initialised) eqn:Hc.
  - exists [], c. rewrite app_nil_r. unfold init_once. by rewrite Hc.
  - rewrite init_once_run by done. do 2 eexists. split_and!; [done|done| |done].
    generalize (writers c.(ct_Config).(cfg_Kafka)). intros rs. by induction rs.
Qed.

(** The two optional calls of EnsureTopics, as calls on a list of topics. *)
Definition ensure_some (k : KafkaConfig) (ts : list string) (p n : int) : Boot () :=
  match ts with [] => mret () | _ => Kafka_EnsureTopics k ts p n end.

Lemma ensure_some_Ok k ts p n existing tr tr' :
  kafka_ReadPartitions = Ok existing -> ensure_some k ts p n tr = (tr', Ok ()) ->
  tr' = tr ++ creations p n (filter (fun t => t ∉ known existing tr) ts).
Proof.
  intros Hp. destruct ts as [|t ts]; cbn [ensure_some]; [intros [= <-]; by rewrite app_nil_r|].
  intros Hrun. apply Kafka_EnsureTopics_Ok in Hrun as (ex & Hex & -> & _).
  assert (ex = existing) as -> by congruence. done.
Qed.

(** EnsureTopics, when it succeeds, leaves every topic of the
    configuration existing, has created only topics that are required and were
    missing, and would then do nothing if it were called again. *)
Theorem topics_ensured (c c' : Container) (tr tr' : list BootEvent) :
  EnsureTopics c tr = (tr', Ok c') ->
  exists existing new, kafka_ReadPartitions = Ok existing /\
    (forall t, t ∈ required_topics c.(ct_Config).(cfg_Kafka) -> t ∈ known existing tr') /\
    created_topics tr' = created_topics tr ++ new /\
    (forall t, t ∈ new -> t ∈ required_topics c.(ct_Config).(cfg_Kafka) /\ t ∉ known existing tr) /\
    EnsureTopics c' tr' = (tr', Ok c').
Proof.
  unfold EnsureTopics. intros Hrun.
  destruct (init_once_any c tr) as (evs & c1 & Hinit & Hcfg & Hev & Hagain).
  rewrite (boot_step _ _ _ _ _ Hinit) in Hrun. rewrite Hcfg in Hrun.
  set (k := c.(ct_Config).(cfg_Kafka)) in *.
  set (dead := if bool_decide (k.(kc_DeadLetterTopic) = EmptyString) then [] else [k.(kc_DeadLetterTopic)]).
  apply boot_Ok in Hrun as ([] & tr1 & H1 & Hrun). apply boot_Ok in Hrun as ([] & tr2 & H2 & Hrun).
  apply boot_Ok in Hrun as ([] & tr3 & H3 & Hrun). injection Hrun as <- <-.
  apply Kafka_EnsureTopics_Ok in H1 as (ex & Hp & E1 & Hnone).
  assert (ensure_some k k.(kc_RetryTopics) 48 1 tr1 = (tr2, Ok ())) as H2'
    by (revert H2; by destruct k.(kc_RetryTopics)).
  assert (ensure_some k dead 12 1 tr2 = (tr3, Ok ())) as H3'
    by (revert H3; unfold dead; by destruct (bool_decide _)).
  apply (ensure_some_Ok _ _ _ _ _ _ _ Hp) in H2' as E2, H3' as E3. clear H2 H3 H2' H3'.
  assert (forall t, t ∈ required_topics k -> t ∈ known ex tr3) as Hall.
  { intros t Ht. rewrite E3. unfold required_topics in Ht. fold dead in Ht.
    assert (t ∈ [k.(kc_CallTopic); k.(kc_StatusTopic)] \/ t ∈ k.(kc_RetryTopics) \/ t ∈ dead)
      as [Hin|[Hin|Hin]] by set_solver.
    - apply known_grows. rewrite E2. apply known_grows. rewrite E1. by apply known_created.
    - apply known_grows. rewrite E2. by apply known_created.
    - by apply known_created. }
  set (n1 := filter _ _) in E1. set (n2 := filter _ _) in E2. set (n3 := filter _ _) in E3.
  exists ex, (n1 ++ n2 ++ n3). split; [done|]. split; [exact Hall|]. split.
  { by rewrite E3, E2, E1, !created_app, !created_creations, Hev, app_nil_r, <- !app_assoc. }
  split.
  - intros t Ht. unfold required_topics. fold dead. rewrite !elem_of_app in Ht.
    destruct Ht as [Ht|[Ht|Ht]]; apply list_elem_of_filter in Ht as [Hn Hin]; (split; [set_solver|]);
      intros Hk; apply Hn; [|rewrite E1|rewrite E2, E1]; repeat apply known_grows; exact Hk.
  - rewrite (boot_step _ _ _ _ _ (Hagain tr3)), Hcfg. fold k.
    rewrite (boot_step _ _ tr3 tr3 ()) by (apply Hnone; intros t Ht; apply Hall; unfold required_topics; set_solver).
    rewrite (boot_step _ _ tr3 tr3 ()).
    2:{ destruct k.(kc_RetryTopics) eqn:Er; [done|]. apply Hnone. intros t Ht. apply Hall.
        unfold required_topics. rewrite Er. set_solver. }
    rewrite (boot_step _ _ tr3 tr3 ()); [done|].
    case_bool_decide as Hd; [done|]. apply Hnone. intros t Ht. apply Hall.
    unfold required_topics. rewrite bool_decide_false by done. set_solver.
Qed.

(** ** The mains *)

(** What a trace gains by opening and creating only. *)
Definition closes_nothing {A} (m : Boot A) : Prop :=
  forall tr tr' r, m tr = (tr', r) -> closed tr' = closed tr.

Lemma closes_nothing_bind {A B} (m : Boot A) (k : A -> Boot B) :
  closes_nothing m -> (forall a, closes_nothing (k a)) -> closes_nothing (m ≫= k).
Proof.
  intros Hm Hk tr tr' r. unfold mbind, Boot_bind. destruct (m tr) as [tr1 [a|e]] eqn:E; intros Hrun.
  - by rewrite (Hk _ _ _ _ Hrun), (Hm _ _ _ E).
  - simplify_eq. by apply (Hm _ _ _ E).
Qed.

Lemma closes_nothing_within {A} c (m : Boot A) : closes_nothing m -> closes_nothing (within c m).
Proof.
  intros Hm tr tr' r. unfold within. destruct (m tr) as [tr1 r1] eqn:E. intros [= <- _]. by apply (Hm _ _ _ E).
Qed.

Lemma closes_nothing_answer {A} (r : result error A) : closes_nothing (answer r).
Proof. by intros tr tr' r' [= <- _]. Qed.

Lemma closes_nothing_ret {A} (a : A) : closes_nothing (mret a : Boot A).
Proof. by intros tr tr' r' [= <- _]. Qed.

Lemma closes_nothing_event e :
  (forall r, e <> Closed r) -> closes_nothing (event e).
Proof.
  intros He tr tr' r' [= <- _]. rewrite closed_app. destruct e; cbn; rewrite ?app_nil_r; try done.
  by destruct (He r).
Qed.

Ltac closes :=
  repeat first
  [ match goal with
    | |- closes_nothing (mret _) => apply closes_nothing_ret
    | |- closes_nothing (answer _) => apply closes_nothing_answer
    | |- closes_nothing (within _ _) => apply closes_nothing_within
    | |- closes_nothing (event _) => apply closes_nothing_event; intros ? [=]
    | |- closes_nothing (_ ≫= _) => apply closes_nothing_bind; [|intros ?; cbv zeta]
    | |- closes_nothing (match ?x with _ => _ end) => destruct x
    end ].

Lemma closes_open_all rs : closes_nothing (open_all rs).
Proof. induction rs; cbn [open_all]; closes; done. Qed.

Lemma closes_create_topics ex ts p n : closes_nothing (create_topics ex ts p n).
Proof. induction ts; cbn [create_topics]; unfold wrapping; closes; done. Qed.

Lemma closes_Kafka_EnsureTopics k ts p n : closes_nothing (Kafka_EnsureTopics k ts p n).
Proof.
  unfold Kafka_EnsureTopics, wrapping. closes; [|apply closes_create_topics].
  intros tr tr' r. unfold read_topics. by intros [= <- _].
Qed.

Lemma closes_EnsureTopics c : closes_nothing (EnsureTopics c).
Proof.
  unfold EnsureTopics, init_once.
  closes; first [apply closes_open_all | apply closes_Kafka_EnsureTopics].
Qed.

Lemma closes_Setup cfg name : closes_nothing (Setup cfg name).
Proof. unfold Setup, wrapping. closes. Qed.

(** Every main but that of the API. *)
Definition background_mains : list (result error () -> Boot Z) :=
  [main_callworker; main_statusworker; main_retryworker; main_scheduler].

Lemma background_main main :
  main ∈ background_mains -> exists name, main = main_worker default_path name.
Proof. unfold background_mains. set_solver. Qed.

(** A worker or the scheduler never ends well: when its loop returns an
    error, as every cancelled loop does, the process exits with status 1 before its
    deferred calls, and nothing that was opened is closed. The API, whose server
    returns nil when it is shut down, closes everything and exits with status 0. *)
Theorem workers_exit_without_closing (e : error) (c : Container) (tr0 tr : list BootEvent) (r : result error Z) :
  Build default_path [] = (tr0, Ok c) ->
  (forall main, main ∈ background_mains -> main (Err e) [] = (tr, r) -> r = Ok 1 /\ closed tr = []) /\
  (Server_Start (NewServer c) = Ok () -> main_api [] = (tr, r) -> r = Ok 0 /\ closed tr ≡ₚ opened tr).
Proof.
  intros Hb. split.
  - intros main (name & ->)%background_main Hrun. unfold main_worker, or_fatal at 1 in Hrun. rewrite Hb in Hrun.
    apply Build_Ok in Hb as (-> & _).
    unfold or_fatal at 1 in Hrun. destruct (Setup _ _ _) as [tr1 [t|e1]] eqn:Es;
      apply closes_Setup in Es; [|simplify_eq; by rewrite Es].
    unfold or_fatal at 1 in Hrun. destruct (EnsureTopics _ _) as [tr2 [c2|e2]] eqn:Et;
      apply closes_EnsureTopics in Et; [|simplify_eq; by rewrite Et, Es].
    unfold or_fatal, answer in Hrun. simplify_eq. by rewrite Et, Es.
  - intros Hl Hrun.
    destruct (build_init_close default_path c tr0 Hb) as (c1 & tr1 & tr2 & r2 & Hi & Hc & _ & Hperm & _).
    unfold main_api, or_fatal at 1 in Hrun. rewrite Hb, (boot_step _ _ _ _ _ Hi) in Hrun.
    assert (ct_Config c1 = ct_Config c) as Hcfg.
    { unfold init_once in Hi. destruct (ct_initialised c); [by injection Hi as _ <-|].
      rewrite (boot_step _ _ _ _ _ (open_all_run _ _)) in Hi. by injection Hi as _ <-. }
    assert (Server_Start (NewServer c1) = Ok ()) as Hl1
      by (rewrite <- Hl; unfold Server_Start; cbn; by rewrite Hcfg).
    unfold or_fatal, answer in Hrun. rewrite Hl1 in Hrun.
    assert (deferred (Close c1) tr1 = (tr2, Ok ())) as Hd by (unfold deferred; by rewrite Hc).
    rewrite (boot_step _ _ _ _ _ Hd) in Hrun. injection Hrun as <- <-. by split.
Qed.
End Traces.

(** ** Examples: every connection answers; Redis does not *)

Definition sample_infra (ping : result error ()) : Infra :=
  {| zap_Build := fun _ _ => Ok (); pgxpool_ParseConfig := fun _ => Ok ();
     pgxpool_NewWithConfig := fun _ => Ok (); db_Ping := Ok (); gocql_CreateSession := fun _ _ => Ok ();
     redis_Ping := ping; kafka_Dial := fun _ => Ok (); kafka_ReadPartitions := Ok ["campaign.calls.status"];
     kafka_CreateTopic := fun _ => Ok ();
     resource_Close := fun r => if bool_decide (r = RClient) then Err (New "closed") else Ok ();
     otlp_New := fun _ => Ok (); resource_New := Ok (); fiber_Listen := fun _ => Ok ();
     os_Getenv := fun _ => EmptyString |}.
Definition sample_viper : Viper :=
  {| viper_source := unit; ReadInConfig := fun _ => Ok (); viper_Unmarshal := fun _ _ => Ok default_config |}.

Lemma failed_build_witness :
  let _ := sample_infra (Err (New "refused")) in let _ := sample_viper in
  exists tr e, Build "config.yaml" [] = (tr, Err e) /\ RDB ∈ opened tr /\ RDB ∉ closed tr.
Proof.
  intros I V.
  assert (Build "config.yaml" [] = (Opened <$> connections,
    Err (wrapf "bootstrap redis" (wrapf "redis: ping" (New "refused"))))) as Hb by (vm_compute; reflexivity).
  do 2 eexists. split; [exact Hb|]. apply (failed_build_leaks "config.yaml" _ _ Hb). discriminate.
Defined.

Definition sample_container : Container := mkContainer default_config (mkLogger false false) false.

Lemma close_witness :
  let _ := sample_infra (Ok ()) in let _ := sample_viper in
  exists tr r, (init_once sample_container ≫= Close) (Opened <$> connections) = (tr, r) /\
    closed tr = close_order default_config.(cfg_Kafka) /\ r <> Ok ().
Proof.
  intros I V.
  assert (Build "config.yaml" [] = (Opened <$> connections, Ok sample_container)) as Hb
    by (vm_compute; reflexivity).
  do 2 eexists. split; [reflexivity|].
  destruct (close_closes_everything "config.yaml" sample_container _ _ _ Hb eq_refl) as (Hc & _ & Hr).
  split; [exact Hc|]. intros Hok. apply Hr in Hok. discriminate.
Defined.

Lemma topics_ensured_witness :
  let _ := sample_infra (Ok ()) in
  exists tr c new, EnsureTopics sample_container [] = (tr, Ok c) /\ created_topics tr = new /\
    "campaign.calls.dispatch" ∈ known ["campaign.calls.status"] tr /\ length new = 7%nat.
Proof.
  intros I. do 3 eexists. split; [vm_compute; reflexivity|].
  destruct (topics_ensured sample_container (mkContainer default_config (mkLogger false false) true) []
    (EnsureTopics sample_container []).1) as (ex & new & [= <-] & Hall & Hnew & _);
    [vm_compute; reflexivity|].
  split; [reflexivity|]. split; [|reflexivity].
  apply (Hall "campaign.calls.dispatch"). by left.
Defined.

Lemma exit_witness :
  let _ := sample_infra (Ok ()) in let _ := sample_viper in
  exists tr tr', main_callworker (Err (New "context canceled")) [] = (tr, Ok 1) /\
    main_api [] = (tr', Ok 0) /\ closed tr = [] /\ closed tr' ≡ₚ opened tr'.
Proof.
  intros I V.
  exists (main_callworker (Err (New "context canceled")) []).1, (main_api []).1.
  split; [vm_compute; reflexivity|]. split; [vm_compute; reflexivity|]. split.
  - apply (workers_exit_without_closing (New "context canceled") sample_container
      (Opened <$> connections) _ (Ok 1)) with (main := main_callworker);
      [vm_compute; reflexivity|by left|vm_compute; reflexivity].
  - apply (workers_exit_without_closing (New "context canceled") sample_container
      (Opened <$> connections) _ (Ok 0)); vm_compute; reflexivity.
Defined.
